(** * Context retention and status synthesis: a shallow embedding

    The development follows the JavaScript sources
    - [src/llm/context.js]   (relevance scores, context filter, personal-state times),
    - [src/llm/processor.js] (validation and repair of the completion text),
    - [src/storage/kv.js]    (status history, latest pointer, purge, templates,
                              interaction log),
    - [src/storage/activity.js] (activities and their participants),
    - [src/storage/profile.js]  (profiles and custom emojis),
    - [src/api/status.js]    (the orchestration step that reconciles personal states,
                              custom emojis in a status).

    Conventions of the embedding.
    - A JavaScript value is a [jsval]: the JSON values, [undefined], and the
      built-in objects one can reach through [Object.prototype].
    - A string is the sequence of bytes of its UTF-8 encoding.
    - A number is a rational, the value of a finite double: what the code
      computes is rounded to the nearest double, ties to even ([round_double]).
      The data of the modelled code comes out of JSON texts, which have neither
      [NaN] nor an infinity; [NaN] shows up as the result of [parseInt] and of
      an invalid [Date], an infinity as the result of [parseInt].
    - Code that can throw lives in the [result] monad; [try_catch] is
      [try { ... } catch { ... }]. The conversion of a value to a string, in a
      template literal or by [parseInt], throws on an object that has no
      method to convert it.
    - The platform functions [JSON.parse], [new Date(v).getTime()],
      [Date.prototype.toISOString], [Number.prototype.toString] and
      [String.prototype.toLowerCase], and the call of a built-in function of
      [Object.prototype], are parameters of the sections that use them. *)

From Stdlib Require Import ZArith QArith Qminmax Qround Qabs Qpower Lqa String Ascii List Bool Lia
  DecimalString DecimalPos.
From stdpp Require Import base option list sorting gmap strings.

Open Scope string_scope.

(** ** JavaScript values *)

#[warnings="-register-all"]
Inductive jsval : Type :=
| JUndef
| JNull
| JBool (b : bool)
| JNum (q : Q)
| JStr (s : string)
| JArr (elems : list jsval)
| JObj (fields : list (string * jsval))
| JNative (name : string).

Inductive exn : Type :=
| TypeError (msg : string)
| Error (msg : string).

Inductive result (A : Type) : Type :=
| Ok (a : A)
| Throw (e : exn).

Arguments Ok {A} a.
Arguments Throw {A} e.

#[global] Instance result_ret : MRet result := fun _ a => Ok a.
#[global] Instance result_bind : MBind result :=
  fun _ _ f m => match m with Ok a => f a | Throw e => Throw e end.

Definition try_catch {A : Type} (body : result A) (handler : exn -> result A) : result A :=
  match body with
  | Ok a => Ok a
  | Throw e => handler e
  end.

Definition truthy (v : jsval) : bool :=
  match v with
  | JUndef | JNull => false
  | JBool b => b
  | JNum q => negb (Qeq_bool q 0)
  | JStr s => negb (String.eqb s "")
  | JArr _ | JObj _ | JNative _ => true
  end.

Definition js_or (a b : jsval) : jsval := if truthy a then a else b.

Definition typeof_number (v : jsval) : bool :=
  match v with JNum _ => true | _ => false end.

Definition Array_isArray (v : jsval) : bool :=
  match v with JArr _ => true | _ => false end.

(** *** Objects: own properties in order *)

Fixpoint lookup_field (k : string) (fs : list (string * jsval)) : jsval :=
  match fs with
  | [] => JUndef
  | (k', v) :: rest => if String.eqb k k' then v else lookup_field k rest
  end.

Fixpoint set_field (k : string) (v : jsval) (fs : list (string * jsval))
  : list (string * jsval) :=
  match fs with
  | [] => [(k, v)]
  | (k', v') :: rest =>
      if String.eqb k k' then (k, v) :: rest else (k', v') :: set_field k v rest
  end.

Definition has_own (k : string) (fs : list (string * jsval)) : bool :=
  existsb (fun kv => String.eqb kv.1 k) fs.

(** [v.k] for the keys the modelled code reads (none of them is a property of
    [Object.prototype], of arrays or of strings): own property or [undefined],
    and a [TypeError] on [null] and [undefined]. *)
Definition prop (v : jsval) (k : string) : jsval :=
  match v with
  | JObj fs => lookup_field k fs
  | _ => JUndef
  end.

Definition get (v : jsval) (k : string) : result jsval :=
  match v with
  | JUndef | JNull => Throw (TypeError ("Cannot read properties of null or undefined, reading " ++ k))
  | _ => Ok (prop v k)
  end.

(** [v.k = x] in strict mode (ES modules): a [TypeError] on anything that is not
    an object. *)
Definition put (v : jsval) (k : string) (x : jsval) : result jsval :=
  match v with
  | JObj fs => Ok (JObj (set_field k x fs))
  | JArr l => Ok (JArr l)
  | JNative n => Ok (JNative n)
  | _ => Throw (TypeError ("Cannot set property " ++ k))
  end.

Definition string_of_nat (n : nat) : string :=
  NilZero.string_of_uint (Nat.to_uint n).

Definition string_of_Z (z : Z) : string :=
  NilZero.string_of_int (Z.to_int z).

Fixpoint index_from {A : Type} (i : nat) (l : list A) : list (string * A) :=
  match l with
  | [] => []
  | x :: rest => (string_of_nat i, x) :: index_from (S i) rest
  end.

Fixpoint chars_of (s : string) : list jsval :=
  match s with
  | EmptyString => []
  | String c rest => JStr (String c EmptyString) :: chars_of rest
  end.

(** The properties copied by the spread [{...v}]. *)
Definition own_props (v : jsval) : list (string * jsval) :=
  match v with
  | JObj fs => fs
  | JArr l => index_from 0 l
  | JStr s => index_from 0 (chars_of s)
  | _ => []
  end.

(** [v.map(f)], [v.filter(p)], [v.forEach(f)]: only arrays have these methods. *)
Definition array_of (method : string) (v : jsval) : result (list jsval) :=
  match v with
  | JArr l => Ok l
  | JUndef | JNull => Throw (TypeError ("Cannot read properties of null or undefined, reading " ++ method))
  | _ => Throw (TypeError (method ++ " is not a function"))
  end.

Fixpoint filterM (p : jsval -> result bool) (l : list jsval) : result (list jsval) :=
  match l with
  | [] => Ok []
  | x :: rest =>
      b ← p x;
      rest' ← filterM p rest;
      mret (if b : bool then x :: rest' else rest')
  end.

Definition array_map (v : jsval) (f : jsval -> result jsval) : result jsval :=
  l ← array_of "map" v; l' ← mapM f l; mret (JArr l').

Definition array_filter (v : jsval) (p : jsval -> result bool) : result jsval :=
  l ← array_of "filter" v; l' ← filterM p l; mret (JArr l').

(** ** Numbers

    [round_double q] is the double nearest to [q], a tie going to the one with
    the even significand: a significand of 53 bits at the binade of [q], a
    multiple of [2^-1074] below the normal range. (No number of the modelled
    code comes near [2^1024], where the nearest double is an infinity, but for
    the integers that [parseInt] reads, which are checked for it.) *)

(** The nearest integer, a tie going to the even one. *)
Definition round_half_even (x : Q) : Z :=
  let f := Qfloor x in
  match (x - inject_Z f ?= 1 # 2)%Q with
  | Lt => f
  | Gt => (f + 1)%Z
  | Eq => if Z.even f then f else (f + 1)%Z
  end.

(** For a positive [x], the [e] with [2^e <= x < 2^(e+1)]. *)
Definition binade (x : Q) : Z :=
  let e := (Z.log2 (Qnum x) - Z.log2 (Zpos (Qden x)))%Z in
  if Qle_bool (2 ^ e) x then e else (e - 1)%Z.

(** The exponent of the last bit of the doubles around a positive [x]. *)
Definition ulp_exponent (x : Q) : Z := Z.max (binade x - 52) (-1074).

Definition round_positive (x : Q) : Q :=
  (inject_Z (round_half_even (x / 2 ^ ulp_exponent x)) * 2 ^ ulp_exponent x)%Q.

Definition round_double (q : Q) : Q :=
  let x := Qabs (Qred q) in
  if Qeq_bool x 0 then 0%Q
  else Qred (if Qle_bool 0 q then round_positive x else - round_positive x).

(** The doubles: a significand of at most 53 bits, an exponent that is not
    below that of the smallest one. *)
Definition representable (f : Q) : Prop :=
  ∃ m e, (-1074 ≤ e)%Z ∧ (Z.abs m ≤ 2 ^ 53)%Z ∧ (f == inject_Z m * 2 ^ e)%Q.

(** [a - b] and [a / b] on doubles. *)
Definition Number_sub (a b : Q) : Q := round_double (a - b).
Definition Number_div (a b : Q) : Q := round_double (a / b).

(** ** Strings *)

Definition code (c : ascii) : N := N_of_ascii c.

Definition drop_chars (n : nat) (s : string) : string :=
  String.substring n (String.length s - n) s.

(** Length in bytes of the white space character or line terminator at the head
    of [s] ([\s] of regular expressions, also what [trim] and [parseInt] skip):
    TAB LF VT FF CR SP, U+00A0, U+1680, U+2000..U+200A, U+2028, U+2029, U+202F,
    U+205F, U+3000 and U+FEFF; [0] when there is none. *)
Definition ws_len (s : string) : nat :=
  match s with
  | EmptyString => 0
  | String a r =>
      let x := code a in
      if ((9 <=? x) && (x <=? 13) || (x =? 32))%N then 1
      else
        match r with
        | EmptyString => 0
        | String b r' =>
            let y := code b in
            if ((x =? 194) && (y =? 160))%N then 2
            else
              match r' with
              | EmptyString => 0
              | String c _ =>
                  let z := code c in
                  if ((x =? 225) && (y =? 154) && (z =? 128)
                      || (x =? 226) && (y =? 128)
                         && ((128 <=? z) && (z <=? 138) || (z =? 168) || (z =? 169) || (z =? 175))
                      || (x =? 226) && (y =? 129) && (z =? 159)
                      || (x =? 227) && (y =? 128) && (z =? 128)
                      || (x =? 239) && (y =? 187) && (z =? 191))%N
                  then 3 else 0
              end
        end
  end.

Fixpoint trimStart_fuel (fuel : nat) (s : string) : string :=
  match fuel with
  | O => s
  | S fuel' =>
      match ws_len s with
      | O => s
      | n => trimStart_fuel fuel' (drop_chars n s)
      end
  end.

Definition trimStart (s : string) : string := trimStart_fuel (String.length s) s.

Fixpoint trimEnd (s : string) : string :=
  match s with
  | EmptyString => EmptyString
  | String c rest =>
      if String.eqb (trimStart s) "" then "" else String c (trimEnd rest)
  end.

Definition trim (s : string) : string := trimEnd (trimStart s).

Definition lower_ascii (c : ascii) : ascii :=
  let x := code c in
  if ((65 <=? x) && (x <=? 90))%N then ascii_of_N (x + 32) else c.

(** [toLowerCase]: ASCII letters, and the two characters whose lower case
    contains an ASCII letter, U+0130 (to [i] U+0307) and U+212A (to [k]). Other
    letters outside ASCII are left as they are; no comparison of the modelled
    code with its ASCII keywords can tell. *)
Fixpoint toLowerCase (s : string) : string :=
  match s with
  | EmptyString => EmptyString
  | String a r =>
      match r with
      | String b r' =>
          if ((code a =? 196) && (code b =? 176))%N
          then String "i" (String (ascii_of_N 204) (String (ascii_of_N 135) (toLowerCase r')))
          else
            match r' with
            | String c r'' =>
                if ((code a =? 226) && (code b =? 132) && (code c =? 170))%N
                then String "k" (toLowerCase r'')
                else String (lower_ascii a) (toLowerCase r)
            | EmptyString => String (lower_ascii a) (toLowerCase r)
            end
      | EmptyString => String (lower_ascii a) (toLowerCase r)
      end
  end.

Fixpoint includes (s term : string) : bool :=
  String.prefix term s ||
  match s with
  | EmptyString => false
  | String _ rest => includes rest term
  end.

Fixpoint join (sep : string) (l : list string) : string :=
  match l with
  | [] => ""
  | [x] => x
  | x :: rest => x ++ sep ++ join sep rest
  end.

Definition is_digit (c : ascii) : bool := ((48 <=? code c) && (code c <=? 57))%N.

Fixpoint digits_value (acc : option Z) (s : string) : option Z :=
  match s with
  | EmptyString => acc
  | String c rest =>
      if is_digit c
      then digits_value (Some (10 * default 0%Z acc + Z.of_N (code c) - 48)%Z) rest
      else acc
  end.

(** The Number that [parseInt] returns: [NaN], a double or an infinity. *)
Inductive parsed : Type :=
| PNaN
| PNum (q : Q)
| PInfinity (negative : bool).

(** The Number of an integer: the nearest double, an infinity from [2^1024]
    on. *)
Definition Number_of_integer (z : Z) : parsed :=
  let q := round_double (inject_Z z) in
  if Qle_bool (inject_Z (2 ^ 1024)) (Qabs q) then PInfinity (z <? 0)%Z else PNum q.

(** [parseInt(s, 10)] on a string: leading white space, an optional sign, then
    the longest run of decimal digits, [NaN] when there is none. (With more
    than twenty digits the standard leaves the last bit of the result to the
    implementation; this is the result for the digits as they stand.) *)
Definition parseInt_string (s : string) : parsed :=
  let mathInt :=
    match trimStart s with
    | String "-" rest => Z.opp <$> digits_value None rest
    | String "+" rest => digits_value None rest
    | rest => digits_value None rest
    end in
  match mathInt with
  | Some z => Number_of_integer z
  | None => PNaN
  end.

(** [a < b] on such Numbers; a comparison with [NaN] is false. *)
Definition parsed_lt (a b : parsed) : bool :=
  match a, b with
  | PNum x, PNum y => negb (Qle_bool y x)
  | PNum _, PInfinity negative => negb negative
  | PInfinity negative, PNum _ => negative
  | PInfinity negative, PInfinity negative' => negative && negb negative'
  | _, _ => false
  end.

Section ToString.

(** [Number_toString q] is [q.toString()]. [Native_call n O] is the outcome of
    [f.call(O)] for the built-in function [f] that [Object.prototype] has
    under the name [n]. *)
Variable Number_toString : Q -> string.
Variable Native_call : string -> jsval -> result jsval.

Definition is_primitive (v : jsval) : bool :=
  match v with JArr _ | JObj _ | JNative _ => false | _ => true end.

(** The string of a primitive value. *)
Definition primitive_ToString (v : jsval) : string :=
  match v with
  | JUndef => "undefined"
  | JNull => "null"
  | JBool true => "true"
  | JBool false => "false"
  | JNum q => Number_toString q
  | JStr s => s
  | _ => ""
  end.

(** What the method [name] ([toString] or [valueOf]) of a plain object
    returns when the object is converted; [None] when there is nothing to
    call. An own property hides the method of [Object.prototype]: a JSON value
    is not callable, and of the built-ins all are functions but
    [Object.prototype] itself. The inherited [toString] answers
    ["[object Object]"], the inherited [valueOf] the object. *)
Definition conversion_method (name : string) (fs : list (string * jsval))
  : result (option jsval) :=
  if has_own name fs
  then
    match lookup_field name fs with
    | JNative n =>
        if String.eqb n "__proto__" then Ok None
        else r ← Native_call n (JObj fs); Ok (Some r)
    | _ => Ok None
    end
  else if String.eqb name "toString" then Ok (Some (JStr "[object Object]"))
  else Ok (Some (JObj fs)).

Definition primitive_of (r : option jsval) : option jsval :=
  match r with
  | Some p => if is_primitive p then Some p else None
  | None => None
  end.

(** The conversion of a plain object to a primitive: the two methods in the
    order of the hint, the first primitive that one of them returns, and a
    [TypeError] when none does. *)
Definition OrdinaryToPrimitive (hint_string : bool) (fs : list (string * jsval))
  : result jsval :=
  let first := if hint_string then "toString" else "valueOf" in
  let second := if hint_string then "valueOf" else "toString" in
  r ← conversion_method first fs;
  match primitive_of r with
  | Some p => Ok p
  | None =>
      r ← conversion_method second fs;
      match primitive_of r with
      | Some p => Ok p
      | None => Throw (TypeError "Cannot convert object to primitive value")
      end
  end.

(** The name of the built-in function that [Object.prototype] has under the
    name [n]. *)
Definition native_name (n : string) : string :=
  if String.eqb n "constructor" then "Object" else n.

(** The conversion to a string, of a template literal and of [parseInt]. An
    array is joined, a function gives its source text. *)
Fixpoint ToString (v : jsval) : result string :=
  match v with
  | JArr l =>
      strings ←
        (fix elements (l : list jsval) : result (list string) :=
           match l with
           | [] => Ok []
           | x :: rest =>
               s ← match x with
                   | JUndef | JNull => Ok ""
                   | _ => ToString x
                   end;
               ss ← elements rest;
               Ok (s :: ss)
           end) l;
      Ok (join "," strings)
  | JObj fs => p ← OrdinaryToPrimitive true fs; Ok (primitive_ToString p)
  | JNative n =>
      Ok (if String.eqb n "__proto__" then "[object Object]"
          else "function " ++ native_name n ++ "() { [native code] }")
  | _ => Ok (primitive_ToString v)
  end.

(** The conversion to a primitive without a hint, of [new Date(v)]: [valueOf]
    comes first, which gives an array or a function back as it is. *)
Definition ToPrimitive (v : jsval) : result jsval :=
  match v with
  | JObj fs => OrdinaryToPrimitive false fs
  | JArr _ | JNative _ => s ← ToString v; Ok (JStr s)
  | _ => Ok v
  end.

Definition parseInt (v : jsval) : result parsed :=
  s ← ToString v; Ok (parseInt_string s).

End ToString.

(** ** src/llm/context.js *)

Section Context.

(** [Date_ms v] is [new Date(v).getTime()] for a primitive [v], [None] for an
    invalid date ([NaN]); [now] is the time value of [new Date()]. *)
Variable Date_ms : jsval -> option Z.
Variable Number_toString : Q -> string.
Variable Native_call : string -> jsval -> result jsval.
Variable now : Z.

(** [new Date(v).getTime()]: an object is converted to a primitive first. *)
Definition new_Date (v : jsval) : result (option Z) :=
  p ← ToPrimitive Number_toString Native_call v; Ok (Date_ms p).

Definition Math_max (a b : Q) : Q := Qred (Qmax a b).

(** The object literal [relevanceFactors], as its own properties. *)
Definition relevanceFactors (hoursDifference : Q) : list (string * Q) :=
  [ ("physical", Math_max 0 (Number_sub 1 (Number_div hoursDifference 6)));
    ("emotional", Math_max 0 (Number_sub 1 (Number_div hoursDifference 12)));
    ("activity", Math_max 0 (Number_sub 1 (Number_div hoursDifference 36)));
    ("event", Math_max 0 (Number_sub 1 (Number_div hoursDifference 24)));
    ("state", Math_max 0 (Number_sub 1 (Number_div hoursDifference 12)));
    ("need", Math_max 0 (Number_sub 1 (Number_div hoursDifference 8)));
    ("achievement", Math_max 0 (Number_sub 1 (Number_div hoursDifference 48)));
    ("default", Math_max 0 (Number_sub 1 (Number_div hoursDifference 18))) ].

Fixpoint assoc {A : Type} (k : string) (l : list (string * A)) : option A :=
  match l with
  | [] => None
  | (k', v) :: rest => if String.eqb k k' then Some v else assoc k rest
  end.

(** [relevanceFactors[type]]: an own property, or what the key finds on
    [Object.prototype] (of its properties only [constructor] and [__proto__]
    are spelled in lower case), or [undefined]. *)
Definition relevanceFactors_get (hoursDifference : Q) (type : string) : jsval :=
  match assoc type (relevanceFactors hoursDifference) with
  | Some q => JNum q
  | None =>
      if String.eqb type "constructor" || String.eqb type "__proto__"
      then JNative type
      else JUndef
  end.

Definition string_of (v : jsval) : string :=
  match v with JStr s => s | _ => "" end.

(** [v?.toLowerCase()] *)
Definition toLowerCase_opt (v : jsval) : result jsval :=
  match v with
  | JUndef | JNull => Ok JUndef
  | JStr s => Ok (JStr (toLowerCase s))
  | _ => Throw (TypeError "toLowerCase is not a function")
  end.

Definition some_includes (terms : list string) (nameLower : string) : bool :=
  existsb (fun term => includes nameLower term) terms.

Definition metric_type (nameLower : string) : string :=
  if some_includes ["energy"; "hunger"; "sleep"; "tired"; "physical"] nameLower
  then "physical"
  else if some_includes ["focus"; "mood"; "stress"; "feeling"] nameLower
  then "emotional"
  else if some_includes ["project"; "work"; "task"; "progress"; "coding"; "writing"] nameLower
  then "activity"
  else "default".

Definition metric_with_relevance (h : Q) (metric : jsval) : result jsval :=
  name ← get metric "name";
  lowered ← toLowerCase_opt name;
  let nameLower := string_of (js_or lowered (JStr "")) in
  let type := metric_type nameLower in
  mret (JObj (set_field "relevance_score"
                (js_or (relevanceFactors_get h type) (relevanceFactors_get h "default"))
                (own_props metric))).

Definition highlight_with_relevance (h : Q) (highlight : jsval) : result jsval :=
  ty ← get highlight "type";
  lowered ← toLowerCase_opt ty;
  let type := string_of (js_or lowered (JStr "default")) in
  mret (JObj (set_field "relevance_score"
                (js_or (relevanceFactors_get h type) (relevanceFactors_get h "default"))
                (own_props highlight))).

Definition context_with_relevance (h : Q) (context : jsval) : result jsval :=
  mret (JObj (set_field "relevance_score" (relevanceFactors_get h "activity")
                (own_props context))).

(** [Math.abs(currentTime - previousTime) / (1000 * 60 * 60)] on the time
    values of the two dates. *)
Definition hoursDifference_of (currentTime previousTime : Z) : Q :=
  Number_div (Qabs (Number_sub (inject_Z currentTime) (inject_Z previousTime)))
             (1000 * 60 * 60).

Definition calculateContextRelevance (previousStatus : jsval) : result jsval :=
  if negb (truthy previousStatus) then Ok JNull else
  timestamp ← get previousStatus "timestamp";
  if negb (truthy timestamp) then Ok JNull else
  processed_status ← get previousStatus "processed_status";
  if negb (truthy processed_status) then Ok JNull else
  try_catch
    (previousTime ← new_Date timestamp;
     match previousTime with
     | None => Ok previousStatus
     | Some previousTime =>
         let hoursDifference := hoursDifference_of now previousTime in
         metrics ← get processed_status "metrics";
         metricsWithRelevance ←
           array_map (js_or metrics (JArr [])) (metric_with_relevance hoursDifference);
         highlights ← get processed_status "highlights";
         highlightsWithRelevance ←
           array_map (js_or highlights (JArr [])) (highlight_with_relevance hoursDifference);
         persistent_context ← get processed_status "persistent_context";
         persistentContextWithRelevance ←
           array_map (js_or persistent_context (JArr []))
                     (context_with_relevance hoursDifference);
         mret (JObj (set_field "processed_status"
                       (JObj (set_field "persistent_context" persistentContextWithRelevance
                             (set_field "highlights" highlightsWithRelevance
                             (set_field "metrics" metricsWithRelevance
                                        (own_props processed_status)))))
                       (own_props previousStatus)))
     end)
    (fun _ => Ok previousStatus).

Definition has_relevance (threshold : Q) (m : jsval) : result bool :=
  score ← get m "relevance_score";
  mret (match score with
        | JNum q => Qle_bool threshold q
        | _ => false
        end).

(** The literal [0.3]. *)
Definition default_threshold : Q := round_double (3 # 10).

(** [typeof threshold === 'number' && 0 <= threshold && threshold <= 1], after
    the default parameter [threshold = 0.3] has stood in for an argument that
    is [undefined]. *)
Definition threshold_in_range (threshold : jsval) : bool :=
  match threshold with
  | JUndef => true
  | JNum t => Qle_bool 0 t && Qle_bool t 1
  | _ => false
  end.

(** The threshold that the filters compare with. *)
Definition threshold_of (threshold : jsval) : Q :=
  match threshold with
  | JNum t => if Qle_bool 0 t && Qle_bool t 1 then t else default_threshold
  | _ => default_threshold
  end.

Definition filterRelevantContext (contextWithRelevance threshold : jsval) : result jsval :=
  if negb (truthy contextWithRelevance) then Ok JNull else
  processed_status ← get contextWithRelevance "processed_status";
  if negb (truthy processed_status) then Ok JNull else
  (* the warning formats the rejected threshold, outside the [try] *)
  _ ← (if threshold_in_range threshold then Ok ""
       else ToString Number_toString Native_call threshold);
  let threshold := threshold_of threshold in
  try_catch
    (metrics ← get processed_status "metrics";
     filteredMetrics ← array_filter (js_or metrics (JArr [])) (has_relevance threshold);
     highlights ← get processed_status "highlights";
     filteredHighlights ← array_filter (js_or highlights (JArr [])) (has_relevance threshold);
     persistent_context ← get processed_status "persistent_context";
     filteredPersistentContext ←
       array_filter (js_or persistent_context (JArr [])) (has_relevance threshold);
     mret (JObj (set_field "processed_status"
                   (JObj (set_field "persistent_context" filteredPersistentContext
                         (set_field "highlights" filteredHighlights
                         (set_field "metrics" filteredMetrics
                                    (own_props processed_status)))))
                   (own_props contextWithRelevance))))
    (fun _ => Ok contextWithRelevance).

(** *** Personal state time tracking *)

(** [Math.round(a / b)] for a positive [b]: the nearest integer, a tie going up. *)
Definition Math_round_div (a b : Z) : Z := (2 * a + b) / (2 * b).

Definition getTimeSinceUpdate (previousTimestampISO : jsval) : string :=
  match new_Date previousTimestampISO with
  | Throw _ => "unknown"
  | Ok None => "NaNd"
  | Ok (Some prevDate) =>
      let diffMinutes := Math_round_div (now - prevDate) (1000 * 60) in
      if (diffMinutes <? 1)%Z then "now"
      else if (diffMinutes <? 60)%Z then string_of_Z diffMinutes ++ "m"
      else
        let diffHours := Math_round_div diffMinutes 60 in
        if (diffHours <? 24)%Z then string_of_Z diffHours ++ "h"
        else
          let diffDays := Math_round_div diffHours 24 in
          string_of_Z diffDays ++ "d"
  end.

Definition strict_eq_string (v : jsval) (s : string) : bool :=
  match v with JStr s' => String.eqb s' s | _ => false end.

Definition updateTimeElapsed (prevTimeStr additionalTimeStr : jsval) : result jsval :=
  (* the warning formats both arguments *)
  prev ← ToString Number_toString Native_call prevTimeStr;
  additional ← ToString Number_toString Native_call additionalTimeStr;
  if truthy prevTimeStr && negb (strict_eq_string prevTimeStr "just now")
  then
    prev ← ToString Number_toString Native_call prevTimeStr;
    additional ← ToString Number_toString Native_call additionalTimeStr;
    Ok (JStr (prev ++ " + " ++ additional))
  else Ok (js_or prevTimeStr (js_or additionalTimeStr (JStr "unknown"))).

(** Keys of a [Map] are compared by SameValueZero; two objects that come from
    two different places are never the same object. *)
Definition same_value_zero (a b : jsval) : bool :=
  match a, b with
  | JUndef, JUndef | JNull, JNull => true
  | JBool x, JBool y => Bool.eqb x y
  | JNum x, JNum y => Qeq_bool x y
  | JStr x, JStr y => String.eqb x y
  | _, _ => false
  end.

Fixpoint Map_get (k : jsval) (m : list (jsval * jsval)) : option jsval :=
  match m with
  | [] => None
  | (k', v) :: rest => if same_value_zero k k' then Some v else Map_get k rest
  end.

Fixpoint Map_set (k v : jsval) (m : list (jsval * jsval)) : list (jsval * jsval) :=
  match m with
  | [] => [(k, v)]
  | (k', v') :: rest =>
      if same_value_zero k k' then (k', v) :: rest else (k', v') :: Map_set k v rest
  end.

Definition prevStateMap_of (previousStates : list jsval) : list (jsval * jsval) :=
  fold_left (fun m state =>
               if truthy state && truthy (prop state "name")
               then Map_set (prop state "name") state m
               else m)
            previousStates [].

Definition isNaN (n : parsed) : bool :=
  match n with PNaN => true | _ => false end.

Definition trend_of (currentLevel prevLevel : parsed) : string :=
  if negb (isNaN currentLevel) && negb (isNaN prevLevel)
  then
    if parsed_lt prevLevel currentLevel then "increasing"
    else if parsed_lt currentLevel prevLevel then "decreasing"
    else "stable"
  else "stable".

Definition update_state (prevStateMap : list (jsval * jsval)) (timeSinceUpdateStr : jsval)
    (currentState : jsval) : result jsval :=
  if negb (truthy currentState) || negb (truthy (prop currentState "name"))
  then Ok currentState
  else
    let updatedState := own_props currentState in
    match Map_get (prop currentState "name") prevStateMap with
    | None => Ok (JObj (set_field "trend" (JStr "new") updatedState))
    | Some prevState =>
        prevLevel ← parseInt Number_toString Native_call (prop prevState "level");
        currentLevel ← parseInt Number_toString Native_call (prop currentState "level");
        let updatedState := set_field "trend" (JStr (trend_of currentLevel prevLevel)) updatedState in
        if negb (truthy (lookup_field "time_since_last" updatedState))
           && truthy (prop prevState "time_since_last")
           && truthy timeSinceUpdateStr
        then
          time ← updateTimeElapsed (prop prevState "time_since_last") timeSinceUpdateStr;
          let updatedState := set_field "time_since_last" time updatedState in
          (* the log line formats the name and the time *)
          _ ← ToString Number_toString Native_call (prop currentState "name");
          _ ← ToString Number_toString Native_call time;
          Ok (JObj updatedState)
        else if truthy (lookup_field "time_since_last" updatedState)
        then
          _ ← ToString Number_toString Native_call (prop currentState "name");
          _ ← ToString Number_toString Native_call (lookup_field "time_since_last" updatedState);
          Ok (JObj updatedState)
        else
          _ ← ToString Number_toString Native_call (prop currentState "name");
          Ok (JObj updatedState)
    end.

Definition array_or_empty (v : jsval) : list jsval :=
  match v with JArr l => l | _ => [] end.

Definition updatePersonalStateTimes (previousStates currentStates previousTimestampISO : jsval)
  : result jsval :=
  let previousStates := array_or_empty previousStates in
  let currentStates := array_or_empty currentStates in
  let prevStateMap := prevStateMap_of previousStates in
  let timeSinceUpdateStr :=
    if truthy previousTimestampISO
    then JStr (getTimeSinceUpdate previousTimestampISO)
    else JNull in
  updated ← mapM (update_state prevStateMap timeSinceUpdateStr) currentStates;
  Ok (JArr updated).

End Context.

(** ** src/llm/processor.js *)

Definition createDefaultStatus (text reason : string) : jsval :=
  JObj
    [ ("overall_status", JStr "Analysis Failed");
      ("mood_emoji", JStr "‚ö†Ô∏è");
      ("visual_theme", JStr "default");
      ("accent_color", JStr "#FEE75C");
      ("metrics",
        JArr [ JObj [ ("name", JStr "Processing Status");
                      ("value", JStr "Failed");
                      ("value_rating", JNum 1);
                      ("trend", JStr "new");
                      ("icon", JStr "‚öôÔ∏è") ] ]);
      ("highlights",
        JArr [ JObj [ ("type", JStr "state");
                      ("description", JStr ("Failed to analyze status update. Reason: " ++ reason));
                      ("timeframe", JStr "current");
                      ("is_new", JBool true) ] ]);
      ("persistent_context", JArr []);
      ("narrative_summary", JStr ("Analysis failed. " ++ reason));
      ("errors", JArr [ JStr ("LLM Processing Error: " ++ reason) ]);
      ("personal_states", JArr []) ].

(** *** The regular expression [/```json\s*([\s\S]*?)\s*```|(\{[\s\S]*\})/] *)

(** [\s*```] matches here. White space is no backquote, so the greedy [\s*]
    never has to give a character back. *)
Definition closes_here (s : string) : bool := String.prefix "```" (trimStart s).

(** The lazy group [([\s\S]*?)] followed by [\s*```]: the shortest prefix after
    which the closing fence matches. *)
Fixpoint lazy_body (s : string) : option string :=
  if closes_here s then Some ""
  else
    match s with
    | EmptyString => None
    | String c rest => String c <$> lazy_body rest
    end.

(** First alternative at the head of [s]; the result is group 1. *)
Definition match_fenced (s : string) : option string :=
  if String.prefix "```json" s then lazy_body (trimStart (drop_chars 7 s)) else None.

(** The greedy [[\s\S]*\}]: everything up to the last closing brace. *)
Fixpoint upto_last_brace (s : string) : option string :=
  match s with
  | EmptyString => None
  | String c rest =>
      match upto_last_brace rest with
      | Some g => Some (String c g)
      | None => if Ascii.eqb c "}" then Some "}" else None
      end
  end.

(** Second alternative at the head of [s]; the result is group 2. *)
Definition match_braced (s : string) : option string :=
  match s with
  | String c rest => if Ascii.eqb c "{" then String c <$> upto_last_brace rest else None
  | EmptyString => None
  end.

(** [s.match(re)]: the leftmost position where an alternative matches, the first
    alternative tried first; the result is [(jsonMatch[1], jsonMatch[2])], a group
    that took no part being [undefined]. *)
Fixpoint String_match (s : string) : option (jsval * jsval) :=
  match match_fenced s with
  | Some g => Some (JStr g, JUndef)
  | None =>
      match match_braced s with
      | Some g => Some (JUndef, JStr g)
      | None =>
          match s with
          | EmptyString => None
          | String _ rest => String_match rest
          end
      end
  end.

Section Processor.

(** [JSON_parse s] is [JSON.parse(s)], [None] when it throws a [SyntaxError]. *)
Variable JSON_parse : string -> option jsval.

Definition validateAndRepairStatusJSON (jsonString : jsval) (originalText : string) : jsval :=
  match jsonString with
  | JStr s =>
      if String.eqb (trim s) ""
      then createDefaultStatus originalText "LLM returned empty response."
      else
        match JSON_parse s with
        | Some parsed => parsed
        | None =>
            let no_json :=
              createDefaultStatus originalText "LLM response did not contain valid JSON." in
            match String_match s with
            | Some (group1, group2) =>
                let extractedJson := js_or group1 group2 in
                if truthy extractedJson
                then
                  match JSON_parse (string_of extractedJson) with
                  | Some repairedParsed => repairedParsed
                  | None => createDefaultStatus originalText "LLM response was malformed JSON."
                  end
                else no_json
            | None => no_json
            end
        end
  | _ => createDefaultStatus originalText "LLM returned empty response."
  end.

(** [processWithLLM] after the call of the completion service, whose outcome is
    [completion]: the text it returned or the error it threw. *)
Definition processWithLLM (completion : result jsval) (currentText : string) : jsval :=
  match completion with
  | Ok resultJsonString => validateAndRepairStatusJSON resultJsonString currentText
  | Throw (TypeError message) | Throw (Error message) =>
      createDefaultStatus currentText ("LLM Error: " ++ message)
  end.

End Processor.

(** ** src/api/status.js: step 4b of [processStatusUpdate] *)

Section Status.

Variable Date_ms : jsval -> option Z.
Variable Number_toString : Q -> string.
Variable Native_call : string -> jsval -> result jsval.
Variable now : Z.



End Status.

(** ** src/storage/kv.js *)

(** [JSON.parse(JSON.stringify(v))]: what a value is after it went through the
    store. A property whose value is [undefined] or a function is left out, such
    an element of an array becomes [null]; [None] is the [undefined] that
    [JSON.stringify] returns for such a value itself. *)
Fixpoint JSON_clone (v : jsval) : option jsval :=
  match v with
  | JUndef => None
  | JNative n => if String.eqb n "__proto__" then Some (JObj []) else None
  | JArr l => Some (JArr (List.map (fun x => default JNull (JSON_clone x)) l))
  | JObj fs =>
      Some (JObj ((fix clone_fields (fs : list (string * jsval)) : list (string * jsval) :=
                     match fs with
                     | [] => []
                     | (k, x) :: rest =>
                         match JSON_clone x with
                         | Some x' => (k, x') :: clone_fields rest
                         | None => clone_fields rest
                         end
                     end) fs))
  | _ => Some v
  end.

(** The KV namespace binding: the JSON texts under their keys, each kept as the
    value it parses to, and the calls that the service fails. A call that fails
    rejects (its [await] throws) and changes nothing. *)
Inductive kv_op : Type :=
| KvGet (key : string)
| KvPut (key : string)
| KvDelete (key : string)
| KvList (prefix : string).

Record KVNamespace : Type := {
  kv_data : gmap string jsval;
  kv_fails : kv_op -> bool
}.

(** [kv_fails] tells the operations that fail while one function of this module
    runs; the next call finds the data under failures of its own. *)
Definition with_failures (fails : kv_op -> bool) (kvStore : KVNamespace) : KVNamespace :=
  {| kv_data := kv_data kvStore; kv_fails := fails |}.

(** [kvStore.get(key, { type: 'json' })]: [null] for a key that is not there. *)
Definition kv_get (key : string) (kvStore : KVNamespace) : result jsval :=
  if kv_fails kvStore (KvGet key) then Throw (Error ("KV GET failed: " ++ key))
  else Ok (default JNull (kv_data kvStore !! key)).

(** [kvStore.put(key, JSON.stringify(v))] *)
Definition kv_put (key : string) (v : jsval) (kvStore : KVNamespace) : result KVNamespace :=
  if kv_fails kvStore (KvPut key) then Throw (Error ("KV PUT failed: " ++ key))
  else Ok {| kv_data := <[key := default JNull (JSON_clone v)]> (kv_data kvStore);
             kv_fails := kv_fails kvStore |}.

(** [kvStore.delete(key)] *)
Definition kv_delete (key : string) (kvStore : KVNamespace) : result KVNamespace :=
  if kv_fails kvStore (KvDelete key) then Throw (Error ("KV DELETE failed: " ++ key))
  else Ok {| kv_data := delete key (kv_data kvStore); kv_fails := kv_fails kvStore |}.

Record list_result : Type := ListResult {
  keys : list string;
  list_complete : bool;
  cursor : list string
}.

Definition string_le (a b : string) : Prop := String.leb a b = true.

#[global] Instance string_le_dec : RelDecision string_le.
Proof. intros a b. unfold string_le. apply _. Defined.

Definition kv_keys (kvStore : KVNamespace) : list string :=
  merge_sort string_le (fst <$> map_to_list (kv_data kvStore)).

Definition unlisted (prefix : string) (cursor : list string) (k : string) : bool :=
  String.prefix prefix k && negb (bool_decide (k ∈ cursor)).

(** [kvStore.list({ prefix, cursor, limit })]: the next [limit] keys with the
    prefix, in lexicographic order. The cursor of the service is opaque; here it
    is the keys already listed ([undefined] is the empty list). *)
Definition kv_list (prefix : string) (cursor : list string) (limit : nat)
    (kvStore : KVNamespace) : result list_result :=
  if kv_fails kvStore (KvList prefix) then Throw (Error ("KV LIST failed: " ++ prefix))
  else
    let remaining := List.filter (unlisted prefix cursor) (kv_keys kvStore) in
    Ok {| keys := take limit remaining;
          list_complete := (length remaining <=? limit)%nat;
          cursor := (cursor ++ take limit remaining)%list |}.

Section Kv.

Variable Date_toISOString : Z -> string.
Variable Number_toString : Q -> string.
Variable Native_call : string -> jsval -> result jsval.

(** [rawInput] and [processedStatus] are the caller's values; [now] is the time
    value of [new Date()]; [historyLimit] is [None] when the argument is left out
    (the default parameter is 20). The result is the returned value and the
    namespace after the call; a [Throw] branch is the [catch], which returns
    [null]. *)
Definition storeUserStatus (userId : string) (rawInput processedStatus : jsval)
    (kvStore : KVNamespace) (historyLimit : option Z) (now : Z) : jsval * KVNamespace :=
  let historyLimit := default 20%Z historyLimit in
  if negb (truthy (JStr userId)) || negb (truthy processedStatus)
  then (JNull, kvStore)
  else
    let historyKey := "user:" ++ userId ++ ":status_history" in
    let latestKey := "user:" ++ userId ++ ":latest_status" in
    match kv_get historyKey kvStore with
    | Throw _ => (JNull, kvStore)
    | Ok historyData =>
        let history :=
          if truthy historyData && Array_isArray (prop historyData "history")
          then array_or_empty (prop historyData "history")
          else [] in
        let newStatusEntry :=
          JObj [ ("timestamp", JStr (Date_toISOString now));
                 ("raw_input", rawInput);
                 ("processed_status", processedStatus) ] in
        let history := (history ++ [newStatusEntry])%list in
        let history :=
          if (historyLimit >? 0)%Z && (Z.of_nat (length history) >? historyLimit)%Z
          then drop (Z.to_nat (Z.of_nat (length history) - historyLimit)) history
          else history in
        match kv_put historyKey (JObj [("history", JArr history)]) kvStore with
        | Throw _ => (JNull, kvStore)
        | Ok kvStore1 =>
            match kv_put latestKey newStatusEntry kvStore1 with
            | Throw _ => (JNull, kvStore1)
            | Ok kvStore2 => (newStatusEntry, kvStore2)
            end
        end
    end.

Definition getUserStatusHistory (userId : string) (kvStore : KVNamespace) (limit : Z)
  : list jsval :=
  if negb (truthy (JStr userId)) then []
  else
    let key := "user:" ++ userId ++ ":status_history" in
    match kv_get key kvStore with
    | Throw _ => []
    | Ok data =>
        if negb (truthy data) || negb (Array_isArray (prop data "history")) then []
        else
          let history := array_or_empty (prop data "history") in
          if (limit >? 0)%Z && (Z.of_nat (length history) >? limit)%Z
          then drop (Z.to_nat (Z.of_nat (length history) - limit)) history
          else history
    end.

Definition getLatestUserStatus (userId : string) (kvStore : KVNamespace) : jsval :=
  if negb (truthy (JStr userId)) then JNull
  else
    let key := "user:" ++ userId ++ ":latest_status" in
    match kv_get key kvStore with
    | Throw _ => JNull
    | Ok data =>
        if truthy data
        then
          (* the log line formats the timestamp, inside the [try] *)
          match ToString Number_toString Native_call (prop data "timestamp") with
          | Ok _ => data
          | Throw _ => JNull
          end
        else JNull
    end.

End Kv.

(** *** [purgeUserData] *)

Definition message (e : exn) : string :=
  match e with TypeError msg | Error msg => msg end.

(** [activityData && activityData.creator === userId], inside the [try] of the
    first loop: a [get] that fails is caught and the key is passed over. *)
Definition created_by (userId : string) (kvStore : KVNamespace) (key : string) : bool :=
  match kv_get key kvStore with
  | Ok activityData =>
      truthy activityData && strict_eq_string (prop activityData "creator") userId
  | Throw _ => false
  end.

(** The loops run on fuel; [None] is a loop that has not come to its end when
    the fuel is used up. An exception leaves the loop with the namespace as it
    then is. *)
Fixpoint collect_activities (fuel : nat) (userId : string) (kvStore : KVNamespace)
    (activityCursor : list string) (activityKeysToDelete : list string)
  : option (result (list string)) :=
  match fuel with
  | O => None
  | S fuel' =>
      match kv_list "activity:" activityCursor 100 kvStore with
      | Throw e => Some (Throw e)
      | Ok listResult =>
          let activityKeysToDelete :=
            (activityKeysToDelete
             ++ List.filter (created_by userId kvStore) (keys listResult))%list in
          if list_complete listResult
          then Some (Ok activityKeysToDelete)
          else collect_activities fuel' userId kvStore (cursor listResult)
                                  activityKeysToDelete
      end
  end.

(** The keys of a page, deleted one by one; a [delete] that fails is caught and
    not counted. *)
Definition delete_each (keysToDelete : list string) (st : KVNamespace * Z) : KVNamespace * Z :=
  fold_left (fun '(kvStore, deletedCount) keyToDelete =>
               match kv_delete keyToDelete kvStore with
               | Ok kvStore' => (kvStore', (deletedCount + 1)%Z)
               | Throw _ => (kvStore, deletedCount)
               end)
            keysToDelete st.

Fixpoint purge_prefix (fuel : nat) (prefix : string) (cursor0 : list string)
    (st : KVNamespace * Z) : option (result Z * KVNamespace) :=
  match fuel with
  | O => None
  | S fuel' =>
      match kv_list prefix cursor0 100 (fst st) with
      | Throw e => Some (Throw e, fst st)
      | Ok listResult =>
          let st := delete_each (keys listResult) st in
          if list_complete listResult
          then Some (Ok (snd st), fst st)
          else purge_prefix fuel' prefix (cursor listResult) st
      end
  end.

Fixpoint purge_prefixes (fuel : nat) (keyPrefixes : list string) (st : KVNamespace * Z)
  : option (result Z * KVNamespace) :=
  match keyPrefixes with
  | [] => Some (Ok (snd st), fst st)
  | prefix :: rest =>
      match purge_prefix fuel prefix [] st with
      | None => None
      | Some (Throw e, kvStore) => Some (Throw e, kvStore)
      | Some (Ok deletedCount, kvStore) => purge_prefixes fuel rest (kvStore, deletedCount)
      end
  end.

(** The result is the outcome, a count or the exception, and the namespace
    after the call. *)
Definition purgeUserData_fuel (fuel : nat) (userId : string) (kvStore : KVNamespace)
  : option (result Z * KVNamespace) :=
  if negb (truthy (JStr userId))
  then Some (Throw (Error "Missing userId or kvStore binding for purgeUserData."), kvStore)
  else
    let keyPrefixes :=
      [ "user:" ++ userId ++ ":"; "profile:" ++ userId; "log:interactions:" ++ userId ] in
    let rethrow (error : exn) : result Z :=
      Throw (Error ("Failed to purge data. Error: " ++ message error)) in
    match collect_activities fuel userId kvStore [] [] with
    | None => None
    | Some (Throw error) => Some (rethrow error, kvStore)
    | Some (Ok activityKeysToDelete) =>
        match purge_prefixes fuel keyPrefixes (kvStore, 0%Z) with
        | None => None
        | Some (Throw error, kvStore1) => Some (rethrow error, kvStore1)
        | Some (Ok deletedCount, kvStore1) =>
            let st := delete_each activityKeysToDelete (kvStore1, deletedCount) in
            Some (Ok (snd st), fst st)
        end
    end.

Definition purgeUserData (userId : string) (kvStore : KVNamespace)
  : option (result Z * KVNamespace) :=
  purgeUserData_fuel (S (size (kv_data kvStore))) userId kvStore.

(** ** Platform functions, for running the definitions

    The sections above take the platform functions as parameters. The instances
    below are used to evaluate the definitions on concrete inputs. *)

(** *** [Number.prototype.toString], in the range printed without an exponent:
    an integer in decimal; a fraction with its decimal places, cut after twenty. *)

Fixpoint fraction_digits (fuel : nat) (r d : Z) : string :=
  match fuel with
  | O => EmptyString
  | S fuel' =>
      if (r =? 0)%Z then EmptyString
      else String (ascii_of_N (48 + Z.to_N (10 * r / d))) (fraction_digits fuel' ((10 * r) mod d) d)
  end.

Definition Number_toString_plain (q : Q) : string :=
  let q := Qred q in
  let n := Z.abs (Qnum q) in
  let d := Z.pos (Qden q) in
  let sign := if (Qnum q <? 0)%Z then "-" else EmptyString in
  let whole := string_of_Z (n / d) in
  if (n mod d =? 0)%Z then sign ++ whole
  else sign ++ whole ++ "." ++ fraction_digits 20 (n mod d) d.

(** *** Dates: the time value of a date in the ISO format of [toISOString] *)

Definition days_from_civil (y m d : Z) : Z :=
  let y := if (m <=? 2)%Z then (y - 1)%Z else y in
  let era := (y / 400)%Z in
  let yoe := (y - era * 400)%Z in
  let doy := ((153 * (m + (if (m >? 2)%Z then -3 else 9)) + 2) / 5 + d - 1)%Z in
  let doe := (yoe * 365 + yoe / 4 - yoe / 100 + doy)%Z in
  (era * 146097 + doe - 719468)%Z.

Definition civil_from_days (days : Z) : Z * Z * Z :=
  let z := (days + 719468)%Z in
  let era := (z / 146097)%Z in
  let doe := (z - era * 146097)%Z in
  let yoe := ((doe - doe / 1460 + doe / 36524 - doe / 146096) / 365)%Z in
  let doy := (doe - (365 * yoe + yoe / 4 - yoe / 100))%Z in
  let mp := ((5 * doy + 2) / 153)%Z in
  let d := (doy - (153 * mp + 2) / 5 + 1)%Z in
  let m := (if (mp <? 10)%Z then mp + 3 else mp - 9)%Z in
  let y := (yoe + era * 400 + (if (m <=? 2)%Z then 1 else 0))%Z in
  (y, m, d).

Fixpoint zeros (n : nat) : string :=
  match n with
  | O => EmptyString
  | S n' => String "0" (zeros n')
  end.

Definition digits (width : nat) (z : Z) : string :=
  let s := string_of_Z z in
  zeros (width - String.length s) ++ s.

Definition Date_toISOString_utc (t : Z) : string :=
  let days := (t / 86400000)%Z in
  let ms := (t mod 86400000)%Z in
  let '(y, m, d) := civil_from_days days in
  let year :=
    if (0 <=? y)%Z && (y <=? 9999)%Z then digits 4 y
    else if (y <? 0)%Z then "-" ++ digits 6 (- y)
    else "+" ++ digits 6 y in
  year ++ "-" ++ digits 2 m ++ "-" ++ digits 2 d
  ++ "T" ++ digits 2 (ms / 3600000) ++ ":" ++ digits 2 (ms / 60000 mod 60)
  ++ ":" ++ digits 2 (ms / 1000 mod 60) ++ "." ++ digits 3 (ms mod 1000) ++ "Z".

Definition all_digits (s : string) : bool :=
  forallb is_digit (list_ascii_of_string s).

Definition number_of (s : string) : option Z :=
  if all_digits s && negb (String.eqb s EmptyString) then digits_value None s else None.

Definition days_in_month (y m : Z) : Z :=
  if (m =? 2)%Z
  then if ((y mod 4 =? 0) && negb (y mod 100 =? 0) || (y mod 400 =? 0))%Z then 29 else 28
  else if ((m =? 4) || (m =? 6) || (m =? 9) || (m =? 11))%Z then 30 else 31.

(** [YYYY-MM-DDTHH:mm:ss.sssZ] *)
Definition parse_iso (s : string) : option Z :=
  if negb (String.length s =? 24)%nat then None
  else if negb (String.eqb (String.substring 4 1 s) "-" && String.eqb (String.substring 7 1 s) "-"
                && String.eqb (String.substring 10 1 s) "T"
                && String.eqb (String.substring 13 1 s) ":"
                && String.eqb (String.substring 16 1 s) ":"
                && String.eqb (String.substring 19 1 s) "."
                && String.eqb (String.substring 23 1 s) "Z") then None
  else
    y ← number_of (String.substring 0 4 s);
    m ← number_of (String.substring 5 2 s);
    d ← number_of (String.substring 8 2 s);
    hh ← number_of (String.substring 11 2 s);
    mm ← number_of (String.substring 14 2 s);
    ss ← number_of (String.substring 17 2 s);
    ms ← number_of (String.substring 20 3 s);
    if ((1 <=? m) && (m <=? 12) && (1 <=? d) && (d <=? days_in_month y m)
        && (hh <=? 23) && (mm <=? 59) && (ss <=? 59))%Z
    then Some (days_from_civil y m d * 86400000 + hh * 3600000 + mm * 60000 + ss * 1000 + ms)%Z
    else None.

Definition Qtruncate (q : Q) : Z := Z.quot (Qnum q) (Z.pos (Qden q)).

(** [new Date(v).getTime()] for a number (milliseconds since the epoch), for
    [null] and the booleans, and for a string in the format above; any other
    string counts as an invalid date. *)
Definition Date_ms_iso (v : jsval) : option Z :=
  match v with
  | JNum q =>
      let t := Qtruncate q in
      if (Z.abs t <=? 8640000000000000)%Z then Some t else None
  | JNull | JBool false => Some 0%Z
  | JBool true => Some 1%Z
  | JStr s => parse_iso s
  | _ => None
  end.


(** *** The built-in functions of [Object.prototype]: [Object], called without
    an argument, makes an object. The other functions are left out: a call is
    reached only through an object that has a built-in function as its own
    [toString] or [valueOf], which none of the inputs here has. *)

Definition Native_call_Object (n : string) (O : jsval) : result jsval :=
  if String.eqb n "constructor" then Ok (JObj [])
  else Throw (TypeError (n ++ " is called on a value it does not apply to")).

(** *** [JSON.parse]: a number is the double nearest to its decimal. *)

Definition dquote : ascii := ascii_of_N 34.

Fixpoint skip_ws (s : string) : string :=
  match s with
  | String c rest =>
      if ((code c =? 9) || (code c =? 10) || (code c =? 13) || (code c =? 32))%N
      then skip_ws rest else s
  | EmptyString => s
  end.

Fixpoint span_digits (s : string) : string * string :=
  match s with
  | String c rest =>
      if is_digit c then let '(d, rest') := span_digits rest in (String c d, rest')
      else (EmptyString, s)
  | EmptyString => (EmptyString, EmptyString)
  end.

Definition number_value (negative : bool) (int frac : string) (exponent : Z) : Q :=
  let mantissa := default 0%Z (digits_value None (int ++ frac)) in
  let mantissa := if negative then (- mantissa)%Z else mantissa in
  let e := (exponent - Z.of_nat (String.length frac))%Z in
  if (0 <=? e)%Z then Qred ((mantissa * 10 ^ e) # 1)
  else Qred (mantissa # Z.to_pos (10 ^ (- e))).

Definition parse_exponent (s : string) : option (Z * string) :=
  match s with
  | String c rest =>
      if Ascii.eqb c "e" || Ascii.eqb c "E"
      then
        let '(negative, rest) :=
          match rest with
          | String sign rest' =>
              if Ascii.eqb sign "-" then (true, rest')
              else if Ascii.eqb sign "+" then (false, rest')
              else (false, rest)
          | EmptyString => (false, rest)
          end in
        let '(d, rest') := span_digits rest in
        e ← digits_value None d;
        Some (if negative : bool then (- e)%Z else e, rest')
      else Some (0%Z, s)
  | EmptyString => Some (0%Z, s)
  end.

Definition parse_number (s : string) : option (jsval * string) :=
  let '(negative, s1) :=
    match s with
    | String c rest => if Ascii.eqb c "-" then (true, rest) else (false, s)
    | EmptyString => (false, s)
    end in
  let '(int, s2) := span_digits s1 in
  if String.eqb int EmptyString then None
  else if String.prefix "0" int && negb (String.eqb int "0") then None
  else
    '(frac, s3) ←
      match s2 with
      | String c rest =>
          if Ascii.eqb c "."
          then let '(f, rest') := span_digits rest in
               if String.eqb f EmptyString then None else Some (f, rest')
          else Some (EmptyString, s2)
      | EmptyString => Some (EmptyString, s2)
      end;
    '(e, s4) ← parse_exponent s3;
    Some (JNum (round_double (number_value negative int frac e)), s4).

Definition hex_value (c : ascii) : option N :=
  let x := code c in
  if ((48 <=? x) && (x <=? 57))%N then Some (x - 48)%N
  else if ((65 <=? x) && (x <=? 70))%N then Some (x - 55)%N
  else if ((97 <=? x) && (x <=? 102))%N then Some (x - 87)%N
  else None.

Definition hex4 (a b c d : ascii) : option N :=
  x ← hex_value a; y ← hex_value b; z ← hex_value c; w ← hex_value d;
  Some (((x * 16 + y) * 16 + z) * 16 + w)%N.

(** The content of a string literal as UTF-16 code units ([inr], from a [\u]
    escape) and bytes as they stand ([inl]). *)
Fixpoint string_units (fuel : nat) (s : string) : option (list (ascii + N) * string) :=
  match fuel with
  | O => None
  | S fuel' =>
      match s with
      | EmptyString => None
      | String c rest =>
          if Ascii.eqb c dquote then Some ([], rest)
          else if (code c <? 32)%N then None
          else if Ascii.eqb c "\" then
            match rest with
            | String e rest' =>
                let simple (x : N) :=
                  '(us, r) ← string_units fuel' rest'; Some (inl (ascii_of_N x) :: us, r) in
                if Ascii.eqb e dquote then simple 34%N
                else if Ascii.eqb e "\" then simple 92%N
                else if Ascii.eqb e "/" then simple 47%N
                else if Ascii.eqb e "b" then simple 8%N
                else if Ascii.eqb e "f" then simple 12%N
                else if Ascii.eqb e "n" then simple 10%N
                else if Ascii.eqb e "r" then simple 13%N
                else if Ascii.eqb e "t" then simple 9%N
                else if Ascii.eqb e "u" then
                  match rest' with
                  | String h1 (String h2 (String h3 (String h4 rest''))) =>
                      u ← hex4 h1 h2 h3 h4;
                      '(us, r) ← string_units fuel' rest'';
                      Some (inr u :: us, r)
                  | _ => None
                  end
                else None
            | EmptyString => None
            end
          else '(us, r) ← string_units fuel' rest; Some (inl c :: us, r)
      end
  end.

Definition utf8_encode (cp : N) : string :=
  let b (x : N) := ascii_of_N x in
  (if cp <? 128 then String (b cp) EmptyString
   else if cp <? 2048
   then String (b (192 + cp / 64)) (String (b (128 + cp mod 64)) EmptyString)
   else if cp <? 65536
   then String (b (224 + cp / 4096))
          (String (b (128 + cp / 64 mod 64)) (String (b (128 + cp mod 64)) EmptyString))
   else String (b (240 + cp / 262144))
          (String (b (128 + cp / 4096 mod 64))
             (String (b (128 + cp / 64 mod 64)) (String (b (128 + cp mod 64)) EmptyString))))%N.

Fixpoint units_to_utf8 (us : list (ascii + N)) : string :=
  match us with
  | [] => EmptyString
  | inl c :: rest => String c (units_to_utf8 rest)
  | inr hi :: rest =>
      match rest with
      | inr lo :: rest' =>
          if ((55296 <=? hi) && (hi <? 56320) && (56320 <=? lo) && (lo <? 57344))%N
          then utf8_encode (65536 + (hi - 55296) * 1024 + (lo - 56320))%N
               ++ units_to_utf8 rest'
          else utf8_encode hi ++ units_to_utf8 rest
      | _ => utf8_encode hi ++ units_to_utf8 rest
      end
  end.

Definition parse_string (s : string) : option (string * string) :=
  '(us, rest) ← string_units (S (String.length s)) s;
  Some (units_to_utf8 us, rest).

Fixpoint parse_value (fuel : nat) (s : string) : option (jsval * string) :=
  match fuel with
  | O => None
  | S fuel' =>
      let s := skip_ws s in
      if String.prefix "null" s then Some (JNull, drop_chars 4 s)
      else if String.prefix "true" s then Some (JBool true, drop_chars 4 s)
      else if String.prefix "false" s then Some (JBool false, drop_chars 5 s)
      else
        match s with
        | EmptyString => None
        | String c rest =>
            if Ascii.eqb c dquote
            then '(str, r) ← parse_string rest; Some (JStr str, r)
            else if Ascii.eqb c "["
            then
              match skip_ws rest with
              | EmptyString => None
              | String c2 r2 =>
                  if Ascii.eqb c2 "]" then Some (JArr [], r2)
                  else '(l, r) ← parse_elements fuel' rest; Some (JArr l, r)
              end
            else if Ascii.eqb c "{"
            then
              match skip_ws rest with
              | EmptyString => None
              | String c2 r2 =>
                  if Ascii.eqb c2 "}" then Some (JObj [], r2)
                  else
                    '(ms, r) ← parse_members fuel' rest;
                    Some (JObj (fold_left (fun fs '(k, v) => set_field k v fs) ms []), r)
              end
            else parse_number s
        end
  end
with parse_elements (fuel : nat) (s : string) : option (list jsval * string) :=
  match fuel with
  | O => None
  | S fuel' =>
      '(v, r) ← parse_value fuel' s;
      match skip_ws r with
      | EmptyString => None
      | String c r' =>
          if Ascii.eqb c ","
          then '(vs, r'') ← parse_elements fuel' r'; Some (v :: vs, r'')
          else if Ascii.eqb c "]" then Some ([v], r')
          else None
      end
  end
with parse_members (fuel : nat) (s : string) : option (list (string * jsval) * string) :=
  match fuel with
  | O => None
  | S fuel' =>
      match skip_ws s with
      | EmptyString => None
      | String c r =>
          if Ascii.eqb c dquote
          then
            '(k, r1) ← parse_string r;
            match skip_ws r1 with
            | EmptyString => None
            | String c1 r2 =>
                if Ascii.eqb c1 ":"
                then
                  '(v, r3) ← parse_value fuel' r2;
                  match skip_ws r3 with
                  | EmptyString => None
                  | String c3 r4 =>
                      if Ascii.eqb c3 ","
                      then '(ms, r5) ← parse_members fuel' r4; Some ((k, v) :: ms, r5)
                      else if Ascii.eqb c3 "}" then Some ([(k, v)], r4)
                      else None
                  end
                else None
            end
          else None
      end
  end.

(** [JSON.parse]: one value between white space, nothing after it. With a key
    that comes twice the last value stays. (JavaScript lists keys that are array
    indices first; the order here is that of the text.) *)
Definition json_parse (s : string) : option jsval :=
  '(v, rest) ← parse_value (2 * String.length s + 2) s;
  if String.eqb (skip_ws rest) EmptyString then Some v else None.

(** ** Vocabulary of the properties *)

(** The span, in hours, after which the score of a category is zero: the
    divisors of [relevanceFactors]. *)
Definition halfLifeHours (category : string) : option Q :=
  assoc category
    [ ("physical", 6); ("emotional", 12); ("state", 12); ("event", 24);
      ("activity", 36); ("need", 8); ("achievement", 48); ("default", 18) ]%Q.

Definition nullish (v : jsval) : bool :=
  match v with JUndef | JNull => true | _ => false end.

(** The elements of [processed_status[k] || []] when that is an array. *)
Definition elements_of (processed_status : jsval) (k : string) : option (list jsval) :=
  match js_or (prop processed_status k) (JArr []) with
  | JArr l => Some l
  | _ => None
  end.

Definition array_of_objects (processed_status : jsval) (k : string) : bool :=
  match elements_of processed_status k with
  | Some l => forallb (fun m => negb (nullish m)) l
  | None => false
  end.

(** A snapshot as the relevance model hands it on to the filter: an entry with
    a [processed_status] whose [metrics], [highlights] and [persistent_context]
    are arrays (or absent), no element being [null] or [undefined]. *)
Definition well_formed_snapshot (contextWithRelevance : jsval) : bool :=
  truthy contextWithRelevance
  && truthy (prop contextWithRelevance "processed_status")
  && array_of_objects (prop contextWithRelevance "processed_status") "metrics"
  && array_of_objects (prop contextWithRelevance "processed_status") "highlights"
  && array_of_objects (prop contextWithRelevance "processed_status") "persistent_context".

Definition category_arrays : list string := ["metrics"; "highlights"; "persistent_context"].

(** An element stays: it carries a number as [relevance_score], at least [t]. *)
Definition retained (t : Q) (m : jsval) : bool :=
  match prop m "relevance_score" with
  | JNum q => Qle_bool t q
  | _ => false
  end.

(** The entry of the first example scenario: stored at 07:00, with a metric
    named Energy and a highlight of type activity. *)
Definition entry_0700 : jsval :=
  JObj [ ("timestamp", JStr "2025-04-28T07:00:00.000Z");
         ("raw_input", JStr "Tired, still on the API integration");
         ("processed_status",
           JObj [ ("metrics", JArr [ JObj [ ("name", JStr "Energy"); ("value", JStr "Low") ] ]);
                  ("highlights",
                    JArr [ JObj [ ("type", JStr "activity");
                                  ("description", JStr "Working on API integration") ] ]);
                  ("persistent_context", JArr []) ]) ].

(** 2025-04-28T15:00:00.000Z *)
Definition at_1500 : Z := 1745852400000.

(** The linear decay [max(0, 1 - h / H)], as the doubles compute it. *)
Definition decay (H h : Q) : Q := Math_max 0 (Number_sub 1 (Number_div h H)).

(** A personal state that the reconciliation looks at: truthy, with a truthy
    [name]. *)
Definition valid_state (state : jsval) : bool :=
  truthy state && truthy (prop state "name").

Definition same_name (name : jsval) (state : jsval) : bool :=
  valid_state state && same_value_zero name (prop state "name").

(** The previous state that matches a name: the last valid one that has it. *)
Definition last_match (name : jsval) (previousStates : list jsval) : option jsval :=
  List.find (same_name name) (rev previousStates).

Definition is_object (v : jsval) : bool :=
  match v with JObj _ => true | _ => false end.

(** A scored snapshot: the metric Energy with the score 1/2, a highlight with
    3/4, a context item with 1/8 and one that carries no score. *)
Definition scored_0700 : jsval :=
  JObj [ ("timestamp", JStr "2025-04-28T07:00:00.000Z");
         ("raw_input", JStr "Tired, still on the API integration");
         ("processed_status",
           JObj [ ("metrics",
                    JArr [ JObj [ ("name", JStr "Energy"); ("value", JStr "Low");
                                  ("relevance_score", JNum (1 # 2)) ] ]);
                  ("highlights",
                    JArr [ JObj [ ("type", JStr "activity");
                                  ("description", JStr "Working on API integration");
                                  ("relevance_score", JNum (3 # 4)) ] ]);
                  ("persistent_context",
                    JArr [ JObj [ ("description", JStr "Recovering from cold");
                                  ("relevance_score", JNum (1 # 8)) ];
                           JObj [ ("description", JStr "Ongoing project: Dashboard UI") ] ]) ]) ].


Definition is_string (v : jsval) : bool :=
  match v with JStr _ => true | _ => false end.

(** The shape of a StatusSnapshot: an object with its four phrases, its summary
    and its five arrays, [errors] holding strings. *)
Definition has_status_shape (v : jsval) : bool :=
  is_object v
  && is_string (prop v "overall_status")
  && is_string (prop v "mood_emoji")
  && is_string (prop v "visual_theme")
  && is_string (prop v "accent_color")
  && Array_isArray (prop v "metrics")
  && Array_isArray (prop v "highlights")
  && Array_isArray (prop v "persistent_context")
  && Array_isArray (prop v "personal_states")
  && is_string (prop v "narrative_summary")
  && Array_isArray (prop v "errors")
  && forallb is_string (array_or_empty (prop v "errors")).

(** [jsonMatch[1] || jsonMatch[2]] when the expression matches and the group is
    no empty string. *)
Definition extractedJson_of (s : string) : option string :=
  match String_match s with
  | Some (group1, group2) =>
      if truthy (js_or group1 group2) then Some (string_of (js_or group1 group2)) else None
  | None => None
  end.


(** A value as the store holds it. *)
Definition stored (v : jsval) : jsval := default JNull (JSON_clone v).

(** The last [n] elements of a list. *)
Definition last_n {A : Type} (n : nat) (l : list A) : list A := drop (length l - n) l.

(** A run of stores for one user, one after the other, each update being
    [(rawInput, processedStatus, now)]: the entries that the calls return, and
    the store in the end. *)
Definition store_all (Date_toISOString : Z → string) (userId : string)
    (historyLimit : option Z) (updates : list (jsval * jsval * Z)) (kvStore : KVNamespace)
  : list jsval * KVNamespace :=
  fold_left (fun '(entries, kvStore) '(rawInput, processedStatus, now) =>
               let '(entry, kvStore') :=
                 storeUserStatus Date_toISOString userId rawInput processedStatus
                                 kvStore historyLimit now in
               ((entries ++ [entry])%list, kvStore'))
            updates ([], kvStore).

(** The values inside an array or an object. *)
Definition jsval_values (v : jsval) : list jsval :=
  match v with
  | JArr l => l
  | JObj fs => snd <$> fs
  | _ => []
  end.

(** What the store holds under a key, [null] when the key is not there. *)
Definition held (key : string) (kvStore : KVNamespace) : jsval :=
  default JNull (kv_data kvStore !! key).

(** The history sequence of a user in the store, and the value under the
    latest pointer. *)
Definition history_of (userId : string) (kvStore : KVNamespace) : list jsval :=
  array_or_empty (prop (held ("user:" ++ userId ++ ":status_history") kvStore) "history").

Definition latest_of (userId : string) (kvStore : KVNamespace) : jsval :=
  held ("user:" ++ userId ++ ":latest_status") kvStore.

(** The entry that a store makes. *)
Definition newStatusEntry_of (Date_toISOString : Z → string)
    (rawInput processedStatus : jsval) (now : Z) : jsval :=
  JObj [ ("timestamp", JStr (Date_toISOString now));
         ("raw_input", rawInput);
         ("processed_status", processedStatus) ].

(** The history after the trim of [storeUserStatus]. *)
Definition trimmed (historyLimit : Z) (history : list jsval) : list jsval :=
  if (historyLimit >? 0)%Z && (Z.of_nat (length history) >? historyLimit)%Z
  then drop (Z.to_nat (Z.of_nat (length history) - historyLimit)) history
  else history.

(** Three updates of one user, an hour apart. *)
Definition three_updates : list (jsval * jsval * Z) :=
  [ (JStr "Coffee, then code", JObj [("overall_status", JStr "Starting up")], 1745823600000%Z);
    (JStr "Deep in the API work", JObj [("overall_status", JStr "Focused")], 1745827200000%Z);
    (JStr "Lunch", JObj [("overall_status", JStr "On a break")], 1745830800000%Z) ].

(** The keys with a prefix that a listing has still to return. *)
Definition remaining (prefix : string) (cursor0 : list string) (kvStore : KVNamespace)
  : list string :=
  List.filter (unlisted prefix cursor0) (kv_keys kvStore).

(** The prefixes of the keys of a user. *)
Definition keyPrefixes_of (userId : string) : list string :=
  [ "user:" ++ userId ++ ":"; "profile:" ++ userId; "log:interactions:" ++ userId ].

(** The prefixes that a purge lists. *)
Definition listed_prefixes (userId : string) : list string :=
  "activity:" :: keyPrefixes_of userId.

(** The value under a key has the user as its creator. *)
Definition creator_is (userId : string) (kvStore : KVNamespace) (k : string) : bool :=
  truthy (held k kvStore) && strict_eq_string (prop (held k kvStore) "creator") userId.

(** Nothing of a user is in the store: no key with one of the prefixes, and no
    activity that the user created. *)
Definition no_user_data (userId : string) (kvStore : KVNamespace) : Prop :=
  (∀ prefix k, prefix ∈ keyPrefixes_of userId → is_Some (kv_data kvStore !! k) →
               String.prefix prefix k = false)
  ∧ (∀ k, String.prefix "activity:" k = true → creator_is userId kvStore k = false).

(** Nothing of a user is left that a purge can delete: what is left is a key
    whose [delete] fails, or an activity whose [get] fails. *)
Definition nothing_to_delete (userId : string) (kvStore : KVNamespace) : Prop :=
  (∀ prefix k, prefix ∈ keyPrefixes_of userId → is_Some (kv_data kvStore !! k) →
               String.prefix prefix k = true → kv_fails kvStore (KvDelete k) = true)
  ∧ (∀ k, String.prefix "activity:" k = true → created_by userId kvStore k = true →
          kv_fails kvStore (KvDelete k) = true).

(** A namespace that came from another by deletions: the same failing calls,
    and what it holds, the other holds. *)
Definition sub_store (kvStore' kvStore : KVNamespace) : Prop :=
  kv_fails kvStore' = kv_fails kvStore
  ∧ ∀ k, kv_data kvStore' !! k = None ∨ kv_data kvStore' !! k = kv_data kvStore !! k.

(** A namespace whose calls all go through. *)
Definition reliable (data : gmap string jsval) : KVNamespace :=
  {| kv_data := data; kv_fails := fun _ => false |}.

(** A namespace whose [list] fails. *)
Definition list_down (data : gmap string jsval) : KVNamespace :=
  {| kv_data := data;
     kv_fails := fun op => match op with KvList _ => true | _ => false end |}.

(** A store with a status history, a profile and two activities, one of them
    created by the user 42. *)
Definition store_of_42 : gmap string jsval :=
  <["user:42:status_history" := JObj [("history", JArr [])]]>
  (<["profile:42" := JObj [("timezone", JNull)]]>
  (<["activity:act_1" := JObj [("id", JStr "act_1"); ("creator", JStr "42")]]>
  (<["activity:act_2" := JObj [("id", JStr "act_2"); ("creator", JStr "7")]]> ∅))).

(** One store into an empty namespace, and a run of the three updates with the
    cap 2: the returned values and the namespace after them. *)
Definition lunch_store : jsval * KVNamespace :=
  storeUserStatus Date_toISOString_utc "42" (JStr "Lunch")
    (JObj [("overall_status", JStr "On a break")]) (reliable ∅) None at_1500.

Definition run_of_three : list jsval * KVNamespace :=
  store_all Date_toISOString_utc "42" (Some 2%Z) three_updates (reliable ∅).

(** * Further functions of the sources *)

(** *** Snapshots that the relevance model can score *)

(** A name or a type that [?.toLowerCase()] accepts: a string, or nothing. *)
Definition plain_name (v : jsval) : bool :=
  match v with JUndef | JNull | JStr _ => true | _ => false end.

Definition named_objects (k : string) (l : list jsval) : bool :=
  forallb (fun m => negb (nullish m) && plain_name (prop m k)) l.

(** An entry whose scoring goes through: the checks at the head of
    [calculateContextRelevance] pass, [metrics] and [highlights] are arrays (or
    absent) of elements that are neither [null] nor [undefined] and whose
    [name], respectively [type], is a string or absent, and
    [persistent_context] is an array (or absent). *)
Definition scorable (previousStatus : jsval) : bool :=
  truthy previousStatus
  && truthy (prop previousStatus "timestamp")
  && truthy (prop previousStatus "processed_status")
  && match elements_of (prop previousStatus "processed_status") "metrics" with
     | Some l => named_objects "name" l
     | None => false
     end
  && match elements_of (prop previousStatus "processed_status") "highlights" with
     | Some l => named_objects "type" l
     | None => false
     end
  && match elements_of (prop previousStatus "processed_status") "persistent_context" with
     | Some _ => true
     | None => false
     end.

(** A score between 0 and 1. *)
Definition unit_score (v : jsval) : Prop :=
  ∃ q, v = JNum q ∧ (0 <= q)%Q ∧ (q <= 1)%Q.

(** A score between the fastest decay of the table (6 hours) and the slowest
    (48 hours). *)
Definition window_score (h : Q) (v : jsval) : Prop :=
  ∃ q, v = JNum q ∧ (decay 6 h <= q)%Q ∧ (q <= decay 48 h)%Q.

(** [m'] is [{...m, relevance_score}] with a score that satisfies [ok]. *)
Definition scored_with (ok : jsval → Prop) (m m' : jsval) : Prop :=
  ∃ score, m' = JObj (set_field "relevance_score" score (own_props m)) ∧ ok score.

(** The lower-cased type of a highlight names a property of
    [Object.prototype]. *)
Definition inherited_type (highlight : jsval) : Prop :=
  ∃ s, prop highlight "type" = JStr s
       ∧ (toLowerCase s = "constructor" ∨ toLowerCase s = "__proto__").

(** The arrays of a snapshot, as the code reads them. *)
Definition array_at (snapshot : jsval) (k : string) : option (list jsval) :=
  elements_of (prop snapshot "processed_status") k.

(** The entry of the first example scenario seen half an hour and 56 hours
    after it was stored. *)
Definition at_0730 : Z := 1745825400000.
Definition at_1500_two_days_later : Z := 1746025200000.

(** An entry with a [null] among its metrics. *)
Definition entry_null_metric : jsval :=
  JObj [ ("timestamp", JStr "2025-04-28T07:00:00.000Z");
         ("raw_input", JStr "Tired, still on the API integration");
         ("processed_status",
           JObj [ ("metrics", JArr [ JObj [ ("name", JStr "Energy"); ("value", JStr "Low") ];
                                     JNull ]);
                  ("highlights", JArr []);
                  ("persistent_context", JArr []) ]) ].

(** The own property [k] of a value, [undefined] when it has none. *)
Definition own (v : jsval) (k : string) : jsval := lookup_field k (own_props v).

(** ** src/storage/kv.js: templates, interaction log, updates of the day *)

Section KvMore.

(** [String_toLowerCase] is [String.prototype.toLowerCase] of the platform, on
    all of Unicode. *)
Variable String_toLowerCase : string -> string.
Variable Date_toISOString : Z -> string.
Variable Date_ms : jsval -> option Z.
Variable Number_toString : Q -> string.
Variable Native_call : string -> jsval -> result jsval.

Definition templates_of (data : jsval) : list jsval :=
  if truthy data && Array_isArray (prop data "templates")
  then array_or_empty (prop data "templates")
  else [].

Definition getUserTemplates (userId : string) (kvStore : KVNamespace) : list jsval :=
  if negb (truthy (JStr userId)) then []
  else
    let key := "user:" ++ userId ++ ":templates" in
    match kv_get key kvStore with
    | Throw _ => []
    | Ok data => templates_of data
    end.

(** [t.name.toLowerCase()] *)
Definition name_toLowerCase (t : jsval) : result string :=
  name ← get t "name";
  match name with
  | JStr s => Ok (String_toLowerCase s)
  | JUndef | JNull =>
      Throw (TypeError "Cannot read properties of null or undefined, reading toLowerCase")
  | _ => Throw (TypeError "toLowerCase is not a function")
  end.

(** [templates.findIndex(t => t.name.toLowerCase() === lowerCaseName)], from
    the index [i] on; [None] is the answer [-1]. The elements behind the first
    match are not looked at. *)
Fixpoint findIndex_name (lowerCaseName : string) (templates : list jsval) (i : nat)
  : result (option nat) :=
  match templates with
  | [] => Ok None
  | t :: rest =>
      lowered ← name_toLowerCase t;
      if String.eqb lowered lowerCaseName then Ok (Some i)
      else findIndex_name lowerCaseName rest (S i)
  end.

(** [emoji] and [category] are [JUndef] when the argument is left out (the
    default parameters are the memo emoji and [null]). The result is the
    returned value and the namespace after the call; a [Throw] branch is the
    [catch], which returns [false]. *)
Definition saveStatusTemplate (userId templateName templateText : string)
    (kvStore : KVNamespace) (emoji category : jsval) (now : Z) : bool * KVNamespace :=
  let emoji := match emoji with JUndef => JStr "📝" | _ => emoji end in
  let category := match category with JUndef => JNull | _ => category end in
  if negb (truthy (JStr userId)) || negb (truthy (JStr templateName))
     || negb (truthy (JStr templateText))
  then (false, kvStore)
  else
    let key := "user:" ++ userId ++ ":templates" in
    match kv_get key kvStore with
    | Throw _ => (false, kvStore)
    | Ok data =>
        let templates := templates_of data in
        let updated_at := JStr (Date_toISOString now) in
        let template :=
          [ ("name", JStr templateName);
            ("emoji", emoji);
            ("category", js_or category JNull);
            ("template_text", JStr templateText);
            ("updated_at", updated_at) ] in
        let lowerCaseName := String_toLowerCase templateName in
        match findIndex_name lowerCaseName templates 0 with
        | Throw _ => (false, kvStore)
        | Ok existingIndex =>
            let templates :=
              match existingIndex with
              | Some i =>
                  let created_at :=
                    js_or (prop (default JUndef (templates !! i)) "created_at") updated_at in
                  <[i := JObj (set_field "created_at" created_at template)]> templates
              | None =>
                  (templates ++ [JObj (set_field "created_at" updated_at template)])%list
              end in
            match kv_put key (JObj [("templates", JArr templates)]) kvStore with
            | Throw _ => (false, kvStore)
            | Ok kvStore' => (true, kvStore')
            end
        end
    end.

(** [templates.filter(t => t.name.toLowerCase() !== lowerCaseName)] *)
Definition other_name (lowerCaseName : string) (t : jsval) : result bool :=
  lowered ← name_toLowerCase t;
  mret (negb (String.eqb lowered lowerCaseName)).

Definition deleteStatusTemplate (userId templateName : string) (kvStore : KVNamespace)
  : bool * KVNamespace :=
  if negb (truthy (JStr userId)) || negb (truthy (JStr templateName))
  then (false, kvStore)
  else
    let key := "user:" ++ userId ++ ":templates" in
    match kv_get key kvStore with
    | Throw _ => (false, kvStore)
    | Ok data =>
        let templates := templates_of data in
        let lowerCaseName := String_toLowerCase templateName in
        let initialLength := length templates in
        match filterM (other_name lowerCaseName) templates with
        | Throw _ => (false, kvStore)
        | Ok templates =>
            if (length templates <? initialLength)%nat
            then
              match kv_put key (JObj [("templates", JArr templates)]) kvStore with
              | Throw _ => (false, kvStore)
              | Ok kvStore' => (true, kvStore')
              end
            else (true, kvStore)
        end
    end.

(** [logLimit] is [None] when the argument is left out (the default parameter
    is 100). *)
Definition logUserInteraction (targetUserId actorUserId interactionType timestamp : string)
    (kvStore : KVNamespace) (logLimit : option Z) : bool * KVNamespace :=
  let logLimit := default 100%Z logLimit in
  if negb (truthy (JStr targetUserId)) || negb (truthy (JStr actorUserId))
     || negb (truthy (JStr interactionType)) || negb (truthy (JStr timestamp))
  then (false, kvStore)
  else
    let key := "log:interactions:" ++ targetUserId in
    match kv_get key kvStore with
    | Throw _ => (false, kvStore)
    | Ok interactions =>
        let log :=
          if truthy interactions && Array_isArray (prop interactions "log")
          then array_or_empty (prop interactions "log")
          else [] in
        let log :=
          (log ++ [ JObj [ ("actor", JStr actorUserId);
                           ("type", JStr interactionType);
                           ("timestamp", JStr timestamp) ] ])%list in
        let log :=
          if (logLimit >? 0)%Z && (Z.of_nat (length log) >? logLimit)%Z
          then drop (Z.to_nat (Z.of_nat (length log) - logLimit)) log
          else log in
        match kv_put key (JObj [("log", JArr log)]) kvStore with
        | Throw _ => (false, kvStore)
        | Ok kvStore' => (true, kvStore')
        end
    end.

(** The test of the filter in [getStatusUpdateCountToday]. The [catch] reads
    the timestamp of the entry again and formats it for its warning, so what
    threw in the [try] may throw there once more. *)
Definition updated_between (today tomorrow : Z) (status : jsval) : result bool :=
  try_catch
    (timestamp ← get status "timestamp";
     statusDate ← new_Date Date_ms Number_toString Native_call timestamp;
     Ok (match statusDate with
         | Some statusDate => (today <=? statusDate)%Z && (statusDate <? tomorrow)%Z
         | None => false
         end))
    (fun _ =>
       timestamp ← get status "timestamp";
       _ ← ToString Number_toString Native_call timestamp;
       Ok false).

(** [now] is the time value of [new Date()]. [setUTCHours(0, 0, 0, 0)] goes
    back to the start of the day, [setUTCDate(getUTCDate() + 1)] a day on. *)
Definition getStatusUpdateCountToday (userId : string) (kvStore : KVNamespace) (now : Z) : Z :=
  if negb (truthy (JStr userId)) then 0%Z
  else
    let key := "user:" ++ userId ++ ":status_history" in
    match kv_get key kvStore with
    | Throw _ => 0%Z
    | Ok data =>
        let history :=
          if truthy data && Array_isArray (prop data "history")
          then array_or_empty (prop data "history")
          else [] in
        if (length history =? 0)%nat then 0%Z
        else
          let today := (now / 86400000 * 86400000)%Z in
          let tomorrow := (today + 86400000)%Z in
          match filterM (updated_between today tomorrow) history with
          | Ok ofToday => Z.of_nat (length ofToday)
          | Throw _ => 0%Z
          end
    end.

End KvMore.

(** *** Templates *)

(** The name of a template, lower-cased; [None] for an element that has no
    string as its name. *)
Definition lowered_name (String_toLowerCase : string → string) (t : jsval) : option string :=
  match prop t "name" with
  | JStr s => Some (String_toLowerCase s)
  | _ => None
  end.

Definition lowered_names (String_toLowerCase : string → string) (templates : list jsval)
  : list string :=
  omap (lowered_name String_toLowerCase) templates.

(** Every element is a template with a name. *)
Definition well_named (templates : list jsval) : bool :=
  forallb (fun t => is_string (prop t "name")) templates.

(** A namespace with two templates of the user 42 and a log of one
    interaction. *)
Definition templates_of_42 : gmap string jsval :=
  <["user:42:templates" :=
      JObj [("templates",
             JArr [ JObj [ ("name", JStr "Lunch"); ("emoji", JStr "L");
                           ("category", JNull); ("template_text", JStr "Out for lunch");
                           ("updated_at", JStr "2025-04-27T12:00:00.000Z");
                           ("created_at", JStr "2025-04-27T12:00:00.000Z") ];
                    JObj [ ("name", JStr "Deep Work"); ("emoji", JStr "W");
                           ("category", JStr "work"); ("template_text", JStr "Heads down");
                           ("updated_at", JStr "2025-04-27T13:00:00.000Z");
                           ("created_at", JStr "2025-04-27T13:00:00.000Z") ] ])]]>
  (<["log:interactions:42" :=
       JObj [("log", JArr [ JObj [ ("actor", JStr "7"); ("type", JStr "check_in");
                                   ("timestamp", JStr "2025-04-27T12:00:00.000Z") ] ])]]> ∅).

(** The template "LUNCH" saved over "Lunch", "Deep Work" deleted under the
    name "deep work". *)
Definition lunch_saved : bool * KVNamespace :=
  saveStatusTemplate toLowerCase Date_toISOString_utc "42" "LUNCH" "Back at one"
    (reliable templates_of_42) JUndef JUndef at_1500.

Definition deep_work_deleted : bool * KVNamespace :=
  deleteStatusTemplate toLowerCase "42" "deep work" (reliable templates_of_42).

(** *** Interaction log and history *)

(** The interaction log of a user in the store. *)
Definition log_of (targetUserId : string) (kvStore : KVNamespace) : list jsval :=
  array_or_empty (prop (held ("log:interactions:" ++ targetUserId) kvStore) "log").

(** The last character of a string. *)
Fixpoint string_last (s : string) : option ascii :=
  match s with
  | EmptyString => None
  | String c EmptyString => Some c
  | String _ rest => string_last rest
  end.

(** A namespace in which only the write of the latest pointer of the user 42
    fails. *)
Definition latest_down (data : gmap string jsval) : KVNamespace :=
  {| kv_data := data;
     kv_fails := fun op => match op with
                           | KvPut key => String.eqb key "user:42:latest_status"
                           | _ => false
                           end |}.

Definition check_in_logged : bool * KVNamespace :=
  logUserInteraction "42" "7" "check_in" "2025-04-28T15:00:00.000Z"
    (reliable templates_of_42) (Some 1%Z).

(** *** Purge *)

(** A key that a purge of the user has no business with: it starts with none
    of the prefixes of the user and is no activity that the user created. *)
Definition foreign_key (userId : string) (kvStore : KVNamespace) (k : string) : Prop :=
  (∀ prefix, prefix ∈ keyPrefixes_of userId → String.prefix prefix k = false)
  ∧ created_by userId kvStore k = false.

(** A store with the profiles and the interaction logs of the users 4 and 42. *)
Definition store_of_4_and_42 : gmap string jsval :=
  <["profile:4" := JObj [("timezone", JStr "Europe/Paris")]]>
  (<["profile:42" := JObj [("timezone", JStr "Europe/Berlin")]]>
  (<["log:interactions:42" := JObj [("log", JArr [])]]>
  (<["user:42:latest_status" := JObj [("raw_input", JStr "Lunch")]]> ∅))).

(** ** src/storage/activity.js *)

(** [s.length]: the number of UTF-16 code units of a string that is held as
    UTF-8, one for each character of one to three bytes and two for each
    character of four. *)
Fixpoint utf16_length (s : string) : nat :=
  match s with
  | EmptyString => 0
  | String c rest =>
      let x := code c in
      ((if ((128 <=? x) && (x <? 192))%N then 0
        else if (240 <=? x)%N then 2 else 1) + utf16_length rest)%nat
  end.

Section Activity.

Variable Date_toISOString : Z -> string.

(** [a > b] and [a >= b] of the platform for operands that are not both
    numbers (they are converted first, which can throw). *)
Variable Abstract_gt : jsval -> jsval -> result bool.
Variable Abstract_ge : jsval -> jsval -> result bool.

Definition js_gt (a b : jsval) : result bool :=
  match a, b with
  | JNum x, JNum y => Ok (negb (Qle_bool x y))
  | _, _ => Abstract_gt a b
  end.

Definition js_ge (a b : jsval) : result bool :=
  match a, b with
  | JNum x, JNum y => Ok (Qle_bool y x)
  | _, _ => Abstract_ge a b
  end.

(** [idTime] is [Date.now()], [createdAt] and [updatedAt] are the time values
    of the two [new Date()] that follow, and [random] is the text
    [Math.random().toString(36)]. The result is the returned value, the id or
    [null], and the namespace after the call. *)
Definition createActivity (userId : string) (activityData : jsval) (kvStore : KVNamespace)
    (idTime createdAt updatedAt : Z) (random : string) : jsval * KVNamespace :=
  if negb (truthy (JStr userId)) || negb (truthy activityData)
  then (JNull, kvStore)
  else
    let activityId := "act_" ++ string_of_Z idTime ++ "_" ++ String.substring 2 5 random in
    let activity :=
      JObj [ ("id", JStr activityId);
             ("creator", JStr userId);
             ("title", js_or (prop activityData "title") (JStr "Untitled Activity"));
             ("description", js_or (prop activityData "description") (JStr ""));
             ("type", js_or (prop activityData "type") (JStr "general"));
             ("max_participants", js_or (prop activityData "max_participants") (JNum 0));
             ("participants", JArr [JStr userId]);
             ("created_at", JStr (Date_toISOString createdAt));
             ("updated_at", JStr (Date_toISOString updatedAt)) ] in
    let key := "activity:" ++ activityId in
    match kv_put key activity kvStore with
    | Throw _ => (JNull, kvStore)
    | Ok kvStore' => (JStr activityId, kvStore')
    end.

Definition getActivity (activityId : string) (kvStore : KVNamespace) : jsval :=
  if negb (truthy (JStr activityId)) then JNull
  else
    let key := "activity:" ++ activityId in
    match kv_get key kvStore with
    | Throw _ => JNull
    | Ok activity => activity
    end.

(** [participants.length] *)
Definition length_of (participants : jsval) : result jsval :=
  match participants with
  | JArr l => Ok (JNum (Z.of_nat (length l) # 1))
  | JStr s => Ok (JNum (Z.of_nat (utf16_length s) # 1))
  | JUndef | JNull =>
      Throw (TypeError "Cannot read properties of null or undefined, reading length")
  | _ => Ok (prop participants "length")
  end.

(** [participants.includes(userId)]: arrays and strings have the method. *)
Definition includes_of (participants : jsval) (userId : string) : result bool :=
  match participants with
  | JArr l => Ok (existsb (same_value_zero (JStr userId)) l)
  | JStr s => Ok (includes s userId)
  | JUndef | JNull =>
      Throw (TypeError "Cannot read properties of null or undefined, reading includes")
  | _ => Throw (TypeError "includes is not a function")
  end.

(** [participants.push(userId)]: only arrays have the method. *)
Definition push_of (participants : jsval) (userId : string) : result jsval :=
  match participants with
  | JArr l => Ok (JArr (l ++ [JStr userId]))
  | JUndef | JNull =>
      Throw (TypeError "Cannot read properties of null or undefined, reading push")
  | _ => Throw (TypeError "push is not a function")
  end.

(** The body of the [try] of [joinActivity]; what it throws is thrown on by
    the [catch]. The namespace changes only with the [put] at the end. *)
Definition joinActivity_try (activityId userId : string) (kvStore : KVNamespace) (now : Z)
  : result (jsval * KVNamespace) :=
  let key := "activity:" ++ activityId in
  let activity := getActivity activityId kvStore in
  if negb (truthy activity) then Throw (Error "Activity not found") else
  limited ← js_gt (prop activity "max_participants") (JNum 0);
  full ← (if limited : bool
          then count ← length_of (prop activity "participants");
               js_ge count (prop activity "max_participants")
          else Ok false);
  if full : bool then Throw (Error "Activity is full") else
  joined ← includes_of (prop activity "participants") userId;
  if joined : bool then Ok (activity, kvStore) else
  participants ← push_of (prop activity "participants") userId;
  activity ← put activity "participants" participants;
  activity ← put activity "updated_at" (JStr (Date_toISOString now));
  kvStore' ← kv_put key activity kvStore;
  Ok (activity, kvStore').

(** The result is the outcome, the returned value or the exception, and the
    namespace after the call. *)
Definition joinActivity (activityId userId : string) (kvStore : KVNamespace) (now : Z)
  : result jsval * KVNamespace :=
  if negb (truthy (JStr activityId)) || negb (truthy (JStr userId))
  then (Ok JNull, kvStore)
  else
    match joinActivity_try activityId userId kvStore now with
    | Ok (activity, kvStore') => (Ok activity, kvStore')
    | Throw error => (Throw error, kvStore)
    end.

End Activity.

(** *** Vocabulary *)

(** The participants of an activity. *)
Definition participants_of (activity : jsval) : list jsval :=
  array_or_empty (prop activity "participants").

(** An activity as [createActivity] makes it: its participants are an array
    and its limit is a number; [0] stands for no limit. *)
Definition limit_of (activity : jsval) : option Q :=
  match prop activity "participants", prop activity "max_participants" with
  | JArr _, JNum m => Some m
  | _, _ => None
  end.

(** The activity after [userId] has joined it: the user is added at the end
    of the participants and the time of the update is set. *)
Definition joined (Date_toISOString : Z -> string) (activity : jsval) (userId : string)
    (now : Z) : jsval :=
  JObj (set_field "updated_at" (JStr (Date_toISOString now))
          (set_field "participants" (JArr (participants_of activity ++ [JStr userId]))
             (own_props activity))).

(** The comparisons of the platform restricted to numbers: an instance for
    running the definitions on activities whose limit is a number. *)
Definition no_comparison (a b : jsval) : result bool :=
  Throw (TypeError "comparison of operands that are not numbers").

(** An activity of the user 7 for two, and the same with the user 42 in it. *)
Definition activity_for_two : gmap string jsval :=
  <["activity:act_1" :=
      JObj [ ("id", JStr "act_1"); ("creator", JStr "7"); ("title", JStr "Lunch");
             ("max_participants", JNum 2); ("participants", JArr [JStr "7"]);
             ("updated_at", JStr "2025-04-28T07:00:00.000Z") ]]> ∅.

Definition activity_joined : result jsval * KVNamespace :=
  joinActivity Date_toISOString_utc no_comparison no_comparison "act_1" "42"
    (reliable activity_for_two) at_1500.

Definition activity_created : jsval * KVNamespace :=
  createActivity Date_toISOString_utc "42" (JObj [("title", JStr "Lunch")])
    (reliable ∅) at_1500 at_1500 at_1500 "0.4fzyo82mvyr".

(** ** src/storage/profile.js *)

Definition DEFAULT_PROFILE : jsval :=
  JObj [ ("preferences", JObj [("theme", JStr "default"); ("visibility", JStr "public")]);
         ("custom_emojis", JObj []);
         ("timezone", JNull);
         ("created_at", JNull);
         ("updated_at", JNull) ].

(** [{ ...base, ...v }]: the own properties of [v] are set on a copy of
    [base] one after the other. *)
Definition spread_onto (base : list (string * jsval)) (v : jsval) : list (string * jsval) :=
  fold_left (fun fs kv => set_field kv.1 kv.2 fs) (own_props v) base.

(** [obj[key] = value] on a plain object for a value that is a string. Every
    key makes or updates an own property, but for [__proto__] where the object
    has no such own property: that is the setter of [Object.prototype], which
    leaves the object alone when the value is not an object. *)
Definition assign_string (key value : string) (fs : list (string * jsval))
  : list (string * jsval) :=
  if String.eqb key "__proto__" && negb (has_own key fs) then fs
  else set_field key (JStr value) fs.

(** [delete obj[key]] on a plain object *)
Definition delete_field (key : string) (fs : list (string * jsval)) : list (string * jsval) :=
  List.filter (fun kv => negb (String.eqb kv.1 key)) fs.

Section UserProfile.

Variable String_toLowerCase : string -> string.
Variable Date_toISOString : Z -> string.

(** [now] is the time value of the [new Date()] of a profile that is created.
    The result is the returned profile and the namespace after the call. *)
Definition getUserProfile (userId : string) (kvStore : KVNamespace) (now : Z)
  : jsval * KVNamespace :=
  if negb (truthy (JStr userId)) then (stored DEFAULT_PROFILE, kvStore)
  else
    let key := "profile:" ++ userId in
    match kv_get key kvStore with
    | Throw _ => (stored DEFAULT_PROFILE, kvStore)
    | Ok profile =>
        if negb (truthy profile) then
          let profile := own_props (stored DEFAULT_PROFILE) in
          let profile := set_field "created_at" (JStr (Date_toISOString now)) profile in
          let profile := set_field "updated_at" (lookup_field "created_at" profile) profile in
          match kv_put key (JObj profile) kvStore with
          | Throw _ => (stored DEFAULT_PROFILE, kvStore)
          | Ok kvStore' => (JObj profile, kvStore')
          end
        else
          let profile := spread_onto (own_props (stored DEFAULT_PROFILE)) profile in
          let profile :=
            set_field "preferences"
              (JObj (spread_onto (own_props (prop DEFAULT_PROFILE "preferences"))
                       (js_or (lookup_field "preferences" profile) (JObj []))))
              profile in
          let profile :=
            set_field "custom_emojis"
              (JObj (spread_onto (own_props (prop DEFAULT_PROFILE "custom_emojis"))
                       (js_or (lookup_field "custom_emojis" profile) (JObj []))))
              profile in
          (JObj profile, kvStore)
    end.

Definition getUserEmojiSet (userId : string) (kvStore : KVNamespace) (now : Z)
  : jsval * KVNamespace :=
  let '(profile, kvStore) := getUserProfile userId kvStore now in
  (js_or (prop profile "custom_emojis") (JObj []), kvStore).

(** [emoji && emoji.trim().length > 0] for the documented argument, a string
    or [null] ([None]). *)
Definition emoji_given (emoji : option string) : bool :=
  match emoji with
  | Some e => negb (String.eqb e "") && negb (String.eqb (trim e) "")
  | None => false
  end.

(** The emojis of a profile that [getUserProfile] returned are a plain object
    (the result of a spread, or that of the default profile); the write
    through [profile.custom_emojis[stateKey]] is a write into it. *)
Definition custom_emojis_of (profile : jsval) : list (string * jsval) :=
  own_props (js_or (prop profile "custom_emojis") (JObj [])).

(** [createdAt] is the time value of the [new Date()] of [getUserProfile],
    [now] that of the [new Date()] of the update. The result is the returned
    value and the namespace after the call: when the [put] of the update
    fails, a profile that [getUserProfile] has created stays. *)
Definition setCustomEmoji (userId stateName : string) (emoji : option string)
    (kvStore : KVNamespace) (createdAt now : Z) : bool * KVNamespace :=
  if negb (truthy (JStr userId)) || negb (truthy (JStr stateName))
  then (false, kvStore)
  else
    let key := "profile:" ++ userId in
    let stateKey := String_toLowerCase stateName in
    let '(profile, kvStore) := getUserProfile userId kvStore createdAt in
    let custom_emojis :=
      if emoji_given emoji
      then assign_string stateKey (default "" emoji) (custom_emojis_of profile)
      else delete_field stateKey (custom_emojis_of profile) in
    let updated :=
      profile ← put profile "custom_emojis" (JObj custom_emojis);
      profile ← put profile "updated_at" (JStr (Date_toISOString now));
      kv_put key profile kvStore in
    match updated with
    | Ok kvStore' => (true, kvStore')
    | Throw _ => (false, kvStore)
    end.

End UserProfile.

(** *** Vocabulary *)

(** A value that went through JSON as the value of a property: the property
    is left out where the value is [undefined] or a function. *)
Definition json_of (v : jsval) : jsval :=
  match JSON_clone v with Some v' => v' | None => JUndef end.

(** The shape of every profile that [getUserProfile] returns. *)
Definition complete_profile (profile : jsval) : Prop :=
  ∃ fields preferences custom_emojis,
    profile = JObj fields ∧ NoDup fields.*1
    ∧ (∀ k, k ∈ ["preferences"; "custom_emojis"; "timezone"; "created_at"; "updated_at"] →
            k ∈ fields.*1)
    ∧ lookup_field "preferences" fields = JObj preferences
    ∧ "theme" ∈ preferences.*1 ∧ "visibility" ∈ preferences.*1
    ∧ lookup_field "custom_emojis" fields = JObj custom_emojis
    ∧ NoDup custom_emojis.*1.


(** The user 42 sets the emoji of the state Energy in an empty store. *)
Definition energy_set : bool * KVNamespace :=
  setCustomEmoji toLowerCase Date_toISOString_utc "42" "Energy" (Some "⚡")
    (reliable ∅) at_0730 at_1500.

(** A namespace whose [get] fails, and a stored profile with the dark theme. *)
Definition get_down (data : gmap string jsval) : KVNamespace :=
  {| kv_data := data;
     kv_fails := fun op => match op with KvGet _ => true | _ => false end |}.

Definition profile_of_42 : gmap string jsval :=
  <["profile:42" :=
      JObj [ ("preferences", JObj [("theme", JStr "dark"); ("visibility", JStr "private")]);
             ("custom_emojis", JObj [("mood", JStr "🦊")]);
             ("timezone", JStr "Europe/Paris");
             ("created_at", JStr "2025-04-01T07:00:00.000Z");
             ("updated_at", JStr "2025-04-01T07:00:00.000Z") ]]> ∅.

(** ** src/api/status.js: custom emojis *)

(** The names of the properties of [Object.prototype]. *)
Definition Object_prototype_names : list string :=
  [ "constructor"; "__proto__"; "hasOwnProperty"; "isPrototypeOf"; "propertyIsEnumerable";
    "toLocaleString"; "toString"; "valueOf";
    "__defineGetter__"; "__defineSetter__"; "__lookupGetter__"; "__lookupSetter__" ].

(** [customEmojis[key]], where [customEmojis] is the plain object
    [userProfile.custom_emojis], held as its own properties: the own property,
    or what the key finds on [Object.prototype], or [undefined]. *)
Definition emoji_at (customEmojis : list (string * jsval)) (key : string) : jsval :=
  if has_own key customEmojis then lookup_field key customEmojis
  else if existsb (String.eqb key) Object_prototype_names then JNative key
  else JUndef.

Section CustomEmojis.

Variable String_toLowerCase : string -> string.
Variable Number_toString : Q -> string.
Variable Native_call : string -> jsval -> result jsval.

(** [(str || '').toLowerCase()] *)
Definition lower (str : jsval) : result string :=
  match js_or str (JStr "") with
  | JStr s => Ok (String_toLowerCase s)
  | _ => Throw (TypeError "toLowerCase is not a function")
  end.

(** The function given to [map]: [field] is [icon] for a metric and [emoji]
    for a personal state. *)
Definition with_custom_emoji (customEmojis : list (string * jsval)) (field : string)
    (item : jsval) : result jsval :=
  name ← get item "name";
  nameLower ← lower name;
  if truthy (emoji_at customEmojis nameLower)
  then
    (* the log line formats the emoji *)
    _ ← ToString Number_toString Native_call (emoji_at customEmojis nameLower);
    Ok (JObj (set_field field (emoji_at customEmojis nameLower) (own_props item)))
  else Ok item.

(** [JSON.parse(JSON.stringify(v))], which throws a [SyntaxError] where
    [JSON.stringify] gives [undefined]. *)
Definition JSON_copy (v : jsval) : result jsval :=
  match JSON_clone v with
  | Some v' => Ok v'
  | None => Throw (Error "SyntaxError: undefined is not valid JSON")
  end.

Definition replace_emojis (customEmojis : list (string * jsval)) (k field : string)
    (updatedStatus : jsval) : result jsval :=
  if truthy (prop updatedStatus k) && Array_isArray (prop updatedStatus k)
  then items ← array_map (prop updatedStatus k) (with_custom_emoji customEmojis field);
       put updatedStatus k items
  else Ok updatedStatus.

Definition applyCustomEmojis (statusData : jsval) (customEmojis : list (string * jsval))
  : result jsval :=
  if (length customEmojis =? 0)%nat || negb (truthy statusData) then Ok statusData
  else
    updatedStatus ← JSON_copy statusData;
    updatedStatus ←
      (if truthy (prop updatedStatus "mood_emoji") && truthy (emoji_at customEmojis "mood")
       then
         _ ← ToString Number_toString Native_call (emoji_at customEmojis "mood");
         put updatedStatus "mood_emoji" (emoji_at customEmojis "mood")
       else Ok updatedStatus);
    updatedStatus ← replace_emojis customEmojis "metrics" "icon" updatedStatus;
    updatedStatus ← replace_emojis customEmojis "personal_states" "emoji" updatedStatus;
    Ok updatedStatus.

End CustomEmojis.

(** *** Vocabulary *)

(** The name under which an item looks for its custom emoji. *)
Definition lowered_item_name (String_toLowerCase : string -> string) (item : jsval) : string :=
  String_toLowerCase (string_of (js_or (prop item "name") (JStr ""))).

(** The arrays of a status whose items are neither [null] nor [undefined] and
    have a name that is a string or absent. *)
Definition named_items (statusData : jsval) (k : string) : bool :=
  match prop statusData k with
  | JArr l => named_objects "name" l
  | _ => true
  end.

(** [item'] is [item], but for the property [field] where the custom emojis
    have a value for the name of the item. *)
Definition retouched (String_toLowerCase : string -> string)
    (customEmojis : list (string * jsval)) (field : string) (item item' : jsval) : Prop :=
  let emoji := emoji_at customEmojis (lowered_item_name String_toLowerCase item) in
  (∀ k, k ≠ field → own item' k = own item k)
  ∧ own item' field = if truthy emoji then emoji else own item field.

(** A status with two metrics and a personal state. *)
Definition status_with_energy : jsval :=
  JObj [ ("overall_status", JStr "Tired but working");
         ("mood_emoji", JStr "😴");
         ("metrics", JArr [ JObj [("name", JStr "Energy"); ("icon", JStr "🔋")];
                            JObj [("name", JStr "Focus"); ("icon", JStr "🎯")] ]);
         ("personal_states", JArr [ JObj [("name", JStr "Hunger"); ("emoji", JStr "🍽")] ]) ].

(** [v'] is the array [v] with its items retouched, or [v] where that is not
    an array. *)
Definition retouched_items (String_toLowerCase : string -> string)
    (customEmojis : list (string * jsval)) (field : string) (v v' : jsval) : Prop :=
  match v with
  | JArr l => ∃ l', v' = JArr l' ∧ Forall2 (retouched String_toLowerCase customEmojis field) l l'
  | _ => v' = v
  end.

(** *** Characters and levels *)











(** A state whose name, level and time are primitive values, as those of a
    state that was read from JSON text with the schema of the prompt. *)
Definition plain_state (state : jsval) : bool :=
  is_primitive (prop state "name")
  && is_primitive (prop state "level")
  && is_primitive (prop state "time_since_last").

(** An entry of the history as [storeUserStatus] writes it: an object with a
    string as its timestamp. *)
Definition dated_entry (status : jsval) : bool :=
  is_object status && is_string (prop status "timestamp").

(** Custom emojis whose values are primitive, as the strings that
    [setCustomEmoji] writes. *)
Definition plain_emojis (customEmojis : list (string * jsval)) : Prop :=
  Forall (fun kv => is_primitive kv.2 = true) customEmojis.

(** * Properties *)

(** ** Doubles *)

Lemma round_half_even_nearest (x : Q) (k : Z) :
  (Qabs (x - inject_Z (round_half_even x)) <= Qabs (x - inject_Z k))%Q.
Proof.
  unfold round_half_even.
  pose proof (Qfloor_le x) as Hlo. pose proof (Qlt_floor x) as Hhi.
  set (f := Qfloor x) in *.
  rewrite inject_Z_plus in Hhi. change (inject_Z 1) with 1%Q in Hhi.
  assert (Hk : (k <= f)%Z ∨ (f + 1 <= k)%Z) by lia.
  assert (Hk' : (inject_Z k <= inject_Z f)%Q ∨ (inject_Z f + 1 <= inject_Z k)%Q).
  { destruct Hk as [H|H]; [left|right].
    - by rewrite <- Zle_Qle.
    - change 1%Q with (inject_Z 1). rewrite <- inject_Z_plus. by rewrite <- Zle_Qle. }
  clear Hk.
  destruct (Qcompare_spec (x - inject_Z f) (1 # 2)) as [E|E|E].
  - destruct (Z.even f).
    + apply Qabs_case; intros ?; apply Qabs_case; intros ?; destruct Hk'; lra.
    + rewrite inject_Z_plus. change (inject_Z 1) with 1%Q. apply Qabs_case; intros ?; apply Qabs_case; intros ?; destruct Hk'; lra.
  - apply Qabs_case; intros ?; apply Qabs_case; intros ?; destruct Hk'; lra.
  - rewrite inject_Z_plus. change (inject_Z 1) with 1%Q. apply Qabs_case; intros ?; apply Qabs_case; intros ?; destruct Hk'; lra.
Qed.

Lemma pow2_pos (e : Z) : (0 < 2 ^ e)%Q.
Proof. by apply Qpower_0_lt. Qed.

Lemma pow2_le (e1 e2 : Z) : (e1 ≤ e2)%Z → (2 ^ e1 <= 2 ^ e2)%Q.
Proof. intros H. by apply Qpower_le_compat_l. Qed.

Lemma pow2_Z (a : Z) : (0 ≤ a)%Z → (2 ^ a == inject_Z (2 ^ a))%Q.
Proof. intros H. by rewrite Zpower_Qpower. Qed.

Lemma binade_spec (x : Q) :
  (0 < x)%Q → (2 ^ binade x <= x)%Q ∧ (x < 2 ^ (binade x + 1))%Q.
Proof.
  intros Hx. unfold binade.
  destruct x as [n d]. cbn [Qnum Qden].
  assert (Hn : (0 < n)%Z) by (unfold Qlt in Hx; cbn in Hx; lia).
  pose proof (Z.log2_spec n Hn) as [Ha1 Ha2].
  pose proof (Z.log2_spec (Z.pos d) (Pos2Z.is_pos d)) as [Hb1 Hb2].
  pose proof (Z.log2_nonneg n) as Ha0. pose proof (Z.log2_nonneg (Z.pos d)) as Hb0.
  set (a := Z.log2 n) in *. set (b := Z.log2 (Z.pos d)) in *. clearbody a b.
  unfold Z.succ in *.
  assert (Hpa : (0 < 2 ^ a)%Z) by (apply Z.pow_pos_nonneg; lia).
  assert (Hpb : (0 < 2 ^ b)%Z) by (apply Z.pow_pos_nonneg; lia).
  assert (Hup : (n # d < 2 ^ (a - b + 1))%Q).
  { replace (a - b + 1)%Z with ((a + 1) - b)%Z by lia.
    rewrite Qpower_minus by done. rewrite (pow2_Z (a + 1)), (pow2_Z b) by lia.
    apply Qlt_shift_div_l; [by rewrite <- (pow2_Z b) by lia; apply pow2_pos|].
    set (A := (2 ^ (a + 1))%Z) in *. set (B := (2 ^ b)%Z) in *. clearbody A B.
    unfold Qlt, Qmult, inject_Z. cbn. rewrite ?Pos.mul_1_r. nia. }
  assert (Hlo : (2 ^ (a - b - 1) <= n # d)%Q).
  { replace (a - b - 1)%Z with (a - (b + 1))%Z by lia.
    rewrite Qpower_minus by done. rewrite (pow2_Z a), (pow2_Z (b + 1)) by lia.
    apply Qle_shift_div_r; [by rewrite <- (pow2_Z (b + 1)) by lia; apply pow2_pos|].
    set (A := (2 ^ a)%Z) in *. set (B := (2 ^ (b + 1))%Z) in *. clearbody A B.
    unfold Qle, Qmult, inject_Z. cbn. rewrite ?Pos.mul_1_r. nia. }
  destruct (Qle_bool (2 ^ (a - b)) (n # d)) eqn:E.
  - apply Qle_bool_iff in E. done.
  - split; [done|]. replace (a - b - 1 + 1)%Z with (a - b)%Z by lia.
    apply Qnot_le_lt. intros H. apply Qle_bool_iff in H. congruence.
Qed.

Lemma pow2_add (a b : Z) : (2 ^ (a + b) == 2 ^ a * 2 ^ b)%Q.
Proof. by rewrite Qpower_plus. Qed.

Lemma scaled_lt (x : Q) :
  (0 < x)%Q → (x / 2 ^ ulp_exponent x < 2 ^ 53)%Q.
Proof.
  intros Hx. destruct (binade_spec x Hx) as [_ Hup].
  apply Qlt_shift_div_r; [apply pow2_pos|].
  rewrite <- pow2_add. eapply Qlt_le_trans; [exact Hup|].
  apply pow2_le. unfold ulp_exponent. lia.
Qed.

Lemma scaled_ge (x : Q) :
  (0 < x)%Q → ulp_exponent x = (-1074)%Z ∨ (2 ^ 52 <= x / 2 ^ ulp_exponent x)%Q.
Proof.
  intros Hx. destruct (binade_spec x Hx) as [Hlo _].
  unfold ulp_exponent. destruct (Z.max_spec (binade x - 52) (-1074)) as [[? ->]|[? ->]]; [by left|].
  right. apply Qle_shift_div_l; [apply pow2_pos|].
  rewrite <- pow2_add. by replace (52 + (binade x - 52))%Z with (binade x) by lia.
Qed.

Lemma multiple_nearest (x : Q) (k : Z) :
  (Qabs (x - round_positive x) <= Qabs (x - inject_Z k * 2 ^ ulp_exponent x))%Q.
Proof.
  unfold round_positive. set (s := (2 ^ ulp_exponent x)%Q).
  assert (Hs : (0 < s)%Q) by apply pow2_pos.
  pose proof (round_half_even_nearest (x / s) k) as H.
  set (m := round_half_even (x / s)) in *.
  assert (E : ∀ j : Z, (x - inject_Z j * s == (x / s - inject_Z j) * s)%Q).
  { intros j. field. lra. }
  rewrite (E m), (E k), !Qabs_Qmult, (Qabs_pos s) by lra.
  apply Qmult_le_compat_r; [done|lra].
Qed.

Lemma round_half_even_bounds (t : Q) (n : Z) :
  (0 <= t)%Q → (t <= inject_Z n)%Q → (0 ≤ round_half_even t ≤ n)%Z.
Proof.
  intros H0 Hn.
  pose proof (round_half_even_nearest t 0) as N0.
  pose proof (round_half_even_nearest t n) as Nn.
  set (m := round_half_even t) in *.
  split.
  - destruct (Z_lt_le_dec m 0) as [Hm|]; [|done]. exfalso.
    assert (inject_Z m <= inject_Z (-1))%Q by (rewrite <- Zle_Qle; lia).
    change (inject_Z (-1)) with (-1)%Q in *. change (inject_Z 0) with 0%Q in *.
    revert N0. apply Qabs_case; intros ?; apply Qabs_case; intros ?; lra.
  - destruct (Z_lt_le_dec n m) as [Hm|]; [|done]. exfalso.
    assert (inject_Z (n + 1) <= inject_Z m)%Q by (rewrite <- Zle_Qle; lia).
    rewrite inject_Z_plus in *. change (inject_Z 1) with 1%Q in *.
    revert Nn. apply Qabs_case; intros ?; apply Qabs_case; intros ?; lra.
Qed.

Lemma round_positive_bounds (x : Q) :
  (0 < x)%Q → (0 ≤ round_half_even (x / 2 ^ ulp_exponent x) ≤ 2 ^ 53)%Z.
Proof.
  intros Hx. apply round_half_even_bounds.
  - apply Qle_shift_div_l; [apply pow2_pos|]. lra.
  - pose proof (scaled_lt x Hx). rewrite <- pow2_Z by done. lra.
Qed.

Lemma round_positive_representable (x : Q) :
  (0 < x)%Q → representable (round_positive x) ∧ (0 <= round_positive x)%Q.
Proof.
  intros Hx. pose proof (round_positive_bounds x Hx) as [H0 H53]. split.
  - exists (round_half_even (x / 2 ^ ulp_exponent x)), (ulp_exponent x).
    split; [unfold ulp_exponent; lia|]. split; [lia|done].
  - unfold round_positive. apply Qmult_le_0_compat; [|by apply Qlt_le_weak, pow2_pos].
    change 0%Q with (inject_Z 0). by rewrite <- Zle_Qle.
Qed.

Lemma round_positive_nearest (x f : Q) :
  (0 < x)%Q → representable f → (Qabs (x - round_positive x) <= Qabs (x - f))%Q.
Proof.
  intros Hx (m & e & He & Hm & Hf). rewrite Hf.
  destruct (Z_le_gt_dec (ulp_exponent x) e) as [Hle|Hgt].
  - pose proof (multiple_nearest x (m * 2 ^ (e - ulp_exponent x))) as H.
    rewrite inject_Z_mult, <- pow2_Z in H by lia.
    rewrite <- Qmult_assoc, <- pow2_add in H.
    by replace (e - ulp_exponent x + ulp_exponent x)%Z with e in H by lia.
  - destruct (scaled_ge x Hx) as [E|Hge]; [lia|].
    pose proof (multiple_nearest x (2 ^ 52)) as H.
    rewrite <- pow2_Z in H by done.
    set (s := (2 ^ ulp_exponent x)%Q) in *.
    set (c := (2 ^ 52)%Q) in *.
    assert (Hs : (0 < s)%Q) by apply pow2_pos.
    assert (Hg : (c * s <= x)%Q).
    { assert (E : (x == x / s * s)%Q) by (field; lra).
      rewrite E. apply Qmult_le_compat_r; lra. }
    assert (Hfg : (inject_Z m * 2 ^ e <= c * s)%Q).
    { apply Qle_trans with (inject_Z (2 ^ 53) * 2 ^ e)%Q.
      - apply Qmult_le_compat_r; [|by apply Qlt_le_weak, pow2_pos]. rewrite <- Zle_Qle. lia.
      - rewrite <- pow2_Z by done. unfold s, c. rewrite <- !pow2_add. apply pow2_le. lia. }
    eapply Qle_trans; [exact H|].
    rewrite (Qabs_pos (x - c * s)) by lra.
    apply Qabs_case; intros ?; lra.
Qed.

Lemma round_positive_lt (x y : Q) :
  (0 < x)%Q → (x < y)%Q → (round_positive x <= round_positive y)%Q.
Proof.
  intros Hx Hxy. assert (Hy : (0 < y)%Q) by lra.
  destruct (round_positive_representable x Hx) as [Rx _].
  destruct (round_positive_representable y Hy) as [Ry _].
  pose proof (round_positive_nearest x _ Hx Ry) as Nx.
  pose proof (round_positive_nearest y _ Hy Rx) as Ny.
  apply Qnot_lt_le. intros Hlt.
  revert Nx Ny.
  apply Qabs_case; intros ?; apply Qabs_case; intros ?;
    apply Qabs_case; intros ?; apply Qabs_case; intros ?; lra.
Qed.


Lemma Qabs_Qred (q : Q) : (Qabs (Qred q) == Qabs q)%Q.
Proof. by rewrite Qred_correct. Qed.

Lemma round_double_comp (x y : Q) : (x == y)%Q → round_double x = round_double y.
Proof.
  intros E. unfold round_double. rewrite (Qred_complete _ _ E).
  assert (Qle_bool 0 x = Qle_bool 0 y) as ->; [|done].
  destruct (Qle_bool 0 x) eqn:Ex, (Qle_bool 0 y) eqn:Ey; try done.
  - apply Qle_bool_iff in Ex. rewrite E in Ex. apply Qle_bool_iff in Ex. congruence.
  - apply Qle_bool_iff in Ey. rewrite <- E in Ey. apply Qle_bool_iff in Ey. congruence.
Qed.

Lemma round_double_zero (q : Q) : (q == 0)%Q → round_double q = 0%Q.
Proof. intros E. by rewrite (round_double_comp q 0 E). Qed.

Lemma round_double_pos (q : Q) :
  (0 < q)%Q → (round_double q == round_positive (Qabs (Qred q)))%Q ∧ (0 < Qabs (Qred q))%Q
              ∧ (Qabs (Qred q) == q)%Q.
Proof.
  intros Hq. unfold round_double.
  assert (E : (Qabs (Qred q) == q)%Q) by (rewrite Qabs_Qred, Qabs_pos; lra).
  destruct (Qeq_bool (Qabs (Qred q)) 0) eqn:E0.
  { apply Qeq_bool_iff in E0. lra. }
  assert (Qle_bool 0 q = true) as -> by (apply Qle_bool_iff; lra).
  split; [apply Qred_correct|]. split; [lra|done].
Qed.

Lemma round_double_neg (q : Q) :
  (q < 0)%Q → (round_double q == - round_positive (Qabs (Qred q)))%Q ∧ (0 < Qabs (Qred q))%Q
              ∧ (Qabs (Qred q) == - q)%Q.
Proof.
  intros Hq. unfold round_double.
  assert (E : (Qabs (Qred q) == - q)%Q) by (rewrite Qabs_Qred, Qabs_neg; lra).
  destruct (Qeq_bool (Qabs (Qred q)) 0) eqn:E0.
  { apply Qeq_bool_iff in E0. lra. }
  assert (Qle_bool 0 q = false) as ->.
  { destruct (Qle_bool 0 q) eqn:E1; [|done]. apply Qle_bool_iff in E1. lra. }
  split; [apply Qred_correct|]. split; [lra|done].
Qed.

Lemma round_double_nonneg (q : Q) : (0 <= q)%Q → (0 <= round_double q)%Q.
Proof.
  intros Hq. destruct (Qlt_le_dec 0 q) as [Hpos|Hle].
  - destruct (round_double_pos q Hpos) as (-> & Ha & _).
    by apply round_positive_representable.
  - rewrite round_double_zero; lra.
Qed.

Lemma round_double_nonpos (q : Q) : (q <= 0)%Q → (round_double q <= 0)%Q.
Proof.
  intros Hq. destruct (Qlt_le_dec q 0) as [Hneg|Hle].
  - destruct (round_double_neg q Hneg) as (-> & Ha & _).
    pose proof (proj2 (round_positive_representable _ Ha)). lra.
  - rewrite round_double_zero; lra.
Qed.

(** Rounding to the nearest double is monotone. *)
Lemma round_double_le (x y : Q) : (x <= y)%Q → (round_double x <= round_double y)%Q.
Proof.
  intros Hxy. destruct (Qeq_dec x y) as [E|Hne].
  { rewrite (round_double_comp x y E). lra. }
  assert (Hlt : (x < y)%Q).
  { apply Qnot_le_lt. intros H. apply Hne. lra. }
  destruct (Qlt_le_dec 0 x) as [Hx|Hx].
  - destruct (round_double_pos x Hx) as (-> & Ha & Ea).
    destruct (round_double_pos y) as (-> & Hb & Eb); [lra|].
    apply round_positive_lt; lra.
  - destruct (Qlt_le_dec y 0) as [Hy|Hy].
    + destruct (round_double_neg y Hy) as (-> & Hb & Eb).
      destruct (round_double_neg x) as (-> & Ha & Ea); [lra|].
      assert (round_positive (Qabs (Qred y)) <= round_positive (Qabs (Qred x)))%Q; [|lra].
      apply round_positive_lt; lra.
    + pose proof (round_double_nonpos x Hx). pose proof (round_double_nonneg y Hy). lra.
Qed.





Example round_double_third : round_double (1 # 3) = (6004799503160661 # 18014398509481984)%Q.
Proof. vm_compute. reflexivity. Qed.
Example round_double_tenth3 : round_double (3 # 10) = (5404319552844595 # 18014398509481984)%Q.
Proof. vm_compute. reflexivity. Qed.

(** ** Strings *)










(** *** White space *)











(** *** Decimal digits *)








(** *** [parseInt] *)





(** ** Objects *)

Lemma lookup_set_field_eq k v fs : lookup_field k (set_field k v fs) = v.
Proof.
  induction fs as [|[k' v'] fs IH]; simpl.
  - by rewrite String.eqb_refl.
  - destruct (String.eqb k k') eqn:E; simpl; rewrite ?String.eqb_refl, ?E; done.
Qed.

Lemma lookup_set_field_ne k k' v fs :
  k ≠ k' → lookup_field k (set_field k' v fs) = lookup_field k fs.
Proof.
  intros Hne. induction fs as [|[k0 v0] fs IH]; simpl.
  - destruct (String.eqb k k') eqn:E; [apply String.eqb_eq in E; done | done].
  - destruct (String.eqb k' k0) eqn:E; simpl.
    + apply String.eqb_eq in E; subst k0.
      destruct (String.eqb k k') eqn:E'; [apply String.eqb_eq in E'; done | done].
    + destruct (String.eqb k k0); done.
Qed.

Lemma get_not_nullish v k : nullish v = false → get v k = Ok (prop v k).
Proof. by destruct v. Qed.

Lemma truthy_not_nullish v : truthy v = true → nullish v = false.
Proof. by destruct v. Qed.

(** ** The relevance table *)

Lemma Math_max_eq a b : (Math_max a b == Qmax a b)%Q.
Proof. unfold Math_max. apply Qred_correct. Qed.

(** Every category of the table has the score [max(0, 1 - h / span)]. *)
Lemma relevanceFactors_formula category H h :
  halfLifeHours category = Some H →
  assoc category (relevanceFactors h) = Some (decay H h).
Proof.
  unfold halfLifeHours, relevanceFactors. cbn [assoc].
  repeat match goal with
         | |- context [String.eqb category ?s] =>
             destruct (String.eqb_spec category s) as [->|?];
             [cbn; by intros [= <-] | ]
         end.
  done.
Qed.

Lemma halfLifeHours_pos category H : halfLifeHours category = Some H → (0 < H)%Q.
Proof.
  unfold halfLifeHours. cbn [assoc].
  repeat match goal with
         | |- context [String.eqb category ?s] =>
             destruct (String.eqb category s); [intros [= <-]; reflexivity | ]
         end.
  done.
Qed.

Lemma round_double_one : round_double 1 = 1%Q.
Proof. vm_compute. reflexivity. Qed.

Lemma decay_nonneg H h : (0 <= decay H h)%Q.
Proof. unfold decay. rewrite Math_max_eq. apply Q.le_max_l. Qed.

Lemma decay_le_one H h : (0 < H → 0 <= h → decay H h <= 1)%Q.
Proof.
  intros HH Hh. unfold decay. rewrite Math_max_eq. apply Q.max_lub; [discriminate|].
  unfold Number_sub. rewrite <- round_double_one at 2. apply round_double_le.
  assert (0 <= Number_div h H)%Q; [|lra].
  apply round_double_nonneg. apply Qle_shift_div_l; [done|]. lra.
Qed.

Lemma decay_at_zero H : (decay H 0 == 1)%Q.
Proof.
  unfold decay, Number_sub, Number_div.
  rewrite (round_double_zero (0 / H)) by (unfold Qdiv; ring).
  rewrite (round_double_comp (1 - 0) 1) by ring.
  rewrite round_double_one. reflexivity.
Qed.

Lemma decay_after_half_life H h : (0 < H → H <= h → decay H h == 0)%Q.
Proof.
  intros HH Hh. unfold decay. rewrite Math_max_eq. apply Q.max_l.
  unfold Number_sub, Number_div. apply round_double_nonpos.
  assert (1 <= round_double (h / H))%Q; [|lra].
  rewrite <- round_double_one at 1. apply round_double_le.
  apply Qle_shift_div_l; [done|]. lra.
Qed.

Lemma decay_monotone H h1 h2 : (0 < H → h1 <= h2 → decay H h2 <= decay H h1)%Q.
Proof.
  intros HH Hh. unfold decay. rewrite !Math_max_eq. apply Q.max_le_compat_l.
  unfold Number_sub, Number_div. apply round_double_le.
  assert (round_double (h1 / H) <= round_double (h2 / H))%Q; [|lra].
  apply round_double_le. unfold Qdiv. apply Qmult_le_compat_r; [done|].
  apply Qlt_le_weak, Qinv_lt_0_compat, HH.
Qed.

(** The span of a category with a longer span is no shorter lived: the scores
    of the table are ordered as the divisors are. *)
Lemma decay_le_span H1 H2 h : (0 < H1 → H1 <= H2 → 0 <= h → decay H1 h <= decay H2 h)%Q.
Proof.
  intros HH1 HH Hh. unfold decay. rewrite !Math_max_eq. apply Q.max_le_compat_l.
  unfold Number_sub, Number_div. apply round_double_le.
  assert (round_double (h / H2) <= round_double (h / H1))%Q; [|lra].
  apply round_double_le. unfold Qdiv. rewrite !(Qmult_comm h).
  apply Qmult_le_compat_r; [|done].
  assert (0 < H2)%Q by lra.
  apply (Qmult_le_l _ _ (H1 * H2)); [nra|].
  assert (E1 : (H1 * H2 * / H2 == H1)%Q) by (field; lra).
  assert (E2 : (H1 * H2 * / H1 == H2)%Q) by (field; lra).
  by rewrite E1, E2.
Qed.

(** The score that [relevanceFactors[type] || relevanceFactors.default] gives to
    an element of a category of the table: the score of the category while it
    is not zero, and the score of [default] from then on, since the score [0]
    of the category is falsy. *)
Lemma score_or_default category H h :
  halfLifeHours category = Some H →
  js_or (relevanceFactors_get h category) (relevanceFactors_get h "default")
  = if Qeq_bool (decay H h) 0 then relevanceFactors_get h "default"
    else relevanceFactors_get h category.
Proof.
  intros HH.
  assert (E : relevanceFactors_get h category = JNum (decay H h)).
  { unfold relevanceFactors_get. by rewrite (relevanceFactors_formula category H h HH). }
  rewrite E. unfold js_or. cbn [truthy]. by destruct (Qeq_bool (decay H h) 0).
Qed.

(** C1, at the input of the first example scenario. Eight hours after the
    entry was stored the table gives the category physical (span 6 hours) the
    score [max(0, 1 - 8/6) = 0], but the metric named Energy is handed on with
    the score 0.5555555555555556: the zero is falsy, and
    [relevanceFactors[type] || relevanceFactors.default] puts the score of
    [default], the double of [1 - 8/18], in its place. *)
Theorem C1_energy_metric_scored_by_default :
  (∃ t, Date_ms_iso (prop entry_0700 "timestamp") = Some t
        ∧ (hoursDifference_of at_1500 t == 8)%Q)
  ∧ (∃ score, assoc "physical" (relevanceFactors 8) = Some score ∧ (score == 0)%Q)
  ∧ assoc "default" (relevanceFactors 8) = Some (2501999792983609 # 4503599627370496)%Q
  ∧ ∃ out metric,
      calculateContextRelevance Date_ms_iso Number_toString_plain Native_call_Object
                                at_1500 entry_0700 = Ok out
      ∧ prop (prop out "processed_status") "metrics" = JArr [metric]
      ∧ prop metric "name" = JStr "Energy"
      ∧ prop metric "relevance_score" = JNum (2501999792983609 # 4503599627370496).
Proof.
  split; [eexists; split; [reflexivity|vm_compute; reflexivity]|]. split.
  - eexists. split; [reflexivity|]. vm_compute. reflexivity.
  - split; [vm_compute; reflexivity|].
    eexists _, _. split; [vm_compute; reflexivity|].
    repeat split; reflexivity.
Qed.

(** ** Personal states *)

Lemma same_value_zero_sym a b : same_value_zero a b = same_value_zero b a.
Proof.
  destruct a, b; cbn; try done.
  - by destruct b, b0.
  - apply Qeq_bool_comm.
  - apply String.eqb_sym.
Qed.

Lemma same_value_zero_trans a b c :
  same_value_zero a b = true → same_value_zero b c = true → same_value_zero a c = true.
Proof.
  destruct a, b; cbn; try done; destruct c; cbn; try done.
  - destruct b, b0, b1; done.
  - apply Qeq_bool_trans.
  - rewrite !String.eqb_eq. congruence.
Qed.

Lemma Map_get_set k k' v m :
  Map_get k (Map_set k' v m) = if same_value_zero k k' then Some v else Map_get k m.
Proof.
  induction m as [|[k0 v0] m IH]; cbn; [done|].
  destruct (same_value_zero k' k0) eqn:E0; cbn.
  - destruct (same_value_zero k k') eqn:E1.
    + by rewrite (same_value_zero_trans _ _ _ E1 E0).
    + destruct (same_value_zero k k0) eqn:E2; [|done].
      rewrite same_value_zero_sym in E0.
      by rewrite (same_value_zero_trans _ _ _ E2 E0) in E1.
  - rewrite IH. destruct (same_value_zero k k0) eqn:E2; [|done].
    destruct (same_value_zero k k') eqn:E1; [|done].
    rewrite same_value_zero_sym in E1.
    by rewrite (same_value_zero_trans _ _ _ E1 E2) in E0.
Qed.

Lemma find_snoc {A} (f : A → bool) l x :
  List.find f (l ++ [x]) =
  match List.find f l with Some y => Some y | None => if f x then Some x else None end.
Proof. induction l as [|a l IH]; cbn; [done|]. by destruct (f a). Qed.

(** What the map of the previous states holds for a name: the last valid
    previous state with this name. *)
Lemma Map_get_prevStateMap name previousStates :
  Map_get name (prevStateMap_of previousStates) = last_match name previousStates.
Proof.
  unfold prevStateMap_of, last_match.
  enough (∀ m, Map_get name
                 (fold_left (fun m state =>
                               if truthy state && truthy (prop state "name")
                               then Map_set (prop state "name") state m else m)
                            previousStates m)
               = match List.find (same_name name) (rev previousStates) with
                 | Some p => Some p
                 | None => Map_get name m
                 end) as H.
  { rewrite H. by destruct (List.find _ _). }
  induction previousStates as [|p ps IH]; intros m; cbn [fold_left rev]; [done|].
  rewrite IH, find_snoc. destruct (List.find _ (rev ps)); [done|].
  unfold same_name, valid_state.
  destruct (truthy p && truthy (prop p "name")); cbn; [|done].
  rewrite Map_get_set. by destruct (same_value_zero _ _).
Qed.



Lemma last_match_Some name previousStates p :
  last_match name previousStates = Some p →
  ∃ before after, previousStates = (before ++ p :: after)%list
                  ∧ same_name name p = true
                  ∧ ∀ p', p' ∈ after → same_name name p' = false.
Proof.
  unfold last_match. intros H.
  destruct (List.find_some _ _ H) as [_ Hp].
  revert H. generalize (rev_involutive previousStates).
  generalize (rev previousStates) as l. intros l <-.
  induction l as [|x l IH]; cbn; [done|].
  destruct (same_name name x) eqn:E.
  - intros [= ->]. exists (rev l), []. split; [done|]. split; [done|].
    intros p' Hp'. by apply elem_of_nil in Hp'.
  - intros H. destruct (IH H) as (before & after & Hl & Hs & Ha).
    exists before, (after ++ [x])%list. split; [|split; [done|]].
    + rewrite Hl. by rewrite <- app_assoc.
    + intros p' [Hp'|Hp']%elem_of_app; [by apply Ha|].
      apply list_elem_of_singleton in Hp'. by subst.
Qed.



Lemma last_match_elem name previousStates p :
  last_match name previousStates = Some p → p ∈ previousStates.
Proof.
  intros (before & after & -> & _)%last_match_Some.
  apply elem_of_app. right. apply elem_of_cons. by left.
Qed.

(** *** Levels *)




Section PersonalStates.

Variable Date_ms : jsval → option Z.
Variable Number_toString : Q → string.
Variable Native_call : string → jsval → result jsval.
Variable now : Z.

Lemma ToString_primitive v :
  is_primitive v = true →
  ToString Number_toString Native_call v = Ok (primitive_ToString Number_toString v).
Proof. by destruct v. Qed.



Lemma valid_state_object state :
  valid_state state = true → ∃ fs, state = JObj fs.
Proof.
  unfold valid_state. destruct state; cbn; rewrite ?andb_false_r; try done. by eexists.
Qed.

(** *** One state *)

(** What [updatePersonalStateTimes] makes of a current state, when it makes
    something of it. *)
Lemma update_state_Ok prevStateMap timeSinceUpdateStr currentState updatedState :
  update_state Number_toString Native_call prevStateMap timeSinceUpdateStr currentState
  = Ok updatedState →
  if valid_state currentState
  then
    ∃ fs, currentState = JObj fs
      ∧ match Map_get (prop currentState "name") prevStateMap with
        | None => updatedState = JObj (set_field "trend" (JStr "new") fs)
        | Some prevState =>
            ∃ prevLevel currentLevel,
              parseInt Number_toString Native_call (prop prevState "level") = Ok prevLevel
              ∧ parseInt Number_toString Native_call (prop currentState "level")
                = Ok currentLevel
              ∧ if negb (truthy (prop currentState "time_since_last"))
                   && truthy (prop prevState "time_since_last")
                   && truthy timeSinceUpdateStr
                then
                  ∃ time,
                    updateTimeElapsed Number_toString Native_call
                      (prop prevState "time_since_last") timeSinceUpdateStr = Ok time
                    ∧ updatedState
                      = JObj (set_field "time_since_last" time
                                (set_field "trend" (JStr (trend_of currentLevel prevLevel)) fs))
                else
                  updatedState
                  = JObj (set_field "trend" (JStr (trend_of currentLevel prevLevel)) fs)
        end
  else updatedState = currentState.
Proof.
  unfold update_state.
  replace (negb (truthy currentState) || negb (truthy (prop currentState "name")))
    with (negb (valid_state currentState))
    by (unfold valid_state; by destruct (truthy currentState), (truthy (prop _ _))).
  destruct (valid_state currentState) eqn:Hv; cbn [negb]; [|by intros [= <-]].
  destruct (valid_state_object _ Hv) as [fs ->]. cbn [own_props].
  intros H. exists fs. split; [done|].
  destruct (Map_get _ _) as [prevState|]; [|by injection H as <-].
  destruct (parseInt _ _ (prop prevState "level")) as [prevLevel|] eqn:Ep; [|done].
  destruct (parseInt _ _ (prop (JObj fs) "level")) as [currentLevel|] eqn:Ec; [|done].
  cbn [mbind result_bind] in H. exists prevLevel, currentLevel. split; [done|]. split; [done|].
  rewrite lookup_set_field_ne in H by done. cbn [prop] in H |- *.
  destruct (negb (truthy (lookup_field "time_since_last" fs))
            && truthy (prop prevState "time_since_last") && truthy timeSinceUpdateStr).
  - destruct (updateTimeElapsed _ _ _ _) as [time|]; [|done].
    cbn [mbind result_bind] in H. exists time. split; [done|].
    destruct (ToString _ _ (lookup_field "name" fs)); [|done].
    cbn [mbind result_bind] in H.
    destruct (ToString _ _ time); [|done]. by injection H as <-.
  - destruct (truthy (lookup_field "time_since_last" fs)).
    + destruct (ToString _ _ (lookup_field "name" fs)); [|done].
      cbn [mbind result_bind] in H.
      destruct (ToString _ _ (lookup_field "time_since_last" fs)); [|done].
      by injection H as <-.
    + destruct (ToString _ _ (lookup_field "name" fs)); [|done]. by injection H as <-.
Qed.

Lemma updateTimeElapsed_primitive prevTimeStr additionalTimeStr :
  is_primitive prevTimeStr = true → is_primitive additionalTimeStr = true →
  ∃ time, updateTimeElapsed Number_toString Native_call prevTimeStr additionalTimeStr = Ok time
          ∧ is_primitive time = true.
Proof.
  intros Hp Ha. unfold updateTimeElapsed.
  rewrite !ToString_primitive by done. cbn [mbind result_bind].
  destruct (truthy prevTimeStr && negb (strict_eq_string prevTimeStr "just now")).
  - by eexists.
  - eexists. split; [done|]. unfold js_or.
    destruct (truthy prevTimeStr); [done|]. by destruct (truthy additionalTimeStr).
Qed.

(** A state of primitive values is carried over without an exception. *)
Lemma update_state_plain prevStateMap timeSinceUpdateStr currentState :
  plain_state currentState = true →
  (∀ prevState, Map_get (prop currentState "name") prevStateMap = Some prevState →
                plain_state prevState = true) →
  is_primitive timeSinceUpdateStr = true →
  ∃ updatedState,
    update_state Number_toString Native_call prevStateMap timeSinceUpdateStr currentState
    = Ok updatedState.
Proof.
  intros Hc Hprev Hts. unfold update_state.
  destruct (negb (truthy currentState) || negb (truthy (prop currentState "name"))) eqn:Hv;
    [by eexists|].
  apply orb_false_iff in Hv as [Hv1%negb_false_iff Hv2%negb_false_iff].
  destruct (valid_state_object currentState) as [fs ->].
  { unfold valid_state. by rewrite Hv1, Hv2. }
  unfold plain_state in Hc. apply andb_true_iff in Hc as [[Hcn Hcl]%andb_true_iff Hct].
  cbn [own_props prop] in *.
  destruct (Map_get _ _) as [prevState|]; [|by eexists].
  specialize (Hprev prevState eq_refl).
  unfold plain_state in Hprev. apply andb_true_iff in Hprev as [[Hpn Hpl]%andb_true_iff Hpt].
  unfold parseInt. rewrite !ToString_primitive by done. cbn [mbind result_bind].
  rewrite lookup_set_field_ne by done.
  destruct (negb (truthy (lookup_field "time_since_last" fs))
            && truthy (prop prevState "time_since_last") && truthy timeSinceUpdateStr).
  - destruct (updateTimeElapsed_primitive _ _ Hpt Hts) as (time & -> & Htime).
    cbn [mbind result_bind]. rewrite ?ToString_primitive by done. by eexists.
  - destruct (truthy (lookup_field "time_since_last" fs));
      rewrite ?ToString_primitive by done; by eexists.
Qed.

(** *** All states *)

Lemma mapM_Ok {A B} (f : A → result B) (l : list A) (l' : list B) :
  mapM f l = Ok l' ↔ Forall2 (fun x y => f x = Ok y) l l'.
Proof.
  revert l'. induction l as [|x l IH]; intros l'; cbn.
  - split; [intros [= <-]; constructor | by intros ->%Forall2_nil_inv_l].
  - destruct (f x) as [y|e] eqn:E; cbn.
    + destruct (mapM f l) as [k|e] eqn:Ek; cbn.
      * split.
        -- intros [= <-]. constructor; [done|]. by apply IH.
        -- intros (y' & k' & Hy & Hk & ->)%Forall2_cons_inv_l.
           rewrite E in Hy. injection Hy as <-. apply IH in Hk. by injection Hk as <-.
      * split; [done|].
        intros (y' & k' & Hy & Hk & ->)%Forall2_cons_inv_l. by apply IH in Hk.
    + split; [done|].
      intros (y' & k' & Hy & Hk & ->)%Forall2_cons_inv_l. by rewrite E in Hy.
Qed.

Lemma mapM_total {A B} (f : A → result B) (l : list A) :
  Forall (fun x => ∃ y, f x = Ok y) l → ∃ l', mapM f l = Ok l'.
Proof.
  induction 1 as [|x l [y Hy] _ [l' Hl']]; cbn; [by eexists|].
  rewrite Hy. cbn. rewrite Hl'. cbn. by eexists.
Qed.

Lemma getTimeSinceUpdate_primitive previousTimestampISO :
  is_primitive
    (if truthy previousTimestampISO
     then JStr (getTimeSinceUpdate Date_ms Number_toString Native_call now previousTimestampISO)
     else JNull) = true.
Proof. by destruct (truthy previousTimestampISO). Qed.

(** What [updatePersonalStateTimes] returns, when it returns: one state for
    each current state, made by [update_state]. *)
Lemma updatePersonalStateTimes_Ok previousStates currentStates previousTimestampISO out :
  updatePersonalStateTimes Date_ms Number_toString Native_call now
    previousStates currentStates previousTimestampISO = Ok out →
  ∃ updated,
    out = JArr updated
    ∧ Forall2 (fun currentState updatedState =>
                 update_state Number_toString Native_call
                   (prevStateMap_of (array_or_empty previousStates))
                   (if truthy previousTimestampISO
                    then JStr (getTimeSinceUpdate Date_ms Number_toString Native_call now
                                 previousTimestampISO)
                    else JNull)
                   currentState = Ok updatedState)
              (array_or_empty currentStates) updated.
Proof.
  unfold updatePersonalStateTimes.
  destruct (mapM _ _) as [updated|] eqn:E; [|done].
  intros [= <-]. exists updated. split; [done|]. by apply mapM_Ok.
Qed.

(** States of primitive values are carried over without an exception. *)
Lemma updatePersonalStateTimes_plain previousStates currentStates previousTimestampISO :
  Forall (fun state => plain_state state = true) (array_or_empty previousStates) →
  Forall (fun state => plain_state state = true) (array_or_empty currentStates) →
  ∃ out, updatePersonalStateTimes Date_ms Number_toString Native_call now
           previousStates currentStates previousTimestampISO = Ok out.
Proof.
  intros Hprev Hcur. unfold updatePersonalStateTimes.
  destruct (mapM_total
              (update_state Number_toString Native_call
                 (prevStateMap_of (array_or_empty previousStates))
                 (if truthy previousTimestampISO
                  then JStr (getTimeSinceUpdate Date_ms Number_toString Native_call now
                               previousTimestampISO)
                  else JNull))
              (array_or_empty currentStates)) as [updated E].
  - eapply Forall_impl; [exact Hcur|]. intros currentState Hc.
    apply update_state_plain; [done| |apply getTimeSinceUpdate_primitive].
    intros prevState Hm. rewrite Map_get_prevStateMap in Hm.
    apply last_match_elem in Hm. by eapply Forall_forall in Hprev.
  - rewrite E. by eexists.
Qed.



(** *** Time since the need was last met *)

(** A time that the update supplies is kept as it is. *)
Lemma update_state_time_supplied prevStateMap timeSinceUpdateStr currentState updatedState :
  update_state Number_toString Native_call prevStateMap timeSinceUpdateStr currentState
  = Ok updatedState →
  valid_state currentState = true →
  truthy (prop currentState "time_since_last") = true →
  prop updatedState "time_since_last" = prop currentState "time_since_last".
Proof.
  intros H%update_state_Ok Hv Ht. rewrite Hv in H. destruct H as (fs & -> & H).
  rewrite Ht in H. cbn [negb andb] in H.
  destruct (Map_get _ _) as [prevState|].
  - destruct H as (prevLevel & currentLevel & _ & _ & ->). cbn [prop].
    by rewrite lookup_set_field_ne.
  - subst updatedState. cbn [prop]. by rewrite lookup_set_field_ne.
Qed.

(** A time that the update leaves out is made from the time of the matching
    previous state, when that state has one and the previous snapshot has a
    timestamp. *)
Lemma update_state_time_derived
    prevStateMap timeSinceUpdateStr currentState prevState updatedState :
  update_state Number_toString Native_call prevStateMap timeSinceUpdateStr currentState
  = Ok updatedState →
  valid_state currentState = true →
  Map_get (prop currentState "name") prevStateMap = Some prevState →
  truthy (prop currentState "time_since_last") = false →
  truthy (prop prevState "time_since_last") = true →
  truthy timeSinceUpdateStr = true →
  updateTimeElapsed Number_toString Native_call (prop prevState "time_since_last")
    timeSinceUpdateStr
  = Ok (prop updatedState "time_since_last").
Proof.
  intros H%update_state_Ok Hv Hm Hc Hp Ht. rewrite Hv in H. destruct H as (fs & -> & H).
  rewrite Hm, Hc, Hp, Ht in H. cbn [negb andb] in H.
  destruct H as (prevLevel & currentLevel & _ & _ & time & -> & ->).
  cbn [prop]. by rewrite lookup_set_field_eq.
Qed.

(** Otherwise the state keeps what it had: no time. *)
Lemma update_state_time_unset prevStateMap timeSinceUpdateStr currentState updatedState :
  update_state Number_toString Native_call prevStateMap timeSinceUpdateStr currentState
  = Ok updatedState →
  valid_state currentState = true →
  truthy (prop currentState "time_since_last") = false →
  match Map_get (prop currentState "name") prevStateMap with
  | Some prevState =>
      truthy (prop prevState "time_since_last") && truthy timeSinceUpdateStr = false
  | None => True
  end →
  prop updatedState "time_since_last" = prop currentState "time_since_last".
Proof.
  intros H%update_state_Ok Hv Hc Hm. rewrite Hv in H. destruct H as (fs & -> & H).
  rewrite Hc in H. cbn [negb] in H.
  destruct (Map_get _ _) as [prevState|].
  - rewrite andb_true_l, Hm in H.
    destruct H as (prevLevel & currentLevel & _ & _ & ->). cbn [prop].
    by rewrite lookup_set_field_ne.
  - subst updatedState. cbn [prop]. by rewrite lookup_set_field_ne.
Qed.

(** The derived time is the previous time, " + ", and the time since the
    previous snapshot, unless the previous time is "just now". *)
Lemma updateTimeElapsed_concat prevTimeStr additionalTimeStr prev additional :
  truthy prevTimeStr = true →
  prevTimeStr ≠ JStr "just now" →
  ToString Number_toString Native_call prevTimeStr = Ok prev →
  ToString Number_toString Native_call additionalTimeStr = Ok additional →
  updateTimeElapsed Number_toString Native_call prevTimeStr additionalTimeStr
  = Ok (JStr (prev ++ " + " ++ additional)).
Proof.
  intros Ht Hne Hp Ha. unfold updateTimeElapsed. rewrite Hp, Ha, Ht.
  cbn [mbind result_bind].
  replace (strict_eq_string prevTimeStr "just now") with false; [done|].
  destruct prevTimeStr; try done. cbn. symmetry. apply String.eqb_neq. congruence.
Qed.

(** A previous time "just now" stays "just now", whatever time has passed. *)
Lemma updateTimeElapsed_just_now additionalTimeStr additional :
  ToString Number_toString Native_call additionalTimeStr = Ok additional →
  updateTimeElapsed Number_toString Native_call (JStr "just now") additionalTimeStr
  = Ok (JStr "just now").
Proof. intros Ha. unfold updateTimeElapsed. cbn. by rewrite Ha. Qed.

End PersonalStates.

(** C5, at a failing input. The previous state of Hunger was stored two hours
    ago with the time "just now"; the update leaves the time out. The time is
    neither made from the previous time and the two hours nor left unset: the
    state is handed on with "just now", which the completion did not say.
    [updateTimeElapsed] returns [prevTimeStr || additionalTimeStr] where its
    comment says the newer string comes first. *)
Theorem C5_just_now_is_carried_over :
  getTimeSinceUpdate Date_ms_iso Number_toString_plain Native_call_Object at_1500
    (JStr "2025-04-28T13:00:00.000Z") = "2h"
  ∧ updatePersonalStateTimes Date_ms_iso Number_toString_plain Native_call_Object at_1500
      (JArr [ JObj [ ("name", JStr "Hunger"); ("level", JNum 4);
                     ("time_since_last", JStr "just now") ] ])
      (JArr [ JObj [ ("name", JStr "Hunger"); ("level", JNum 1) ] ])
      (JStr "2025-04-28T13:00:00.000Z")
    = Ok (JArr [ JObj [ ("name", JStr "Hunger"); ("level", JNum 1);
                        ("trend", JStr "decreasing");
                        ("time_since_last", JStr "just now") ] ]).
Proof. split; vm_compute; reflexivity. Qed.



(** ** The context filter *)


Lemma has_relevance_retained t m :
  nullish m = false → has_relevance t m = Ok (retained t m).
Proof. intros Hm. unfold has_relevance. by rewrite (get_not_nullish _ _ Hm). Qed.

Lemma filterM_has_relevance t l :
  Forall (fun m => nullish m = false) l →
  filterM (has_relevance t) l = Ok (List.filter (retained t) l).
Proof.
  induction 1 as [|m l Hm _ IH]; cbn [filterM List.filter]; [done|].
  rewrite (has_relevance_retained _ _ Hm), IH. done.
Qed.

Lemma array_of_objects_elements processed_status k :
  array_of_objects processed_status k = true →
  ∃ l, elements_of processed_status k = Some l
       ∧ js_or (prop processed_status k) (JArr []) = JArr l
       ∧ Forall (fun m => nullish m = false) l.
Proof.
  unfold array_of_objects, elements_of.
  destruct (js_or _ _) as [| | | | |l| |]; try done.
  intros H. exists l. split; [done|]. split; [done|].
  apply Forall_forall. intros m Hm. rewrite forallb_forall in H.
  apply negb_true_iff, H. by apply list_elem_of_In.
Qed.

Lemma array_filter_objects processed_status k t l :
  js_or (prop processed_status k) (JArr []) = JArr l →
  Forall (fun m => nullish m = false) l →
  array_filter (js_or (prop processed_status k) (JArr [])) (has_relevance t)
  = Ok (JArr (List.filter (retained t) l)).
Proof.
  intros -> Hl. unfold array_filter. cbn. by rewrite filterM_has_relevance.
Qed.

(** *** Exceptions inside the [try] *)

Lemma mapM_throws (f : jsval → result jsval) l m :
  m ∈ l → (∃ e, f m = Throw e) → ∃ e, mapM f l = Throw e.
Proof.
  intros Hm Hf. induction l as [|x l IH]; [by apply elem_of_nil in Hm|].
  cbn. destruct (f x) as [y|e] eqn:Ex; cbn; [|by eexists].
  apply elem_of_cons in Hm as [->|Hm].
  - destruct Hf as [e He]. congruence.
  - destruct (IH Hm) as [e ->]. cbn. by eexists.
Qed.

Lemma filterM_throws (p : jsval → result bool) l m :
  m ∈ l → (∃ e, p m = Throw e) → ∃ e, filterM p l = Throw e.
Proof.
  intros Hm Hp. induction l as [|x l IH]; [by apply elem_of_nil in Hm|].
  cbn. destruct (p x) as [b|e] eqn:Ex; cbn; [|by eexists].
  apply elem_of_cons in Hm as [->|Hm].
  - destruct Hp as [e He]. congruence.
  - destruct (IH Hm) as [e ->]. cbn. by eexists.
Qed.

Lemma get_nullish v k : nullish v = true → ∃ e, get v k = Throw e.
Proof. destruct v; try done; by eexists. Qed.

Lemma elements_of_js_or processed_status k l :
  elements_of processed_status k = Some l →
  js_or (prop processed_status k) (JArr []) = JArr l.
Proof. unfold elements_of. destruct (js_or _ _); try done. by intros [= ->]. Qed.

Lemma array_filter_throws processed_status k t l m :
  elements_of processed_status k = Some l → m ∈ l → nullish m = true →
  ∃ e, array_filter (js_or (prop processed_status k) (JArr [])) (has_relevance t) = Throw e.
Proof.
  intros El Hm Hn. rewrite (elements_of_js_or _ _ _ El). unfold array_filter. cbn [array_of].
  cbn [mbind result_bind].
  destruct (filterM_throws (has_relevance t) l m Hm) as [e ->]; [|by eexists].
  unfold has_relevance. destruct (get_nullish m "relevance_score" Hn) as [e ->]. by eexists.
Qed.

Lemma array_map_throws (f : jsval → result jsval) l m :
  m ∈ l → (∃ e, f m = Throw e) → ∃ e, array_map (JArr l) f = Throw e.
Proof.
  intros Hm Hf. unfold array_map. cbn [array_of mbind result_bind].
  destruct (mapM_throws f l m Hm Hf) as [e ->]. by eexists.
Qed.

(** What is no array, or holds a [null], makes the filter of its category
    throw. *)
Lemma array_filter_ill_formed processed_status k t :
  array_of_objects processed_status k = false →
  ∃ e, array_filter (js_or (prop processed_status k) (JArr [])) (has_relevance t) = Throw e.
Proof.
  unfold array_of_objects. destruct (elements_of processed_status k) as [l|] eqn:El.
  - intros Hl.
    assert (∃ m, m ∈ l ∧ nullish m = true) as (m & Hm & Hn).
    { clear El. induction l as [|x l IH]; [done|]. cbn in Hl.
      apply andb_false_iff in Hl as [Hx%negb_false_iff|Hl].
      - exists x. split; [by left|done].
      - destruct (IH Hl) as (m & Hm & Hn). exists m. split; [by right|done]. }
    by eapply array_filter_throws.
  - intros _. unfold elements_of in El. unfold array_filter.
    destruct (js_or _ _); try done; by eexists.
Qed.

(** *** The threshold *)




Section Filter.

Variable Number_toString : Q → string.
Variable Native_call : string → jsval → result jsval.

(** A threshold that can be written into the warning passes the check. *)
Lemma threshold_check_Ok threshold s :
  ToString Number_toString Native_call threshold = Ok s →
  ∃ s', (if threshold_in_range threshold then Ok ""
         else ToString Number_toString Native_call threshold) = Ok s'.
Proof. intros ->. destruct (threshold_in_range threshold); by eexists. Qed.


(** The filter on a snapshot whose arrays hold no [null]: it does not throw, and
    each of the three arrays keeps, in their order, the elements that carry a
    number as [relevance_score] which is at least the threshold in use. *)
Lemma filterRelevantContext_scored ctx t s :
  well_formed_snapshot ctx = true →
  ToString Number_toString Native_call t = Ok s →
  ∃ out, filterRelevantContext Number_toString Native_call ctx t = Ok out
    ∧ ∀ k, k ∈ category_arrays →
        ∃ elems, elements_of (prop ctx "processed_status") k = Some elems
                 ∧ prop (prop out "processed_status") k
                   = JArr (List.filter (retained (threshold_of t)) elems).
Proof.
  unfold well_formed_snapshot. rewrite !andb_true_iff.
  intros [[[[Hctx Hps] Hm] Hh] Hp] Hs.
  destruct (array_of_objects_elements _ _ Hm) as (lm & Em & Jm & Fm).
  destruct (array_of_objects_elements _ _ Hh) as (lh & Eh & Jh & Fh).
  destruct (array_of_objects_elements _ _ Hp) as (lp & Ep & Jp & Fp).
  unfold filterRelevantContext. rewrite Hctx. cbn [negb].
  rewrite (get_not_nullish ctx) by by apply truthy_not_nullish.
  cbn [mbind result_bind]. rewrite Hps. cbn [negb].
  destruct (threshold_check_Ok _ _ Hs) as [s' ->]. cbn [mbind result_bind].
  rewrite !(get_not_nullish (prop ctx "processed_status")) by by apply truthy_not_nullish.
  cbn [mbind result_bind].
  rewrite (array_filter_objects _ _ _ _ Jm Fm). cbn [mbind result_bind].
  rewrite (array_filter_objects _ _ _ _ Jh Fh). cbn [mbind result_bind].
  rewrite (array_filter_objects _ _ _ _ Jp Fp). cbn [mbind result_bind mret result_ret try_catch].
  eexists. split; [done|].
  intros k Hk. cbn [prop]. rewrite lookup_set_field_eq. cbn [prop].
  unfold category_arrays in Hk.
  apply elem_of_cons in Hk as [->|Hk]; [|apply elem_of_cons in Hk as [->|Hk];
    [|apply list_elem_of_singleton in Hk as ->]].
  - exists lm. split; [done|].
    rewrite !lookup_set_field_ne by done. apply lookup_set_field_eq.
  - exists lh. split; [done|].
    rewrite lookup_set_field_ne by done. apply lookup_set_field_eq.
  - exists lp. split; [done|]. apply lookup_set_field_eq.
Qed.

(** With a category that is no array, or holds a [null], the [catch] hands
    the snapshot on as it came. *)
Lemma filterRelevantContext_ill_formed ctx t s :
  truthy ctx = true →
  truthy (prop ctx "processed_status") = true →
  well_formed_snapshot ctx = false →
  ToString Number_toString Native_call t = Ok s →
  filterRelevantContext Number_toString Native_call ctx t = Ok ctx.
Proof.
  intros Hctx Hps Hw Hs. unfold well_formed_snapshot in Hw. rewrite Hctx, Hps in Hw.
  cbn [andb] in Hw.
  unfold filterRelevantContext. rewrite Hctx. cbn [negb].
  rewrite (get_not_nullish ctx) by by apply truthy_not_nullish.
  cbn [mbind result_bind]. rewrite Hps. cbn [negb].
  destruct (threshold_check_Ok _ _ Hs) as [s' ->]. cbn [mbind result_bind].
  rewrite !(get_not_nullish (prop ctx "processed_status")) by by apply truthy_not_nullish.
  cbn [mbind result_bind].
  destruct (array_of_objects _ "metrics") eqn:Hm.
  2:{ destruct (array_filter_ill_formed _ _ (threshold_of t) Hm) as [e ->]. reflexivity. }
  destruct (array_filter (js_or (prop _ "metrics") _) _); [|reflexivity].
  cbn [mbind result_bind].
  destruct (array_of_objects _ "highlights") eqn:Hh.
  2:{ destruct (array_filter_ill_formed _ _ (threshold_of t) Hh) as [e ->]. reflexivity. }
  destruct (array_filter (js_or (prop _ "highlights") _) _); [|reflexivity].
  cbn [mbind result_bind]. cbn [andb] in Hw.
  destruct (array_filter_ill_formed _ _ (threshold_of t) Hw) as [e ->]. reflexivity.
Qed.


End Filter.

Section Scored.

Variable Date_ms : jsval → option Z.
Variable Number_toString : Q → string.
Variable Native_call : string → jsval → result jsval.
Variable now : Z.

Lemma mapM_not_nullish (f : jsval → result jsval) l l' :
  (∀ m m', f m = Ok m' → nullish m' = false) →
  mapM f l = Ok l' → Forall (fun m => nullish m = false) l'.
Proof.
  intros Hf. revert l'. induction l as [|m l IH]; cbn; intros l'.
  - intros [= <-]. constructor.
  - destruct (f m) as [m'|] eqn:Em; cbn; [|done].
    destruct (mapM f l) as [l0|]; cbn; [|done].
    intros [= <-]. constructor; [by eapply Hf | by apply IH].
Qed.

Lemma array_map_objects v f out :
  (∀ m m', f m = Ok m' → nullish m' = false) →
  array_map v f = Ok out →
  ∃ l, out = JArr l ∧ Forall (fun m => nullish m = false) l.
Proof.
  intros Hf. unfold array_map.
  destruct (array_of "map" v) as [l|]; cbn; [|done].
  destruct (mapM f l) as [l'|] eqn:El; cbn; [|done].
  intros [= <-]. exists l'. split; [done|]. by eapply mapM_not_nullish.
Qed.

(** What the relevance model returns: [null], the entry as it came, or a
    snapshot with three arrays of objects for the filter. *)
Lemma calculateContextRelevance_scored previousStatus out :
  calculateContextRelevance Date_ms Number_toString Native_call now previousStatus = Ok out →
  out = JNull ∨ out = previousStatus ∨ well_formed_snapshot out = true.
Proof.
  unfold calculateContextRelevance.
  destruct (truthy previousStatus) eqn:E1; cbn [negb]; [|intros [= <-]; by left].
  rewrite !(get_not_nullish previousStatus) by by apply truthy_not_nullish.
  cbn [mbind result_bind].
  destruct (truthy (prop previousStatus "timestamp")); cbn [negb]; [|intros [= <-]; by left].
  destruct (truthy (prop previousStatus "processed_status")) eqn:E3; cbn [negb];
    [|intros [= <-]; by left].
  destruct (new_Date _ _ _ _) as [[previousTime|]|]; cbn [mbind result_bind try_catch];
    [|intros [= <-]; right; by left..].
  rewrite !(get_not_nullish (prop previousStatus "processed_status"))
    by by apply truthy_not_nullish.
  cbn [mbind result_bind].
  destruct (array_map _ (metric_with_relevance _)) as [ms|] eqn:Em;
    [|intros [= <-]; right; by left].
  cbn [mbind result_bind].
  destruct (array_map _ (highlight_with_relevance _)) as [hs|] eqn:Eh;
    [|intros [= <-]; right; by left].
  cbn [mbind result_bind].
  destruct (array_map _ (context_with_relevance _)) as [ps|] eqn:Ep;
    [|intros [= <-]; right; by left].
  cbn [mbind result_bind mret result_ret try_catch].
  intros [= <-]. right. right.
  apply array_map_objects in Em as (lm & -> & Fm).
  2:{ intros m m'. unfold metric_with_relevance.
      destruct (get m "name"); cbn; [|done].
      destruct (toLowerCase_opt _); cbn; [|done]. by intros [= <-]. }
  apply array_map_objects in Eh as (lh & -> & Fh).
  2:{ intros m m'. unfold highlight_with_relevance.
      destruct (get m "type"); cbn; [|done].
      destruct (toLowerCase_opt _); cbn; [|done]. by intros [= <-]. }
  apply array_map_objects in Ep as (lp & -> & Fp).
  2:{ intros m m'. unfold context_with_relevance. cbn. by intros [= <-]. }
  unfold well_formed_snapshot, array_of_objects, elements_of.
  cbn [truthy prop andb]. rewrite lookup_set_field_eq. cbn [truthy prop andb].
  rewrite lookup_set_field_eq.
  rewrite (lookup_set_field_ne "highlights" "persistent_context") by done.
  rewrite lookup_set_field_eq.
  rewrite !(lookup_set_field_ne "metrics") by done.
  rewrite lookup_set_field_eq.
  unfold js_or. cbn [truthy].
  rewrite !andb_true_iff. repeat split.
  all: apply forallb_forall; intros m Hm%list_elem_of_In; apply negb_true_iff.
  - by apply (proj1 (Forall_forall _ _) Fm).
  - by apply (proj1 (Forall_forall _ _) Fh).
  - by apply (proj1 (Forall_forall _ _) Fp).
Qed.


End Scored.



(** ** A timestamp that is no date *)

Section BadTimestamp.

Variable Date_ms : jsval → option Z.
Variable Number_toString : Q → string.
Variable Native_call : string → jsval → result jsval.
Variable now : Z.

(** The relevance model never throws. *)
Lemma calculateContextRelevance_total previousStatus :
  ∃ out, calculateContextRelevance Date_ms Number_toString Native_call now previousStatus
         = Ok out.
Proof.
  unfold calculateContextRelevance.
  destruct (truthy previousStatus) eqn:E1; cbn [negb]; [|by eexists].
  rewrite !(get_not_nullish previousStatus) by by apply truthy_not_nullish.
  cbn [mbind result_bind].
  destruct (truthy (prop previousStatus "timestamp")); cbn [negb]; [|by eexists].
  destruct (truthy (prop previousStatus "processed_status")); cbn [negb]; [|by eexists].
  unfold try_catch. match goal with |- context [match ?b with Ok _ => _ | Throw _ => _ end] =>
    destruct b end; by eexists.
Qed.

(** The filter returns when the threshold can be converted to a string. *)
Lemma filterRelevantContext_returns contextWithRelevance threshold s :
  ToString Number_toString Native_call threshold = Ok s →
  ∃ out, filterRelevantContext Number_toString Native_call contextWithRelevance threshold
         = Ok out.
Proof.
  intros Hs. unfold filterRelevantContext.
  destruct (truthy contextWithRelevance) eqn:E1; cbn [negb]; [|by eexists].
  rewrite (get_not_nullish contextWithRelevance) by by apply truthy_not_nullish.
  cbn [mbind result_bind].
  destruct (truthy (prop contextWithRelevance "processed_status")); cbn [negb]; [|by eexists].
  destruct (threshold_check_Ok _ _ _ _ Hs) as [s' ->]. cbn [mbind result_bind].
  unfold try_catch. match goal with |- context [match ?b with Ok _ => _ | Throw _ => _ end] =>
    destruct b end; by eexists.
Qed.


End BadTimestamp.



(** ** Validation and repair of the completion *)

Lemma createDefaultStatus_shape text reason :
  has_status_shape (createDefaultStatus text reason) = true.
Proof. reflexivity. Qed.

Lemma createDefaultStatus_errors text reason :
  prop (createDefaultStatus text reason) "errors"
  = JArr [ JStr ("LLM Processing Error: " ++ reason) ].
Proof. reflexivity. Qed.

(** *** The regular expression *)














Section Validation.

Variable JSON_parse : string → option jsval.

(** What the step returns, case by case. *)
Lemma validateAndRepairStatusJSON_cases jsonString originalText :
  validateAndRepairStatusJSON JSON_parse jsonString originalText
  = match jsonString with
    | JStr s =>
        if String.eqb (trim s) ""
        then createDefaultStatus originalText "LLM returned empty response."
        else
          match JSON_parse s with
          | Some parsed => parsed
          | None =>
              match extractedJson_of s with
              | Some extractedJson =>
                  match JSON_parse extractedJson with
                  | Some repairedParsed => repairedParsed
                  | None =>
                      createDefaultStatus originalText "LLM response was malformed JSON."
                  end
              | None =>
                  createDefaultStatus originalText "LLM response did not contain valid JSON."
              end
          end
    | _ => createDefaultStatus originalText "LLM returned empty response."
    end.
Proof.
  unfold validateAndRepairStatusJSON, extractedJson_of.
  destruct jsonString; try done.
  destruct (String.eqb (trim s) ""); [done|].
  destruct (JSON_parse s); [done|].
  destruct (String_match s) as [[group1 group2]|]; [|done].
  by destruct (truthy (js_or group1 group2)).
Qed.


End Validation.

(** C4, at a failing input. A completion that is valid JSON without the
    fields of a snapshot, here the empty object, alone or in a fence, is
    handed on as it is: it has not the shape of a StatusSnapshot, no array is
    put where one is missing, and there is no [errors]. The fallback snapshot
    of the same function has the shape. *)
Theorem C4_parsed_object_is_not_validated :
  validateAndRepairStatusJSON json_parse (JStr "{}") "Relaxing at home" = JObj []
  ∧ validateAndRepairStatusJSON json_parse (JStr "```json
{}
```") "Relaxing at home" = JObj []
  ∧ has_status_shape (JObj []) = false
  ∧ prop (JObj []) "metrics" = JUndef
  ∧ prop (JObj []) "errors" = JUndef
  ∧ has_status_shape (validateAndRepairStatusJSON json_parse (JStr "") "Relaxing at home")
    = true.
Proof. repeat split; vm_compute; reflexivity. Qed.


(** ** The store *)

Lemma jsval_nested_ind (P : jsval → Prop) :
  (∀ v, Forall P (jsval_values v) → P v) → ∀ v, P v.
Proof.
  intros H. fix IH 1. intros v. apply H.
  destruct v as [| | | | |l|fs|]; cbn; try apply Forall_nil_2.
  - induction l as [|x l IHl]; constructor; [apply IH | apply IHl].
  - induction fs as [|[k x] fs IHfs]; constructor; [apply IH | apply IHfs].
Qed.

Lemma JSON_clone_idempotent v v' : JSON_clone v = Some v' → JSON_clone v' = Some v'.
Proof.
  revert v'. induction v as [v IH] using jsval_nested_ind. intros v'.
  destruct v as [| |b|q|s|l|fs|n]; cbn in IH |- *; try (by intros [= <-]).
  - intros [= <-]. cbn. do 2 f_equal.
    induction l as [|x l IHl]; cbn; [done|].
    apply Forall_cons in IH as [Hx Hl]. f_equal; [|by apply IHl].
    destruct (JSON_clone x) as [x'|] eqn:Ex; cbn; [|done].
    by rewrite (Hx x' eq_refl).
  - intros [= <-]. cbn. do 2 f_equal.
    induction fs as [|[k x] fs IHfs]; cbn; [done|].
    cbn in IH. apply Forall_cons in IH as [Hx Hl].
    destruct (JSON_clone x) as [x'|] eqn:Ex; cbn.
    + rewrite (Hx x' eq_refl). f_equal. by apply IHfs.
    + by apply IHfs.
  - destruct (String.eqb n "__proto__"); by intros [= <-].
Qed.

Lemma stored_idempotent v : stored (stored v) = stored v.
Proof.
  unfold stored. destruct (JSON_clone v) as [v'|] eqn:E; cbn; [|done].
  by rewrite (JSON_clone_idempotent _ _ E).
Qed.

Lemma stored_array l : stored (JArr l) = JArr (stored <$> l).
Proof. reflexivity. Qed.

Lemma stored_object fs : ∃ fs', JSON_clone (JObj fs) = Some (JObj fs').
Proof. cbn. by eexists. Qed.

Lemma stored_history history :
  stored (JObj [("history", JArr history)]) = JObj [("history", JArr (stored <$> history))].
Proof. reflexivity. Qed.

Lemma string_app_inv_head (s a b : string) : s ++ a = s ++ b → a = b.
Proof. induction s as [|c s IH]; cbn; [done|]. intros [= H]. by apply IH. Qed.

Lemma history_key_ne_latest_key userId :
  "user:" ++ userId ++ ":status_history" ≠ "user:" ++ userId ++ ":latest_status".
Proof. intros H. by do 2 apply string_app_inv_head in H. Qed.

Section Store.

Variable Date_toISOString : Z → string.

Lemma history_read historyData :
  (if truthy historyData && Array_isArray (prop historyData "history")
   then array_or_empty (prop historyData "history")
   else [])
  = array_or_empty (prop historyData "history").
Proof.
  destruct historyData as [| | | | | |fs|]; cbn; rewrite ?andb_false_r; try done.
  by destruct (lookup_field "history" fs).
Qed.

(** A store fails on an empty user id or a falsy status, and then leaves the
    namespace as it was. *)
Lemma storeUserStatus_null userId rawInput processedStatus kvStore historyLimit now :
  truthy (JStr userId) && truthy processedStatus = false →
  storeUserStatus Date_toISOString userId rawInput processedStatus kvStore historyLimit now
  = (JNull, kvStore).
Proof.
  intros H. unfold storeUserStatus.
  by destruct (truthy (JStr userId)), (truthy processedStatus).
Qed.

(** A store that went through has read the history and has written it back with
    the new entry at its end, trimmed, and the entry under the latest pointer. *)
Lemma storeUserStatus_success
    userId rawInput processedStatus kvStore historyLimit now entry kvStore' :
  storeUserStatus Date_toISOString userId rawInput processedStatus kvStore historyLimit now
  = (entry, kvStore') →
  entry ≠ JNull →
  entry = newStatusEntry_of Date_toISOString rawInput processedStatus now
  ∧ truthy (JStr userId) = true
  ∧ kv_fails kvStore' = kv_fails kvStore
  ∧ kv_fails kvStore (KvGet ("user:" ++ userId ++ ":status_history")) = false
  ∧ kv_data kvStore'
    = <["user:" ++ userId ++ ":latest_status" := stored entry]>
        (<["user:" ++ userId ++ ":status_history" :=
             stored (JObj [("history",
                            JArr (trimmed (default 20%Z historyLimit)
                                    (history_of userId kvStore ++ [entry])%list))])]>
           (kv_data kvStore)).
Proof.
  intros Hs Hne.
  destruct (truthy (JStr userId) && truthy processedStatus) eqn:E;
    [|rewrite storeUserStatus_null in Hs by done; by injection Hs as <- _].
  apply andb_true_iff in E as [Hu Hp].
  unfold storeUserStatus in Hs. rewrite Hu, Hp in Hs. cbn [negb orb] in Hs.
  unfold kv_get in Hs.
  destruct (kv_fails kvStore (KvGet _)) eqn:Eg; [by injection Hs as <- _|].
  rewrite history_read in Hs. unfold kv_put in Hs.
  destruct (kv_fails kvStore (KvPut ("user:" ++ userId ++ ":status_history"))) eqn:Ep1;
    [by injection Hs as <- _|].
  cbn [kv_fails kv_data] in Hs.
  destruct (kv_fails kvStore (KvPut ("user:" ++ userId ++ ":latest_status"))) eqn:Ep2;
    [by injection Hs as <- _|].
  injection Hs as <- <-. done.
Qed.

Lemma history_of_after_store userId entry history (kvStore kvStore' : KVNamespace) :
  kv_data kvStore'
  = <["user:" ++ userId ++ ":latest_status" := stored entry]>
      (<["user:" ++ userId ++ ":status_history" := stored (JObj [("history", JArr history)])]>
         (kv_data kvStore)) →
  history_of userId kvStore' = stored <$> history.
Proof.
  intros E. unfold history_of, held. rewrite E.
  rewrite lookup_insert_ne by (apply not_eq_sym, history_key_ne_latest_key).
  by rewrite lookup_insert_eq.
Qed.

(** The getters return what the store holds when their [get] goes through. *)
Lemma getUserStatusHistory_all userId kvStore :
  truthy (JStr userId) = true →
  kv_fails kvStore (KvGet ("user:" ++ userId ++ ":status_history")) = false →
  getUserStatusHistory userId kvStore 0 = history_of userId kvStore.
Proof.
  intros Hu Hg. unfold getUserStatusHistory, history_of, kv_get. rewrite Hu, Hg.
  cbn [negb andb Z.gtb Z.compare]. fold (held ("user:" ++ userId ++ ":status_history") kvStore).
  destruct (held _ kvStore) as [| | | | | |fs|]; cbn; rewrite ?orb_true_r; try done.
  by destruct (lookup_field "history" fs).
Qed.

(** The latest entry is read back when its timestamp can be written into the
    log line. *)
Lemma getLatestUserStatus_held Number_toString Native_call userId kvStore s :
  truthy (JStr userId) = true →
  kv_fails kvStore (KvGet ("user:" ++ userId ++ ":latest_status")) = false →
  ToString Number_toString Native_call (prop (latest_of userId kvStore) "timestamp") = Ok s →
  getLatestUserStatus Number_toString Native_call userId kvStore
  = js_or (latest_of userId kvStore) JNull.
Proof.
  intros Hu Hg Hs. unfold getLatestUserStatus, kv_get. rewrite Hu, Hg. cbn [negb].
  fold (held ("user:" ++ userId ++ ":latest_status") kvStore).
  fold (latest_of userId kvStore). rewrite Hs. unfold js_or.
  by destruct (truthy (latest_of userId kvStore)).
Qed.

Lemma last_trimmed historyLimit (history : list jsval) entry :
  last (trimmed historyLimit (history ++ [entry])) = Some entry.
Proof.
  unfold trimmed. rewrite length_app. cbn [length].
  destruct (_ && _) eqn:E; [|apply last_snoc].
  apply andb_true_iff in E as [E1 E2].
  rewrite drop_app_le by lia. apply last_snoc.
Qed.

(** C8. After a store that went through, the latest pointer and the last
    element of the stored history hold the same value: the new entry
    [{timestamp, raw_input, processed_status}] as the store keeps it. The
    history that [getUserStatusHistory] reads ends with it as well. *)
Theorem C8_latest_is_last_of_history
    userId rawInput processedStatus kvStore historyLimit now entry kvStore' :
  storeUserStatus Date_toISOString userId rawInput processedStatus kvStore historyLimit now
  = (entry, kvStore') →
  entry ≠ JNull →
  entry = JObj [ ("timestamp", JStr (Date_toISOString now));
                 ("raw_input", rawInput);
                 ("processed_status", processedStatus) ]
  ∧ latest_of userId kvStore' = stored entry
  ∧ last (history_of userId kvStore') = Some (stored entry)
  ∧ last (getUserStatusHistory userId kvStore' 0) = Some (stored entry).
Proof.
  intros Hs Hne.
  destruct (storeUserStatus_success _ _ _ _ _ _ _ _ Hs Hne) as (He & Hu & Hf & Hg & Hd).
  assert (Hlast : last (history_of userId kvStore') = Some (stored entry)).
  { rewrite (history_of_after_store _ _ _ _ _ Hd). by rewrite fmap_last, last_trimmed. }
  split; [done|]. split; [|split; [done|]].
  - unfold latest_of, held. rewrite Hd. by rewrite lookup_insert_eq.
  - rewrite getUserStatusHistory_all; [done|done|by rewrite Hf].
Qed.

End Store.

(** *** The cap of the history *)

Lemma trimmed_last_n historyLimit (history : list jsval) :
  (0 < historyLimit)%Z →
  trimmed historyLimit history = last_n (Z.to_nat historyLimit) history.
Proof.
  intros HC. unfold trimmed, last_n.
  destruct (_ && _) eqn:E.
  - apply andb_true_iff in E as [_ E]. f_equal. lia.
  - apply andb_false_iff in E as [E|E]; [lia|].
    replace (length history - Z.to_nat historyLimit)%nat with 0%nat by lia. done.
Qed.

Lemma last_n_length {A} n (l : list A) : length (last_n n l) = Nat.min n (length l).
Proof. unfold last_n. rewrite length_drop. lia. Qed.

Lemma last_n_all {A} n (l : list A) : (length l ≤ n)%nat → last_n n l = l.
Proof. intros H. unfold last_n. by replace (length l - n)%nat with 0%nat by lia. Qed.

Lemma last_n_fmap {A B} (f : A → B) n (l : list A) : f <$> last_n n l = last_n n (f <$> l).
Proof. unfold last_n. by rewrite fmap_drop, length_fmap. Qed.

Lemma last_n_app_r {A} n (l1 l2 : list A) :
  (n ≤ length l2)%nat → last_n n (l1 ++ l2) = last_n n l2.
Proof.
  intros H. unfold last_n. rewrite length_app, drop_app_ge by lia. f_equal. lia.
Qed.

Lemma last_n_snoc {A} n (l : list A) x :
  (0 < n)%nat → last_n n (last_n n l ++ [x]) = last_n n (l ++ [x]).
Proof.
  intros Hn. unfold last_n. rewrite !length_app, length_drop. cbn [length].
  destruct (decide (length l ≤ n)%nat) as [Hle|Hgt].
  - replace (length l - n)%nat with 0%nat by lia. cbn [drop].
    by replace (length l - 0)%nat with (length l) by lia.
  - rewrite !drop_app_le by (rewrite ?length_drop; lia).
    rewrite drop_drop. do 2 f_equal. lia.
Qed.

Section Cap.

Variable Date_toISOString : Z → string.

Lemma store_all_snoc userId historyLimit updates rawInput processedStatus now kvStore :
  store_all Date_toISOString userId historyLimit
    (updates ++ [(rawInput, processedStatus, now)]) kvStore
  = let '(entries, kvStore1) :=
      store_all Date_toISOString userId historyLimit updates kvStore in
    let '(entry, kvStore2) :=
      storeUserStatus Date_toISOString userId rawInput processedStatus
                      kvStore1 historyLimit now in
    ((entries ++ [entry])%list, kvStore2).
Proof.
  unfold store_all. rewrite fold_left_app. cbn [fold_left].
  by destruct (fold_left _ updates _).
Qed.

(** After a run of stores that all went through, the stored history, cut to its
    last [C] elements, is the last [C] of some older elements followed by the
    entries of the run; after at least one store it is no longer than [C], and
    the [get] of the history goes through. *)
Lemma store_all_history userId C updates kvStore entries kvStore' :
  (0 < C)%Z →
  store_all Date_toISOString userId (Some C) updates kvStore = (entries, kvStore') →
  Forall (fun entry => entry ≠ JNull) entries →
  length entries = length updates
  ∧ kv_fails kvStore' = kv_fails kvStore
  ∧ (∃ older, last_n (Z.to_nat C) (history_of userId kvStore')
              = last_n (Z.to_nat C) (older ++ (stored <$> entries)))
  ∧ (updates ≠ [] →
     (length (history_of userId kvStore') ≤ Z.to_nat C)%nat
     ∧ truthy (JStr userId) = true
     ∧ kv_fails kvStore (KvGet ("user:" ++ userId ++ ":status_history")) = false).
Proof.
  intros HC. revert entries kvStore'.
  induction updates as [|[[rawInput processedStatus] now] updates IH] using rev_ind;
    intros entries kvStore'.
  - intros [= <- <-] _. split; [done|]. split; [done|]. split; [|done].
    exists (history_of userId kvStore). by rewrite app_nil_r.
  - rewrite store_all_snoc.
    destruct (store_all _ userId (Some C) updates kvStore) as [entries1 kvStore1] eqn:E1.
    destruct (storeUserStatus _ userId rawInput processedStatus kvStore1 (Some C) now)
      as [entry kvStore2] eqn:E2.
    intros [= <- <-] [Hall Hentry]%Forall_app.
    apply Forall_cons in Hentry as [Hentry _].
    destruct (IH _ _ eq_refl Hall) as (Hlen & Hf1 & (older & Hold) & _).
    destruct (storeUserStatus_success _ _ _ _ _ _ _ _ _ E2 Hentry)
      as (He & Hu & Hf & Hg & Hd).
    change (default 20%Z (Some C)) with C in Hd.
    rewrite (history_of_after_store _ _ _ _ _ Hd).
    rewrite trimmed_last_n by done.
    split; [rewrite !length_app; cbn; lia|]. split; [congruence|]. split.
    + exists (stored <$> older).
      rewrite last_n_fmap.
      rewrite (last_n_all _ (last_n _ _)) by (rewrite last_n_length; lia).
      rewrite !fmap_app. cbn [fmap list_fmap].
      rewrite <- (last_n_snoc _ (stored <$> history_of userId kvStore1)) by lia.
      rewrite <- last_n_fmap, Hold, last_n_fmap, last_n_snoc by lia.
      rewrite fmap_app, <- list_fmap_compose.
      rewrite (list_fmap_ext (stored ∘ stored) stored entries1)
        by (intros; apply stored_idempotent).
      by rewrite <- app_assoc.
    + intros _. split; [rewrite length_fmap, last_n_length; lia|].
      split; [done|]. by rewrite <- Hf1.
Qed.

(** C7. After [N] stores for a user that all went through, with a cap [C] and
    [N > C], the stored history has exactly [C] elements: the entries of the
    last [C] stores, oldest first. (The cap is positive; a cap of zero or less
    switches the trim off.) *)
Theorem C7_history_holds_the_last_C_entries userId C updates kvStore entries kvStore' :
  (0 < C)%Z →
  store_all Date_toISOString userId (Some C) updates kvStore = (entries, kvStore') →
  Forall (fun entry => entry ≠ JNull) entries →
  (C < Z.of_nat (length updates))%Z →
  length (history_of userId kvStore') = Z.to_nat C
  ∧ history_of userId kvStore' = stored <$> last_n (Z.to_nat C) entries
  ∧ getUserStatusHistory userId kvStore' 0 = history_of userId kvStore'.
Proof.
  intros HC Hs Hall HN.
  destruct (store_all_history _ _ _ _ _ _ HC Hs Hall)
    as (Hlen & Hf & (older & Hold) & Hlast).
  destruct Hlast as (Hshort & Hu & Hg); [intros ->; cbn in HN; lia|].
  assert (Hh : history_of userId kvStore' = stored <$> last_n (Z.to_nat C) entries).
  { rewrite <- (last_n_all (Z.to_nat C) (history_of userId kvStore')) by done.
    rewrite Hold, last_n_app_r by (rewrite length_fmap; lia).
    by rewrite <- last_n_fmap. }
  split; [|split; [done|]].
  - rewrite Hh, length_fmap, last_n_length. lia.
  - apply getUserStatusHistory_all; [done|by rewrite Hf].
Qed.

End Cap.

Lemma C8_latest_is_last_of_history_witness :
  lunch_store.1 ≠ JNull
  ∧ lunch_store.1
    = JObj [ ("timestamp", JStr (Date_toISOString_utc at_1500));
             ("raw_input", JStr "Lunch");
             ("processed_status", JObj [("overall_status", JStr "On a break")]) ]
  ∧ latest_of "42" lunch_store.2 = stored lunch_store.1
  ∧ last (history_of "42" lunch_store.2) = Some (stored lunch_store.1)
  ∧ last (getUserStatusHistory "42" lunch_store.2 0) = Some (stored lunch_store.1).
Proof.
  assert (H : lunch_store.1 ≠ JNull) by (vm_compute; discriminate).
  split; [exact H|].
  apply (C8_latest_is_last_of_history Date_toISOString_utc "42" (JStr "Lunch")
           (JObj [("overall_status", JStr "On a break")]) (reliable ∅) None at_1500
           lunch_store.1 lunch_store.2); [apply surjective_pairing | exact H].
Defined.

Lemma C7_history_holds_the_last_C_entries_witness :
  Forall (fun entry => entry ≠ JNull) run_of_three.1
  ∧ length (history_of "42" run_of_three.2) = Z.to_nat 2
  ∧ history_of "42" run_of_three.2 = stored <$> last_n (Z.to_nat 2) run_of_three.1
  ∧ getUserStatusHistory "42" run_of_three.2 0 = history_of "42" run_of_three.2.
Proof.
  assert (H : Forall (fun entry => entry ≠ JNull) run_of_three.1)
    by (vm_compute; repeat constructor; discriminate).
  split; [exact H|].
  apply (C7_history_holds_the_last_C_entries Date_toISOString_utc "42" 2 three_updates
           (reliable ∅) run_of_three.1 run_of_three.2);
    [reflexivity | apply surjective_pairing | exact H | reflexivity].
Defined.

(** ** Purge *)

Lemma elem_of_kv_keys k (kvStore : KVNamespace) :
  k ∈ kv_keys kvStore ↔ is_Some (kv_data kvStore !! k).
Proof.
  unfold kv_keys. rewrite merge_sort_Permutation, list_elem_of_fmap. split.
  - intros ([k' v] & -> & H). apply elem_of_map_to_list in H. by eexists.
  - intros [v H]. exists (k, v). split; [done|]. by apply elem_of_map_to_list.
Qed.

Lemma NoDup_kv_keys (kvStore : KVNamespace) : NoDup (kv_keys kvStore).
Proof. unfold kv_keys. rewrite merge_sort_Permutation. apply NoDup_fst_map_to_list. Qed.

Lemma length_kv_keys (kvStore : KVNamespace) : length (kv_keys kvStore) = size (kv_data kvStore).
Proof.
  unfold kv_keys. by rewrite merge_sort_Permutation, length_fmap, length_map_to_list.
Qed.

Lemma elem_of_remaining prefix cursor0 kvStore k :
  k ∈ remaining prefix cursor0 kvStore ↔
  is_Some (kv_data kvStore !! k) ∧ String.prefix prefix k = true ∧ k ∉ cursor0.
Proof.
  unfold remaining, unlisted.
  rewrite list_elem_of_In, filter_In, <- list_elem_of_In, elem_of_kv_keys.
  rewrite andb_true_iff, negb_true_iff, bool_decide_eq_false. done.
Qed.

Lemma NoDup_List_filter {A} (f : A → bool) (l : list A) :
  NoDup l → NoDup (List.filter f l).
Proof.
  induction 1 as [|x l Hx Hnd IH]; cbn; [constructor|].
  destruct (f x); [|done]. constructor; [|done].
  intros Hin%list_elem_of_In%filter_In. apply Hx, list_elem_of_In, Hin.
Qed.

Lemma NoDup_remaining prefix cursor0 kvStore : NoDup (remaining prefix cursor0 kvStore).
Proof. unfold remaining. apply NoDup_List_filter, NoDup_kv_keys. Qed.

Lemma length_remaining prefix cursor0 kvStore :
  (length (remaining prefix cursor0 kvStore) ≤ size (kv_data kvStore))%nat.
Proof.
  rewrite <- length_kv_keys. apply submseteq_length, NoDup_submseteq.
  - apply NoDup_remaining.
  - intros k Hk. apply elem_of_remaining in Hk as [Hk _]. by apply elem_of_kv_keys.
Qed.

Lemma elem_of_drop_NoDup {A} n (l : list A) x :
  NoDup l → x ∈ drop n l ↔ x ∈ l ∧ x ∉ take n l.
Proof.
  intros Hnd. rewrite <- (take_drop n l) in Hnd. apply NoDup_app in Hnd as (_ & Hdis & _).
  split.
  - intros Hx. split; [by apply (subseteq_drop n l)|]. intros Ht. by apply (Hdis x).
  - intros [Hx Ht]. rewrite <- (take_drop n l) in Hx.
    apply elem_of_app in Hx as [Hx|Hx]; done.
Qed.

(** *** Deleting the keys of a page *)

Lemma delete_each_cons k ks kvStore deletedCount :
  delete_each (k :: ks) (kvStore, deletedCount)
  = delete_each ks
      (if kv_fails kvStore (KvDelete k) then (kvStore, deletedCount)
       else ({| kv_data := delete k (kv_data kvStore); kv_fails := kv_fails kvStore |},
             (deletedCount + 1)%Z)).
Proof. unfold delete_each, kv_delete. cbn [fold_left]. by destruct (kv_fails _ _). Qed.

Lemma delete_each_fails keysToDelete kvStore deletedCount :
  kv_fails (delete_each keysToDelete (kvStore, deletedCount)).1 = kv_fails kvStore.
Proof.
  revert kvStore deletedCount.
  induction keysToDelete as [|k ks IH]; intros kvStore deletedCount; [done|].
  rewrite delete_each_cons. destruct (kv_fails kvStore (KvDelete k)); by rewrite IH.
Qed.

Lemma delete_each_lookup keysToDelete kvStore deletedCount k :
  kv_data (delete_each keysToDelete (kvStore, deletedCount)).1 !! k
  = if bool_decide (k ∈ keysToDelete) && negb (kv_fails kvStore (KvDelete k))
    then None else kv_data kvStore !! k.
Proof.
  revert kvStore deletedCount.
  induction keysToDelete as [|k0 ks IH]; intros kvStore deletedCount; [done|].
  rewrite delete_each_cons.
  destruct (kv_fails kvStore (KvDelete k0)) eqn:E0; rewrite IH; cbn [kv_fails kv_data].
  - destruct (decide (k = k0)) as [->|Hne].
    + rewrite E0. by rewrite !andb_false_r.
    + destruct (bool_decide (k ∈ ks)) eqn:E.
      * apply bool_decide_eq_true in E. by rewrite (bool_decide_eq_true_2 (k ∈ k0 :: ks)) by by right.
      * apply bool_decide_eq_false in E.
        rewrite (bool_decide_eq_false_2 (k ∈ k0 :: ks)); [done|].
        by intros [?|?]%elem_of_cons.
  - destruct (decide (k = k0)) as [->|Hne].
    + rewrite lookup_delete_eq, E0. rewrite (bool_decide_eq_true_2 (k0 ∈ k0 :: ks)) by left.
      by destruct (bool_decide _).
    + rewrite lookup_delete_ne by done.
      destruct (bool_decide (k ∈ ks)) eqn:E.
      * apply bool_decide_eq_true in E. by rewrite (bool_decide_eq_true_2 (k ∈ k0 :: ks)) by by right.
      * apply bool_decide_eq_false in E.
        rewrite (bool_decide_eq_false_2 (k ∈ k0 :: ks)); [done|].
        by intros [?|?]%elem_of_cons.
Qed.

Lemma delete_each_count keysToDelete kvStore deletedCount :
  (deletedCount ≤ (delete_each keysToDelete (kvStore, deletedCount)).2)%Z.
Proof.
  revert kvStore deletedCount.
  induction keysToDelete as [|k ks IH]; intros kvStore deletedCount; [done|].
  rewrite delete_each_cons. destruct (kv_fails kvStore (KvDelete k)); [apply IH|].
  etransitivity; [|apply IH]. lia.
Qed.

(** Keys whose [delete] fails stay, and are not counted. *)
Lemma delete_each_undeletable keysToDelete kvStore deletedCount :
  (∀ k, k ∈ keysToDelete → kv_fails kvStore (KvDelete k) = true) →
  delete_each keysToDelete (kvStore, deletedCount) = (kvStore, deletedCount).
Proof.
  induction keysToDelete as [|k ks IH]; intros H; [done|].
  rewrite delete_each_cons, (H k) by left. apply IH. intros k' Hk'. apply H. by right.
Qed.

Lemma sub_store_refl kvStore : sub_store kvStore kvStore.
Proof. split; [done|]. intros k. by right. Qed.

Lemma sub_store_trans kv1 kv2 kv3 : sub_store kv1 kv2 → sub_store kv2 kv3 → sub_store kv1 kv3.
Proof.
  intros [F12 H12] [F23 H23]. split; [congruence|].
  intros k. destruct (H12 k) as [H|H]; [by left|].
  destruct (H23 k) as [H'|H']; [left|right]; congruence.
Qed.

Lemma sub_store_delete_each keysToDelete kvStore deletedCount :
  sub_store (delete_each keysToDelete (kvStore, deletedCount)).1 kvStore.
Proof.
  split; [apply delete_each_fails|].
  intros k. rewrite delete_each_lookup. destruct (_ && _); [by left|by right].
Qed.

Lemma sub_store_size kvStore' kvStore :
  sub_store kvStore' kvStore → (size (kv_data kvStore') ≤ size (kv_data kvStore))%nat.
Proof.
  intros [_ H]. apply map_subseteq_size, map_subseteq_spec. intros k v Hk.
  destruct (H k) as [H'|H']; congruence.
Qed.

Lemma sub_store_lookup kvStore' kvStore k v :
  sub_store kvStore' kvStore → kv_data kvStore' !! k = Some v → kv_data kvStore !! k = Some v.
Proof. intros [_ H] Hk. destruct (H k); congruence. Qed.

(** *** The loops of the purge *)

Lemma kv_list_remaining prefix cursor0 kvStore :
  kv_fails kvStore (KvList prefix) = false →
  kv_list prefix cursor0 100 kvStore
  = Ok {| keys := take 100 (remaining prefix cursor0 kvStore);
          list_complete := (length (remaining prefix cursor0 kvStore) <=? 100)%nat;
          cursor := (cursor0 ++ take 100 (remaining prefix cursor0 kvStore))%list |}.
Proof. intros H. unfold kv_list. by rewrite H. Qed.

(** After a page the listing has less to return, also when keys were deleted in
    between. *)
Lemma remaining_after_page prefix cursor0 kvStore kvStore1 n :
  sub_store kvStore1 kvStore →
  (length (remaining prefix (cursor0 ++ take n (remaining prefix cursor0 kvStore)) kvStore1)
   ≤ length (remaining prefix cursor0 kvStore) - n)%nat.
Proof.
  intros Hsub. rewrite <- length_drop.
  apply submseteq_length, NoDup_submseteq; [apply NoDup_remaining|].
  intros k (Hk & Hp & Hc)%elem_of_remaining.
  apply elem_of_drop_NoDup; [apply NoDup_remaining|].
  apply not_elem_of_app in Hc as [Hc Hpage]. split; [|done].
  apply elem_of_remaining. split; [|done].
  destruct Hk as [v Hk]. exists v. by eapply sub_store_lookup.
Qed.

Lemma take_all_remaining {A} (l : list A) n : (length l <=? n)%nat = true → take n l = l.
Proof. intros H%Nat.leb_le. by apply take_ge. Qed.

(** The loop over the pages of a prefix ends when its [list] goes through, and
    then every key with the prefix that is left is one whose [delete] fails; it
    deletes nothing else, and nothing at all when there is no key to delete. *)
Lemma purge_prefix_spec fuel prefix :
  ∀ cursor0 (kvStore : KVNamespace) deletedCount,
    kv_fails kvStore (KvList prefix) = false →
    (∀ k, k ∈ cursor0 →
          kv_data kvStore !! k = None ∨ kv_fails kvStore (KvDelete k) = true) →
    (length (remaining prefix cursor0 kvStore) < fuel)%nat →
    ∃ kvStore' deletedCount',
      purge_prefix fuel prefix cursor0 (kvStore, deletedCount)
      = Some (Ok deletedCount', kvStore')
      ∧ (deletedCount ≤ deletedCount')%Z
      ∧ sub_store kvStore' kvStore
      ∧ (∀ k, String.prefix prefix k = true → is_Some (kv_data kvStore' !! k) →
              kv_fails kvStore (KvDelete k) = true)
      ∧ ((∀ k, k ∈ remaining prefix cursor0 kvStore →
               kv_fails kvStore (KvDelete k) = true) →
         kvStore' = kvStore ∧ deletedCount' = deletedCount).
Proof.
  induction fuel as [|fuel IH]; intros cursor0 kvStore deletedCount Hlist Hinv Hfuel; [lia|].
  cbn [purge_prefix fst]. rewrite kv_list_remaining by done.
  cbn [keys list_complete cursor].
  set (R := remaining prefix cursor0 kvStore) in *.
  pose proof (delete_each_lookup (take 100 R) kvStore deletedCount) as Hlook.
  pose proof (delete_each_count (take 100 R) kvStore deletedCount) as Hcount.
  pose proof (sub_store_delete_each (take 100 R) kvStore deletedCount) as Hsub.
  pose proof (delete_each_undeletable (take 100 R) kvStore deletedCount) as Hsame.
  destruct (delete_each (take 100 R) (kvStore, deletedCount)) as [kvStore1 deletedCount1].
  cbn [fst snd] in Hlook, Hcount, Hsub.
  destruct (length R <=? 100)%nat eqn:Ec.
  - rewrite (take_all_remaining _ _ Ec) in Hlook, Hsame.
    exists kvStore1, deletedCount1. split; [done|]. split; [done|]. split; [done|]. split.
    + intros k Hp [v Hk]. rewrite Hlook in Hk.
      destruct (kv_fails kvStore (KvDelete k)) eqn:Ed; [done|].
      rewrite andb_true_r in Hk.
      destruct (bool_decide (k ∈ R)) eqn:E; [done|].
      apply bool_decide_eq_false in E. exfalso.
      destruct (decide (k ∈ cursor0)) as [Hin|Hnin].
      * destruct (Hinv k Hin); congruence.
      * apply E. apply elem_of_remaining. by rewrite Hk.
    + intros Hun. by injection (Hsame Hun) as -> ->.
  - apply Nat.leb_gt in Ec. destruct Hsub as [Hf Hsub].
    destruct (IH (cursor0 ++ take 100 R)%list kvStore1 deletedCount1)
      as (kvStore' & deletedCount' & Hrun & Hle & Hsub' & Hnone & Hsame').
    + by rewrite Hf.
    + rewrite Hf. intros k [Hk|Hk]%elem_of_app; rewrite Hlook.
      * destruct (_ && _); [by left|]. by apply Hinv.
      * rewrite bool_decide_eq_true_2 by done.
        destruct (kv_fails kvStore (KvDelete k)); [by right|by left].
    + pose proof (remaining_after_page prefix cursor0 kvStore kvStore1 100 (conj Hf Hsub))
        as Hlen.
      fold R in Hlen. lia.
    + exists kvStore', deletedCount'. split; [done|]. split; [lia|].
      split; [eapply sub_store_trans; [done|by split]|]. split.
      * intros k Hp Hk. rewrite <- Hf. by apply Hnone.
      * intros Hun. injection (Hsame (fun k Hk => Hun k (subseteq_take 100 R k Hk))) as -> ->.
        apply Hsame'. intros k (Hk & Hp & Hc)%elem_of_remaining.
        apply Hun, elem_of_remaining. apply not_elem_of_app in Hc as [Hc _]. done.
Qed.

Lemma purge_prefixes_spec fuel keyPrefixes :
  ∀ (kvStore : KVNamespace) deletedCount,
    (∀ prefix, prefix ∈ keyPrefixes → kv_fails kvStore (KvList prefix) = false) →
    (size (kv_data kvStore) < fuel)%nat →
    ∃ kvStore' deletedCount',
      purge_prefixes fuel keyPrefixes (kvStore, deletedCount)
      = Some (Ok deletedCount', kvStore')
      ∧ (deletedCount ≤ deletedCount')%Z
      ∧ sub_store kvStore' kvStore
      ∧ (∀ prefix k, prefix ∈ keyPrefixes → String.prefix prefix k = true →
                     is_Some (kv_data kvStore' !! k) →
                     kv_fails kvStore (KvDelete k) = true)
      ∧ ((∀ prefix k, prefix ∈ keyPrefixes → is_Some (kv_data kvStore !! k) →
                      String.prefix prefix k = true →
                      kv_fails kvStore (KvDelete k) = true) →
         kvStore' = kvStore ∧ deletedCount' = deletedCount).
Proof.
  induction keyPrefixes as [|prefix rest IH]; intros kvStore deletedCount Hlist Hfuel.
  - exists kvStore, deletedCount. cbn. split; [done|]. split; [lia|].
    split; [apply sub_store_refl|]. split; [|done].
    intros prefix k Hin. by apply elem_of_nil in Hin.
  - cbn [purge_prefixes].
    destruct (purge_prefix_spec fuel prefix [] kvStore deletedCount)
      as (kvStore1 & deletedCount1 & Hrun1 & Hle1 & Hsub1 & Hnone1 & Hsame1).
    { apply Hlist. left. }
    { intros k Hk. by apply elem_of_nil in Hk. }
    { pose proof (length_remaining prefix [] kvStore). lia. }
    rewrite Hrun1.
    destruct (IH kvStore1 deletedCount1)
      as (kvStore' & deletedCount' & Hrun & Hle & Hsub & Hnone & Hsame).
    { intros p Hp. destruct Hsub1 as [-> _]. apply Hlist. by right. }
    { pose proof (sub_store_size _ _ Hsub1). lia. }
    exists kvStore', deletedCount'. split; [done|]. split; [lia|].
    split; [by eapply sub_store_trans|]. split.
    + intros p k [->|Hin]%elem_of_cons Hp Hk.
      * destruct Hk as [v Hk]. apply Hnone1; [done|].
        exists v. by eapply sub_store_lookup.
      * destruct Hsub1 as [<- _]. by eapply Hnone.
    + intros Hno.
      destruct Hsame1 as [-> ->].
      { intros k (Hk & Hp & _)%elem_of_remaining. apply (Hno prefix); [left|done|done]. }
      apply Hsame. intros p k Hin. apply Hno. by right.
Qed.

(** The first loop ends when its [list] goes through, and finds the activities
    that the user created. *)
Lemma collect_activities_spec fuel userId (kvStore : KVNamespace) :
  kv_fails kvStore (KvList "activity:") = false →
  ∀ activityCursor activityKeysToDelete,
    (length (remaining "activity:" activityCursor kvStore) < fuel)%nat →
    ∃ found,
      collect_activities fuel userId kvStore activityCursor activityKeysToDelete
      = Some (Ok (activityKeysToDelete ++ found)%list)
      ∧ ∀ k, k ∈ found ↔
             k ∈ remaining "activity:" activityCursor kvStore
             ∧ created_by userId kvStore k = true.
Proof.
  intros Hlist.
  induction fuel as [|fuel IH]; intros activityCursor acc Hfuel; [lia|].
  cbn [collect_activities]. rewrite kv_list_remaining by done.
  cbn [keys list_complete cursor].
  set (R := remaining "activity:" activityCursor kvStore) in *.
  destruct (length R <=? 100)%nat eqn:Ec.
  - rewrite (take_all_remaining _ _ Ec).
    exists (List.filter (created_by userId kvStore) R). split; [done|].
    intros k. rewrite list_elem_of_In, filter_In, <- list_elem_of_In. done.
  - apply Nat.leb_gt in Ec.
    destruct (IH (activityCursor ++ take 100 R)%list
                (acc ++ List.filter (created_by userId kvStore) (take 100 R))%list)
      as (found & Hrun & Hfound).
    { pose proof (remaining_after_page "activity:" activityCursor kvStore kvStore 100
                    (sub_store_refl _)) as Hlen.
      fold R in Hlen. lia. }
    exists (List.filter (created_by userId kvStore) (take 100 R) ++ found)%list.
    split; [by rewrite Hrun, <- app_assoc|].
    intros k. rewrite elem_of_app, Hfound.
    rewrite list_elem_of_In, filter_In, <- list_elem_of_In.
    rewrite !elem_of_remaining. fold R. rewrite not_elem_of_app.
    split.
    + intros [[Hpage Hc]|[(Hk & Hp & Hcur & _) Hc]].
      * split; [|done]. by apply (subseteq_take 100 R).
      * split; [|done]. by apply elem_of_remaining.
    + intros [HR Hc].
      destruct (decide (k ∈ take 100 R)); [by left|right].
      apply elem_of_remaining in HR as (Hk & Hp & Hcur). done.
Qed.

Lemma truthy_userId userId : userId ≠ "" → truthy (JStr userId) = true.
Proof. intros H. cbn. by apply negb_true_iff, String.eqb_neq. Qed.

Lemma created_by_held userId kvStore k :
  created_by userId kvStore k = true →
  kv_fails kvStore (KvGet k) = false
  ∧ is_Some (kv_data kvStore !! k)
  ∧ creator_is userId kvStore k = true.
Proof.
  unfold created_by, creator_is, kv_get, held.
  destruct (kv_fails kvStore (KvGet k)); [done|].
  destruct (kv_data kvStore !! k) as [v|]; [|done]. cbn [default]. intros H.
  split; [done|]. split; [by eexists|done].
Qed.

Lemma created_by_sub userId kvStore' kvStore k :
  sub_store kvStore' kvStore →
  created_by userId kvStore' k = true → created_by userId kvStore k = true.
Proof.
  intros Hsub H. pose proof Hsub as [Hf _].
  destruct (created_by_held _ _ _ H) as (Hg & [v Hk] & _).
  pose proof (sub_store_lookup _ _ _ _ Hsub Hk) as Hk0.
  unfold created_by, kv_get in *. rewrite Hf in H. by rewrite Hk in H; rewrite Hk0.
Qed.

Lemma no_user_data_nothing_to_delete userId kvStore :
  no_user_data userId kvStore → nothing_to_delete userId kvStore.
Proof.
  intros [Hkeys Hact]. split.
  - intros prefix k Hin Hk Hp. by rewrite (Hkeys prefix k Hin Hk) in Hp.
  - intros k Hp Hc. apply created_by_held in Hc as (_ & _ & Hc).
    by rewrite (Hact k Hp) in Hc.
Qed.

(** A purge whose [list] calls go through ends without an exception, returns a
    count that is not negative, and leaves nothing of the user that it could
    delete; where there was nothing to delete the count is zero and the
    namespace is as before. *)
Lemma purgeUserData_fuel_spec fuel userId (kvStore : KVNamespace) :
  userId ≠ "" →
  (∀ prefix, prefix ∈ listed_prefixes userId → kv_fails kvStore (KvList prefix) = false) →
  (size (kv_data kvStore) < fuel)%nat →
  ∃ deletedCount kvStore',
    purgeUserData_fuel fuel userId kvStore = Some (Ok deletedCount, kvStore')
    ∧ (0 ≤ deletedCount)%Z
    ∧ sub_store kvStore' kvStore
    ∧ nothing_to_delete userId kvStore'
    ∧ (nothing_to_delete userId kvStore → deletedCount = 0%Z ∧ kvStore' = kvStore).
Proof.
  intros Hu Hlist Hfuel. unfold purgeUserData_fuel. rewrite (truthy_userId _ Hu). cbn [negb].
  destruct (collect_activities_spec fuel userId kvStore (Hlist _ ltac:(left)) [] [])
    as (found & Hcollect & Hfound).
  { pose proof (length_remaining "activity:" [] kvStore). lia. }
  rewrite Hcollect. cbn [app].
  destruct (purge_prefixes_spec fuel (keyPrefixes_of userId) kvStore 0)
    as (kvStore1 & deletedCount1 & Hrun & Hle & Hsub & Hnone & Hsame); [|done|].
  { intros p Hp. apply Hlist. by right. }
  fold (keyPrefixes_of userId). rewrite Hrun.
  pose proof (delete_each_lookup found kvStore1 deletedCount1) as Hlook.
  pose proof (delete_each_count found kvStore1 deletedCount1) as Hcount.
  pose proof (sub_store_delete_each found kvStore1 deletedCount1) as Hsub2.
  pose proof (delete_each_undeletable found kvStore1 deletedCount1) as Hsame2.
  destruct (delete_each found (kvStore1, deletedCount1)) as [kvStore2 deletedCount2].
  cbn [fst snd] in *.
  assert (Hsub02 : sub_store kvStore2 kvStore) by by eapply sub_store_trans.
  pose proof Hsub as [Hf1 _]. pose proof Hsub02 as [Hf2 _].
  exists deletedCount2, kvStore2. split; [done|]. split; [lia|].
  split; [done|]. split; [split|].
  - intros prefix k Hin [v Hk] Hp. rewrite Hf2. apply (Hnone prefix k Hin Hp).
    exists v. by eapply sub_store_lookup.
  - intros k Hp Hc. rewrite Hf2.
    destruct (kv_fails kvStore (KvDelete k)) eqn:Ed; [done|]. exfalso.
    destruct (created_by_held _ _ _ Hc) as (_ & [v Hk] & _).
    assert (Hin : k ∈ found).
    { apply Hfound. split; [|by eapply created_by_sub].
      apply elem_of_remaining. split; [|split; [done|apply not_elem_of_nil]].
      exists v. by eapply sub_store_lookup. }
    rewrite Hlook, bool_decide_eq_true_2, Hf1, Ed in Hk by done. done.
  - intros [Hnokeys Hnoact].
    destruct Hsame as [-> ->]; [done|].
    assert (Hun : ∀ k, k ∈ found → kv_fails kvStore (KvDelete k) = true).
    { intros k [(_ & Hp & _)%elem_of_remaining Hc]%Hfound. by apply Hnoact. }
    specialize (Hsame2 Hun). by injection Hsame2 as -> ->.
Qed.

(** C9, as amended. Purging the data of a user twice in a row, with a user
    id that is not empty and [list] calls that go through in both calls,
    whatever else fails in the one or the other: neither call throws, and each
    returns a count that is not negative, which is zero when nothing of the
    user is in the store. (A [list] that fails is thrown on, as the
    documentation of the function says, and so is a missing user id.) *)
Theorem C9_purge_twice_in_a_row userId (kvStore : KVNamespace) (fails' : kv_op → bool) :
  userId ≠ "" →
  (∀ prefix, prefix ∈ listed_prefixes userId → kv_fails kvStore (KvList prefix) = false) →
  (∀ prefix, prefix ∈ listed_prefixes userId → fails' (KvList prefix) = false) →
  ∃ deletedCount kvStore1 deletedCount' kvStore2,
    purgeUserData userId kvStore = Some (Ok deletedCount, kvStore1)
    ∧ (0 ≤ deletedCount)%Z
    ∧ (no_user_data userId kvStore → deletedCount = 0%Z)
    ∧ purgeUserData userId (with_failures fails' kvStore1) = Some (Ok deletedCount', kvStore2)
    ∧ (0 ≤ deletedCount')%Z
    ∧ (no_user_data userId kvStore1 → deletedCount' = 0%Z).
Proof.
  intros Hu Hlist Hlist'. unfold purgeUserData.
  destruct (purgeUserData_fuel_spec (S (size (kv_data kvStore))) userId kvStore Hu Hlist)
    as (deletedCount & kvStore1 & Hrun & Hle & _ & _ & Hnone); [lia|].
  destruct (purgeUserData_fuel_spec (S (size (kv_data (with_failures fails' kvStore1))))
              userId (with_failures fails' kvStore1) Hu Hlist')
    as (deletedCount' & kvStore2 & Hrun' & Hle' & _ & _ & Hnone'); [lia|].
  exists deletedCount, kvStore1, deletedCount', kvStore2.
  split; [done|]. split; [done|]. split; [|split; [done|split; [done|]]].
  - intros Hno. by destruct (Hnone (no_user_data_nothing_to_delete _ _ Hno)).
  - intros Hno.
    assert (Hno' : no_user_data userId (with_failures fails' kvStore1)) by exact Hno.
    by destruct (Hnone' (no_user_data_nothing_to_delete _ _ Hno')).
Qed.

(** The claim of C9 fails in a namespace whose [list] fails: the purge throws
    the error on. It throws as well when the user id is the empty string. *)
Lemma C9_counterexample :
  purgeUserData "42" (list_down store_of_42)
  = Some (Throw (Error "Failed to purge data. Error: KV LIST failed: activity:"),
          list_down store_of_42)
  ∧ purgeUserData "" (reliable store_of_42)
    = Some (Throw (Error "Missing userId or kvStore binding for purgeUserData."),
            reliable store_of_42).
Proof. split; vm_compute; reflexivity. Qed.

Lemma C9_purge_twice_in_a_row_witness :
  ∃ deletedCount kvStore1 deletedCount' kvStore2,
    purgeUserData "42" (reliable store_of_42) = Some (Ok deletedCount, kvStore1)
    ∧ (0 ≤ deletedCount)%Z
    ∧ (no_user_data "42" (reliable store_of_42) → deletedCount = 0%Z)
    ∧ purgeUserData "42" (with_failures (fun _ => false) kvStore1)
      = Some (Ok deletedCount', kvStore2)
    ∧ (0 ≤ deletedCount')%Z
    ∧ (no_user_data "42" kvStore1 → deletedCount' = 0%Z).
Proof.
  apply (C9_purge_twice_in_a_row "42" (reliable store_of_42) (fun _ => false));
    [discriminate|done|done].
Defined.

(** In the store of the user 42 the first purge deletes three keys: the
    history, the profile and the activity of the user. *)
Example purge_store_of_42 :
  ∃ kvStore', purgeUserData "42" (reliable store_of_42) = Some (Ok 3%Z, kvStore').
Proof. eexists. vm_compute. reflexivity. Qed.

(** * Properties of the further functions *)

(** ** Scores of the relevance model *)

Lemma window_score_unit h v : (0 <= h)%Q → window_score h v → unit_score v.
Proof.
  intros Hh (q & -> & Hlo & Hhi). exists q. split; [done|]. split.
  - eapply Qle_trans; [apply (decay_nonneg 6 h)|done].
  - eapply Qle_trans; [done|]. by apply decay_le_one.
Qed.

Lemma Math_max_window h H :
  (0 <= h)%Q → (6 <= H)%Q → (H <= 48)%Q →
  window_score h (JNum (Math_max 0 (Number_sub 1 (Number_div h H)))).
Proof.
  intros Hh H6 H48. eexists. split; [done|]. fold (decay H h).
  split; apply decay_le_span; lra.
Qed.

Lemma relevanceFactors_get_cases h k :
  (0 <= h)%Q →
  window_score h (relevanceFactors_get h k)
  ∨ (relevanceFactors_get h k = JNative k ∧ (k = "constructor" ∨ k = "__proto__"))
  ∨ relevanceFactors_get h k = JUndef.
Proof.
  intros Hh. unfold relevanceFactors_get, relevanceFactors. cbn [assoc].
  repeat match goal with
         | |- context [String.eqb k ?s] =>
             destruct (String.eqb_spec k s) as [->|?];
             [first [ left; by apply Math_max_window
                    | right; left; cbn; split; [done|auto] ] | ]
         end.
  right. right. done.
Qed.

Lemma relevanceFactors_get_default h :
  (0 <= h)%Q → window_score h (relevanceFactors_get h "default").
Proof. intros Hh. by apply Math_max_window. Qed.

Lemma window_score_or_default h v :
  (0 <= h)%Q → window_score h v → window_score h (js_or v (relevanceFactors_get h "default")).
Proof.
  intros Hh Hv. unfold js_or. destruct (truthy v); [done|]. by apply relevanceFactors_get_default.
Qed.

Lemma metric_type_cases nameLower :
  metric_type nameLower ∈ ["physical"; "emotional"; "activity"; "default"].
Proof.
  unfold metric_type.
  repeat match goal with |- context [if ?b then _ else _] => destruct b end;
    apply list_elem_of_In; cbn; auto.
Qed.

Lemma metric_with_relevance_scored h metric :
  (0 <= h)%Q → nullish metric = false → plain_name (prop metric "name") = true →
  ∃ metric', metric_with_relevance h metric = Ok metric'
             ∧ scored_with (window_score h) metric metric'.
Proof.
  intros Hh Hn Hp. unfold metric_with_relevance.
  rewrite (get_not_nullish _ _ Hn). cbn [mbind result_bind].
  assert (Hl : ∃ lowered, toLowerCase_opt (prop metric "name") = Ok lowered)
    by (destruct (prop metric "name"); try done; by eexists).
  destruct Hl as [lowered ->]. cbn [mbind result_bind mret result_ret].
  eexists. split; [done|]. eexists. split; [done|].
  apply window_score_or_default; [done|].
  pose proof (metric_type_cases (string_of (js_or lowered (JStr "")))) as Hc.
  apply list_elem_of_In in Hc. cbn in Hc.
  destruct Hc as [<- | [<- | [<- | [<- | []]]]]; by apply Math_max_window.
Qed.

Lemma highlight_with_relevance_scored h highlight :
  (0 <= h)%Q → nullish highlight = false → plain_name (prop highlight "type") = true →
  ∃ highlight', highlight_with_relevance h highlight = Ok highlight'
    ∧ scored_with (fun score => window_score h score
                                ∨ (inherited_type highlight ∧ typeof_number score = false))
                  highlight highlight'.
Proof.
  intros Hh Hn Hp. unfold highlight_with_relevance.
  rewrite (get_not_nullish _ _ Hn). cbn [mbind result_bind].
  destruct (prop highlight "type") as [| | | |s| | |] eqn:Et; try done;
    cbn [toLowerCase_opt mbind result_bind mret result_ret];
    (eexists; split; [done|]); (eexists; split; [done|]).
  1,2: left; apply window_score_or_default; [done|]; by apply Math_max_window.
  change (js_or (JStr (toLowerCase s)) (JStr "default"))
    with (if negb (String.eqb (toLowerCase s) "") then JStr (toLowerCase s) else JStr "default").
  destruct (negb (String.eqb (toLowerCase s) "")) eqn:Es; cbn [string_of].
  - destruct (relevanceFactors_get_cases h (toLowerCase s) Hh) as [Hu | [[-> Hk] | ->]].
    + left. by apply window_score_or_default.
    + right. split; [by exists s|done].
    + left. by apply relevanceFactors_get_default.
  - left. apply window_score_or_default; [done|]. by apply Math_max_window.
Qed.

Lemma context_with_relevance_scored h context :
  (0 <= h)%Q →
  ∃ context', context_with_relevance h context = Ok context'
              ∧ scored_with (window_score h) context context'.
Proof.
  intros Hh. unfold context_with_relevance. eexists. split; [done|].
  eexists. split; [done|]. by apply Math_max_window.
Qed.

Lemma mapM_Forall2 (f : jsval → result jsval) (P : jsval → Prop) (R : jsval → jsval → Prop) l :
  (∀ m, P m → ∃ m', f m = Ok m' ∧ R m m') →
  Forall P l →
  ∃ l', mapM f l = Ok l' ∧ Forall2 R l l'.
Proof.
  intros Hf. induction 1 as [|m l Hm _ (l' & El & Hl)]; cbn.
  - by exists [].
  - destruct (Hf m Hm) as (m' & -> & Hr). cbn. rewrite El. cbn.
    eexists. split; [done|]. by constructor.
Qed.

Lemma named_objects_Forall k l :
  named_objects k l = true →
  Forall (fun m => nullish m = false ∧ plain_name (prop m k) = true) l.
Proof.
  unfold named_objects. rewrite forallb_forall. intros H.
  apply Forall_forall. intros m Hm%list_elem_of_In.
  apply H in Hm. apply andb_true_iff in Hm as [H1%negb_true_iff H2]. done.
Qed.

Lemma hoursDifference_of_nonneg a b : (0 <= hoursDifference_of a b)%Q.
Proof.
  unfold hoursDifference_of, Number_div. apply round_double_nonneg.
  apply Qle_shift_div_l; [reflexivity|]. rewrite Qmult_0_l. apply Qabs_nonneg.
Qed.

Section Scoring.

Variable Date_ms : jsval → option Z.
Variable Number_toString : Q → string.
Variable Native_call : string → jsval → result jsval.
Variable now : Z.

(** What [calculateContextRelevance] returns for an entry that it can score. *)
Lemma calculateContextRelevance_scorable previousStatus previousTime :
  scorable previousStatus = true →
  new_Date Date_ms Number_toString Native_call (prop previousStatus "timestamp")
  = Ok (Some previousTime) →
  ∃ lm lh lp ms hs ps,
    array_at previousStatus "metrics" = Some lm
    ∧ array_at previousStatus "highlights" = Some lh
    ∧ array_at previousStatus "persistent_context" = Some lp
    ∧ calculateContextRelevance Date_ms Number_toString Native_call now previousStatus
      = Ok (JObj (set_field "processed_status"
                    (JObj (set_field "persistent_context" (JArr ps)
                          (set_field "highlights" (JArr hs)
                          (set_field "metrics" (JArr ms)
                                     (own_props (prop previousStatus "processed_status"))))))
                    (own_props previousStatus)))
    ∧ Forall2 (scored_with (window_score (hoursDifference_of now previousTime))) lm ms
    ∧ Forall2 (fun h h' =>
                 scored_with (fun score => window_score (hoursDifference_of now previousTime) score
                                ∨ (inherited_type h ∧ typeof_number score = false)) h h') lh hs
    ∧ Forall2 (scored_with (window_score (hoursDifference_of now previousTime))) lp ps.
Proof.
  unfold scorable, array_at. rewrite !andb_true_iff.
  intros [[[[[H1 H2] H3] Hm] Hh] Hp] Hd.
  destruct (elements_of _ "metrics") as [lm|] eqn:Em; [|done].
  destruct (elements_of _ "highlights") as [lh|] eqn:Eh; [|done].
  destruct (elements_of _ "persistent_context") as [lp|] eqn:Ep; [|done].
  pose proof (hoursDifference_of_nonneg now previousTime) as Hpos.
  destruct (mapM_Forall2 (metric_with_relevance (hoursDifference_of now previousTime)) _
              (scored_with (window_score (hoursDifference_of now previousTime))) lm
              (fun m '(conj a b) => metric_with_relevance_scored _ m Hpos a b)
              (named_objects_Forall _ _ Hm)) as (ms & Ems & Fms).
  destruct (mapM_Forall2 (highlight_with_relevance (hoursDifference_of now previousTime)) _
              (fun h h' => scored_with (fun score => window_score (hoursDifference_of now previousTime) score
                              ∨ (inherited_type h ∧ typeof_number score = false)) h h') lh
              (fun m '(conj a b) => highlight_with_relevance_scored _ m Hpos a b)
              (named_objects_Forall _ _ Hh)) as (hs & Ehs & Fhs).
  destruct (mapM_Forall2 (context_with_relevance (hoursDifference_of now previousTime))
              (fun _ => True) (scored_with (window_score (hoursDifference_of now previousTime))) lp
              (fun m _ => context_with_relevance_scored _ m Hpos)
              ltac:(by apply Forall_forall)) as (ps & Eps & Fps).
  exists lm, lh, lp, ms, hs, ps. split; [done|]. split; [done|]. split; [done|].
  split; [|done].
  unfold calculateContextRelevance. rewrite H1. cbn [negb].
  rewrite !(get_not_nullish previousStatus) by by apply truthy_not_nullish.
  cbn [mbind result_bind]. rewrite H2, H3. cbn [negb]. rewrite Hd. cbn [mbind result_bind].
  rewrite !(get_not_nullish (prop previousStatus "processed_status"))
    by by apply truthy_not_nullish.
  cbn [mbind result_bind].
  rewrite (elements_of_js_or _ _ _ Em), (elements_of_js_or _ _ _ Eh), (elements_of_js_or _ _ _ Ep).
  unfold array_map. cbn [array_of mbind result_bind].
  rewrite Ems. cbn [mbind result_bind mret result_ret].
  rewrite Ehs. cbn [mbind result_bind mret result_ret].
  rewrite Eps. cbn [mbind result_bind mret result_ret try_catch]. done.
Qed.

Lemma scored_snapshot_arrays fs0 fs ms hs ps :
  let snapshot :=
    JObj (set_field "processed_status"
            (JObj (set_field "persistent_context" (JArr ps)
                  (set_field "highlights" (JArr hs)
                  (set_field "metrics" (JArr ms) fs))))
            fs0) in
  array_at snapshot "metrics" = Some ms
  ∧ array_at snapshot "highlights" = Some hs
  ∧ array_at snapshot "persistent_context" = Some ps.
Proof.
  cbn zeta. unfold array_at, elements_of. cbn [prop].
  rewrite lookup_set_field_eq. cbn [prop].
  rewrite !(lookup_set_field_ne "metrics") by done.
  rewrite (lookup_set_field_ne "highlights" "persistent_context") by done.
  by rewrite !lookup_set_field_eq.
Qed.

Lemma scored_with_object ok m m' : scored_with ok m m' → nullish m' = false.
Proof. by intros (score & -> & _). Qed.

Lemma scored_with_score ok m m' :
  scored_with ok m m' → ok (prop m' "relevance_score").
Proof. intros (score & -> & H). cbn. by rewrite lookup_set_field_eq. Qed.

Lemma Forall2_scored_objects (ok : jsval → jsval → Prop) l l' :
  Forall2 (fun m m' => scored_with (ok m) m m') l l' →
  forallb (fun m => negb (nullish m)) l' = true.
Proof.
  induction 1 as [|m m' l l' H _ IH]; [done|]. cbn.
  by rewrite (scored_with_object _ _ _ H).
Qed.

(** Scoring keeps what it finds and adds a score: the arrays keep their
    elements in their order, each element being the original with a
    [relevance_score] between 0 and 1 (or, for a highlight whose lower-cased
    type names a property of [Object.prototype], with that property); nothing
    else of the entry changes. *)
Theorem scoring_adds_scores_and_keeps_the_rest previousStatus previousTime :
  scorable previousStatus = true →
  new_Date Date_ms Number_toString Native_call (prop previousStatus "timestamp")
  = Ok (Some previousTime) →
  ∃ out lm lh lp ms hs ps,
    calculateContextRelevance Date_ms Number_toString Native_call now previousStatus = Ok out
    ∧ (array_at previousStatus "metrics" = Some lm ∧ array_at out "metrics" = Some ms
       ∧ Forall2 (scored_with unit_score) lm ms)
    ∧ (array_at previousStatus "highlights" = Some lh ∧ array_at out "highlights" = Some hs
       ∧ Forall2 (fun h h' =>
                    scored_with (fun score => unit_score score
                                   ∨ (inherited_type h ∧ typeof_number score = false)) h h')
                 lh hs)
    ∧ (array_at previousStatus "persistent_context" = Some lp
       ∧ array_at out "persistent_context" = Some ps
       ∧ Forall2 (scored_with unit_score) lp ps)
    ∧ (∀ k, k ≠ "processed_status" → own out k = own previousStatus k)
    ∧ (∀ k, k ∉ category_arrays →
            own (prop out "processed_status") k
            = own (prop previousStatus "processed_status") k).
Proof.
  intros Hs Hd.
  destruct (calculateContextRelevance_scorable _ _ Hs Hd)
    as (lm & lh & lp & ms & hs & ps & Em & Eh & Ep & -> & Fm & Fh & Fp).
  pose proof (hoursDifference_of_nonneg now previousTime) as Hpos.
  destruct (scored_snapshot_arrays (own_props previousStatus)
              (own_props (prop previousStatus "processed_status")) ms hs ps) as (Am & Ah & Ap).
  eexists _, lm, lh, lp, ms, hs, ps. split; [done|].
  split; [split; [done|split; [done|]]|split; [split; [done|split; [done|]]|
    split; [split; [done|split; [done|]]|split]]].
  - eapply Forall2_impl; [exact Fm|]. intros m m' (score & -> & Hw).
    exists score. split; [done|]. by eapply window_score_unit.
  - eapply Forall2_impl; [exact Fh|]. intros m m' (score & -> & Hw).
    exists score. split; [done|]. destruct Hw as [Hw|Hw]; [left|by right].
    by eapply window_score_unit.
  - eapply Forall2_impl; [exact Fp|]. intros m m' (score & -> & Hw).
    exists score. split; [done|]. by eapply window_score_unit.
  - intros k Hk. unfold own. cbn [own_props]. by rewrite lookup_set_field_ne.
  - intros k Hk. unfold own. cbn [prop]. rewrite lookup_set_field_eq. cbn [own_props].
    assert (k ≠ "metrics" ∧ k ≠ "highlights" ∧ k ≠ "persistent_context") as (K1 & K2 & K3).
    { unfold category_arrays in Hk. rewrite !not_elem_of_cons in Hk. tauto. }
    by rewrite !lookup_set_field_ne.
Qed.

Lemma filter_all {A} (f : A → bool) l : Forall (fun x => f x = true) l → List.filter f l = l.
Proof. induction 1 as [|x l Hx _ IH]; cbn; [done|]. by rewrite Hx, IH. Qed.

Lemma filter_none {A} (f : A → bool) l : Forall (fun x => f x = false) l → List.filter f l = [].
Proof. induction 1 as [|x l Hx _ IH]; cbn; [done|]. by rewrite Hx. Qed.

Lemma Forall2_Forall_r {A B} (R : A → B → Prop) (P : B → Prop) l l' :
  Forall2 R l l' → (∀ x y, R x y → P y) → Forall P l'.
Proof. induction 1; intros HP; constructor; eauto. Qed.

Lemma scored_snapshot_well_formed fs0 fs ms hs ps :
  forallb (fun m => negb (nullish m)) ms = true →
  forallb (fun m => negb (nullish m)) hs = true →
  forallb (fun m => negb (nullish m)) ps = true →
  well_formed_snapshot
    (JObj (set_field "processed_status"
             (JObj (set_field "persistent_context" (JArr ps)
                   (set_field "highlights" (JArr hs)
                   (set_field "metrics" (JArr ms) fs))))
             fs0)) = true.
Proof.
  intros Hm Hh Hp.
  destruct (scored_snapshot_arrays fs0 fs ms hs ps) as (Am & Ah & Ap).
  unfold array_at in *. unfold well_formed_snapshot, array_of_objects.
  rewrite Am, Ah, Ap, Hm, Hh, Hp. cbn [prop truthy andb].
  by rewrite lookup_set_field_eq.
Qed.

(** What is left of an entry once the slowest decay of the table, as the
    doubles compute it, is below the threshold in use: nothing. That is so
    from 48 hours on for every positive threshold, and from a little after
    33.6 hours on for the default. The threshold is a primitive value, as a
    number is, so that the filter returns. *)
Theorem context_is_dropped_after_the_slowest_decay previousStatus previousTime threshold :
  scorable previousStatus = true →
  new_Date Date_ms Number_toString Native_call (prop previousStatus "timestamp")
  = Ok (Some previousTime) →
  is_primitive threshold = true →
  (decay 48 (hoursDifference_of now previousTime) < threshold_of threshold)%Q →
  ∃ contextWithRelevance filteredContext,
    calculateContextRelevance Date_ms Number_toString Native_call now previousStatus = Ok contextWithRelevance
    ∧ filterRelevantContext Number_toString Native_call contextWithRelevance threshold = Ok filteredContext
    ∧ ∀ k, k ∈ category_arrays → array_at filteredContext k = Some [].
Proof.
  intros Hs Hd Hprim Ht.
  destruct (calculateContextRelevance_scorable _ _ Hs Hd)
    as (lm & lh & lp & ms & hs & ps & Em & Eh & Ep & -> & Fm & Fh & Fp).
  destruct (scored_snapshot_arrays (own_props previousStatus)
              (own_props (prop previousStatus "processed_status")) ms hs ps) as (Am & Ah & Ap).
  edestruct (filterRelevantContext_scored Number_toString Native_call)
    as (out & Eout & Hout).
  { apply scored_snapshot_well_formed.
    - apply (Forall2_scored_objects (fun _ => _) _ _ Fm).
    - apply (Forall2_scored_objects (fun h score => _) _ _ Fh).
    - apply (Forall2_scored_objects (fun _ => _) _ _ Fp). }
  { by apply ToString_primitive. }
  eexists _, out. split; [done|]. split; [exact Eout|].
  assert (Hdrop : ∀ m m' ok, scored_with ok m m' →
            (∀ score, ok score → window_score (hoursDifference_of now previousTime) score
                                 ∨ typeof_number score = false) →
            retained (threshold_of threshold) m' = false).
  { intros m m' ok Hsc Hok. apply scored_with_score in Hsc. apply Hok in Hsc.
    unfold retained. destruct Hsc as [(q & -> & _ & Hq)|Hn].
    - apply not_true_iff_false. intros Hle%Qle_bool_iff.
      apply (Qlt_not_le _ _ Ht). by eapply Qle_trans.
    - by destruct (prop m' "relevance_score"). }
  intros k Hk. destruct (Hout k Hk) as (elems & He & Hp).
  unfold array_at, elements_of. rewrite Hp. cbn [js_or truthy]. f_equal.
  unfold category_arrays in Hk.
  apply elem_of_cons in Hk as [->|Hk]; [|apply elem_of_cons in Hk as [->|Hk];
    [|apply list_elem_of_singleton in Hk as ->]].
  - unfold array_at in Am. rewrite Am in He. injection He as <-.
    apply filter_none. eapply Forall2_Forall_r; [exact Fm|].
    intros m m' H. eapply Hdrop; [exact H|]. by left.
  - unfold array_at in Ah. rewrite Ah in He. injection He as <-.
    apply filter_none. eapply Forall2_Forall_r; [exact Fh|].
    intros m m' H. eapply Hdrop; [exact H|]. intros score [?|[_ ?]]; auto.
  - unfold array_at in Ap. rewrite Ap in He. injection He as <-.
    apply filter_none. eapply Forall2_Forall_r; [exact Fp|].
    intros m m' H. eapply Hdrop; [exact H|]. by left.
Qed.

(** And while the fastest decay of the table, as the doubles compute it, is
    not below the threshold in use, every scored element is kept; of the
    highlights those are dropped whose score is no number. The threshold is a
    primitive value, as a number is, so that the filter returns. *)
Theorem context_is_kept_before_the_fastest_decay previousStatus previousTime threshold :
  scorable previousStatus = true →
  new_Date Date_ms Number_toString Native_call (prop previousStatus "timestamp")
  = Ok (Some previousTime) →
  is_primitive threshold = true →
  (threshold_of threshold <= decay 6 (hoursDifference_of now previousTime))%Q →
  ∃ contextWithRelevance filteredContext ms hs ps,
    calculateContextRelevance Date_ms Number_toString Native_call now previousStatus = Ok contextWithRelevance
    ∧ filterRelevantContext Number_toString Native_call contextWithRelevance threshold = Ok filteredContext
    ∧ array_at contextWithRelevance "metrics" = Some ms
    ∧ array_at contextWithRelevance "highlights" = Some hs
    ∧ array_at contextWithRelevance "persistent_context" = Some ps
    ∧ array_at filteredContext "metrics" = Some ms
    ∧ array_at filteredContext "highlights"
      = Some (List.filter (fun h => typeof_number (prop h "relevance_score")) hs)
    ∧ array_at filteredContext "persistent_context" = Some ps.
Proof.
  intros Hs Hd Hprim Ht.
  destruct (calculateContextRelevance_scorable _ _ Hs Hd)
    as (lm & lh & lp & ms & hs & ps & Em & Eh & Ep & -> & Fm & Fh & Fp).
  destruct (scored_snapshot_arrays (own_props previousStatus)
              (own_props (prop previousStatus "processed_status")) ms hs ps) as (Am & Ah & Ap).
  edestruct (filterRelevantContext_scored Number_toString Native_call)
    as (out & Eout & Hout).
  { apply scored_snapshot_well_formed.
    - apply (Forall2_scored_objects (fun _ => _) _ _ Fm).
    - apply (Forall2_scored_objects (fun h score => _) _ _ Fh).
    - apply (Forall2_scored_objects (fun _ => _) _ _ Fp). }
  { by apply ToString_primitive. }
  eexists _, out, ms, hs, ps. split; [done|]. split; [exact Eout|].
  split; [done|]. split; [done|]. split; [done|].
  assert (Hkeep : ∀ score, window_score (hoursDifference_of now previousTime) score →
            ∀ m', prop m' "relevance_score" = score →
            retained (threshold_of threshold) m' = true).
  { intros score (q & -> & Hq & _) m' Hm'. unfold retained. rewrite Hm'.
    apply Qle_bool_iff. by eapply Qle_trans. }
  assert (Hget : ∀ k elems, k ∈ category_arrays →
            array_at (JObj (set_field "processed_status"
               (JObj (set_field "persistent_context" (JArr ps)
                     (set_field "highlights" (JArr hs)
                     (set_field "metrics" (JArr ms)
                        (own_props (prop previousStatus "processed_status"))))))
               (own_props previousStatus))) k = Some elems →
            array_at out k = Some (List.filter (retained (threshold_of threshold)) elems)).
  { intros k elems Hk He. destruct (Hout k Hk) as (elems' & He' & Hp).
    unfold array_at in He. rewrite He in He'. injection He' as <-.
    unfold array_at, elements_of. by rewrite Hp. }
  split; [|split].
  - rewrite (Hget "metrics" ms) by (done || apply list_elem_of_In; cbn; auto).
    f_equal. apply filter_all. eapply Forall2_Forall_r; [exact Fm|].
    intros m m' H. eapply Hkeep; [|done]. by apply scored_with_score in H.
  - rewrite (Hget "highlights" hs) by (done || apply list_elem_of_In; cbn; auto).
    f_equal. clear -Fh Hkeep. induction Fh as [|h h' lh hs H _ IH]; [done|].
    cbn [List.filter]. rewrite IH. apply scored_with_score in H.
    destruct H as [H|[_ H]].
    + rewrite (Hkeep _ H h' eq_refl). destruct H as (q & -> & _). done.
    + rewrite H. unfold retained. by destruct (prop h' "relevance_score").
  - rewrite (Hget "persistent_context" ps) by (done || apply list_elem_of_In; cbn; auto).
    f_equal. apply filter_all. eapply Forall2_Forall_r; [exact Fp|].
    intros m m' H. eapply Hkeep; [|done]. by apply scored_with_score in H.
Qed.

End Scoring.

Lemma scoring_adds_scores_and_keeps_the_rest_witness :
  ∃ out lm lh lp ms hs ps,
    calculateContextRelevance Date_ms_iso Number_toString_plain Native_call_Object at_1500 entry_0700 = Ok out
    ∧ (array_at entry_0700 "metrics" = Some lm ∧ array_at out "metrics" = Some ms
       ∧ Forall2 (scored_with unit_score) lm ms)
    ∧ (array_at entry_0700 "highlights" = Some lh ∧ array_at out "highlights" = Some hs
       ∧ Forall2 (fun h h' =>
                    scored_with (fun score => unit_score score
                                   ∨ (inherited_type h ∧ typeof_number score = false)) h h')
                 lh hs)
    ∧ (array_at entry_0700 "persistent_context" = Some lp
       ∧ array_at out "persistent_context" = Some ps
       ∧ Forall2 (scored_with unit_score) lp ps)
    ∧ (∀ k, k ≠ "processed_status" → own out k = own entry_0700 k)
    ∧ (∀ k, k ∉ category_arrays →
            own (prop out "processed_status") k = own (prop entry_0700 "processed_status") k).
Proof.
  apply (scoring_adds_scores_and_keeps_the_rest Date_ms_iso Number_toString_plain
           Native_call_Object at_1500 entry_0700 1745823600000); reflexivity.
Defined.

Lemma context_is_dropped_after_the_slowest_decay_witness :
  ∃ contextWithRelevance filteredContext,
    calculateContextRelevance Date_ms_iso Number_toString_plain Native_call_Object at_1500_two_days_later entry_0700
    = Ok contextWithRelevance
    ∧ filterRelevantContext Number_toString_plain Native_call_Object contextWithRelevance JUndef = Ok filteredContext
    ∧ ∀ k, k ∈ category_arrays → array_at filteredContext k = Some [].
Proof.
  apply (context_is_dropped_after_the_slowest_decay Date_ms_iso Number_toString_plain
           Native_call_Object at_1500_two_days_later entry_0700 1745823600000 JUndef);
    reflexivity.
Defined.

Lemma context_is_kept_before_the_fastest_decay_witness :
  ∃ contextWithRelevance filteredContext ms hs ps,
    calculateContextRelevance Date_ms_iso Number_toString_plain Native_call_Object at_0730 entry_0700 = Ok contextWithRelevance
    ∧ filterRelevantContext Number_toString_plain Native_call_Object contextWithRelevance JUndef = Ok filteredContext
    ∧ array_at contextWithRelevance "metrics" = Some ms
    ∧ array_at contextWithRelevance "highlights" = Some hs
    ∧ array_at contextWithRelevance "persistent_context" = Some ps
    ∧ array_at filteredContext "metrics" = Some ms
    ∧ array_at filteredContext "highlights"
      = Some (List.filter (fun h => typeof_number (prop h "relevance_score")) hs)
    ∧ array_at filteredContext "persistent_context" = Some ps.
Proof.
  apply (context_is_kept_before_the_fastest_decay Date_ms_iso Number_toString_plain
           Native_call_Object at_0730 entry_0700 1745823600000 JUndef);
    [reflexivity | reflexivity | reflexivity | vm_compute; discriminate].
Defined.

(** ** Errors inside the relevance model and the filter *)

Section Swallowed.

Variable Date_ms : jsval → option Z.
Variable Number_toString : Q → string.
Variable Native_call : string → jsval → result jsval.
Variable now : Z.

Lemma null_element_ill_formed previousStatus k l m :
  k ∈ category_arrays →
  array_at previousStatus k = Some l →
  m ∈ l → nullish m = true →
  well_formed_snapshot previousStatus = false.
Proof.
  intros Hk El Hm Hn. unfold array_at in El.
  assert (Hill : array_of_objects (prop previousStatus "processed_status") k = false).
  { unfold array_of_objects. rewrite El. apply not_true_iff_false.
    rewrite forallb_forall. intros H. apply list_elem_of_In in Hm.
    specialize (H m Hm). by rewrite Hn in H. }
  unfold well_formed_snapshot, category_arrays in *.
  apply elem_of_cons in Hk as [->|Hk]; [|apply elem_of_cons in Hk as [->|Hk];
    [|apply list_elem_of_singleton in Hk as ->]];
    rewrite Hill; by rewrite ?andb_false_r.
Qed.

(** One [null] among the metrics or the highlights and nothing is scored; one
    [null] in any of the three arrays and nothing is filtered: the [TypeError]
    is caught and the entry goes on as it came. (The threshold is a primitive
    value, as a number is, so that the filter comes to its [try].) *)
Theorem null_element_switches_scoring_and_filtering_off previousStatus threshold k l m :
  truthy previousStatus = true →
  truthy (prop previousStatus "timestamp") = true →
  truthy (prop previousStatus "processed_status") = true →
  is_primitive threshold = true →
  k ∈ category_arrays →
  array_at previousStatus k = Some l →
  m ∈ l → nullish m = true →
  (k ≠ "persistent_context" →
   calculateContextRelevance Date_ms Number_toString Native_call now previousStatus
   = Ok previousStatus)
  ∧ filterRelevantContext Number_toString Native_call previousStatus threshold
    = Ok previousStatus.
Proof.
  intros H1 H2 H3 Hprim Hk El Hm Hn. split.
  - unfold array_at in El.
    intros Hpc. unfold calculateContextRelevance. rewrite H1. cbn [negb].
    rewrite !(get_not_nullish previousStatus) by by apply truthy_not_nullish.
    cbn [mbind result_bind]. rewrite H2, H3. cbn [negb].
    destruct (new_Date _ _ _ _) as [[previousTime|]|]; cbn [mbind result_bind]; [|done..].
    rewrite !(get_not_nullish (prop previousStatus "processed_status"))
      by by apply truthy_not_nullish.
    cbn [mbind result_bind].
    unfold category_arrays in Hk.
    apply elem_of_cons in Hk as [->|Hk]; [|apply elem_of_cons in Hk as [->|Hk];
      [|by apply list_elem_of_singleton in Hk]].
    + rewrite (elements_of_js_or _ _ _ El).
      destruct (array_map_throws (metric_with_relevance (hoursDifference_of now previousTime))
                  l m Hm) as [e ->]; [|done].
      unfold metric_with_relevance. destruct (get_nullish m "name" Hn) as [e ->]. by eexists.
    + destruct (array_map _ (metric_with_relevance _)); [|reflexivity]. cbn [mbind result_bind].
      rewrite (elements_of_js_or _ _ _ El).
      destruct (array_map_throws (highlight_with_relevance (hoursDifference_of now previousTime))
                  l m Hm) as [e ->]; [|done].
      unfold highlight_with_relevance. destruct (get_nullish m "type" Hn) as [e ->].
      by eexists.
  - eapply filterRelevantContext_ill_formed; [done|done| |by apply ToString_primitive].
    by eapply null_element_ill_formed.
Qed.

(** The relevance model never throws, whatever it is given, and it answers
    [null] exactly when its check at the head fails. The filter returns for
    every threshold that is a primitive value, and what it returns is [null]
    exactly when its check at the head fails; when it throws, the check has
    passed and the exception is that of the conversion of a threshold that is
    no number in [0, 1]. *)
Theorem relevance_steps_return_null_only_at_the_guard previousStatus threshold :
  (∃ out, calculateContextRelevance Date_ms Number_toString Native_call now previousStatus
          = Ok out
          ∧ (out = JNull ↔
             truthy previousStatus && truthy (prop previousStatus "timestamp")
             && truthy (prop previousStatus "processed_status") = false))
  ∧ match filterRelevantContext Number_toString Native_call previousStatus threshold with
    | Ok out =>
        out = JNull ↔
        truthy previousStatus && truthy (prop previousStatus "processed_status") = false
    | Throw e =>
        truthy previousStatus && truthy (prop previousStatus "processed_status") = true
        ∧ threshold_in_range threshold = false
        ∧ ToString Number_toString Native_call threshold = Throw e
    end
  ∧ (is_primitive threshold = true →
     ∃ out, filterRelevantContext Number_toString Native_call previousStatus threshold
            = Ok out).
Proof.
  split; [|split].
  - unfold calculateContextRelevance.
    destruct (truthy previousStatus) eqn:E1; cbn [negb andb]; [|by eexists].
    rewrite !(get_not_nullish previousStatus) by by apply truthy_not_nullish.
    cbn [mbind result_bind].
    destruct (truthy (prop previousStatus "timestamp")); cbn [negb andb]; [|by eexists].
    destruct (truthy (prop previousStatus "processed_status")); cbn [negb andb]; [|by eexists].
    assert (Hp : previousStatus ≠ JNull) by (by intros ->).
    unfold try_catch.
    match goal with |- context [match ?b with Ok _ => _ | Throw _ => _ end] =>
      destruct b as [out|] eqn:Eb end.
    + exists out. split; [done|]. split; [|done]. intros ->.
      destruct (new_Date _ _ _ _) as [[previousTime|]|]; cbn [mbind result_bind] in Eb;
        [|by injection Eb|done].
      rewrite !(get_not_nullish (prop previousStatus "processed_status")) in Eb
        by (apply truthy_not_nullish; by destruct (prop previousStatus "processed_status")).
      cbn [mbind result_bind] in Eb.
      repeat (match type of Eb with context [array_map ?a ?b] =>
                destruct (array_map a b); cbn [mbind result_bind] in Eb; [|done] end).
      done.
    + exists previousStatus. split; [done|]. by split.
  - unfold filterRelevantContext.
    destruct (truthy previousStatus) eqn:E1; cbn [negb andb]; [|done].
    rewrite !(get_not_nullish previousStatus) by by apply truthy_not_nullish.
    cbn [mbind result_bind].
    destruct (truthy (prop previousStatus "processed_status")) eqn:E3;
      cbn [negb andb]; [|done].
    assert (Hp : previousStatus ≠ JNull) by (by intros ->).
    assert (Hbody : ∀ out,
              try_catch
                (metrics ← get (prop previousStatus "processed_status") "metrics";
                 filteredMetrics ←
                   array_filter (js_or metrics (JArr []))
                                (has_relevance (threshold_of threshold));
                 highlights ← get (prop previousStatus "processed_status") "highlights";
                 filteredHighlights ←
                   array_filter (js_or highlights (JArr []))
                                (has_relevance (threshold_of threshold));
                 persistent_context ←
                   get (prop previousStatus "processed_status") "persistent_context";
                 filteredPersistentContext ←
                   array_filter (js_or persistent_context (JArr []))
                                (has_relevance (threshold_of threshold));
                 mret (JObj (set_field "processed_status"
                               (JObj (set_field "persistent_context" filteredPersistentContext
                                     (set_field "highlights" filteredHighlights
                                     (set_field "metrics" filteredMetrics
                                        (own_props (prop previousStatus "processed_status"))))))
                               (own_props previousStatus))))
                (fun _ => Ok previousStatus) = out →
              ∃ v, out = Ok v ∧ v ≠ JNull).
    { intros out <-. unfold try_catch.
      rewrite !(get_not_nullish (prop previousStatus "processed_status"))
        by by apply truthy_not_nullish.
      cbn [mbind result_bind].
      repeat (match goal with |- context [array_filter ?a ?b] =>
                destruct (array_filter a b); cbn [mbind result_bind];
                [|by exists previousStatus] end).
      by eexists. }
    destruct (threshold_in_range threshold) eqn:Er; cbn [mbind result_bind].
    + destruct (Hbody _ eq_refl) as (v & -> & Hv). by split.
    + destruct (ToString _ _ threshold) as [s|e] eqn:Es; cbn [mbind result_bind]; [|done].
      destruct (Hbody _ eq_refl) as (v & -> & Hv). by split.
  - intros Hprim. eapply filterRelevantContext_returns. by apply ToString_primitive.
Qed.

End Swallowed.

Lemma null_element_switches_scoring_and_filtering_off_witness :
  calculateContextRelevance Date_ms_iso Number_toString_plain Native_call_Object
    at_1500 entry_null_metric = Ok entry_null_metric
  ∧ filterRelevantContext Number_toString_plain Native_call_Object entry_null_metric JUndef
    = Ok entry_null_metric.
Proof.
  destruct (null_element_switches_scoring_and_filtering_off Date_ms_iso Number_toString_plain
              Native_call_Object at_1500 entry_null_metric JUndef "metrics"
              [ JObj [ ("name", JStr "Energy"); ("value", JStr "Low") ]; JNull ] JNull)
    as [Hs Hf]; try reflexivity.
  - apply list_elem_of_In; cbn; auto.
  - apply list_elem_of_In; cbn; auto.
  - split; [by apply Hs|exact Hf].
Defined.

(** ** The filter as an operation on snapshots *)

Lemma set_field_overwrite k v v' fs : set_field k v (set_field k v' fs) = set_field k v fs.
Proof.
  induction fs as [|[k0 v0] fs IH]; cbn.
  - by rewrite String.eqb_refl.
  - destruct (String.eqb k k0) eqn:E; cbn; rewrite ?String.eqb_refl, ?E; [done|by rewrite IH].
Qed.

Lemma set_field_same k v fs :
  k ∈ fs.*1 → lookup_field k fs = v → set_field k v fs = fs.
Proof.
  induction fs as [|[k0 v0] fs IH]; cbn; [by intros ?%elem_of_nil|].
  intros Hin Hv. destruct (String.eqb_spec k k0) as [->|Hne]; [by subst|].
  apply elem_of_cons in Hin as [?|Hin]; [done|]. by rewrite IH.
Qed.

Lemma elem_of_set_field k k' v fs :
  k ∈ (set_field k' v fs).*1 ↔ k = k' ∨ k ∈ fs.*1.
Proof.
  induction fs as [|[k0 v0] fs IH]; cbn.
  - rewrite list_elem_of_singleton, elem_of_nil. tauto.
  - destruct (String.eqb_spec k' k0) as [->|Hne]; cbn; rewrite !elem_of_cons; [tauto|].
    rewrite IH. tauto.
Qed.

Lemma filter_filter {A} (f : A → bool) l : List.filter f (List.filter f l) = List.filter f l.
Proof.
  induction l as [|x l IH]; [done|]. cbn. destruct (f x) eqn:E; [|done]. cbn. by rewrite E, IH.
Qed.

Lemma filter_sublist {A} (f : A → bool) l : sublist (List.filter f l) l.
Proof.
  induction l as [|x l IH]; cbn; [constructor|].
  destruct (f x); by constructor.
Qed.

Lemma forallb_filter {A} (f g : A → bool) l :
  forallb g l = true → forallb g (List.filter f l) = true.
Proof.
  induction l as [|x l IH]; [done|]. cbn. intros [Hx Hl]%andb_true_iff.
  destruct (f x); cbn; [rewrite Hx|]; auto.
Qed.

Section FilterOperation.

Variable Number_toString : Q → string.
Variable Native_call : string → jsval → result jsval.

(** A filter that returns has let the threshold pass. *)
Lemma filterRelevantContext_passed ctx threshold out :
  well_formed_snapshot ctx = true →
  filterRelevantContext Number_toString Native_call ctx threshold = Ok out →
  ∃ s, (if threshold_in_range threshold then Ok ""
        else ToString Number_toString Native_call threshold) = Ok s.
Proof.
  unfold well_formed_snapshot. rewrite !andb_true_iff. intros [[[[Hctx Hps] _] _] _].
  unfold filterRelevantContext. rewrite Hctx. cbn [negb].
  rewrite (get_not_nullish ctx) by by apply truthy_not_nullish.
  cbn [mbind result_bind]. rewrite Hps. cbn [negb].
  destruct (if threshold_in_range threshold then _ else _); [by eexists|done].
Qed.

(** The snapshot that the filter returns for a well-formed one. *)
Lemma filterRelevantContext_well_formed ctx threshold s :
  well_formed_snapshot ctx = true →
  (if threshold_in_range threshold then Ok ""
   else ToString Number_toString Native_call threshold) = Ok s →
  ∃ lm lh lp,
    array_at ctx "metrics" = Some lm
    ∧ array_at ctx "highlights" = Some lh
    ∧ array_at ctx "persistent_context" = Some lp
    ∧ forallb (fun m => negb (nullish m)) lm = true
    ∧ forallb (fun m => negb (nullish m)) lh = true
    ∧ forallb (fun m => negb (nullish m)) lp = true
    ∧ filterRelevantContext Number_toString Native_call ctx threshold
      = Ok (JObj (set_field "processed_status"
                    (JObj (set_field "persistent_context"
                             (JArr (List.filter (retained (threshold_of threshold)) lp))
                          (set_field "highlights"
                             (JArr (List.filter (retained (threshold_of threshold)) lh))
                          (set_field "metrics"
                             (JArr (List.filter (retained (threshold_of threshold)) lm))
                             (own_props (prop ctx "processed_status"))))))
                    (own_props ctx))).
Proof.
  unfold well_formed_snapshot, array_of_objects, array_at. rewrite !andb_true_iff.
  intros [[[[Hctx Hps] Hm] Hh] Hp] Hs.
  destruct (elements_of _ "metrics") as [lm|] eqn:Em; [|done].
  destruct (elements_of _ "highlights") as [lh|] eqn:Eh; [|done].
  destruct (elements_of _ "persistent_context") as [lp|] eqn:Ep; [|done].
  exists lm, lh, lp. do 6 (split; [done|]).
  assert (F : ∀ l, forallb (fun m => negb (nullish m)) l = true →
            Forall (fun m => nullish m = false) l).
  { intros l H. apply Forall_forall. intros m Hin%list_elem_of_In.
    rewrite forallb_forall in H. by apply negb_true_iff, H. }
  unfold filterRelevantContext. rewrite Hctx. cbn [negb].
  rewrite (get_not_nullish ctx) by by apply truthy_not_nullish.
  cbn [mbind result_bind]. rewrite Hps. cbn [negb]. rewrite Hs. cbn [mbind result_bind].
  rewrite !(get_not_nullish (prop ctx "processed_status")) by by apply truthy_not_nullish.
  cbn [mbind result_bind].
  rewrite (array_filter_objects _ _ _ _ (elements_of_js_or _ _ _ Em) (F _ Hm)).
  cbn [mbind result_bind].
  rewrite (array_filter_objects _ _ _ _ (elements_of_js_or _ _ _ Eh) (F _ Hh)).
  cbn [mbind result_bind].
  rewrite (array_filter_objects _ _ _ _ (elements_of_js_or _ _ _ Ep) (F _ Hp)).
  reflexivity.
Qed.

(** Filtering a second time with the same threshold changes nothing. *)
Theorem filter_is_idempotent ctx threshold out :
  well_formed_snapshot ctx = true →
  filterRelevantContext Number_toString Native_call ctx threshold = Ok out →
  filterRelevantContext Number_toString Native_call out threshold = Ok out.
Proof.
  intros Hw Hout. destruct (filterRelevantContext_passed _ _ _ Hw Hout) as [s Hs].
  destruct (filterRelevantContext_well_formed ctx threshold s Hw Hs)
    as (lm & lh & lp & _ & _ & _ & Fm & Fh & Fp & E).
  rewrite E in Hout. injection Hout as <-.
  set (r := retained (threshold_of threshold)) in *.
  destruct (scored_snapshot_arrays (own_props ctx) (own_props (prop ctx "processed_status"))
              (List.filter r lm) (List.filter r lh) (List.filter r lp)) as (Am & Ah & Ap).
  edestruct (filterRelevantContext_well_formed) as (lm' & lh' & lp' & Am' & Ah' & Ap' & _ & _ & _ & ->).
  { apply scored_snapshot_well_formed; by apply forallb_filter. }
  { exact Hs. }
  rewrite Am in Am'. rewrite Ah in Ah'. rewrite Ap in Ap'.
  injection Am' as <-. injection Ah' as <-. injection Ap' as <-.
  fold r. rewrite !filter_filter. cbn [own_props prop].
  rewrite lookup_set_field_eq. cbn [own_props].
  rewrite set_field_overwrite. do 2 f_equal. f_equal.
  rewrite (set_field_same "metrics").
  - rewrite (set_field_same "highlights").
    + by rewrite set_field_overwrite.
    + rewrite !elem_of_set_field. auto.
    + rewrite lookup_set_field_ne by done. apply lookup_set_field_eq.
  - rewrite !elem_of_set_field. auto.
  - rewrite !lookup_set_field_ne by done. apply lookup_set_field_eq.
Qed.

(** The filter only takes elements away: each of the three arrays of the
    result is a sublist of the array it came from, with the elements that stay
    in their order, and every other own property of the entry and of its
    [processed_status] is as it was. *)
Theorem filter_only_removes ctx threshold out :
  well_formed_snapshot ctx = true →
  filterRelevantContext Number_toString Native_call ctx threshold = Ok out →
  (∀ k, k ∈ category_arrays →
     ∃ elems kept, array_at ctx k = Some elems ∧ array_at out k = Some kept
                   ∧ sublist kept elems)
  ∧ (∀ k, k ≠ "processed_status" → own out k = own ctx k)
  ∧ (∀ k, k ∉ category_arrays →
          own (prop out "processed_status") k = own (prop ctx "processed_status") k).
Proof.
  intros Hw Hout. destruct (filterRelevantContext_passed _ _ _ Hw Hout) as [s Hs].
  destruct (filterRelevantContext_well_formed ctx threshold s Hw Hs)
    as (lm & lh & lp & Em & Eh & Ep & _ & _ & _ & E).
  rewrite E in Hout. injection Hout as <-.
  destruct (scored_snapshot_arrays (own_props ctx) (own_props (prop ctx "processed_status"))
              (List.filter (retained (threshold_of threshold)) lm)
              (List.filter (retained (threshold_of threshold)) lh)
              (List.filter (retained (threshold_of threshold)) lp)) as (Am & Ah & Ap).
  split; [|split].
  - intros k Hk. unfold category_arrays in Hk.
    apply elem_of_cons in Hk as [->|Hk]; [|apply elem_of_cons in Hk as [->|Hk];
      [|apply list_elem_of_singleton in Hk as ->]];
      eexists _, _; (split; [eassumption|]); (split; [eassumption|]); apply filter_sublist.
  - intros k Hk. unfold own. cbn [own_props]. by rewrite lookup_set_field_ne.
  - intros k Hk. unfold own. cbn [prop]. rewrite lookup_set_field_eq. cbn [own_props].
    assert (k ≠ "metrics" ∧ k ≠ "highlights" ∧ k ≠ "persistent_context") as (K1 & K2 & K3).
    { unfold category_arrays in Hk. rewrite !not_elem_of_cons in Hk. tauto. }
    by rewrite !lookup_set_field_ne.
Qed.

End FilterOperation.

Lemma filter_is_idempotent_witness :
  ∃ out, filterRelevantContext Number_toString_plain Native_call_Object scored_0700 (JNum (3 # 10)) = Ok out
         ∧ filterRelevantContext Number_toString_plain Native_call_Object out (JNum (3 # 10)) = Ok out.
Proof.
  eexists. split; [reflexivity|].
  apply (filter_is_idempotent Number_toString_plain Native_call_Object scored_0700
           (JNum (3 # 10))); reflexivity.
Defined.

Lemma filter_only_removes_witness :
  ∃ out, filterRelevantContext Number_toString_plain Native_call_Object scored_0700 (JNum (3 # 10)) = Ok out
    ∧ (∀ k, k ∈ category_arrays →
         ∃ elems kept, array_at scored_0700 k = Some elems ∧ array_at out k = Some kept
                       ∧ sublist kept elems)
    ∧ (∀ k, k ≠ "processed_status" → own out k = own scored_0700 k)
    ∧ (∀ k, k ∉ category_arrays →
            own (prop out "processed_status") k = own (prop scored_0700 "processed_status") k).
Proof.
  eexists. split; [reflexivity|].
  apply (filter_only_removes Number_toString_plain Native_call_Object scored_0700
           (JNum (3 # 10))); reflexivity.
Defined.

(** ** The time since the previous update *)

Section TimeSince.

Variable Date_ms : jsval → option Z.
Variable Number_toString : Q → string.
Variable Native_call : string → jsval → result jsval.
Variable now : Z.

Lemma Math_round_div_bounds a b n :
  (0 < b)%Z → (Math_round_div a b < n ↔ 2 * a < (2 * n - 1) * b)%Z.
Proof.
  intros Hb. unfold Math_round_div. split.
  - intros H.
    destruct (Z_lt_ge_dec (2 * a + b) (2 * b * n)) as [?|Hge]; [lia|].
    apply Z.ge_le, Z.div_le_lower_bound in Hge; lia.
  - intros H. apply Z.div_lt_upper_bound; lia.
Qed.

(** For a timestamp that is a date the answer is "now" up to half a minute,
    whole minutes from 1 to 59 up to 59 and a half minutes, whole hours from 1
    to 23 while the rounded minutes make less than 23 and a half hours, and
    whole days from then on; a timestamp in the future gives "now". *)
Theorem getTimeSinceUpdate_ranges previousTimestampISO prevDate :
  new_Date Date_ms Number_toString Native_call previousTimestampISO = Ok (Some prevDate) →
  let gap := (now - prevDate)%Z in
  let minutes := Math_round_div gap 60000 in
  let hours := Math_round_div minutes 60 in
  let days := Math_round_div hours 24 in
  ((gap < 30000)%Z → getTimeSinceUpdate Date_ms Number_toString Native_call now previousTimestampISO = "now")
  ∧ ((30000 ≤ gap < 3570000)%Z →
     getTimeSinceUpdate Date_ms Number_toString Native_call now previousTimestampISO = string_of_Z minutes ++ "m"
     ∧ (1 ≤ minutes ≤ 59)%Z)
  ∧ ((3570000 ≤ gap)%Z → (minutes < 1410)%Z →
     getTimeSinceUpdate Date_ms Number_toString Native_call now previousTimestampISO = string_of_Z hours ++ "h"
     ∧ (1 ≤ hours ≤ 23)%Z)
  ∧ ((1410 ≤ minutes)%Z →
     getTimeSinceUpdate Date_ms Number_toString Native_call now previousTimestampISO = string_of_Z days ++ "d"
     ∧ (1 ≤ days)%Z).
Proof.
  intros Hd. cbn zeta. unfold getTimeSinceUpdate. rewrite Hd.
  set (gap := (now - prevDate)%Z).
  set (minutes := Math_round_div gap 60000).
  set (hours := Math_round_div minutes 60).
  set (days := Math_round_div hours 24).
  change (1000 * 60)%Z with 60000%Z. fold minutes. fold hours. fold days.
  pose proof (Math_round_div_bounds gap 60000 1 ltac:(lia)) as M1.
  pose proof (Math_round_div_bounds gap 60000 60 ltac:(lia)) as M60.
  pose proof (Math_round_div_bounds minutes 60 1 ltac:(lia)) as H1.
  pose proof (Math_round_div_bounds minutes 60 24 ltac:(lia)) as H24.
  pose proof (Math_round_div_bounds hours 24 1 ltac:(lia)) as D1.
  fold minutes in M1, M60. fold hours in H1, H24. fold days in D1.
  split; [|split; [|split]].
  - intros Hg. replace (minutes <? 1)%Z with true; [done|]. symmetry. apply Z.ltb_lt. lia.
  - intros Hg. replace (minutes <? 1)%Z with false by (symmetry; apply Z.ltb_ge; lia).
    replace (minutes <? 60)%Z with true by (symmetry; apply Z.ltb_lt; lia).
    split; [done|lia].
  - intros Hg Hm. replace (minutes <? 1)%Z with false by (symmetry; apply Z.ltb_ge; lia).
    replace (minutes <? 60)%Z with false by (symmetry; apply Z.ltb_ge; lia).
    replace (hours <? 24)%Z with true by (symmetry; apply Z.ltb_lt; lia).
    split; [done|lia].
  - intros Hm. replace (minutes <? 1)%Z with false by (symmetry; apply Z.ltb_ge; lia).
    replace (minutes <? 60)%Z with false by (symmetry; apply Z.ltb_ge; lia).
    replace (hours <? 24)%Z with false by (symmetry; apply Z.ltb_ge; lia).
    split; [done|lia].
Qed.

End TimeSince.

Lemma getTimeSinceUpdate_ranges_witness :
  getTimeSinceUpdate Date_ms_iso Number_toString_plain Native_call_Object at_1500
    (JStr "2025-04-28T07:00:00.000Z") = "8h".
Proof.
  destruct (getTimeSinceUpdate_ranges Date_ms_iso Number_toString_plain Native_call_Object
              at_1500 (JStr "2025-04-28T07:00:00.000Z") 1745823600000 eq_refl)
    as (_ & _ & H & _).
  apply H; vm_compute; [discriminate|reflexivity].
Defined.

(** ** What the reconciliation of the personal states leaves alone *)

Section Reconciliation.

Variable Date_ms : jsval → option Z.
Variable Number_toString : Q → string.
Variable Native_call : string → jsval → result jsval.
Variable now : Z.

(** The reconciliation of states whose names, levels and times are primitive
    values returns. Whenever it returns, it returns the states of the update
    one for one and in their order: an entry without a name comes back as it
    is; of a state with a name only [trend] and [time_since_last] can differ
    from what the update said. *)
Theorem reconciliation_touches_only_trend_and_time
    previousStates currentStates previousTimestampISO :
  (Forall (fun state => plain_state state = true) (array_or_empty previousStates) →
   Forall (fun state => plain_state state = true) (array_or_empty currentStates) →
   ∃ out, updatePersonalStateTimes Date_ms Number_toString Native_call now
            previousStates currentStates previousTimestampISO = Ok out)
  ∧ ∀ out,
      updatePersonalStateTimes Date_ms Number_toString Native_call now
        previousStates currentStates previousTimestampISO = Ok out →
      ∃ updated,
        out = JArr updated
        ∧ length updated = length (array_or_empty currentStates)
        ∧ ∀ i currentState,
            array_or_empty currentStates !! i = Some currentState →
            ∃ updatedState,
              updated !! i = Some updatedState
              ∧ (valid_state currentState = false → updatedState = currentState)
              ∧ (valid_state currentState = true →
                 is_object updatedState = true
                 ∧ ∀ k, k ≠ "trend" → k ≠ "time_since_last" →
                        own updatedState k = own currentState k).
Proof.
  split; [apply updatePersonalStateTimes_plain|].
  intros out (updated & -> & Hall)%updatePersonalStateTimes_Ok.
  exists updated. split; [done|]. split; [symmetry; by eapply Forall2_length|].
  intros i currentState Hi.
  destruct (Forall2_lookup_l _ _ _ _ _ Hall Hi) as (updatedState & Hu & Hstep).
  exists updatedState. split; [done|].
  apply update_state_Ok in Hstep.
  destruct (valid_state currentState); [|by split].
  split; [done|]. intros _.
  destruct Hstep as (fs & -> & Hstep).
  assert (Hcases : (∃ trend, updatedState = JObj (set_field "trend" trend fs))
                   ∨ ∃ trend time,
                       updatedState
                       = JObj (set_field "time_since_last" time (set_field "trend" trend fs))).
  { destruct (Map_get _ _) as [prevState|]; [|left; by eexists].
    destruct Hstep as (prevLevel & currentLevel & _ & _ & Hstep).
    destruct (_ && _).
    - destruct Hstep as (time & _ & ->). right. by eexists _, _.
    - left. by eexists. }
  destruct Hcases as [[trend ->] | (trend & time & ->)]; (split; [done|]);
    intros k K1 K2; unfold own; cbn [own_props]; by rewrite !lookup_set_field_ne.
Qed.

End Reconciliation.

Lemma reconciliation_touches_only_trend_and_time_witness :
  ∃ out,
    updatePersonalStateTimes Date_ms_iso Number_toString_plain Native_call_Object at_1500
      (JArr [ JObj [ ("name", JStr "Hunger"); ("level", JNum 4);
                     ("time_since_last", JStr "4h ago") ] ])
      (JArr [ JObj [ ("name", JStr "Hunger"); ("emoji", JStr "🍽"); ("level", JNum 1) ] ])
      (JStr "2025-04-28T13:00:00.000Z") = Ok out.
Proof.
  apply (proj1 (reconciliation_touches_only_trend_and_time Date_ms_iso Number_toString_plain
                  Native_call_Object at_1500
                  (JArr [ JObj [ ("name", JStr "Hunger"); ("level", JNum 4);
                                 ("time_since_last", JStr "4h ago") ] ])
                  (JArr [ JObj [ ("name", JStr "Hunger"); ("emoji", JStr "🍽");
                                 ("level", JNum 1) ] ])
                  (JStr "2025-04-28T13:00:00.000Z")));
    repeat constructor.
Defined.

(** ** Templates *)

Lemma lookup_clone_string k s fs fs' :
  JSON_clone (JObj fs) = Some (JObj fs') →
  lookup_field k fs = JStr s → lookup_field k fs' = JStr s.
Proof.
  cbn. intros [= <-]. induction fs as [|[k0 v0] fs IH]; cbn; [done|].
  destruct (String.eqb k k0) eqn:E.
  - intros ->. cbn. by rewrite E.
  - intros H. destruct (JSON_clone v0); cbn; rewrite ?E; by apply IH.
Qed.

Lemma prop_stored_string t k s : prop t k = JStr s → prop (stored t) k = JStr s.
Proof.
  destruct t as [| | | | | |fs|]; try done. cbn [prop]. intros H.
  unfold stored. destruct (stored_object fs) as [fs' E]. rewrite E. cbn [default prop].
  by eapply lookup_clone_string.
Qed.

Section Templates.

Variable String_toLowerCase : string → string.
Variable Date_toISOString : Z → string.

Lemma lowered_name_stored t s :
  lowered_name String_toLowerCase t = Some s →
  lowered_name String_toLowerCase (stored t) = Some s.
Proof.
  unfold lowered_name.
  destruct (prop t "name") as [| | | |n| | |] eqn:E; try done.
  by rewrite (prop_stored_string _ _ _ E).
Qed.

Lemma name_toLowerCase_Ok t s :
  name_toLowerCase String_toLowerCase t = Ok s ↔ lowered_name String_toLowerCase t = Some s.
Proof.
  unfold name_toLowerCase, lowered_name.
  destruct t as [| | | | | |fs|]; cbn; try (split; done).
  destruct (lookup_field "name" fs); cbn; split; intros [= <-]; done.
Qed.

(** [findIndex] answers with the first template of the name, having met only
    templates with other names before it; without a match every element has a
    name, and it is another one. *)
Lemma findIndex_name_Some lowerCaseName templates i0 i :
  findIndex_name String_toLowerCase lowerCaseName templates i0 = Ok (Some i) →
  ∃ j t, i = (i0 + j)%nat ∧ templates !! j = Some t
         ∧ lowered_name String_toLowerCase t = Some lowerCaseName
         ∧ ∀ j' t', (j' < j)%nat → templates !! j' = Some t' →
                    ∃ s, lowered_name String_toLowerCase t' = Some s ∧ s ≠ lowerCaseName.
Proof.
  revert i0. induction templates as [|t templates IH]; intros i0; cbn; [done|].
  destruct (name_toLowerCase _ t) as [s|] eqn:En; cbn; [|done].
  apply name_toLowerCase_Ok in En.
  destruct (String.eqb_spec s lowerCaseName) as [->|Hne].
  - intros [= <-]. exists 0%nat, t. split; [lia|]. split; [done|]. split; [done|]. lia.
  - intros (j & t0 & -> & Hj & Hn & Hb)%IH. exists (S j), t0.
    split; [lia|]. split; [done|]. split; [done|].
    intros [|j'] t' Hlt; cbn.
    + intros [= <-]. by exists s.
    + apply Hb. lia.
Qed.

Lemma findIndex_name_None lowerCaseName templates i0 :
  findIndex_name String_toLowerCase lowerCaseName templates i0 = Ok None →
  Forall (fun t => ∃ s, lowered_name String_toLowerCase t = Some s ∧ s ≠ lowerCaseName)
         templates.
Proof.
  revert i0. induction templates as [|t templates IH]; intros i0; cbn; [constructor|].
  destruct (name_toLowerCase _ t) as [s|] eqn:En; cbn; [|done].
  apply name_toLowerCase_Ok in En.
  destruct (String.eqb_spec s lowerCaseName) as [->|Hne]; [done|].
  intros H. constructor; [by exists s|by eapply IH].
Qed.

Lemma templates_of_read kvStore userId :
  truthy (JStr userId) = true →
  kv_fails kvStore (KvGet ("user:" ++ userId ++ ":templates")) = false →
  getUserTemplates userId kvStore
  = templates_of (held ("user:" ++ userId ++ ":templates") kvStore).
Proof. intros Hu Hg. unfold getUserTemplates, kv_get. by rewrite Hu, Hg. Qed.

Lemma templates_of_stored templates :
  templates_of (stored (JObj [("templates", JArr templates)])) = stored <$> templates.
Proof. reflexivity. Qed.

Lemma templates_of_put templates :
  templates_of (default JNull (JSON_clone (JObj [("templates", JArr templates)])))
  = stored <$> templates.
Proof. reflexivity. Qed.

Lemma templates_of_object templates :
  templates_of (JObj [("templates", JArr templates)]) = templates.
Proof. reflexivity. Qed.

Lemma held_insert key v data fails :
  held key {| kv_data := <[key := v]> data; kv_fails := fails |} = v.
Proof. unfold held. cbn [kv_data]. by rewrite lookup_insert_eq. Qed.

(** What a save that went through has read and written. *)
Lemma saveStatusTemplate_success
    userId templateName templateText kvStore emoji category now kvStore' :
  saveStatusTemplate String_toLowerCase Date_toISOString
    userId templateName templateText kvStore emoji category now = (true, kvStore') →
  let old := getUserTemplates userId kvStore in
  let template :=
    [ ("name", JStr templateName);
      ("emoji", match emoji with JUndef => JStr "📝" | _ => emoji end);
      ("category", js_or (match category with JUndef => JNull | _ => category end) JNull);
      ("template_text", JStr templateText);
      ("updated_at", JStr (Date_toISOString now)) ] in
  ∃ existingIndex templates,
    findIndex_name String_toLowerCase (String_toLowerCase templateName) old 0
    = Ok existingIndex
    ∧ templates
      = match existingIndex with
        | Some i =>
            <[i := JObj (set_field "created_at"
                           (js_or (prop (default JUndef (old !! i)) "created_at")
                                  (JStr (Date_toISOString now)))
                           template)]> old
        | None =>
            (old ++ [JObj (set_field "created_at" (JStr (Date_toISOString now)) template)])%list
        end
    ∧ getUserTemplates userId kvStore' = stored <$> templates
    ∧ kv_fails kvStore' = kv_fails kvStore
    ∧ ∀ k, k ≠ "user:" ++ userId ++ ":templates" →
           kv_data kvStore' !! k = kv_data kvStore !! k.
Proof.
  cbn zeta. unfold saveStatusTemplate.
  destruct (truthy (JStr userId)) eqn:Hu; cbn [negb orb]; [|done].
  destruct (truthy (JStr templateName)); cbn [negb orb]; [|done].
  destruct (truthy (JStr templateText)); cbn [negb orb]; [|done].
  unfold kv_get at 1.
  destruct (kv_fails kvStore (KvGet _)) eqn:Hg; [done|].
  rewrite (templates_of_read _ _ Hu Hg). fold (held ("user:" ++ userId ++ ":templates") kvStore).
  destruct (findIndex_name _ _ _ _) as [existingIndex|]; [|done].
  unfold kv_put. destruct (kv_fails kvStore (KvPut _)); [done|].
  intros [= <-]. eexists _, _. split; [done|]. split; [done|].
  split; [|split; [done|]].
  - rewrite templates_of_read by done. unfold held. cbn [kv_data].
    rewrite lookup_insert_eq. cbn [default]. apply templates_of_stored.
  - intros k Hk. cbn [kv_data]. by rewrite lookup_insert_ne.
Qed.

(** A template that was saved is in the list that is read afterwards, under
    its name as it was typed, with its text and the time of the save. It has
    taken the place of the first template whose name differs from its own at
    most in case, keeping the time that one was created, or it stands at the
    end when there was none; the other templates are where they were. *)
Theorem saved_template_is_listed
    userId templateName templateText kvStore emoji category now kvStore' :
  saveStatusTemplate String_toLowerCase Date_toISOString
    userId templateName templateText kvStore emoji category now = (true, kvStore') →
  let old := getUserTemplates userId kvStore in
  let new := getUserTemplates userId kvStore' in
  ∃ i t,
    new !! i = Some t
    ∧ prop t "name" = JStr templateName
    ∧ prop t "template_text" = JStr templateText
    ∧ prop t "updated_at" = JStr (Date_toISOString now)
    ∧ ((i = length old ∧ length new = S (length old)
        ∧ prop t "created_at" = JStr (Date_toISOString now)
        ∧ ∀ t0, t0 ∈ old →
                lowered_name String_toLowerCase t0 ≠ Some (String_toLowerCase templateName))
       ∨ (∃ t0, old !! i = Some t0
                ∧ lowered_name String_toLowerCase t0 = Some (String_toLowerCase templateName)
                ∧ (∀ j t', (j < i)%nat → old !! j = Some t' →
                           lowered_name String_toLowerCase t'
                           ≠ Some (String_toLowerCase templateName))
                ∧ length new = length old
                ∧ ∀ s, prop t0 "created_at" = JStr s → s ≠ "" →
                       prop t "created_at" = JStr s))
    ∧ ∀ j t0, j ≠ i → old !! j = Some t0 → new !! j = Some (stored t0).
Proof.
  intros Hs. destruct (saveStatusTemplate_success _ _ _ _ _ _ _ _ Hs)
    as (existingIndex & templates & Hfind & -> & Hnew & _ & _).
  cbn zeta. rewrite Hnew. clear Hnew Hs.
  set (old := getUserTemplates userId kvStore) in *.
  destruct existingIndex as [i|].
  - apply findIndex_name_Some in Hfind as (j & t0 & -> & Hj & Hn & Hfirst). cbn [Nat.add].
    rewrite Hj. cbn [default].
    eexists j, _. split.
    { rewrite list_lookup_fmap, list_lookup_insert_eq by (by eapply lookup_lt_Some). done. }
    split; [by apply prop_stored_string|]. split; [by apply prop_stored_string|].
    split; [by apply prop_stored_string|]. split.
    + right. exists t0. split; [done|]. split; [done|].
      split.
      { intros j' t' Hlt Hj'. destruct (Hfirst j' t' Hlt Hj') as (s & -> & Hne). congruence. }
      split; [by rewrite length_fmap, length_insert|].
      intros s Hc Hne. apply prop_stored_string. cbn. rewrite Hc. unfold js_or. cbn.
      by apply String.eqb_neq in Hne as ->.
    + intros j' t' Hne Hj'. by rewrite list_lookup_fmap, list_lookup_insert_ne, Hj'.
  - apply findIndex_name_None in Hfind.
    eexists (length old), _. split.
    { rewrite list_lookup_fmap, lookup_app_r, Nat.sub_diag by lia. done. }
    split; [by apply prop_stored_string|]. split; [by apply prop_stored_string|].
    split; [by apply prop_stored_string|]. split.
    + left. split; [done|]. split; [rewrite length_fmap, length_app; cbn; lia|].
      split; [by apply prop_stored_string|].
      intros t0 Ht0. rewrite Forall_forall in Hfind.
      destruct (Hfind t0 Ht0) as (s & -> & Hne). congruence.
    + intros j t0 Hne Hj. rewrite list_lookup_fmap, lookup_app_l by (by eapply lookup_lt_Some).
      by rewrite Hj.
Qed.

Lemma well_named_lowered templates :
  well_named templates = true →
  Forall (fun t => is_Some (lowered_name String_toLowerCase t)) templates.
Proof.
  unfold well_named. rewrite forallb_forall. intros H.
  apply Forall_forall. intros t Ht%list_elem_of_In. apply H in Ht.
  unfold lowered_name. by destruct (prop t "name").
Qed.

Lemma lowered_names_stored templates :
  well_named templates = true →
  lowered_names String_toLowerCase (stored <$> templates)
  = lowered_names String_toLowerCase templates.
Proof.
  intros H%well_named_lowered. unfold lowered_names.
  induction H as [|t l [s Hs] _ IH]; [done|]. cbn.
  by rewrite (lowered_name_stored _ _ Hs), Hs, IH.
Qed.

Lemma well_named_stored templates :
  well_named templates = true → well_named (stored <$> templates) = true.
Proof.
  unfold well_named. induction templates as [|t l IH]; [done|]. cbn.
  intros [Ht Hl]%andb_true_iff. rewrite IH by done.
  destruct (prop t "name") as [| | | |s| | |] eqn:E; try done.
  by rewrite (prop_stored_string _ _ _ E).
Qed.

Lemma lowered_names_lookup templates j t s :
  well_named templates = true → templates !! j = Some t →
  lowered_name String_toLowerCase t = Some s →
  lowered_names String_toLowerCase templates !! j = Some s.
Proof.
  intros H%well_named_lowered. revert j. unfold lowered_names.
  induction H as [|t0 l [s0 Hs0] _ IH]; intros [|j]; cbn; try done.
  - intros [= ->] Hs. by rewrite Hs.
  - intros Hj Hs. rewrite Hs0. cbn. by apply IH.
Qed.

Lemma lowered_names_insert templates j t s :
  well_named templates = true →
  lowered_name String_toLowerCase t = Some s →
  lowered_names String_toLowerCase (<[j := t]> templates)
  = <[j := s]> (lowered_names String_toLowerCase templates).
Proof.
  intros H%well_named_lowered Hs. revert j. unfold lowered_names.
  induction H as [|t0 l [s0 Hs0] _ IH]; intros [|j]; cbn; try done.
  - by rewrite Hs, Hs0.
  - rewrite Hs0. cbn. by rewrite IH.
Qed.

Lemma lowered_names_app l1 l2 :
  lowered_names String_toLowerCase (l1 ++ l2)
  = (lowered_names String_toLowerCase l1 ++ lowered_names String_toLowerCase l2)%list.
Proof. apply omap_app. Qed.

Lemma well_named_insert templates j t :
  well_named templates = true → is_string (prop t "name") = true →
  well_named (<[j := t]> templates) = true.
Proof.
  unfold well_named. revert j. induction templates as [|t0 l IH]; intros [|j]; cbn; try done.
  - intros [_ ->]%andb_true_iff ->. done.
  - intros [-> Hl]%andb_true_iff Ht. by rewrite IH.
Qed.

(** The list of a user stays a list of named templates no two of which have
    the same name up to case, through every save. *)
Theorem save_keeps_names_distinct
    userId templateName templateText kvStore emoji category now kvStore' :
  saveStatusTemplate String_toLowerCase Date_toISOString
    userId templateName templateText kvStore emoji category now = (true, kvStore') →
  well_named (getUserTemplates userId kvStore) = true →
  NoDup (lowered_names String_toLowerCase (getUserTemplates userId kvStore)) →
  well_named (getUserTemplates userId kvStore') = true
  ∧ NoDup (lowered_names String_toLowerCase (getUserTemplates userId kvStore'))
  ∧ String_toLowerCase templateName
    ∈ lowered_names String_toLowerCase (getUserTemplates userId kvStore').
Proof.
  intros Hs Hw Hnd. destruct (saveStatusTemplate_success _ _ _ _ _ _ _ _ Hs)
    as (existingIndex & templates & Hfind & -> & Hnew & _ & _).
  rewrite Hnew. clear Hnew Hs.
  set (old := getUserTemplates userId kvStore) in *.
  destruct existingIndex as [i|].
  - apply findIndex_name_Some in Hfind as (j & t0 & -> & Hj & Hn & _). cbn [Nat.add].
    assert (Hw' : well_named (<[j := JObj (set_field "created_at"
                     (js_or (prop (default JUndef (old !! j)) "created_at")
                            (JStr (Date_toISOString now)))
                     [ ("name", JStr templateName);
                       ("emoji", match emoji with JUndef => JStr "📝" | _ => emoji end);
                       ("category",
                         js_or (match category with JUndef => JNull | _ => category end) JNull);
                       ("template_text", JStr templateText);
                       ("updated_at", JStr (Date_toISOString now)) ])]> old) = true)
      by (by apply well_named_insert).
    split; [by apply well_named_stored|].
    rewrite lowered_names_stored by done.
    rewrite (lowered_names_insert _ _ _ (String_toLowerCase templateName)) by done.
    rewrite list_insert_id by (by eapply lowered_names_lookup).
    split; [done|]. eapply list_elem_of_lookup_2. by eapply lowered_names_lookup.
  - apply findIndex_name_None in Hfind.
    assert (Hw' : well_named (old ++ [JObj (set_field "created_at" (JStr (Date_toISOString now))
                     [ ("name", JStr templateName);
                       ("emoji", match emoji with JUndef => JStr "📝" | _ => emoji end);
                       ("category",
                         js_or (match category with JUndef => JNull | _ => category end) JNull);
                       ("template_text", JStr templateText);
                       ("updated_at", JStr (Date_toISOString now)) ])]) = true).
    { unfold well_named in *. rewrite forallb_app, Hw. done. }
    split; [by apply well_named_stored|].
    rewrite lowered_names_stored by done. rewrite lowered_names_app. cbn.
    split; [|apply elem_of_app; right; by apply list_elem_of_singleton].
    apply NoDup_app. split; [done|]. split; [|apply NoDup_singleton].
    intros s Hin ->%list_elem_of_singleton.
    unfold lowered_names in Hin. apply list_elem_of_omap in Hin as (t0 & Ht0 & Hs0).
    rewrite Forall_forall in Hfind. destruct (Hfind t0 Ht0) as (s & Hs & Hne). congruence.
Qed.

Lemma other_name_Ok lowerCaseName t b :
  other_name String_toLowerCase lowerCaseName t = Ok b →
  ∃ s, lowered_name String_toLowerCase t = Some s ∧ b = negb (String.eqb s lowerCaseName).
Proof.
  unfold other_name. destruct (name_toLowerCase String_toLowerCase t) as [s|] eqn:En; [|done].
  apply name_toLowerCase_Ok in En. cbn. intros [= <-]. by exists s.
Qed.

Lemma other_name_named lowerCaseName t :
  is_string (prop t "name") = true →
  ∃ b, other_name String_toLowerCase lowerCaseName t = Ok b.
Proof.
  unfold other_name, name_toLowerCase. destruct t as [| | | | | |fs|]; try done. cbn.
  destruct (lookup_field "name" fs); try done. by eexists.
Qed.

Lemma filterM_other_name lowerCaseName templates kept :
  filterM (other_name String_toLowerCase lowerCaseName) templates = Ok kept →
  well_named templates = true
  ∧ kept = List.filter (fun t => negb (bool_decide
                                  (lowered_name String_toLowerCase t = Some lowerCaseName)))
                       templates.
Proof.
  revert kept. induction templates as [|t l IH]; intros kept; cbn [filterM List.filter].
  - by intros [= <-].
  - destruct (other_name String_toLowerCase lowerCaseName t) as [b|] eqn:Eo; [|done].
    apply other_name_Ok in Eo as (s & En & ->). cbn [mbind result_bind].
    destruct (filterM _ l) as [kept'|]; [|done].
    destruct (IH kept' eq_refl) as [Hw ->]. cbn. intros [= <-]. split.
    + unfold well_named in *. cbn. rewrite Hw. unfold lowered_name in En.
      by destruct (prop t "name").
    + rewrite En. destruct (String.eqb_spec s lowerCaseName) as [->|Hne]; cbn.
      * by rewrite bool_decide_eq_true_2.
      * rewrite bool_decide_eq_false_2 by congruence. done.
Qed.

Lemma filterM_other_name_total lowerCaseName templates :
  well_named templates = true →
  ∃ kept, filterM (other_name String_toLowerCase lowerCaseName) templates = Ok kept.
Proof.
  induction templates as [|t l IH]; cbn [filterM]; [by eexists|].
  unfold well_named. cbn. intros [Ht Hl]%andb_true_iff. destruct (IH Hl) as [kept E].
  destruct (other_name_named lowerCaseName t Ht) as [b ->]. cbn. rewrite E. cbn. by eexists.
Qed.

Lemma lowered_names_filter lowerCaseName templates :
  well_named templates = true →
  lowered_names String_toLowerCase
    (List.filter (fun t => negb (bool_decide
                    (lowered_name String_toLowerCase t = Some lowerCaseName))) templates)
  = List.filter (fun s => negb (String.eqb s lowerCaseName))
                (lowered_names String_toLowerCase templates).
Proof.
  intros H%well_named_lowered. unfold lowered_names.
  induction H as [|t l [s Hs] _ IH]; [done|]. cbn. rewrite Hs. cbn.
  destruct (String.eqb_spec s lowerCaseName) as [->|Hne]; cbn.
  - by rewrite bool_decide_eq_true_2.
  - rewrite bool_decide_eq_false_2 by congruence. cbn. by rewrite Hs, IH.
Qed.

Lemma well_named_filter (f : jsval → bool) templates :
  well_named templates = true → well_named (List.filter f templates) = true.
Proof. apply forallb_filter. Qed.

Lemma length_filter_lt {A} (f : A → bool) l :
  (length (List.filter f l) <? length l)%nat = negb (forallb f l).
Proof.
  induction l as [|x l IH]; [done|]. cbn [List.filter forallb length].
  pose proof (filter_length_le f l) as Hle.
  destruct (f x); cbn [length andb negb].
  - rewrite <- IH.
    destruct (Nat.ltb_spec (length (List.filter f l)) (length l));
      destruct (Nat.ltb_spec (S (length (List.filter f l))) (S (length l))); first [lia|done].
  - destruct (Nat.ltb_spec (length (List.filter f l)) (S (length l))); first [lia|done].
Qed.

(** A delete that went through leaves no template of the name, whatever its
    case, and the others in their order; when there was none of the name it
    writes nothing. Deleting once more changes nothing. *)
Theorem deleted_template_is_gone userId templateName kvStore kvStore' :
  deleteStatusTemplate String_toLowerCase userId templateName kvStore = (true, kvStore') →
  let old := getUserTemplates userId kvStore in
  let new := getUserTemplates userId kvStore' in
  let lowerCaseName := String_toLowerCase templateName in
  well_named old = true
  ∧ well_named new = true
  ∧ lowered_names String_toLowerCase new
    = List.filter (fun s => negb (String.eqb s lowerCaseName))
                  (lowered_names String_toLowerCase old)
  ∧ (lowerCaseName ∉ lowered_names String_toLowerCase new)
  ∧ (lowerCaseName ∉ lowered_names String_toLowerCase old → kvStore' = kvStore)
  ∧ deleteStatusTemplate String_toLowerCase userId templateName kvStore' = (true, kvStore').
Proof.
  cbn zeta. intros Hs.
  assert (Hcore : well_named (getUserTemplates userId kvStore) = true
     ∧ well_named (getUserTemplates userId kvStore') = true
     ∧ lowered_names String_toLowerCase (getUserTemplates userId kvStore')
       = List.filter (fun s => negb (String.eqb s (String_toLowerCase templateName)))
           (lowered_names String_toLowerCase (getUserTemplates userId kvStore))
     ∧ (String_toLowerCase templateName
        ∉ lowered_names String_toLowerCase (getUserTemplates userId kvStore) →
        kvStore' = kvStore)
     ∧ truthy (JStr userId) = true ∧ truthy (JStr templateName) = true
     ∧ kv_fails kvStore' (KvGet ("user:" ++ userId ++ ":templates")) = false).
  { unfold deleteStatusTemplate in Hs.
    destruct (truthy (JStr userId)) eqn:Hu; cbn [negb orb] in Hs; [|done].
    destruct (truthy (JStr templateName)) eqn:Hn; cbn [negb orb] in Hs; [|done].
    unfold kv_get in Hs at 1.
    destruct (kv_fails kvStore (KvGet _)) eqn:Hg; [done|].
    fold (held ("user:" ++ userId ++ ":templates") kvStore) in Hs.
    rewrite <- (templates_of_read _ _ Hu Hg) in Hs.
    set (old := getUserTemplates userId kvStore) in *.
    destruct (filterM _ old) as [kept|] eqn:Ef; [|done].
    apply filterM_other_name in Ef as [Hw ->].
    rewrite length_filter_lt in Hs.
    destruct (forallb _ old) eqn:Eall; cbn [negb] in Hs.
    - injection Hs as <-. fold old. split; [done|]. split; [done|].
      split; [|done].
      rewrite <- lowered_names_filter by done. f_equal. symmetry.
      apply filter_all. apply Forall_forall. intros t Ht%list_elem_of_In.
      rewrite forallb_forall in Eall. by apply Eall.
    - unfold kv_put in Hs. destruct (kv_fails kvStore (KvPut _)); [done|].
      injection Hs as <-.
      rewrite (templates_of_read _ userId) by done. rewrite held_insert.
      rewrite templates_of_object.
      match goal with |- context [map ?f ?l] => change (map f l) with (stored <$> l) end.
      split; [done|]. split; [by apply well_named_stored, well_named_filter|].
      split; [rewrite lowered_names_stored by (by apply well_named_filter);
              by apply lowered_names_filter|].
      split; [|done]. intros Hnot. exfalso.
      apply not_true_iff_false in Eall. apply Eall. apply forallb_forall.
      intros t Ht%list_elem_of_In. apply negb_true_iff, bool_decide_eq_false_2.
      intros Hl. apply Hnot. unfold lowered_names. apply list_elem_of_omap. by exists t. }
  destruct Hcore as (Hw & Hw' & Hnames & Hsame & Hu & Hn & Hg).
  assert (Hgone : String_toLowerCase templateName
                  ∉ lowered_names String_toLowerCase (getUserTemplates userId kvStore')).
  { rewrite Hnames. intros [_ Hin]%list_elem_of_In%filter_In.
    by rewrite String.eqb_refl in Hin. }
  do 3 (split; [done|]). split; [done|]. split; [done|].
  unfold deleteStatusTemplate. rewrite Hu, Hn. cbn [negb orb].
  unfold kv_get. rewrite Hg.
  fold (held ("user:" ++ userId ++ ":templates") kvStore').
  rewrite <- (templates_of_read _ _ Hu Hg).
  destruct (filterM_other_name_total (String_toLowerCase templateName) _ Hw') as [kept Ef].
  rewrite Ef. apply filterM_other_name in Ef as [_ ->].
  rewrite length_filter_lt.
  replace (forallb _ _) with true; [done|]. symmetry. apply forallb_forall.
  intros t Ht%list_elem_of_In. apply negb_true_iff, bool_decide_eq_false_2.
  intros Hl. apply Hgone. unfold lowered_names. apply list_elem_of_omap. by exists t.
Qed.

End Templates.

Lemma saved_template_is_listed_witness :
  ∃ i t,
    getUserTemplates "42" lunch_saved.2 !! i = Some t
    ∧ prop t "name" = JStr "LUNCH"
    ∧ prop t "template_text" = JStr "Back at one"
    ∧ prop t "updated_at" = JStr (Date_toISOString_utc at_1500)
    ∧ ((i = length (getUserTemplates "42" (reliable templates_of_42))
        ∧ length (getUserTemplates "42" lunch_saved.2)
          = S (length (getUserTemplates "42" (reliable templates_of_42)))
        ∧ prop t "created_at" = JStr (Date_toISOString_utc at_1500)
        ∧ ∀ t0, t0 ∈ getUserTemplates "42" (reliable templates_of_42) →
                lowered_name toLowerCase t0 ≠ Some (toLowerCase "LUNCH"))
       ∨ (∃ t0, getUserTemplates "42" (reliable templates_of_42) !! i = Some t0
                ∧ lowered_name toLowerCase t0 = Some (toLowerCase "LUNCH")
                ∧ (∀ j t', (j < i)%nat →
                           getUserTemplates "42" (reliable templates_of_42) !! j = Some t' →
                           lowered_name toLowerCase t' ≠ Some (toLowerCase "LUNCH"))
                ∧ length (getUserTemplates "42" lunch_saved.2)
                  = length (getUserTemplates "42" (reliable templates_of_42))
                ∧ ∀ s, prop t0 "created_at" = JStr s → s ≠ "" →
                       prop t "created_at" = JStr s))
    ∧ ∀ j t0, j ≠ i → getUserTemplates "42" (reliable templates_of_42) !! j = Some t0 →
              getUserTemplates "42" lunch_saved.2 !! j = Some (stored t0).
Proof.
  assert (H : lunch_saved.1 = true) by (vm_compute; reflexivity).
  apply (saved_template_is_listed toLowerCase Date_toISOString_utc "42" "LUNCH" "Back at one"
           (reliable templates_of_42) JUndef JUndef at_1500 lunch_saved.2).
  rewrite <- H. apply surjective_pairing.
Defined.

Lemma save_keeps_names_distinct_witness :
  well_named (getUserTemplates "42" lunch_saved.2) = true
  ∧ NoDup (lowered_names toLowerCase (getUserTemplates "42" lunch_saved.2))
  ∧ toLowerCase "LUNCH" ∈ lowered_names toLowerCase (getUserTemplates "42" lunch_saved.2).
Proof.
  assert (H : lunch_saved.1 = true) by (vm_compute; reflexivity).
  apply (save_keeps_names_distinct toLowerCase Date_toISOString_utc "42" "LUNCH" "Back at one"
           (reliable templates_of_42) JUndef JUndef at_1500 lunch_saved.2).
  - rewrite <- H. apply surjective_pairing.
  - reflexivity.
  - vm_compute. repeat constructor; rewrite ?elem_of_cons, ?elem_of_nil; intuition discriminate.
Defined.

Lemma deleted_template_is_gone_witness :
  well_named (getUserTemplates "42" (reliable templates_of_42)) = true
  ∧ well_named (getUserTemplates "42" deep_work_deleted.2) = true
  ∧ lowered_names toLowerCase (getUserTemplates "42" deep_work_deleted.2)
    = List.filter (fun s => negb (String.eqb s (toLowerCase "deep work")))
                  (lowered_names toLowerCase (getUserTemplates "42" (reliable templates_of_42)))
  ∧ (toLowerCase "deep work"
     ∉ lowered_names toLowerCase (getUserTemplates "42" deep_work_deleted.2))
  ∧ (toLowerCase "deep work"
     ∉ lowered_names toLowerCase (getUserTemplates "42" (reliable templates_of_42)) →
     deep_work_deleted.2 = reliable templates_of_42)
  ∧ deleteStatusTemplate toLowerCase "42" "deep work" deep_work_deleted.2
    = (true, deep_work_deleted.2).
Proof.
  assert (H : deep_work_deleted.1 = true) by (vm_compute; reflexivity).
  apply (deleted_template_is_gone toLowerCase "42" "deep work" (reliable templates_of_42)
           deep_work_deleted.2).
  rewrite <- H. apply surjective_pairing.
Defined.

(** ** Keys of different users *)

Lemma string_length_app (a b : string) :
  String.length (a ++ b) = (String.length a + String.length b)%nat.
Proof. induction a as [|c a IH]; simpl; [done|]. by rewrite IH. Qed.

Lemma string_app_inv_tail (a b s : string) : a ++ s = b ++ s → a = b.
Proof.
  revert b. induction a as [|c a IH]; intros [|c' b] H; try done.
  - pose proof (f_equal String.length H) as L. rewrite !string_length_app in L. simpl in L. lia.
  - pose proof (f_equal String.length H) as L. rewrite !string_length_app in L. simpl in L. lia.
  - simpl in H. injection H as -> H. f_equal. by apply IH.
Qed.

Lemma string_last_app (a b : string) : b ≠ "" → string_last (a ++ b) = string_last b.
Proof.
  intros Hb. induction a as [|c a IH]; simpl; [done|].
  destruct (a ++ b) eqn:E; [|exact IH].
  destruct a; simpl in E; [by subst|discriminate].
Qed.

Lemma history_key_inj userId userId' :
  "user:" ++ userId ++ ":status_history" = "user:" ++ userId' ++ ":status_history" →
  userId = userId'.
Proof. intros H%string_app_inv_head. by apply string_app_inv_tail in H. Qed.

Lemma latest_key_inj userId userId' :
  "user:" ++ userId ++ ":latest_status" = "user:" ++ userId' ++ ":latest_status" →
  userId = userId'.
Proof. intros H%string_app_inv_head. by apply string_app_inv_tail in H. Qed.

Lemma history_key_ne_any_latest_key userId userId' :
  "user:" ++ userId ++ ":status_history" ≠ "user:" ++ userId' ++ ":latest_status".
Proof.
  intros H%string_app_inv_head. apply (f_equal string_last) in H.
  by rewrite !string_last_app in H.
Qed.

(** ** Stores that fail, and the data of other users *)

Section StoreMore.

Variable Date_toISOString : Z → string.

(** A store touches the two keys of its user and no other, whatever comes of
    it; so the history and the latest pointer of every other user are as they
    were. *)
Theorem store_touches_only_the_keys_of_its_user
    userId rawInput processedStatus kvStore historyLimit now :
  let kvStore' :=
    (storeUserStatus Date_toISOString userId rawInput processedStatus kvStore
                     historyLimit now).2 in
  kv_fails kvStore' = kv_fails kvStore
  ∧ (∀ key, key ≠ "user:" ++ userId ++ ":status_history" →
            key ≠ "user:" ++ userId ++ ":latest_status" →
            kv_data kvStore' !! key = kv_data kvStore !! key)
  ∧ ∀ userId', userId' ≠ userId →
       history_of userId' kvStore' = history_of userId' kvStore
       ∧ latest_of userId' kvStore' = latest_of userId' kvStore.
Proof.
  cbn zeta.
  set (kvStore' := (storeUserStatus _ _ _ _ _ _ _).2).
  assert (H : kv_fails kvStore' = kv_fails kvStore
     ∧ ∀ key, key ≠ "user:" ++ userId ++ ":status_history" →
              key ≠ "user:" ++ userId ++ ":latest_status" →
              kv_data kvStore' !! key = kv_data kvStore !! key).
  { subst kvStore'. unfold storeUserStatus.
    destruct (negb _ || negb _); [done|].
    unfold kv_get. destruct (kv_fails kvStore (KvGet _)); [done|].
    unfold kv_put.
    destruct (kv_fails kvStore (KvPut ("user:" ++ userId ++ ":status_history")));
      [done|]. cbn [kv_fails kv_data].
    destruct (kv_fails kvStore (KvPut ("user:" ++ userId ++ ":latest_status")));
      cbn [snd kv_fails kv_data]; (split; [done|]); intros key K1 K2;
      by rewrite !lookup_insert_ne. }
  destruct H as [Hf Hk]. split; [done|]. split; [done|].
  intros userId' Hne. unfold history_of, latest_of, held. split.
  - rewrite Hk; [done| |apply history_key_ne_any_latest_key].
    intros E%history_key_inj. done.
  - rewrite Hk; [done| |].
    + apply not_eq_sym, history_key_ne_any_latest_key.
    + intros E%latest_key_inj. done.
Qed.

(** When the write of the history goes through and the write of the latest
    pointer fails, the call answers [null] as for a store that did not happen,
    but the new entry is in the history, and the latest pointer is left behind
    it. *)
Theorem failed_latest_write_leaves_the_history_ahead
    userId rawInput processedStatus kvStore historyLimit now :
  userId ≠ "" →
  truthy processedStatus = true →
  kv_fails kvStore (KvGet ("user:" ++ userId ++ ":status_history")) = false →
  kv_fails kvStore (KvPut ("user:" ++ userId ++ ":status_history")) = false →
  kv_fails kvStore (KvPut ("user:" ++ userId ++ ":latest_status")) = true →
  ∃ kvStore',
    storeUserStatus Date_toISOString userId rawInput processedStatus kvStore historyLimit now
    = (JNull, kvStore')
    ∧ last (history_of userId kvStore')
      = Some (stored (newStatusEntry_of Date_toISOString rawInput processedStatus now))
    ∧ latest_of userId kvStore' = latest_of userId kvStore.
Proof.
  intros Hu Hp Hg Hp1 Hp2. unfold storeUserStatus.
  rewrite (truthy_userId _ Hu), Hp. cbn [negb orb].
  unfold kv_get. rewrite Hg. rewrite history_read.
  unfold kv_put. rewrite Hp1. cbn [kv_fails kv_data]. rewrite Hp2.
  eexists. split; [done|]. split.
  - unfold history_of. rewrite held_insert.
    fold (held ("user:" ++ userId ++ ":status_history") kvStore).
    fold (history_of userId kvStore).
    match goal with |- context [JArr ?l] =>
      change (array_or_empty (prop (default JNull (JSON_clone (JObj [("history", JArr l)])))
                                   "history"))
        with (stored <$> l) end.
    rewrite fmap_last.
    change (last (trimmed (default 20%Z historyLimit)
                    (history_of userId kvStore
                     ++ [newStatusEntry_of Date_toISOString rawInput processedStatus now]))
            ≫= (λ x, Some (stored x)) = Some (stored
              (newStatusEntry_of Date_toISOString rawInput processedStatus now))).
    by rewrite last_trimmed.
  - unfold latest_of, held. cbn [kv_data].
    by rewrite lookup_insert_ne by (apply history_key_ne_latest_key).
Qed.

End StoreMore.

Lemma failed_latest_write_leaves_the_history_ahead_witness :
  ∃ kvStore',
    storeUserStatus Date_toISOString_utc "42" (JStr "Lunch")
      (JObj [("overall_status", JStr "On a break")]) (latest_down ∅) None at_1500
    = (JNull, kvStore')
    ∧ last (history_of "42" kvStore')
      = Some (stored (newStatusEntry_of Date_toISOString_utc (JStr "Lunch")
                        (JObj [("overall_status", JStr "On a break")]) at_1500))
    ∧ latest_of "42" kvStore' = latest_of "42" (latest_down ∅).
Proof.
  apply (failed_latest_write_leaves_the_history_ahead Date_toISOString_utc "42" (JStr "Lunch")
           (JObj [("overall_status", JStr "On a break")]) (latest_down ∅) None at_1500);
    [discriminate|reflexivity..].
Defined.

(** ** The interaction log *)

Lemma length_trimmed historyLimit (history : list jsval) :
  (0 < historyLimit)%Z → (length (trimmed historyLimit history) ≤ Z.to_nat historyLimit)%nat.
Proof.
  intros Hpos. unfold trimmed. destruct (_ && _) eqn:E.
  - rewrite length_drop. lia.
  - apply andb_false_iff in E as [E|E]; lia.
Qed.

Lemma trimmed_suffix historyLimit (history : list jsval) :
  suffix (trimmed historyLimit history) history.
Proof. unfold trimmed. destruct (_ && _); [apply suffix_drop|done]. Qed.

Lemma logUserInteraction_success
    targetUserId actorUserId interactionType timestamp kvStore logLimit kvStore' :
  logUserInteraction targetUserId actorUserId interactionType timestamp kvStore logLimit
  = (true, kvStore') →
  kvStore'
  = {| kv_data :=
         <["log:interactions:" ++ targetUserId :=
             stored (JObj [("log",
                       JArr (trimmed (default 100%Z logLimit)
                               (log_of targetUserId kvStore
                                ++ [JObj [ ("actor", JStr actorUserId);
                                           ("type", JStr interactionType);
                                           ("timestamp", JStr timestamp) ]])%list))])]>
           (kv_data kvStore);
       kv_fails := kv_fails kvStore |}.
Proof.
  unfold logUserInteraction.
  destruct (negb _ || negb _ || negb _ || negb _); [done|].
  unfold kv_get. destruct (kv_fails kvStore (KvGet _)); [done|].
  fold (held ("log:interactions:" ++ targetUserId) kvStore).
  assert (Hread : (if truthy (held ("log:interactions:" ++ targetUserId) kvStore)
                      && Array_isArray (prop (held ("log:interactions:" ++ targetUserId) kvStore)
                                             "log")
                   then array_or_empty (prop (held ("log:interactions:" ++ targetUserId) kvStore)
                                             "log")
                   else [])
                  = log_of targetUserId kvStore).
  { unfold log_of. destruct (held _ kvStore) as [| | | | | |fs|]; cbn;
      rewrite ?andb_false_r; try done. by destruct (lookup_field "log" fs). }
  rewrite Hread. clear Hread.
  unfold kv_put. destruct (kv_fails kvStore (KvPut _)); [done|].
  intros [= <-]. reflexivity.
Qed.

Lemma log_of_insert targetUserId log data fails :
  log_of targetUserId
    {| kv_data := <["log:interactions:" ++ targetUserId := stored (JObj [("log", JArr log)])]> data;
       kv_fails := fails |}
  = stored <$> log.
Proof. unfold log_of. by rewrite held_insert. Qed.

(** A logged interaction is the last entry of the log of its target; what was
    logged before stands in front of it, in its order, cut at the front to the
    limit. With a positive limit the log never holds more entries than that. *)
Theorem logged_interaction_is_last_and_the_log_is_capped
    targetUserId actorUserId interactionType timestamp kvStore logLimit kvStore' :
  logUserInteraction targetUserId actorUserId interactionType timestamp kvStore logLimit
  = (true, kvStore') →
  let entry := JObj [ ("actor", JStr actorUserId); ("type", JStr interactionType);
                      ("timestamp", JStr timestamp) ] in
  let limit := default 100%Z logLimit in
  last (log_of targetUserId kvStore') = Some entry
  ∧ suffix (log_of targetUserId kvStore')
           (stored <$> (log_of targetUserId kvStore ++ [entry])%list)
  ∧ ((0 < limit)%Z → (length (log_of targetUserId kvStore') ≤ Z.to_nat limit)%nat)
  ∧ ((limit ≤ 0)%Z →
     length (log_of targetUserId kvStore') = S (length (log_of targetUserId kvStore)))
  ∧ ∀ key, key ≠ "log:interactions:" ++ targetUserId →
           kv_data kvStore' !! key = kv_data kvStore !! key.
Proof.
  intros ->%logUserInteraction_success. cbn zeta. rewrite log_of_insert.
  set (entry := JObj [ ("actor", JStr actorUserId); ("type", JStr interactionType);
                       ("timestamp", JStr timestamp) ]).
  split; [|split; [|split; [|split]]].
  - by rewrite fmap_last, last_trimmed.
  - destruct (trimmed_suffix (default 100%Z logLimit) (log_of targetUserId kvStore ++ [entry]))
      as [dropped E].
    exists (stored <$> dropped). rewrite E at 1. by rewrite fmap_app.
  - intros Hpos. rewrite length_fmap. by apply length_trimmed.
  - intros Hle. rewrite length_fmap. unfold trimmed.
    replace (default 100%Z logLimit >? 0)%Z with false by (symmetry; rewrite Z.gtb_ltb; apply Z.ltb_ge; lia).
    cbn [andb]. rewrite length_app. cbn [length]. lia.
  - intros key Hk. cbn [kv_data]. by rewrite lookup_insert_ne.
Qed.

Lemma logged_interaction_is_last_and_the_log_is_capped_witness :
  last (log_of "42" check_in_logged.2)
  = Some (JObj [ ("actor", JStr "7"); ("type", JStr "check_in");
                 ("timestamp", JStr "2025-04-28T15:00:00.000Z") ])
  ∧ suffix (log_of "42" check_in_logged.2)
           (stored <$> (log_of "42" (reliable templates_of_42)
                        ++ [JObj [ ("actor", JStr "7"); ("type", JStr "check_in");
                                   ("timestamp", JStr "2025-04-28T15:00:00.000Z") ]])%list)
  ∧ ((0 < default 100%Z (Some 1%Z))%Z →
     (length (log_of "42" check_in_logged.2) ≤ Z.to_nat (default 100%Z (Some 1%Z)))%nat)
  ∧ ((default 100%Z (Some 1%Z) ≤ 0)%Z →
     length (log_of "42" check_in_logged.2) = S (length (log_of "42" (reliable templates_of_42))))
  ∧ ∀ key, key ≠ "log:interactions:" ++ "42" →
           kv_data check_in_logged.2 !! key = kv_data (reliable templates_of_42) !! key.
Proof.
  assert (H : check_in_logged.1 = true) by (vm_compute; reflexivity).
  apply (logged_interaction_is_last_and_the_log_is_capped "42" "7" "check_in"
           "2025-04-28T15:00:00.000Z" (reliable templates_of_42) (Some 1%Z) check_in_logged.2).
  rewrite <- H. apply surjective_pairing.
Defined.

(** ** The updates of the day *)

Section Today.

Variable Date_toISOString : Z → string.
Variable Date_ms : jsval → option Z.
Variable Number_toString : Q → string.
Variable Native_call : string → jsval → result jsval.

Lemma filter_length_pos {A} (f : A → bool) l x :
  x ∈ l → f x = true → (1 ≤ length (List.filter f l))%nat.
Proof.
  intros Hx Hf. induction l as [|y l IH]; [by apply elem_of_nil in Hx|].
  cbn. apply elem_of_cons in Hx as [<-|Hx].
  - rewrite Hf. cbn. lia.
  - destruct (f y); cbn; [lia|by apply IH].
Qed.

Lemma filterM_pure (p : jsval → result bool) (f : jsval → bool) l :
  Forall (fun x => p x = Ok (f x)) l → filterM p l = Ok (List.filter f l).
Proof.
  induction 1 as [|x l Hx _ IH]; cbn [filterM List.filter]; [done|].
  rewrite Hx, IH. done.
Qed.

Lemma dated_entry_stored status : dated_entry status = true → dated_entry (stored status) = true.
Proof.
  unfold dated_entry. intros [Ho Ht]%andb_true_iff.
  destruct status as [| | | | | |fs|]; try done.
  destruct (prop (JObj fs) "timestamp") as [| | | |s| | |] eqn:E; try done.
  rewrite (prop_stored_string _ _ _ E).
  destruct (stored_object fs) as [fs' E']. unfold stored. by rewrite E'.
Qed.

(** The test of the filter on an entry with a string as its timestamp. *)
Lemma updated_between_dated today tomorrow status :
  dated_entry status = true →
  updated_between Date_ms Number_toString Native_call today tomorrow status
  = Ok (match Date_ms (prop status "timestamp") with
        | Some statusDate => (today <=? statusDate)%Z && (statusDate <? tomorrow)%Z
        | None => false
        end).
Proof.
  unfold dated_entry. intros [Ho Ht]%andb_true_iff.
  destruct status as [| | | | | |fs|]; try done.
  unfold updated_between. cbn [get mbind result_bind].
  by destruct (prop (JObj fs) "timestamp").
Qed.

(** An update that was stored counts as an update of its day: asked at any
    moment of the same day (UTC) the count is at least one, and never more than
    the history holds. The clock is one whose ISO text of the moment of the
    store reads back as that moment, and the entries that the history held
    before are, as those that [storeUserStatus] writes, objects with a string
    as their timestamp. *)
Theorem stored_update_counts_for_its_day
    userId rawInput processedStatus kvStore historyLimit now entry kvStore' later :
  storeUserStatus Date_toISOString userId rawInput processedStatus kvStore historyLimit now
  = (entry, kvStore') →
  entry ≠ JNull →
  Forall (fun status => dated_entry status = true) (history_of userId kvStore) →
  Date_ms (JStr (Date_toISOString now)) = Some now →
  (later / 86400000 = now / 86400000)%Z →
  (1 ≤ getStatusUpdateCountToday Date_ms Number_toString Native_call userId kvStore' later
     ≤ Z.of_nat (length (history_of userId kvStore')))%Z.
Proof.
  intros Hs Hne Hold Hd Hday.
  destruct (storeUserStatus_success _ _ _ _ _ _ _ _ _ Hs Hne) as (He & Hu & Hf & Hg & Hdata).
  pose proof (history_of_after_store _ _ _ _ _ Hdata) as Hh.
  unfold getStatusUpdateCountToday. rewrite Hu. cbn [negb].
  unfold kv_get. rewrite Hf, Hg.
  fold (held ("user:" ++ userId ++ ":status_history") kvStore').
  rewrite history_read. fold (history_of userId kvStore').
  assert (Hlast : last (history_of userId kvStore') = Some (stored entry))
    by (by rewrite Hh, fmap_last, last_trimmed).
  assert (Hin : stored entry ∈ history_of userId kvStore').
  { apply last_Some in Hlast as [l' ->]. apply elem_of_app. right. by apply list_elem_of_singleton. }
  destruct (Nat.eqb_spec (length (history_of userId kvStore')) 0) as [E|_].
  { apply length_zero_iff_nil in E. rewrite E in Hin. by apply elem_of_nil in Hin. }
  assert (Hall : Forall (fun status => dated_entry status = true) (history_of userId kvStore')).
  { rewrite Hh. apply Forall_fmap.
    assert (Hnew : Forall (fun status => dated_entry status = true)
                     (history_of userId kvStore ++ [entry])%list).
    { apply Forall_app. split; [done|]. apply Forall_singleton. by rewrite He. }
    unfold trimmed. destruct (_ && _); [apply Forall_drop|];
      (eapply Forall_impl; [exact Hnew|]); intros status; apply dated_entry_stored. }
  rewrite (filterM_pure _
             (fun status =>
                match Date_ms (prop status "timestamp") with
                | Some statusDate =>
                    ((later / 86400000 * 86400000 <=? statusDate)
                     && (statusDate <? later / 86400000 * 86400000 + 86400000))%Z
                | None => false
                end)).
  2:{ eapply Forall_impl; [exact Hall|]. intros status. apply updated_between_dated. }
  split.
  - apply (inj_le 1). eapply filter_length_pos; [exact Hin|].
    assert (Ht : prop (stored entry) "timestamp" = JStr (Date_toISOString now))
      by (apply prop_stored_string; by rewrite He).
    rewrite Ht, Hd.
    rewrite Hday. apply andb_true_iff. split; [apply Z.leb_le|apply Z.ltb_lt].
    + rewrite Z.mul_comm. apply Z.mul_div_le. lia.
    + pose proof (Z.mod_pos_bound now 86400000 ltac:(lia)).
      pose proof (Z.div_mod now 86400000 ltac:(lia)). lia.
  - apply inj_le, filter_length_le.
Qed.

End Today.

Lemma stored_update_counts_for_its_day_witness :
  (1 ≤ getStatusUpdateCountToday Date_ms_iso Number_toString_plain Native_call_Object
         "42" lunch_store.2 (at_1500 + 3600000)
     ≤ Z.of_nat (length (history_of "42" lunch_store.2)))%Z.
Proof.
  apply (stored_update_counts_for_its_day Date_toISOString_utc Date_ms_iso
           Number_toString_plain Native_call_Object "42" (JStr "Lunch")
           (JObj [("overall_status", JStr "On a break")]) (reliable ∅) None at_1500
           lunch_store.1 lunch_store.2 (at_1500 + 3600000)).
  - apply surjective_pairing.
  - vm_compute. discriminate.
  - vm_compute. constructor.
  - vm_compute. reflexivity.
  - reflexivity.
Defined.

(** ** What a purge deletes, and what it counts *)

Lemma delete_each_exact keysToDelete kvStore deletedCount :
  NoDup keysToDelete →
  (∀ k, k ∈ keysToDelete → is_Some (kv_data kvStore !! k)) →
  ((delete_each keysToDelete (kvStore, deletedCount)).2 - deletedCount
   = Z.of_nat (size (kv_data kvStore))
     - Z.of_nat (size (kv_data (delete_each keysToDelete (kvStore, deletedCount)).1)))%Z.
Proof.
  revert kvStore deletedCount.
  induction keysToDelete as [|k ks IH]; intros kvStore deletedCount Hnd Hin; [cbn; lia|].
  apply NoDup_cons in Hnd as [Hk Hnd]. rewrite delete_each_cons.
  destruct (kv_fails kvStore (KvDelete k)).
  - apply IH; [done|]. intros k' Hk'. apply Hin. by right.
  - rewrite <- (Z.sub_add (deletedCount + 1) (_ .2)) at 1.
    replace (((delete_each ks
                ({| kv_data := delete k (kv_data kvStore); kv_fails := kv_fails kvStore |},
                 (deletedCount + 1)%Z)).2 - (deletedCount + 1) + (deletedCount + 1)
              - deletedCount)%Z)
      with (((delete_each ks
                ({| kv_data := delete k (kv_data kvStore); kv_fails := kv_fails kvStore |},
                 (deletedCount + 1)%Z)).2 - (deletedCount + 1)) + 1)%Z by lia.
    rewrite IH; [|done|].
    + cbn [kv_data]. destruct (Hin k ltac:(left)) as [v Hv].
      pose proof (map_size_delete k (kv_data kvStore)) as Hs. rewrite Hv in Hs.
      assert (size (kv_data kvStore) ≠ 0%nat).
      { intros E%map_size_empty_inv. by rewrite E, lookup_empty in Hv. }
      lia.
    + intros k' Hk'. cbn [kv_data]. rewrite lookup_delete_ne by (intros ->; done).
      apply Hin. by right.
Qed.

Lemma NoDup_take {A} (l : list A) n : NoDup l → NoDup (take n l).
Proof. intros H. eapply sublist_NoDup; [exact H|apply sublist_take]. Qed.

Lemma delete_each_keeps keysToDelete kvStore deletedCount k :
  k ∉ keysToDelete →
  kv_data (delete_each keysToDelete (kvStore, deletedCount)).1 !! k = kv_data kvStore !! k.
Proof. intros Hk. rewrite delete_each_lookup. by rewrite bool_decide_eq_false_2. Qed.

Lemma page_present prefix cursor0 kvStore n k :
  k ∈ take n (remaining prefix cursor0 kvStore) →
  is_Some (kv_data kvStore !! k) ∧ String.prefix prefix k = true.
Proof.
  intros Hk%(subseteq_take n). apply elem_of_remaining in Hk as (? & ? & ?). done.
Qed.

(** A run of the loop over the pages of a prefix, however it ends, leaves the
    keys without the prefix alone; when it ends well, what it has added to the
    count is the number of keys that are gone. *)
Lemma purge_prefix_effect fuel prefix :
  ∀ cursor0 (kvStore : KVNamespace) deletedCount outcome kvStore',
    purge_prefix fuel prefix cursor0 (kvStore, deletedCount) = Some (outcome, kvStore') →
    kv_fails kvStore' = kv_fails kvStore
    ∧ (∀ k, String.prefix prefix k = false → kv_data kvStore' !! k = kv_data kvStore !! k)
    ∧ ∀ deletedCount', outcome = Ok deletedCount' →
        (deletedCount' - deletedCount
         = Z.of_nat (size (kv_data kvStore)) - Z.of_nat (size (kv_data kvStore')))%Z.
Proof.
  induction fuel as [|fuel IH]; intros cursor0 kvStore deletedCount outcome kvStore'; [done|].
  cbn [purge_prefix fst]. unfold kv_list.
  destruct (kv_fails kvStore (KvList prefix)).
  { intros [= <- <-]. split; [done|]. split; [done|]. done. }
  cbn [keys list_complete cursor].
  fold (remaining prefix cursor0 kvStore).
  set (R := remaining prefix cursor0 kvStore) in *.
  pose proof (delete_each_fails (take 100 R) kvStore deletedCount) as Hf.
  pose proof (delete_each_exact (take 100 R) kvStore deletedCount) as Hexact.
  pose proof (fun k => delete_each_keeps (take 100 R) kvStore deletedCount k) as Hkeep.
  destruct (delete_each (take 100 R) (kvStore, deletedCount)) as [kvStore1 deletedCount1].
  cbn [fst snd] in *.
  assert (Hexact' : (deletedCount1 - deletedCount
                     = Z.of_nat (size (kv_data kvStore)) - Z.of_nat (size (kv_data kvStore1)))%Z).
  { apply Hexact; [apply NoDup_take, NoDup_remaining|].
    intros k Hk. by apply page_present in Hk as [? _]. }
  assert (Hkeep' : ∀ k, String.prefix prefix k = false →
                        kv_data kvStore1 !! k = kv_data kvStore !! k).
  { intros k Hp. apply Hkeep. intros [_ Hp']%page_present. congruence. }
  destruct (length R <=? 100)%nat.
  - intros [= <- <-]. split; [done|]. split; [done|]. by intros n [= <-].
  - intros Hrun. apply IH in Hrun as (Hf' & Hk' & Hc').
    split; [congruence|]. split.
    + intros k Hp. by rewrite Hk', Hkeep'.
    + intros n Hn. specialize (Hc' n Hn). lia.
Qed.

Lemma purge_prefixes_effect fuel keyPrefixes :
  ∀ (kvStore : KVNamespace) deletedCount outcome kvStore',
    purge_prefixes fuel keyPrefixes (kvStore, deletedCount) = Some (outcome, kvStore') →
    kv_fails kvStore' = kv_fails kvStore
    ∧ (∀ k, (∀ prefix, prefix ∈ keyPrefixes → String.prefix prefix k = false) →
            kv_data kvStore' !! k = kv_data kvStore !! k)
    ∧ ∀ deletedCount', outcome = Ok deletedCount' →
        (deletedCount' - deletedCount
         = Z.of_nat (size (kv_data kvStore)) - Z.of_nat (size (kv_data kvStore')))%Z.
Proof.
  induction keyPrefixes as [|prefix rest IH]; intros kvStore deletedCount outcome kvStore'.
  - cbn. intros [= <- <-]. split; [done|]. split; [done|]. intros n [= <-]. lia.
  - cbn [purge_prefixes].
    destruct (purge_prefix fuel prefix [] (kvStore, deletedCount))
      as [[[deletedCount1|e] kvStore1]|] eqn:E1; [| |done].
    + apply purge_prefix_effect in E1 as (Hf1 & Hk1 & Hc1).
      intros (Hf & Hk & Hc)%IH. split; [congruence|]. split.
      * intros k Hp. rewrite Hk by (intros p Hin; apply Hp; by right).
        apply Hk1, Hp. left.
      * intros n Hn. specialize (Hc n Hn). specialize (Hc1 _ eq_refl). lia.
    + apply purge_prefix_effect in E1 as (Hf1 & Hk1 & _).
      intros [= <- <-]. split; [done|]. split; [|done].
      intros k Hp. apply Hk1, Hp. left.
Qed.

(** The first loop, when it ends well, has found activities that the user
    created, each of them once. *)
Lemma collect_activities_effect fuel userId (kvStore : KVNamespace) :
  ∀ activityCursor activityKeysToDelete all,
    collect_activities fuel userId kvStore activityCursor activityKeysToDelete
    = Some (Ok all) →
    ∃ found, all = (activityKeysToDelete ++ found)%list
             ∧ NoDup found
             ∧ ∀ k, k ∈ found → k ∈ remaining "activity:" activityCursor kvStore
                                ∧ created_by userId kvStore k = true.
Proof.
  induction fuel as [|fuel IH]; intros activityCursor acc all; [done|].
  cbn [collect_activities]. unfold kv_list.
  destruct (kv_fails kvStore (KvList "activity:")); [done|].
  cbn [keys list_complete cursor]. fold (remaining "activity:" activityCursor kvStore).
  set (R := remaining "activity:" activityCursor kvStore) in *.
  assert (Hpage : ∀ k, k ∈ List.filter (created_by userId kvStore) (take 100 R) →
                       k ∈ take 100 R ∧ created_by userId kvStore k = true).
  { intros k. by rewrite list_elem_of_In, filter_In, <- list_elem_of_In. }
  assert (Hnd : NoDup (List.filter (created_by userId kvStore) (take 100 R)))
    by (apply NoDup_List_filter, NoDup_take, NoDup_remaining).
  destruct (length R <=? 100)%nat.
  - intros [= <-]. eexists. split; [done|]. split; [done|].
    intros k [Hk Hc]%Hpage. split; [by apply (subseteq_take 100 R)|done].
  - intros (found & -> & Hndf & Hfound)%IH.
    exists (List.filter (created_by userId kvStore) (take 100 R) ++ found)%list.
    split; [by rewrite <- app_assoc|]. split.
    + apply NoDup_app. split; [done|]. split; [|done].
      intros k [Hk _]%Hpage [(_ & _ & Hc)%elem_of_remaining _]%Hfound.
      apply Hc, elem_of_app. by right.
    + intros k [[Hk Hc]%Hpage|[Hk Hc]%Hfound]%elem_of_app.
      * split; [by apply (subseteq_take 100 R)|done].
      * split; [|done]. apply elem_of_remaining in Hk as (? & ? & Hcur).
        apply elem_of_remaining. split; [done|]. split; [done|].
        intros Hin. apply Hcur, elem_of_app. by left.
Qed.

Lemma activity_key_has_no_user_prefix userId k prefix :
  String.prefix "activity:" k = true → prefix ∈ keyPrefixes_of userId →
  String.prefix prefix k = false.
Proof.
  intros Hk%String.prefix_correct Hp. destruct k as [|c k]; [done|].
  simpl in Hk. injection Hk as -> _.
  unfold keyPrefixes_of in Hp.
  apply elem_of_cons in Hp as [->|Hp]; [|apply elem_of_cons in Hp as [->|Hp];
    [|apply list_elem_of_singleton in Hp as ->]];
    apply not_true_iff_false; intros H%String.prefix_correct; simpl in H; discriminate.
Qed.

Lemma purgeUserData_effect userId (kvStore : KVNamespace) outcome kvStore' :
  purgeUserData userId kvStore = Some (outcome, kvStore') →
  kv_fails kvStore' = kv_fails kvStore
  ∧ (∀ k, foreign_key userId kvStore k → kv_data kvStore' !! k = kv_data kvStore !! k)
  ∧ ∀ deletedCount, outcome = Ok deletedCount →
      deletedCount
      = (Z.of_nat (size (kv_data kvStore)) - Z.of_nat (size (kv_data kvStore')))%Z.
Proof.
  unfold purgeUserData, purgeUserData_fuel.
  destruct (negb (truthy (JStr userId))).
  { intros [= <- <-]. split; [done|]. split; [done|]. done. }
  destruct (collect_activities _ userId kvStore [] []) as [[found|e]|] eqn:Ec; [| |done].
  2:{ intros [= <- <-]. split; [done|]. split; [done|]. done. }
  apply collect_activities_effect in Ec as (found' & -> & Hnd & Hfound). cbn [app] in *.
  fold (keyPrefixes_of userId).
  destruct (purge_prefixes _ (keyPrefixes_of userId) (kvStore, 0%Z))
    as [[[deletedCount1|e] kvStore1]|] eqn:Ep; [| |done].
  - apply purge_prefixes_effect in Ep as (Hf1 & Hk1 & Hc1). specialize (Hc1 _ eq_refl).
    pose proof (delete_each_fails found' kvStore1 deletedCount1) as Hf2.
    pose proof (delete_each_exact found' kvStore1 deletedCount1 Hnd) as Hexact.
    pose proof (fun k => delete_each_keeps found' kvStore1 deletedCount1 k) as Hkeep.
    destruct (delete_each found' (kvStore1, deletedCount1)) as [kvStore2 deletedCount2].
    cbn [fst snd] in *. intros [= <- <-]. split; [congruence|]. split.
    + intros k [Hp Hc]. rewrite Hkeep, Hk1; [done|done|].
      intros [_ Hc']%Hfound. congruence.
    + intros n [= <-].
      assert (Hpresent : ∀ k, k ∈ found' → is_Some (kv_data kvStore1 !! k)).
      { intros k [(Hk & Hp & _)%elem_of_remaining _]%Hfound.
        rewrite Hk1; [done|]. intros p Hin. by eapply activity_key_has_no_user_prefix. }
      specialize (Hexact Hpresent). lia.
  - apply purge_prefixes_effect in Ep as (Hf1 & Hk1 & _).
    intros [= <- <-]. split; [done|]. split; [|done].
    intros k [Hp _]. by apply Hk1.
Qed.

(** A purge that ends well returns the number of keys that are gone, and it has
    deleted nothing but keys that start with a prefix of the user and
    activities that the user created: every other key holds what it held. *)
Theorem purge_counts_what_it_deletes_and_deletes_only_user_keys
    userId (kvStore : KVNamespace) deletedCount kvStore' :
  purgeUserData userId kvStore = Some (Ok deletedCount, kvStore') →
  deletedCount = (Z.of_nat (size (kv_data kvStore)) - Z.of_nat (size (kv_data kvStore')))%Z
  ∧ ∀ k, foreign_key userId kvStore k → kv_data kvStore' !! k = kv_data kvStore !! k.
Proof.
  intros (_ & Hk & Hc)%purgeUserData_effect. split; [by apply Hc|done].
Qed.

Lemma reliable_fails (kvStore : KVNamespace) data op :
  kvStore = reliable data → kv_fails kvStore op = false.
Proof. by intros ->. Qed.

Lemma purge_removes_the_keys_of_the_user userId data :
  userId ≠ "" →
  ∃ deletedCount kvStore',
    purgeUserData userId (reliable data) = Some (Ok deletedCount, kvStore')
    ∧ no_user_data userId kvStore'.
Proof.
  intros Hu.
  destruct (purgeUserData_fuel_spec (S (size data)) userId (reliable data) Hu)
    as (deletedCount & kvStore' & Hrun & _ & [Hf _] & [Hkeys Hact] & _); [done|cbn; lia|].
  exists deletedCount, kvStore'. split; [done|]. split.
  - intros prefix k Hin Hk. destruct (String.prefix prefix k) eqn:Hp; [|done].
    specialize (Hkeys prefix k Hin Hk Hp). by rewrite Hf in Hkeys.
  - intros k Hp. destruct (creator_is userId kvStore' k) eqn:Hc; [|done].
    assert (Hcb : created_by userId kvStore' k = true).
    { unfold created_by, kv_get. rewrite Hf. exact Hc. }
    specialize (Hact k Hp Hcb). by rewrite Hf in Hact.
Qed.

(** In a namespace whose calls all go through a purge leaves nothing of the
    user: no key that starts with one of the three prefixes and no activity
    that the user created. *)
Theorem purge_leaves_nothing_of_the_user userId data :
  userId ≠ "" →
  ∃ deletedCount kvStore',
    purgeUserData userId (reliable data) = Some (Ok deletedCount, kvStore')
    ∧ no_user_data userId kvStore'
    ∧ deletedCount = (Z.of_nat (size data) - Z.of_nat (size (kv_data kvStore')))%Z.
Proof.
  intros Hu.
  destruct (purge_removes_the_keys_of_the_user userId data Hu)
    as (deletedCount & kvStore' & Hrun & Hno).
  exists deletedCount, kvStore'. split; [done|]. split; [done|].
  by apply (purgeUserData_effect userId (reliable data) _ _ Hrun).
Qed.

(** The prefixes of the profile and of the interaction log end with the id, so
    they are prefixes of the keys of every user whose id starts with this id:
    the purge of a user deletes the profile and the interaction log of such a
    user as well. *)
Theorem purge_reaches_the_users_whose_id_extends_the_id userId suffix data :
  userId ≠ "" →
  ∃ deletedCount kvStore',
    purgeUserData userId (reliable data) = Some (Ok deletedCount, kvStore')
    ∧ kv_data kvStore' !! ("profile:" ++ userId ++ suffix) = None
    ∧ kv_data kvStore' !! ("log:interactions:" ++ userId ++ suffix) = None.
Proof.
  intros Hu.
  destruct (purge_removes_the_keys_of_the_user userId data Hu)
    as (deletedCount & kvStore' & Hrun & [Hkeys _]).
  exists deletedCount, kvStore'. split; [done|].
  assert (Hpre : ∀ a b : string, String.prefix a (a ++ b) = true).
  { intros a b. apply String.prefix_correct.
    induction a as [|c a IH]; simpl; [by destruct b|]. by rewrite IH. }
  assert (Hin : ∀ p, p ∈ ["profile:" ++ userId; "log:interactions:" ++ userId] →
                     p ∈ keyPrefixes_of userId).
  { intros p Hp. unfold keyPrefixes_of. by right. }
  split.
  - destruct (kv_data kvStore' !! ("profile:" ++ userId ++ suffix)) as [v|] eqn:E; [|done].
    assert (Hp : String.prefix ("profile:" ++ userId) ("profile:" ++ userId ++ suffix) = true).
    { change ("profile:" ++ userId ++ suffix) with (("profile:" ++ userId) ++ suffix).
      apply Hpre. }
    rewrite (Hkeys ("profile:" ++ userId) ("profile:" ++ userId ++ suffix)) in Hp;
      [done|apply Hin; left|by rewrite E].
  - destruct (kv_data kvStore' !! ("log:interactions:" ++ userId ++ suffix)) as [v|] eqn:E;
      [|done].
    assert (Hp : String.prefix ("log:interactions:" ++ userId)
                               ("log:interactions:" ++ userId ++ suffix) = true).
    { change ("log:interactions:" ++ userId ++ suffix)
        with (("log:interactions:" ++ userId) ++ suffix).
      apply Hpre. }
    rewrite (Hkeys ("log:interactions:" ++ userId) ("log:interactions:" ++ userId ++ suffix))
      in Hp; [done|apply Hin; right; left|by rewrite E].
Qed.

Lemma purge_counts_what_it_deletes_and_deletes_only_user_keys_witness :
  ∃ deletedCount kvStore',
    purgeUserData "42" (reliable store_of_42) = Some (Ok deletedCount, kvStore')
    ∧ deletedCount
      = (Z.of_nat (size (kv_data (reliable store_of_42))) - Z.of_nat (size (kv_data kvStore')))%Z
    ∧ ∀ k, foreign_key "42" (reliable store_of_42) k →
           kv_data kvStore' !! k = kv_data (reliable store_of_42) !! k.
Proof.
  destruct (purgeUserData_fuel_spec (S (size store_of_42)) "42" (reliable store_of_42))
    as (deletedCount & kvStore' & Hrun & _); [done|done|cbn; lia|].
  exists deletedCount, kvStore'. split; [exact Hrun|].
  apply (purge_counts_what_it_deletes_and_deletes_only_user_keys "42" (reliable store_of_42)).
  exact Hrun.
Defined.

Lemma purge_leaves_nothing_of_the_user_witness :
  ∃ deletedCount kvStore',
    purgeUserData "42" (reliable store_of_42) = Some (Ok deletedCount, kvStore')
    ∧ no_user_data "42" kvStore'
    ∧ deletedCount = (Z.of_nat (size store_of_42) - Z.of_nat (size (kv_data kvStore')))%Z.
Proof. apply (purge_leaves_nothing_of_the_user "42" store_of_42). discriminate. Defined.

Lemma purge_reaches_the_users_whose_id_extends_the_id_witness :
  is_Some (store_of_4_and_42 !! "profile:42")
  ∧ ∃ deletedCount kvStore',
      purgeUserData "4" (reliable store_of_4_and_42) = Some (Ok deletedCount, kvStore')
      ∧ kv_data kvStore' !! ("profile:" ++ "4" ++ "2") = None
      ∧ kv_data kvStore' !! ("log:interactions:" ++ "4" ++ "2") = None.
Proof.
  split; [by eexists|].
  apply (purge_reaches_the_users_whose_id_extends_the_id "4" "2" store_of_4_and_42).
  discriminate.
Defined.

(** ** Activities *)

Lemma lookup_clone k v v' fs fs' :
  JSON_clone (JObj fs) = Some (JObj fs') →
  lookup_field k fs = v → JSON_clone v = Some v' → lookup_field k fs' = v'.
Proof.
  cbn. intros [= <-]. induction fs as [|[k0 v0] fs IH]; cbn.
  - by intros <-.
  - destruct (String.eqb k k0) eqn:E.
    + intros -> ->. cbn. by rewrite E.
    + intros H Hv. destruct (JSON_clone v0); cbn; rewrite ?E; by apply IH.
Qed.

Lemma prop_stored t k v' :
  is_object t = true → JSON_clone (prop t k) = Some v' → prop (stored t) k = v'.
Proof.
  destruct t as [| | | | | |fs|]; try done. cbn [prop]. intros _ H.
  unfold stored. destruct (stored_object fs) as [fs' E]. rewrite E. cbn [default prop].
  by eapply lookup_clone.
Qed.

Lemma truthy_stored_object t : is_object t = true → truthy (stored t) = true.
Proof.
  by destruct t.
Qed.

Lemma same_value_zero_string s v : same_value_zero (JStr s) v = true ↔ v = JStr s.
Proof.
  destruct v; cbn; try (split; done). rewrite String.eqb_eq. split; [by intros ->|by intros [= ->]].
Qed.

Lemma existsb_same_value_zero s l :
  existsb (same_value_zero (JStr s)) l = true ↔ JStr s ∈ l.
Proof.
  rewrite existsb_exists. split.
  - intros (v & Hin%list_elem_of_In & ->%same_value_zero_string). done.
  - intros Hin. exists (JStr s). split; [by apply list_elem_of_In|by apply same_value_zero_string].
Qed.

Section Activities.

Variable Date_toISOString : Z → string.
Variable Abstract_gt : jsval → jsval → result bool.
Variable Abstract_ge : jsval → jsval → result bool.

(** An activity that was created is read back under the id that the call
    returned: its creator is the user, who is its one participant. Nothing but
    the key of the activity has changed, and a purge of the user will find the
    activity as one of theirs. *)
Theorem created_activity_is_read_back
    userId activityData kvStore idTime createdAt updatedAt random activityId kvStore' :
  createActivity Date_toISOString userId activityData kvStore idTime createdAt updatedAt random
  = (JStr activityId, kvStore') →
  kv_fails kvStore (KvGet ("activity:" ++ activityId)) = false →
  let activity := getActivity activityId kvStore' in
  activityId = "act_" ++ string_of_Z idTime ++ "_" ++ String.substring 2 5 random
  ∧ prop activity "id" = JStr activityId
  ∧ prop activity "creator" = JStr userId
  ∧ prop activity "participants" = JArr [JStr userId]
  ∧ prop activity "created_at" = JStr (Date_toISOString createdAt)
  ∧ created_by userId kvStore' ("activity:" ++ activityId) = true
  ∧ ∀ key, key ≠ "activity:" ++ activityId → kv_data kvStore' !! key = kv_data kvStore !! key.
Proof.
  unfold createActivity.
  destruct (negb _ || negb _); [done|].
  unfold kv_put. destruct (kv_fails kvStore (KvPut _)); [done|].
  intros [H1 <-]%pair_equal_spec Hg. assert (H2 : activityId = "act_" ++ string_of_Z idTime ++ "_" ++ String.substring 2 5 random)
    by congruence.
  clear H1. subst activityId. cbn zeta.
  set (activityId := "act_" ++ string_of_Z idTime ++ "_" ++ String.substring 2 5 random) in *.
  set (activity := JObj [ ("id", JStr activityId); ("creator", JStr userId);
             ("title", js_or (prop activityData "title") (JStr "Untitled Activity"));
             ("description", js_or (prop activityData "description") (JStr ""));
             ("type", js_or (prop activityData "type") (JStr "general"));
             ("max_participants", js_or (prop activityData "max_participants") (JNum 0));
             ("participants", JArr [JStr userId]);
             ("created_at", JStr (Date_toISOString createdAt));
             ("updated_at", JStr (Date_toISOString updatedAt)) ]).
  assert (Hread : getActivity activityId
                    {| kv_data := <["activity:" ++ activityId := default JNull (JSON_clone activity)]>
                                    (kv_data kvStore);
                       kv_fails := kv_fails kvStore |} = stored activity).
  { unfold getActivity, kv_get. cbn [kv_fails kv_data]. rewrite Hg, lookup_insert_eq.
    assert (Ht : truthy (JStr activityId) = true) by reflexivity.
    rewrite Ht. cbn [negb default]. reflexivity. }
  rewrite Hread.
  split; [done|]. split; [by apply prop_stored_string|]. split; [by apply prop_stored_string|].
  split; [by apply prop_stored|]. split; [by apply prop_stored_string|]. split.
  - unfold created_by, kv_get. cbn [kv_fails kv_data]. rewrite Hg, lookup_insert_eq.
    change (default JNull (Some ?x)) with x. change (default JNull (JSON_clone activity)) with (stored activity).
    rewrite (prop_stored_string activity "creator" userId) by done.
    cbn [strict_eq_string]. rewrite String.eqb_refl, andb_true_r.
    apply truthy_stored_object. reflexivity.
  - intros key Hk. cbn [kv_data]. by rewrite lookup_insert_ne.
Qed.

Lemma limit_of_shape activity m :
  limit_of activity = Some m →
  ∃ fs, activity = JObj fs ∧ prop activity "participants" = JArr (participants_of activity)
        ∧ prop activity "max_participants" = JNum m.
Proof.
  unfold limit_of, participants_of.
  destruct activity as [| | | | | |fs|]; try done.
  destruct (prop (JObj fs) "participants") eqn:Ep; try done.
  destruct (prop (JObj fs) "max_participants") eqn:Em; try done.
  intros [= ->]. by exists fs.
Qed.

Lemma joinActivity_cases activityId userId kvStore now activity m :
  activityId ≠ "" → userId ≠ "" →
  getActivity activityId kvStore = activity →
  limit_of activity = Some m →
  joinActivity Date_toISOString Abstract_gt Abstract_ge activityId userId kvStore now
  = if negb (Qle_bool m 0) && Qle_bool m (Z.of_nat (List.length (participants_of activity)) # 1)
    then (Throw (Error "Activity is full"), kvStore)
    else if existsb (same_value_zero (JStr userId)) (participants_of activity)
    then (Ok activity, kvStore)
    else match kv_put ("activity:" ++ activityId) (joined Date_toISOString activity userId now) kvStore with
         | Ok kvStore' => (Ok (joined Date_toISOString activity userId now), kvStore')
         | Throw error => (Throw error, kvStore)
         end.
Proof.
  intros Ha Hu Hget (fs & -> & Hp & Hm)%limit_of_shape.
  unfold joinActivity, joinActivity_try.
  destruct activityId as [|c0 r0]; [done|]. destruct userId as [|c1 r1]; [done|].
  cbn [truthy String.eqb negb orb].
  rewrite Hget. cbn [truthy negb]. rewrite Hm, Hp.
  cbn [js_gt length_of mbind result_bind].
  destruct (negb (Qle_bool m 0)); cbn [andb].
  - cbn [mbind result_bind js_ge]. destruct (Qle_bool m _); [done|].
    cbn [includes_of mbind result_bind]. destruct (existsb _ _); [done|].
    cbn [push_of mbind result_bind put]. unfold joined. cbn [own_props].
    by destruct (kv_put _ _ _).
  - cbn [includes_of mbind result_bind]. destruct (existsb _ _); [done|].
    cbn [push_of mbind result_bind put]. unfold joined. cbn [own_props].
    by destruct (kv_put _ _ _).
Qed.

Lemma getActivity_object activityId kvStore fs :
  getActivity activityId kvStore = JObj fs →
  kv_fails kvStore (KvGet ("activity:" ++ activityId)) = false.
Proof.
  unfold getActivity, kv_get. destruct (negb _); [done|].
  by destruct (kv_fails kvStore _).
Qed.

Lemma getActivity_put activityId kvStore kvStore' v :
  activityId ≠ "" →
  kv_fails kvStore (KvGet ("activity:" ++ activityId)) = false →
  kv_put ("activity:" ++ activityId) v kvStore = Ok kvStore' →
  getActivity activityId kvStore' = stored v
  ∧ ∀ key, key ≠ "activity:" ++ activityId → kv_data kvStore' !! key = kv_data kvStore !! key.
Proof.
  intros Ha Hg. unfold kv_put. destruct (kv_fails kvStore (KvPut _)); [done|].
  intros [= <-]. split.
  - unfold getActivity, kv_get. cbn [kv_fails kv_data]. rewrite Hg, lookup_insert_eq.
    by destruct activityId.
  - intros key Hk. cbn [kv_data]. by rewrite lookup_insert_ne.
Qed.

(** A user who joins an activity is one of its participants afterwards, and
    an activity whose limit is a whole number above 0 never has more
    participants than that. A user who was a participant gets the activity as
    it is and nothing is written; another user is added at the end of the
    participants, and the activity that is read back is the one that was
    returned. *)
Theorem join_adds_the_user_within_the_limit
    activityId userId kvStore now activity (m : Z) activity' kvStore' :
  activityId ≠ "" → userId ≠ "" →
  getActivity activityId kvStore = activity →
  limit_of activity = Some (inject_Z m) →
  joinActivity Date_toISOString Abstract_gt Abstract_ge activityId userId kvStore now
  = (Ok activity', kvStore') →
  JStr userId ∈ participants_of activity'
  ∧ limit_of activity' = Some (inject_Z m)
  ∧ ((0 < m)%Z → (Z.of_nat (List.length (participants_of activity')) ≤ m)%Z)
  ∧ (JStr userId ∈ participants_of activity → activity' = activity ∧ kvStore' = kvStore)
  ∧ (JStr userId ∉ participants_of activity →
       participants_of activity' = (participants_of activity ++ [JStr userId])%list
       ∧ getActivity activityId kvStore' = stored activity'
       ∧ ∀ key, key ≠ "activity:" ++ activityId →
           kv_data kvStore' !! key = kv_data kvStore !! key).
Proof.
  intros Ha Hu Hget Hl.
  rewrite (joinActivity_cases _ _ _ _ _ _ Ha Hu Hget Hl).
  destruct (limit_of_shape _ _ Hl) as (fs & Hfs & Hp & Hm).
  destruct (negb (Qle_bool (inject_Z m) 0) && Qle_bool (inject_Z m) _) eqn:Efull; [done|].
  assert (Hroom : (0 < m)%Z → (Z.of_nat (List.length (participants_of activity)) < m)%Z).
  { intros Hpos. apply andb_false_iff in Efull as [E|E].
    - apply negb_false_iff, Qle_bool_iff in E. unfold Qle, inject_Z in E. cbn in E. lia.
    - destruct (Z_lt_ge_dec (Z.of_nat (List.length (participants_of activity))) m) as [|Hge]; [done|].
      assert (Qle_bool (inject_Z m) (Z.of_nat (List.length (participants_of activity)) # 1) = true)
        as E'; [|congruence].
      apply Qle_bool_iff. unfold Qle, inject_Z. cbn. lia. }
  destruct (existsb _ _) eqn:Ein.
  - intros [= <- <-]. apply existsb_same_value_zero in Ein.
    split; [done|]. split; [done|]. split; [intros Hpos; specialize (Hroom Hpos); lia|].
    split; [done|]. by intros [].
  - assert (Hnot : JStr userId ∉ participants_of activity).
    { intros Hin%existsb_same_value_zero. congruence. }
    destruct (kv_put _ _ _) as [kv1|] eqn:Eput; [|done].
    intros [H1 <-]%pair_equal_spec. assert (activity' = joined Date_toISOString activity userId now)
      as -> by congruence. clear H1.
    assert (Hp' : participants_of (joined Date_toISOString activity userId now)
                  = (participants_of activity ++ [JStr userId])%list).
    { unfold participants_of at 1, joined. cbn [prop].
      rewrite lookup_set_field_ne by done. by rewrite lookup_set_field_eq. }
    rewrite Hp'. split; [apply elem_of_app; right; by apply list_elem_of_singleton|].
    split.
    { unfold limit_of, joined. cbn [prop].
      rewrite (lookup_set_field_ne "participants") by done. rewrite lookup_set_field_eq.
      rewrite !(lookup_set_field_ne "max_participants") by done.
      rewrite Hfs in Hm |- *. cbn [prop own_props] in Hm |- *. by rewrite Hm. }
    split; [intros Hpos; specialize (Hroom Hpos); rewrite length_app; cbn; lia|].
    split; [done|]. intros _. split; [done|].
    apply getActivity_put; [done| |done].
    rewrite Hfs in Hget. by eapply getActivity_object.
Qed.

(** The limit is looked at before the participants are: an activity that is
    full refuses every user, also one who is among its participants already,
    and an activity that is not found or cannot be read is refused as not
    found. A refusal writes nothing. *)
Theorem join_refusals activityId userId kvStore now :
  activityId ≠ "" → userId ≠ "" →
  (truthy (getActivity activityId kvStore) = false →
   joinActivity Date_toISOString Abstract_gt Abstract_ge activityId userId kvStore now
   = (Throw (Error "Activity not found"), kvStore))
  ∧ (∀ m : Z,
       limit_of (getActivity activityId kvStore) = Some (inject_Z m) →
       (0 < m ≤ Z.of_nat (List.length (participants_of (getActivity activityId kvStore))))%Z →
       joinActivity Date_toISOString Abstract_gt Abstract_ge activityId userId kvStore now
       = (Throw (Error "Activity is full"), kvStore)).
Proof.
  intros Ha Hu. split.
  - intros Hn. unfold joinActivity, joinActivity_try.
    destruct activityId; [done|]. destruct userId; [done|].
    cbn [truthy String.eqb negb orb]. by rewrite Hn.
  - intros m Hl [Hpos Hfull].
    rewrite (joinActivity_cases _ _ _ _ _ _ Ha Hu eq_refl Hl).
    assert (negb (Qle_bool (inject_Z m) 0) = true) as ->.
    { apply negb_true_iff. destruct (Qle_bool (inject_Z m) 0) eqn:E; [|done].
      apply Qle_bool_iff in E. unfold Qle, inject_Z in E. cbn in E. lia. }
    assert (Qle_bool (inject_Z m)
              (Z.of_nat (List.length (participants_of (getActivity activityId kvStore))) # 1) = true)
      as ->; [|done].
    apply Qle_bool_iff. unfold Qle, inject_Z. cbn. lia.
Qed.

End Activities.

Lemma created_activity_is_read_back_witness :
  activity_created.1 = JStr "act_1745852400000_4fzyo"
  ∧ prop (getActivity "act_1745852400000_4fzyo" activity_created.2) "participants"
    = JArr [JStr "42"].
Proof.
  assert (H : activity_created.1 = JStr "act_1745852400000_4fzyo") by (vm_compute; reflexivity).
  split; [exact H|].
  refine (proj1 (proj2 (proj2 (proj2
    (created_activity_is_read_back Date_toISOString_utc "42" (JObj [("title", JStr "Lunch")])
       (reliable ∅) at_1500 at_1500 at_1500 "0.4fzyo82mvyr" "act_1745852400000_4fzyo"
       activity_created.2 _ _))))).
  - rewrite <- H. apply surjective_pairing.
  - reflexivity.
Defined.

Lemma join_adds_the_user_within_the_limit_witness :
  ∃ activity', activity_joined.1 = Ok activity'
  ∧ participants_of activity' = [JStr "7"; JStr "42"].
Proof.
  assert (H : ∃ activity', activity_joined.1 = Ok activity')
    by (vm_compute; eexists; reflexivity).
  destruct H as [activity' H]. exists activity'. split; [exact H|].
  refine (proj1 ((proj2 (proj2 (proj2 (proj2
    (join_adds_the_user_within_the_limit Date_toISOString_utc no_comparison no_comparison
       "act_1" "42" (reliable activity_for_two) at_1500 _ 2%Z activity' activity_joined.2
       _ _ eq_refl _ _))))) _)).
  - done.
  - done.
  - vm_compute. reflexivity.
  - rewrite <- H. apply surjective_pairing.
  - assert (E : participants_of (getActivity "act_1" (reliable activity_for_two)) = [JStr "7"])
      by (vm_compute; reflexivity).
    rewrite E. intros [=]%list_elem_of_singleton.
Defined.

Lemma join_refusals_witness :
  joinActivity Date_toISOString_utc no_comparison no_comparison "act_1" "42"
    activity_joined.2 at_1500
  = (Throw (Error "Activity is full"), activity_joined.2).
Proof.
  refine (proj2 (join_refusals Date_toISOString_utc no_comparison no_comparison
                   "act_1" "42" activity_joined.2 at_1500 _ _) 2%Z _ _).
  - done.
  - done.
  - vm_compute. reflexivity.
  - vm_compute. split; [reflexivity|]. intros H; discriminate H.
Defined.

(** ** Profiles *)

Lemma has_own_elem_of k fs : has_own k fs = true ↔ k ∈ fs.*1.
Proof.
  unfold has_own. rewrite existsb_exists, list_elem_of_fmap. split.
  - intros ([k' v] & Hin%list_elem_of_In & E). cbn in E. apply String.eqb_eq in E as ->.
    by exists (k, v).
  - intros ([k' v] & -> & Hin). exists (k', v). split; [by apply list_elem_of_In|apply String.eqb_refl].
Qed.

Lemma lookup_field_absent k fs : k ∉ fs.*1 → lookup_field k fs = JUndef.
Proof.
  induction fs as [|[k0 v0] fs IH]; cbn; [done|].
  rewrite not_elem_of_cons. intros [Hne Hnot].
  destruct (String.eqb_spec k k0); [done|]. by apply IH.
Qed.

Lemma NoDup_set_field k v fs : NoDup fs.*1 → NoDup (set_field k v fs).*1.
Proof.
  induction fs as [|[k0 v0] fs IH]; cbn.
  - intros _. apply NoDup_singleton.
  - rewrite NoDup_cons. intros [Hnot Hnd].
    destruct (String.eqb_spec k k0) as [->|Hne]; cbn; apply NoDup_cons.
    + done.
    + split; [|by apply IH]. rewrite elem_of_set_field. intros [->|?]; done.
Qed.

Lemma set_field_fresh k v fs : k ∉ fs.*1 → set_field k v fs = (fs ++ [(k, v)])%list.
Proof.
  induction fs as [|[k0 v0] fs IH]; cbn; [done|].
  rewrite not_elem_of_cons. intros [Hne Hnot].
  destruct (String.eqb_spec k k0); [done|]. by rewrite IH.
Qed.

Lemma fold_set_field_NoDup (l base : list (string * jsval)) :
  NoDup base.*1 → NoDup (fold_left (λ fs kv, set_field kv.1 kv.2 fs) l base).*1.
Proof.
  revert base. induction l as [|[k v] l IH]; cbn; [done|].
  intros base Hnd. by apply IH, NoDup_set_field.
Qed.

Lemma fold_set_field_fresh (l base : list (string * jsval)) :
  NoDup ((base ++ l)%list).*1 → fold_left (λ fs kv, set_field kv.1 kv.2 fs) l base = (base ++ l)%list.
Proof.
  revert base. induction l as [|[k v] l IH]; cbn; intros base Hnd.
  - by rewrite app_nil_r.
  - rewrite set_field_fresh.
    + rewrite IH; rewrite <- app_assoc; done.
    + rewrite fmap_app in Hnd. apply NoDup_app in Hnd as (_ & Hd & _).
      intros Hin. apply (Hd _ Hin). cbn. apply elem_of_cons. by left.
Qed.

Lemma fold_set_field_lookup_ne (l base : list (string * jsval)) k :
  k ∉ l.*1 →
  lookup_field k (fold_left (λ fs kv, set_field kv.1 kv.2 fs) l base) = lookup_field k base.
Proof.
  revert base. induction l as [|[k0 v0] l IH]; cbn; [done|].
  intros base. rewrite not_elem_of_cons. intros [Hne Hnot].
  rewrite IH by done. by apply lookup_set_field_ne.
Qed.

Lemma fold_set_field_lookup (l base : list (string * jsval)) k :
  NoDup l.*1 → k ∈ l.*1 →
  lookup_field k (fold_left (λ fs kv, set_field kv.1 kv.2 fs) l base) = lookup_field k l.
Proof.
  revert base. induction l as [|[k0 v0] l IH]; cbn; [by intros ? ? ?%elem_of_nil|].
  intros base. rewrite NoDup_cons. intros [Hnot Hnd] Hin.
  destruct (String.eqb_spec k k0) as [->|Hne].
  - rewrite fold_set_field_lookup_ne by done. apply lookup_set_field_eq.
  - apply elem_of_cons in Hin as [?|Hin]; [done|]. by apply IH.
Qed.

Lemma fold_set_field_keys (l base : list (string * jsval)) k :
  k ∈ (fold_left (λ fs kv, set_field kv.1 kv.2 fs) l base).*1 ↔ k ∈ base.*1 ∨ k ∈ l.*1.
Proof.
  revert base. induction l as [|[k0 v0] l IH]; cbn; intros base.
  - rewrite elem_of_nil. tauto.
  - rewrite IH, elem_of_set_field, elem_of_cons. tauto.
Qed.


Lemma clone_keys fs fs' k :
  JSON_clone (JObj fs) = Some (JObj fs') → k ∈ fs'.*1 → k ∈ fs.*1.
Proof.
  cbn. intros [= <-]. induction fs as [|[k0 v0] fs IH]; cbn; [done|].
  destruct (JSON_clone v0); cbn; rewrite ?elem_of_cons; intros; [|right; by apply IH].
  destruct H as [->|H]; [by left|right; by apply IH].
Qed.

Lemma clone_NoDup fs fs' :
  JSON_clone (JObj fs) = Some (JObj fs') → NoDup fs.*1 → NoDup fs'.*1.
Proof.
  intros Hc. pose proof (λ k, clone_keys _ _ k Hc) as Hk. revert fs' Hc Hk.
  induction fs as [|[k0 v0] fs IH]; intros fs'; cbn.
  - intros [= <-] _ _. constructor.
  - intros [= <-] Hk. rewrite NoDup_cons. intros [Hnot Hnd].
    assert (Hrest : ∀ fs'', JSON_clone (JObj fs) = Some (JObj fs'') → NoDup fs''.*1).
    { intros fs'' Hc. apply (IH fs'' Hc); [|done]. intros k. by apply clone_keys. }
    destruct (JSON_clone v0); cbn.
    + apply NoDup_cons. split; [|by apply Hrest].
      intros Hin. apply Hnot. by eapply clone_keys.
    + by apply Hrest.
Qed.

Lemma clone_lookup fs fs' k :
  JSON_clone (JObj fs) = Some (JObj fs') → NoDup fs.*1 →
  lookup_field k fs' = json_of (lookup_field k fs).
Proof.
  cbn. intros [= <-]. induction fs as [|[k0 v0] fs IH]; cbn; [done|].
  rewrite NoDup_cons. intros [Hnot Hnd].
  destruct (String.eqb_spec k k0) as [->|Hne].
  - unfold json_of. destruct (JSON_clone v0) eqn:E; cbn; [by rewrite String.eqb_refl|].
    rewrite lookup_field_absent; [done|]. intros Hin. apply Hnot. by eapply clone_keys.
  - destruct (JSON_clone v0); cbn; [|by apply IH].
    destruct (String.eqb_spec k k0); [done|]. by apply IH.
Qed.

Lemma clone_has_own fs fs' k :
  JSON_clone (JObj fs) = Some (JObj fs') → NoDup fs.*1 →
  k ∈ fs'.*1 ↔ k ∈ fs.*1 ∧ JSON_clone (lookup_field k fs) ≠ None.
Proof.
  cbn. intros [= <-]. induction fs as [|[k0 v0] fs IH]; cbn.
  - rewrite elem_of_nil. tauto.
  - rewrite NoDup_cons. intros [Hnot Hnd]. specialize (IH Hnd).
    destruct (String.eqb_spec k k0) as [->|Hne].
    + destruct (JSON_clone v0) eqn:E; cbn; rewrite ?elem_of_cons.
      * split; [intros _; split; [by left|done]|by left].
      * rewrite IH. split; [tauto|]. intros [_ ?]. done.
    + destruct (JSON_clone v0) eqn:E; cbn; rewrite ?elem_of_cons, IH; tauto.
Qed.

Lemma spread_onto_NoDup base v : NoDup base.*1 → NoDup (spread_onto base v).*1.
Proof. apply fold_set_field_NoDup. Qed.

Lemma spread_onto_base_key base v k : k ∈ base.*1 → k ∈ (spread_onto base v).*1.
Proof. intros Hin. apply fold_set_field_keys. by left. Qed.

Ltac distinct_keys :=
  cbn; repeat (apply NoDup_cons; split; [set_unfold; intuition discriminate|]); apply NoDup_nil_2.

Lemma NoDup_keys_default : NoDup (own_props (stored DEFAULT_PROFILE)).*1.
Proof. distinct_keys. Qed.

Lemma delete_field_keys key k fs : k ∈ (delete_field key fs).*1 ↔ k ≠ key ∧ k ∈ fs.*1.
Proof.
  induction fs as [|[k0 v0] fs IH]; cbn.
  - rewrite elem_of_nil. tauto.
  - change (List.filter _ fs) with (delete_field key fs).
    destruct (String.eqb_spec k0 key) as [->|Hne]; cbn; rewrite ?elem_of_cons, IH.
    + split; [tauto|]. intros [? [?|?]]; done.
    + split; [intros [->|?]; tauto|tauto].
Qed.

Lemma delete_field_NoDup key fs : NoDup fs.*1 → NoDup (delete_field key fs).*1.
Proof.
  induction fs as [|[k0 v0] fs IH]; cbn; [done|].
  rewrite NoDup_cons. intros [Hnot Hnd].
  change (List.filter _ fs) with (delete_field key fs).
  destruct (negb (String.eqb k0 key)); cbn; [|by apply IH].
  apply NoDup_cons. split; [|by apply IH]. rewrite delete_field_keys. tauto.
Qed.

Lemma delete_field_lookup_ne key k fs :
  k ≠ key → lookup_field k (delete_field key fs) = lookup_field k fs.
Proof.
  intros Hne. induction fs as [|[k0 v0] fs IH]; cbn; [done|].
  change (List.filter _ fs) with (delete_field key fs).
  destruct (String.eqb_spec k0 key) as [->|Hne0]; cbn.
  - destruct (String.eqb_spec k key); done.
  - by rewrite IH.
Qed.

Lemma assign_string_NoDup key value fs : NoDup fs.*1 → NoDup (assign_string key value fs).*1.
Proof.
  unfold assign_string. destruct (_ && _); [done|]. apply NoDup_set_field.
Qed.

Lemma assign_string_lookup_ne key value k fs :
  k ≠ key → lookup_field k (assign_string key value fs) = lookup_field k fs.
Proof.
  intros Hne. unfold assign_string. destruct (_ && _); [done|]. by apply lookup_set_field_ne.
Qed.

Lemma assign_string_lookup key value fs :
  key ≠ "__proto__" → lookup_field key (assign_string key value fs) = JStr value.
Proof.
  intros Hne. unfold assign_string.
  destruct (String.eqb_spec key "__proto__"); [done|]. apply lookup_set_field_eq.
Qed.

Lemma spread_onto_nil fs : NoDup fs.*1 → spread_onto [] (JObj fs) = fs.
Proof. intros Hnd. unfold spread_onto. cbn [own_props]. by rewrite fold_set_field_fresh. Qed.

Section Profiles.

Variable String_toLowerCase : string → string.
Variable Date_toISOString : Z → string.

Lemma complete_default : complete_profile (stored DEFAULT_PROFILE).
Proof.
  eexists _, _, _. split; [reflexivity|]. split; [distinct_keys|].
  split; [|split; [reflexivity|]].
  - intros k Hk. cbn. set_unfold. tauto.
  - split; [cbn; set_unfold; tauto|]. split; [cbn; set_unfold; tauto|].
    split; [reflexivity|]. constructor.
Qed.

Lemma complete_created s :
  complete_profile
    (JObj (set_field "updated_at" (JStr s)
             (set_field "created_at" (JStr s) (own_props (stored DEFAULT_PROFILE))))).
Proof.
  eexists _, _, _. split; [reflexivity|]. split; [distinct_keys|].
  split; [|split; [reflexivity|]].
  - intros k Hk. cbn. set_unfold. tauto.
  - split; [cbn; set_unfold; tauto|]. split; [cbn; set_unfold; tauto|].
    split; [reflexivity|]. constructor.
Qed.

Lemma complete_spread profile :
  let fields := spread_onto (own_props (stored DEFAULT_PROFILE)) profile in
  let fields :=
    set_field "preferences"
      (JObj (spread_onto (own_props (prop DEFAULT_PROFILE "preferences"))
               (js_or (lookup_field "preferences" fields) (JObj []))))
      fields in
  let fields :=
    set_field "custom_emojis"
      (JObj (spread_onto (own_props (prop DEFAULT_PROFILE "custom_emojis"))
               (js_or (lookup_field "custom_emojis" fields) (JObj []))))
      fields in
  complete_profile (JObj fields).
Proof.
  cbn zeta.
  set (f0 := spread_onto (own_props (stored DEFAULT_PROFILE)) profile).
  set (prefs := spread_onto (own_props (prop DEFAULT_PROFILE "preferences")) _).
  set (f1 := set_field "preferences" (JObj prefs) f0).
  set (emojis := spread_onto (own_props (prop DEFAULT_PROFILE "custom_emojis")) _).
  assert (Hnd0 : NoDup f0.*1) by apply spread_onto_NoDup, NoDup_keys_default.
  exists (set_field "custom_emojis" (JObj emojis) f1), prefs, emojis.
  split; [done|]. split; [by apply NoDup_set_field, NoDup_set_field|].
  split; [|split; [|split; [|split; [|split]]]].
  - intros k Hk. apply elem_of_set_field. right. apply elem_of_set_field. right.
    apply spread_onto_base_key. cbn. set_unfold. tauto.
  - rewrite lookup_set_field_ne by done. apply lookup_set_field_eq.
  - apply spread_onto_base_key. cbn. set_unfold. tauto.
  - apply spread_onto_base_key. cbn. set_unfold. tauto.
  - apply lookup_set_field_eq.
  - apply spread_onto_NoDup. constructor.
Qed.

Lemma getUserProfile_complete userId kvStore now :
  complete_profile (getUserProfile Date_toISOString userId kvStore now).1
  ∧ kv_fails (getUserProfile Date_toISOString userId kvStore now).2 = kv_fails kvStore.
Proof.
  unfold getUserProfile.
  destruct (negb (truthy (JStr userId))); [split; [apply complete_default|done]|].
  unfold kv_get. destruct (kv_fails kvStore (KvGet _)); [split; [apply complete_default|done]|].
  destruct (negb (truthy _)).
  - unfold kv_put. destruct (kv_fails kvStore (KvPut _)); [split; [apply complete_default|done]|].
    split; [|done]. apply complete_created.
  - split; [|done]. apply complete_spread.
Qed.

(** Every profile that [getUserProfile] returns has the keys of the default
    profile, preferences with a theme and a visibility, and an object of
    custom emojis: also when the stored value lacks them, is not an object, or
    cannot be read. Only the key of the profile is ever written, and not when
    a profile is stored under it. *)
Theorem profile_is_always_complete userId kvStore now :
  complete_profile (getUserProfile Date_toISOString userId kvStore now).1
  ∧ (∀ key, key ≠ "profile:" ++ userId →
       kv_data (getUserProfile Date_toISOString userId kvStore now).2 !! key
       = kv_data kvStore !! key)
  ∧ (truthy (held ("profile:" ++ userId) kvStore) = true →
     (getUserProfile Date_toISOString userId kvStore now).2 = kvStore).
Proof.
  split; [apply getUserProfile_complete|].
  unfold getUserProfile, held.
  destruct (negb (truthy (JStr userId))); [done|].
  unfold kv_get. destruct (kv_fails kvStore (KvGet _)); [done|].
  destruct (truthy (default JNull (kv_data kvStore !! ("profile:" ++ userId)))); cbn [negb]; [done|].
  unfold kv_put. destruct (kv_fails kvStore (KvPut _)); [done|].
  split; [|done]. intros key Hk. cbn [snd kv_data]. by rewrite lookup_insert_ne.
Qed.

Lemma getUserProfile_created userId kvStore now :
  userId ≠ "" →
  kv_fails kvStore (KvGet ("profile:" ++ userId)) = false →
  kv_fails kvStore (KvPut ("profile:" ++ userId)) = false →
  truthy (held ("profile:" ++ userId) kvStore) = false →
  let profile :=
    JObj (set_field "updated_at" (JStr (Date_toISOString now))
            (set_field "created_at" (JStr (Date_toISOString now))
               (own_props (stored DEFAULT_PROFILE)))) in
  getUserProfile Date_toISOString userId kvStore now
  = (profile, {| kv_data := <["profile:" ++ userId := profile]> (kv_data kvStore);
                 kv_fails := kv_fails kvStore |}).
Proof.
  intros Hu Hg Hp Hn. unfold getUserProfile, kv_get, kv_put. rewrite Hg, Hp.
  unfold held in Hn. rewrite Hn. by destruct userId.
Qed.

Lemma getUserProfile_read userId kvStore now :
  userId ≠ "" →
  kv_fails kvStore (KvGet ("profile:" ++ userId)) = false →
  truthy (held ("profile:" ++ userId) kvStore) = true →
  getUserProfile Date_toISOString userId kvStore now
  = (let fields := spread_onto (own_props (stored DEFAULT_PROFILE))
                     (held ("profile:" ++ userId) kvStore) in
     let fields :=
       set_field "preferences"
         (JObj (spread_onto (own_props (prop DEFAULT_PROFILE "preferences"))
                  (js_or (lookup_field "preferences" fields) (JObj []))))
         fields in
     let fields :=
       set_field "custom_emojis"
         (JObj (spread_onto (own_props (prop DEFAULT_PROFILE "custom_emojis"))
                  (js_or (lookup_field "custom_emojis" fields) (JObj []))))
         fields in
     JObj fields, kvStore).
Proof.
  intros Hu Hg Ht. unfold getUserProfile, kv_get. rewrite Hg.
  unfold held in Ht |- *. rewrite Ht. by destruct userId.
Qed.

(** The first read of a user without a profile creates the profile, stamped
    with the time of the call, and stores it; every later read returns that
    same profile and leaves the store as it is. *)
Theorem profile_is_created_once userId kvStore now :
  userId ≠ "" →
  kv_fails kvStore (KvGet ("profile:" ++ userId)) = false →
  kv_fails kvStore (KvPut ("profile:" ++ userId)) = false →
  truthy (held ("profile:" ++ userId) kvStore) = false →
  ∃ profile kvStore',
    getUserProfile Date_toISOString userId kvStore now = (profile, kvStore')
    ∧ prop profile "created_at" = JStr (Date_toISOString now)
    ∧ prop profile "updated_at" = JStr (Date_toISOString now)
    ∧ prop profile "preferences" = prop DEFAULT_PROFILE "preferences"
    ∧ held ("profile:" ++ userId) kvStore' = profile
    ∧ ∀ later, getUserProfile Date_toISOString userId kvStore' later = (profile, kvStore').
Proof.
  intros Hu Hg Hp Hn. eexists _, _.
  split; [by apply getUserProfile_created|].
  split; [done|]. split; [done|]. split; [done|].
  split; [unfold held; cbn [kv_data]; by rewrite lookup_insert_eq|].
  intros later. rewrite getUserProfile_read; [| done | done |].
  - unfold held. cbn [kv_data]. rewrite lookup_insert_eq. reflexivity.
  - unfold held. cbn [kv_data]. by rewrite lookup_insert_eq.
Qed.

(** The profile that a read returns for a stored profile with distinct keys
    and an object of custom emojis: its custom emojis are the stored ones, as
    JSON gives them back. *)
Lemma custom_emojis_read_back userId kvStore later fields emojis :
  userId ≠ "" →
  kv_fails kvStore (KvGet ("profile:" ++ userId)) = false →
  held ("profile:" ++ userId) kvStore = stored (JObj fields) →
  NoDup fields.*1 → lookup_field "custom_emojis" fields = JObj emojis → NoDup emojis.*1 →
  (getUserProfile Date_toISOString userId kvStore later).2 = kvStore
  ∧ JSON_clone (JObj emojis)
    = Some (JObj (custom_emojis_of (getUserProfile Date_toISOString userId kvStore later).1)).
Proof.
  intros Hu Hg Hheld Hnd He Hnde.
  destruct (stored_object fields) as [cfs Hc].
  destruct (stored_object emojis) as [cemojis Hce].
  assert (Hs : stored (JObj fields) = JObj cfs) by (unfold stored; by rewrite Hc).
  rewrite getUserProfile_read; [|done|done|by rewrite Hheld, Hs].
  cbn zeta. split; [done|]. rewrite Hheld, Hs.
  unfold custom_emojis_of. cbn [fst prop]. rewrite lookup_set_field_eq.
  change (js_or (JObj ?x) _) with (JObj x). cbn [own_props].
  rewrite lookup_set_field_ne by done.
  assert (Hc' := clone_NoDup _ _ Hc Hnd).
  assert (Hin : "custom_emojis" ∈ cfs.*1).
  { apply (clone_has_own _ _ _ Hc Hnd). split.
    - destruct (decide ("custom_emojis" ∈ fields.*1)) as [|Hnot]; [done|].
      apply lookup_field_absent in Hnot. congruence.
    - rewrite He, Hce. done. }
  unfold spread_onto at 2. cbn [own_props].
  rewrite fold_set_field_lookup by done.
  rewrite (clone_lookup _ _ _ Hc Hnd), He. unfold json_of. rewrite Hce.
  change (js_or (JObj ?x) _) with (JObj x).
  change (own_props (prop DEFAULT_PROFILE "custom_emojis")) with (@nil (string * jsval)).
  rewrite spread_onto_nil; [done|]. by eapply clone_NoDup.
Qed.

Lemma setCustomEmoji_success userId stateName emoji kvStore createdAt now kvStore' :
  setCustomEmoji String_toLowerCase Date_toISOString userId stateName emoji kvStore createdAt now
  = (true, kvStore') →
  let profile := (getUserProfile Date_toISOString userId kvStore createdAt).1 in
  let custom_emojis :=
    if emoji_given emoji
    then assign_string (String_toLowerCase stateName) (default "" emoji) (custom_emojis_of profile)
    else delete_field (String_toLowerCase stateName) (custom_emojis_of profile) in
  userId ≠ "" ∧ stateName ≠ ""
  ∧ kv_fails kvStore (KvPut ("profile:" ++ userId)) = false
  ∧ kv_fails kvStore' = kv_fails kvStore
  ∧ kv_data kvStore'
    = <["profile:" ++ userId :=
          stored (JObj (set_field "updated_at" (JStr (Date_toISOString now))
                          (set_field "custom_emojis" (JObj custom_emojis)
                             (own_props profile))))]>
        (kv_data (getUserProfile Date_toISOString userId kvStore createdAt).2).
Proof.
  unfold setCustomEmoji.
  destruct userId as [|c0 r0]; [done|]. destruct stateName as [|c1 r1]; [done|].
  cbn [truthy String.eqb negb orb].
  destruct (getUserProfile_complete (String c0 r0) kvStore createdAt) as [Hc Hf].
  destruct (getUserProfile Date_toISOString (String c0 r0) kvStore createdAt) as [profile kv1].
  cbn [fst snd] in *.
  destruct Hc as (fields & preferences & custom_emojis & -> & _).
  cbn [put mbind result_bind own_props]. unfold kv_put. rewrite Hf.
  destruct (kv_fails kvStore (KvPut _)); [done|].
  intros [= <-]. done.
Qed.

Lemma setCustomEmoji_read_back
    userId stateName emoji kvStore createdAt now later kvStore' :
  kv_fails kvStore (KvGet ("profile:" ++ userId)) = false →
  setCustomEmoji String_toLowerCase Date_toISOString userId stateName emoji kvStore createdAt now
  = (true, kvStore') →
  let stateKey := String_toLowerCase stateName in
  let before := custom_emojis_of (getUserProfile Date_toISOString userId kvStore createdAt).1 in
  let after := custom_emojis_of (getUserProfile Date_toISOString userId kvStore' later).1 in
  (emoji_given emoji = true → stateKey ≠ "__proto__" →
   lookup_field stateKey after = JStr (default "" emoji))
  ∧ (emoji_given emoji = false → has_own stateKey after = false)
  ∧ (∀ k, k ≠ stateKey → lookup_field k after = json_of (lookup_field k before))
  ∧ (getUserProfile Date_toISOString userId kvStore' later).2 = kvStore'.
Proof.
  intros Hg (Hu & Hs & Hp & Hf & Hd)%setCustomEmoji_success. cbn zeta in *.
  destruct (getUserProfile_complete userId kvStore createdAt) as [Hc _].
  destruct Hc as (fields & preferences & emojis & Ep & Hnd & _ & _ & _ & _ & He & Hnde).
  assert (Hce : custom_emojis_of (JObj fields) = emojis).
  { unfold custom_emojis_of. cbn [prop]. by rewrite He. }
  rewrite Ep in Hd |- *. rewrite Hce in Hd |- *. cbn [own_props] in Hd.
  set (emojis' := if emoji_given emoji
                  then assign_string (String_toLowerCase stateName) (default "" emoji) emojis
                  else delete_field (String_toLowerCase stateName) emojis) in *.
  assert (Hnde' : NoDup emojis'.*1).
  { unfold emojis'. destruct (emoji_given emoji);
      [by apply assign_string_NoDup|by apply delete_field_NoDup]. }
  edestruct (custom_emojis_read_back userId kvStore' later) as [Hsame Hafter]; [done| | | | |exact Hnde'|].
  - by rewrite Hf.
  - unfold held. rewrite Hd, lookup_insert_eq. reflexivity.
  - by apply NoDup_set_field, NoDup_set_field.
  - rewrite lookup_set_field_ne by done. apply lookup_set_field_eq.
  - set (after := custom_emojis_of _) in *.
    split; [|split; [|split; [|done]]].
    + intros Hgiven Hproto. rewrite (clone_lookup _ _ (String_toLowerCase stateName) Hafter Hnde').
      unfold emojis'. rewrite Hgiven, assign_string_lookup by done. done.
    + intros Hgiven. destruct (has_own _ _) eqn:E; [|done].
      apply has_own_elem_of in E. apply (clone_keys _ _ _ Hafter) in E.
      unfold emojis' in E. rewrite Hgiven in E. apply delete_field_keys in E as [? _]. done.
    + intros k Hk. rewrite (clone_lookup _ _ k Hafter Hnde'). f_equal.
      unfold emojis'. destruct (emoji_given emoji);
        [by apply assign_string_lookup_ne|by apply delete_field_lookup_ne].
Qed.

Lemma getUserEmojiSet_custom_emojis userId kvStore now :
  own_props (getUserEmojiSet Date_toISOString userId kvStore now).1
  = custom_emojis_of (getUserProfile Date_toISOString userId kvStore now).1
  ∧ (getUserEmojiSet Date_toISOString userId kvStore now).2
    = (getUserProfile Date_toISOString userId kvStore now).2.
Proof. unfold getUserEmojiSet. by destruct (getUserProfile _ _ _ _). Qed.

(** An emoji that was set for a state is the emoji of that state in the
    emoji set that is read afterwards, under the name in lower case, and an
    emoji that was unset is not in it. The emojis of the other states are as
    they were, and the read writes nothing. The name [__proto__] is the one
    for which nothing is set. *)
Theorem custom_emoji_round_trip
    userId stateName emoji kvStore createdAt now later kvStore' :
  kv_fails kvStore (KvGet ("profile:" ++ userId)) = false →
  setCustomEmoji String_toLowerCase Date_toISOString userId stateName emoji kvStore createdAt now
  = (true, kvStore') →
  let stateKey := String_toLowerCase stateName in
  let before := own_props (getUserEmojiSet Date_toISOString userId kvStore createdAt).1 in
  let after := own_props (getUserEmojiSet Date_toISOString userId kvStore' later).1 in
  (emoji_given emoji = true → stateKey ≠ "__proto__" →
   lookup_field stateKey after = JStr (default "" emoji))
  ∧ (emoji_given emoji = false → has_own stateKey after = false)
  ∧ (∀ k, k ≠ stateKey → lookup_field k after = json_of (lookup_field k before))
  ∧ (getUserEmojiSet Date_toISOString userId kvStore' later).2 = kvStore'.
Proof.
  intros Hg Hset. cbn zeta.
  rewrite !(proj1 (getUserEmojiSet_custom_emojis _ _ _)),
    (proj2 (getUserEmojiSet_custom_emojis _ _ _)).
  exact (setCustomEmoji_read_back _ _ _ _ _ _ later _ Hg Hset).
Qed.

(** When the read of the profile fails and the write does not, setting an
    emoji replaces the stored profile, whatever it was, by the default profile
    with that one emoji. *)
Theorem failed_read_resets_the_profile userId stateName emoji kvStore createdAt now :
  userId ≠ "" → stateName ≠ "" →
  kv_fails kvStore (KvGet ("profile:" ++ userId)) = true →
  kv_fails kvStore (KvPut ("profile:" ++ userId)) = false →
  ∃ kvStore',
    setCustomEmoji String_toLowerCase Date_toISOString userId stateName emoji kvStore createdAt now
    = (true, kvStore')
    ∧ (∀ key, key ≠ "profile:" ++ userId → kv_data kvStore' !! key = kv_data kvStore !! key)
    ∧ held ("profile:" ++ userId) kvStore'
      = JObj [ ("preferences", prop DEFAULT_PROFILE "preferences");
               ("custom_emojis",
                JObj (if emoji_given emoji
                      then assign_string (String_toLowerCase stateName) (default "" emoji) []
                      else []));
               ("timezone", JNull);
               ("created_at", JNull);
               ("updated_at", JStr (Date_toISOString now)) ].
Proof.
  intros Hu Hs Hg Hp. unfold setCustomEmoji, getUserProfile, kv_get. rewrite Hg.
  destruct userId as [|c0 r0]; [done|]. destruct stateName as [|c1 r1]; [done|].
  cbn [truthy String.eqb negb orb]. 
  cbn [put mbind result_bind stored DEFAULT_PROFILE JSON_clone default].
  unfold kv_put. rewrite Hp. eexists. split; [reflexivity|].
  split; [intros key Hk; cbn [kv_data]; by rewrite lookup_insert_ne|].
  unfold held. cbn [kv_data]. rewrite lookup_insert_eq.
  unfold custom_emojis_of. cbn.
  destruct (emoji_given emoji); [|done].
  unfold assign_string. destruct (_ && _); done.
Qed.

End Profiles.

Lemma profile_is_created_once_witness :
  ∃ profile kvStore',
    getUserProfile Date_toISOString_utc "42" (reliable ∅) at_1500 = (profile, kvStore')
    ∧ prop profile "created_at" = JStr (Date_toISOString_utc at_1500)
    ∧ prop profile "updated_at" = JStr (Date_toISOString_utc at_1500)
    ∧ prop profile "preferences" = prop DEFAULT_PROFILE "preferences"
    ∧ held ("profile:" ++ "42") kvStore' = profile
    ∧ ∀ later, getUserProfile Date_toISOString_utc "42" kvStore' later = (profile, kvStore').
Proof.
  apply (profile_is_created_once Date_toISOString_utc "42" (reliable ∅) at_1500);
    [done|reflexivity|reflexivity|reflexivity].
Defined.

Lemma custom_emoji_round_trip_witness :
  lookup_field "energy"
    (own_props (getUserEmojiSet Date_toISOString_utc "42" energy_set.2 at_1500).1)
  = JStr "⚡".
Proof.
  assert (H : energy_set.1 = true) by (vm_compute; reflexivity).
  refine (proj1 (custom_emoji_round_trip toLowerCase Date_toISOString_utc "42" "Energy"
                   (Some "⚡") (reliable ∅) at_0730 at_1500 at_1500 energy_set.2 _ _) _ _).
  - reflexivity.
  - rewrite <- H. apply surjective_pairing.
  - vm_compute. reflexivity.
  - vm_compute. intros E. discriminate E.
Defined.

Lemma failed_read_resets_the_profile_witness :
  ∃ kvStore',
    setCustomEmoji toLowerCase Date_toISOString_utc "42" "Energy" (Some "⚡")
      (get_down profile_of_42) at_0730 at_1500
    = (true, kvStore')
    ∧ (∀ key, key ≠ "profile:" ++ "42" →
         kv_data kvStore' !! key = kv_data (get_down profile_of_42) !! key)
    ∧ held ("profile:" ++ "42") kvStore'
      = JObj [ ("preferences", prop DEFAULT_PROFILE "preferences");
               ("custom_emojis",
                JObj (if emoji_given (Some "⚡")
                      then assign_string (toLowerCase "Energy") (default "" (Some "⚡")) []
                      else []));
               ("timezone", JNull);
               ("created_at", JNull);
               ("updated_at", JStr (Date_toISOString_utc at_1500)) ].
Proof.
  apply (failed_read_resets_the_profile toLowerCase Date_toISOString_utc "42" "Energy"
           (Some "⚡") (get_down profile_of_42) at_0730 at_1500);
    [done|done|reflexivity|reflexivity].
Defined.

(** ** Custom emojis in a status *)

Section Emojis.

Variable String_toLowerCase : string → string.
Variable Number_toString : Q → string.
Variable Native_call : string → jsval → result jsval.

(** A custom emoji that is a primitive value, or is inherited, can be written
    into the log line. *)
Lemma emoji_at_convertible customEmojis key :
  plain_emojis customEmojis →
  ∃ s, ToString Number_toString Native_call (emoji_at customEmojis key) = Ok s.
Proof.
  intros Hplain. unfold emoji_at. destruct (has_own key customEmojis) eqn:Eown.
  - assert (Hp : is_primitive (lookup_field key customEmojis) = true).
    { induction Hplain as [|[k v] l Hv _ IH]; [done|]. cbn in Eown |- *.
      rewrite String.eqb_sym. destruct (String.eqb k key); [done|]. by apply IH. }
    rewrite ToString_primitive by done. by eexists.
  - destruct (existsb _ _); by eexists.
Qed.

Lemma with_custom_emoji_retouched customEmojis field item :
  plain_emojis customEmojis →
  nullish item = false ∧ plain_name (prop item "name") = true →
  ∃ item', with_custom_emoji String_toLowerCase Number_toString Native_call
             customEmojis field item = Ok item'
           ∧ retouched String_toLowerCase customEmojis field item item'.
Proof.
  intros Hplain [Hn Hp]. unfold with_custom_emoji, retouched, lowered_item_name.
  assert (get item "name" = Ok (prop item "name")) as -> by (by destruct item).
  cbn [mbind result_bind].
  assert (lower String_toLowerCase (prop item "name")
          = Ok (String_toLowerCase (string_of (js_or (prop item "name") (JStr ""))))) as ->.
  { unfold lower. destruct (prop item "name") as [| | | |s| | |]; try done.
    unfold js_or. by destruct (truthy (JStr s)). }
  cbn [mbind result_bind].
  destruct (truthy (emoji_at customEmojis _)) eqn:E.
  - destruct (emoji_at_convertible customEmojis
                (String_toLowerCase (string_of (js_or (prop item "name") (JStr "")))) Hplain)
      as [s ->].
    cbn [mbind result_bind].
    eexists. split; [done|]. unfold own. cbn [own_props]. split.
    + intros k Hk. by apply lookup_set_field_ne.
    + apply lookup_set_field_eq.
  - eexists. split; [done|]. done.
Qed.

Lemma replace_emojis_retouched customEmojis k field updatedStatus :
  plain_emojis customEmojis →
  named_items updatedStatus k = true →
  ∃ out, replace_emojis String_toLowerCase Number_toString Native_call
           customEmojis k field updatedStatus = Ok out
    ∧ (∀ k', k' ≠ k → prop out k' = prop updatedStatus k')
    ∧ retouched_items String_toLowerCase customEmojis field
        (prop updatedStatus k) (prop out k).
Proof.
  intros Hplain. unfold named_items, replace_emojis, retouched_items.
  destruct (prop updatedStatus k) as [| | | | |l| |] eqn:Ek;
    try (intros _; exists updatedStatus; cbn [truthy Array_isArray andb];
         rewrite ?andb_false_r, ?Ek; done).
  intros Hl%named_objects_Forall. cbn [truthy Array_isArray andb].
  destruct (mapM_Forall2 (with_custom_emoji String_toLowerCase Number_toString Native_call
                            customEmojis field) _ _ l
              (fun item => with_custom_emoji_retouched customEmojis field item Hplain) Hl) as (l' & El & Hl').
  unfold array_map. cbn [array_of mbind result_bind]. rewrite El. cbn [mbind result_bind mret result_ret].
  destruct updatedStatus as [| | | | | |fs|]; try done.
  cbn [put prop]. eexists. split; [done|]. split.
  - intros k' Hk'. by apply lookup_set_field_ne.
  - exists l'. split; [apply lookup_set_field_eq|done].
Qed.

Lemma applyCustomEmojis_retouched statusData customEmojis :
  plain_emojis customEmojis →
  JSON_clone statusData = Some statusData →
  named_items statusData "metrics" = true →
  named_items statusData "personal_states" = true →
  ∃ out,
    applyCustomEmojis String_toLowerCase Number_toString Native_call statusData customEmojis = Ok out
    ∧ (∀ k, k ∉ ["mood_emoji"; "metrics"; "personal_states"] → prop out k = prop statusData k)
    ∧ (customEmojis = [] → out = statusData)
    ∧ (customEmojis ≠ [] →
       prop out "mood_emoji"
       = (if truthy (prop statusData "mood_emoji") && truthy (emoji_at customEmojis "mood")
          then emoji_at customEmojis "mood" else prop statusData "mood_emoji")
       ∧ retouched_items String_toLowerCase customEmojis "icon"
           (prop statusData "metrics") (prop out "metrics")
       ∧ retouched_items String_toLowerCase customEmojis "emoji"
           (prop statusData "personal_states") (prop out "personal_states")).
Proof.
  intros Hplain Hjson Hm Hs. unfold applyCustomEmojis.
  destruct customEmojis as [|e0 customEmojis]; [by exists statusData|].
  set (ce := e0 :: customEmojis) in *. cbn [length Nat.eqb orb].
  destruct (truthy statusData) eqn:Ht; cbn [negb].
  2:{ exists statusData. split; [done|]. split; [done|]. split; [done|]. intros _.
      assert (Hp : ∀ k, prop statusData k = JUndef) by (by destruct statusData).
      unfold retouched_items. rewrite !Hp. done. }
  unfold JSON_copy. rewrite Hjson. cbn [mbind result_bind].
  set (s1 := if truthy (prop statusData "mood_emoji") && truthy (emoji_at ce "mood")
             then _ ← ToString Number_toString Native_call (emoji_at ce "mood");
                  put statusData "mood_emoji" (emoji_at ce "mood")
             else Ok statusData).
  assert (H1 : ∃ out1, s1 = Ok out1
            ∧ (∀ k, k ≠ "mood_emoji" → prop out1 k = prop statusData k)
            ∧ prop out1 "mood_emoji"
              = (if truthy (prop statusData "mood_emoji") && truthy (emoji_at ce "mood")
                 then emoji_at ce "mood" else prop statusData "mood_emoji")).
  { unfold s1. destruct (truthy (prop statusData "mood_emoji") && _) eqn:E;
      [|by exists statusData].
    destruct (emoji_at_convertible ce "mood" Hplain) as [s ->]. cbn [mbind result_bind].
    destruct statusData as [| | | | | |fs|]; try done. cbn [put prop].
    eexists. split; [done|]. split; [|apply lookup_set_field_eq].
    intros k Hk. by apply lookup_set_field_ne. }
  destruct H1 as (out1 & -> & Hk1 & Hmood). cbn [mbind result_bind].
  destruct (replace_emojis_retouched ce "metrics" "icon" out1 Hplain)
    as (out2 & -> & Hk2 & Hr2).
  { unfold named_items. by rewrite Hk1. }
  cbn [mbind result_bind].
  destruct (replace_emojis_retouched ce "personal_states" "emoji" out2 Hplain)
    as (out3 & -> & Hk3 & Hr3).
  { unfold named_items. rewrite Hk2, Hk1 by done. done. }
  cbn [mbind result_bind]. exists out3. split; [done|]. split; [|split; [done|]].
  - intros k Hk. set_unfold. rewrite Hk3, Hk2, Hk1 by tauto. done.
  - intros _. split; [|split].
    + rewrite Hk3, Hk2 by done. done.
    + rewrite Hk3 by done. rewrite Hk1 in Hr2 by done. done.
    + rewrite Hk2, Hk1 in Hr3 by done. done.
Qed.

(** The custom emojis, primitive values as the strings that [setCustomEmoji]
    writes, change the emojis of a status and nothing else: the mood emoji
    where the user has one for the mood, and the icon of a metric and the
    emoji of a personal state where the user has one for its name in lower
    case. Every other property, of the status and of the items, is as it was,
    and without custom emojis the status is returned as it is. *)
Theorem custom_emojis_touch_only_the_emojis statusData customEmojis :
  plain_emojis customEmojis →
  JSON_clone statusData = Some statusData →
  named_items statusData "metrics" = true →
  named_items statusData "personal_states" = true →
  ∃ out,
    applyCustomEmojis String_toLowerCase Number_toString Native_call statusData customEmojis = Ok out
    ∧ (∀ k, k ∉ ["mood_emoji"; "metrics"; "personal_states"] → prop out k = prop statusData k)
    ∧ (customEmojis = [] → out = statusData)
    ∧ (customEmojis ≠ [] →
       prop out "mood_emoji"
       = (if truthy (prop statusData "mood_emoji") && truthy (emoji_at customEmojis "mood")
          then emoji_at customEmojis "mood" else prop statusData "mood_emoji")
       ∧ retouched_items String_toLowerCase customEmojis "icon"
           (prop statusData "metrics") (prop out "metrics")
       ∧ retouched_items String_toLowerCase customEmojis "emoji"
           (prop statusData "personal_states") (prop out "personal_states")).
Proof. apply applyCustomEmojis_retouched. Qed.

Variable Date_toISOString : Z → string.

(** An emoji that a user has set for a state shows in the statuses that are
    formatted afterwards: applied with the custom emojis of the profile that
    is read back, which hold primitive values, every metric and every personal
    state whose name in lower case is that of the state carries the emoji. *)
Theorem set_emoji_shows_in_the_next_status
    userId stateName e kvStore createdAt now later statusData kvStore' :
  kv_fails kvStore (KvGet ("profile:" ++ userId)) = false →
  setCustomEmoji String_toLowerCase Date_toISOString userId stateName (Some e) kvStore
    createdAt now = (true, kvStore') →
  emoji_given (Some e) = true →
  String_toLowerCase stateName ≠ "__proto__" →
  plain_emojis (custom_emojis_of (getUserProfile Date_toISOString userId kvStore' later).1) →
  JSON_clone statusData = Some statusData →
  named_items statusData "metrics" = true →
  named_items statusData "personal_states" = true →
  ∃ out,
    applyCustomEmojis String_toLowerCase Number_toString Native_call statusData
      (custom_emojis_of (getUserProfile Date_toISOString userId kvStore' later).1) = Ok out
    ∧ ∀ k field l i item,
        (k, field) ∈ [("metrics", "icon"); ("personal_states", "emoji")] →
        prop statusData k = JArr l → l !! i = Some item →
        lowered_item_name String_toLowerCase item = String_toLowerCase stateName →
        ∃ item', array_or_empty (prop out k) !! i = Some item' ∧ own item' field = JStr e.
Proof.
  intros Hg Hset Hgiven Hproto Hplain Hjson Hm Hs.
  destruct (setCustomEmoji_read_back _ _ _ _ _ _ _ _ later _ Hg Hset) as (Hread & _).
  specialize (Hread Hgiven Hproto). cbn [default] in Hread.
  set (ce := custom_emojis_of _) in *.
  assert (Hat : emoji_at ce (String_toLowerCase stateName) = JStr e).
  { unfold emoji_at. destruct (has_own _ ce) eqn:E; [done|].
    rewrite lookup_field_absent in Hread; [done|].
    intros Hin%has_own_elem_of. congruence. }
  assert (Hne : ce ≠ []) by (intros E; by rewrite E in Hread).
  assert (Ht : truthy (JStr e) = true).
  { unfold emoji_given in Hgiven. apply andb_true_iff in Hgiven as [H1 _]. exact H1. }
  destruct (applyCustomEmojis_retouched statusData ce Hplain Hjson Hm Hs)
    as (out & Hout & _ & _ & Hr).
  destruct (Hr Hne) as (_ & Hr1 & Hr2). exists out. split; [done|].
  intros k field l i item Hk Hl Hi Hname.
  assert (Hitems : retouched_items String_toLowerCase ce field (prop statusData k) (prop out k)).
  { rewrite !elem_of_cons, elem_of_nil in Hk.
    destruct Hk as [[= -> ->] | [[= -> ->] | []]]; done. }
  unfold retouched_items in Hitems. rewrite Hl in Hitems. destruct Hitems as (l' & -> & Hall).
  destruct (Forall2_lookup_l _ _ _ _ _ Hall Hi) as (item' & Hi' & _ & Hfield).
  exists item'. split; [done|]. rewrite Hfield, Hname, Hat, Ht. done.
Qed.

End Emojis.

Lemma custom_emojis_touch_only_the_emojis_witness :
  ∃ out,
    applyCustomEmojis toLowerCase Number_toString_plain Native_call_Object
      status_with_energy [("energy", JStr "⚡")] = Ok out
    ∧ prop out "overall_status" = JStr "Tired but working"
    ∧ retouched_items toLowerCase [("energy", JStr "⚡")] "icon"
        (prop status_with_energy "metrics") (prop out "metrics").
Proof.
  destruct (custom_emojis_touch_only_the_emojis toLowerCase Number_toString_plain
              Native_call_Object status_with_energy
              [("energy", JStr "⚡")] ltac:(repeat constructor) eq_refl eq_refl eq_refl)
    as (out & Hout & Hrest & _ & Hemojis).
  exists out. split; [exact Hout|]. split.
  - rewrite Hrest; [reflexivity|].
    rewrite !elem_of_cons, elem_of_nil. intros [E | [E | [E | []]]]; discriminate E.
  - apply Hemojis. intros E. discriminate E.
Defined.

Lemma set_emoji_shows_in_the_next_status_witness :
  ∃ out,
    applyCustomEmojis toLowerCase Number_toString_plain Native_call_Object status_with_energy
      (custom_emojis_of (getUserProfile Date_toISOString_utc "42" energy_set.2 at_1500).1)
    = Ok out
    ∧ ∃ item', array_or_empty (prop out "metrics") !! 0%nat = Some item'
               ∧ own item' "icon" = JStr "⚡".
Proof.
  assert (H : energy_set.1 = true) by (vm_compute; reflexivity).
  destruct (set_emoji_shows_in_the_next_status toLowerCase Number_toString_plain
              Native_call_Object Date_toISOString_utc
              "42" "Energy" "⚡" (reliable ∅) at_0730 at_1500 at_1500 status_with_energy
              energy_set.2) as (out & Hout & Hitems).
  - reflexivity.
  - rewrite <- H. apply surjective_pairing.
  - vm_compute. reflexivity.
  - vm_compute. intros E. discriminate E.
  - vm_compute. repeat constructor.
  - reflexivity.
  - reflexivity.
  - reflexivity.
  - exists out. split; [exact Hout|].
    eapply (Hitems "metrics" "icon" _ 0%nat (JObj [("name", JStr "Energy"); ("icon", JStr "🔋")])).
    + apply elem_of_cons. left. reflexivity.
    + reflexivity.
    + reflexivity.
    + reflexivity.
Defined.
